(** * A shallow embedding of [static/js/game_core.js]

    The per-frame character controller of the game template: contact
    classification, the climb state machine, the movement integrator, the
    animation state selector and the follow camera.

    JavaScript numbers are idealised as real numbers ([R]): [Math.sqrt],
    [Math.exp], [Math.abs], [Math.max] and [Math.min] become [sqrt], [exp],
    [Rabs], [Rmax] and [Rmin].  Rounding, infinities and NaN are outside the
    model.  A [null] reference is [None]; a call through a [null] reference
    (a JavaScript [TypeError]) makes the enclosing function return [None]. *)

From Stdlib Require Import Reals Lra Psatz List Bool String ZArith.
From stdpp Require Import base option gmap strings.
Import ListNotations.

Open Scope R_scope.

(** ** Numbers *)

Definition Rltb (a b : R) : bool := if Rlt_dec a b then true else false.
Definition Rleb (a b : R) : bool := if Rle_dec a b then true else false.
Definition Rgtb (a b : R) : bool := Rltb b a.
Definition Rgeb (a b : R) : bool := Rleb b a.
Definition Reqb (a b : R) : bool := if Req_dec_T a b then true else false.

(** [THREE.MathUtils.clamp(value, min, max)] is
    [Math.max(min, Math.min(max, value))]. *)
Definition clamp (value lo hi : R) : R := Rmax lo (Rmin hi value).

(** [Math.sign]. *)
Definition sign (a : R) : R :=
  if Rltb 0 a then 1 else if Rltb a 0 then -1 else 0.

(** [Math.atan2(y, x)], from the arc tangent of the library. *)
Definition atan2 (y x : R) : R :=
  if Rltb 0 x then atan (y / x)
  else if Rltb x 0 then (if Rleb 0 y then atan (y / x) + PI else atan (y / x) - PI)
  else if Rltb 0 y then PI / 2
  else if Rltb y 0 then - (PI / 2)
  else 0.

(** ** [THREE.Vector3] and [THREE.Quaternion]

    The methods of three.js the controller calls.  JavaScript mutates the
    receiver; here every method returns the new vector, and [clone] is the
    identity. *)

Record Vector3 : Type := vec3 { x : R; y : R; z : R }.

Record Quaternion : Type := quat { qx : R; qy : R; qz : R; qw : R }.

Module V3.

Definition zero : Vector3 := vec3 0 0 0.

Definition add (a b : Vector3) : Vector3 :=
  vec3 (x a + x b) (y a + y b) (z a + z b).

Definition sub (a b : Vector3) : Vector3 :=
  vec3 (x a - x b) (y a - y b) (z a - z b).

Definition multiplyScalar (a : Vector3) (s : R) : Vector3 :=
  vec3 (x a * s) (y a * s) (z a * s).

Definition addScaledVector (a v : Vector3) (s : R) : Vector3 :=
  vec3 (x a + x v * s) (y a + y v * s) (z a + z v * s).

Definition dot (a b : Vector3) : R :=
  x a * x b + y a * y b + z a * z b.

Definition lengthSq (a : Vector3) : R :=
  x a * x a + y a * y a + z a * z a.

Definition length (a : Vector3) : R := sqrt (lengthSq a).

Definition setY (a : Vector3) (v : R) : Vector3 := vec3 (x a) v (z a).

(** [divideScalar(this.length() || 1)]: a zero length divides by one. *)
Definition normalize (a : Vector3) : Vector3 :=
  let l := length a in
  multiplyScalar a (1 / (if Reqb l 0 then 1 else l)).

(** [v + q.w * t + cross(q.xyz, t)] with [t = 2 * cross(q.xyz, v)]. *)
Definition applyQuaternion (v : Vector3) (q : Quaternion) : Vector3 :=
  let tx := 2 * (qy q * z v - qz q * y v) in
  let ty := 2 * (qz q * x v - qx q * z v) in
  let tz := 2 * (qx q * y v - qy q * x v) in
  vec3 (x v + qw q * tx + qy q * tz - qz q * ty)
       (y v + qw q * ty + qz q * tx - qx q * tz)
       (z v + qw q * tz + qx q * ty - qy q * tx).

(** [this += (v - this) * alpha]. *)
Definition lerp (a v : Vector3) (alpha : R) : Vector3 :=
  vec3 (x a + (x v - x a) * alpha)
       (y a + (y v - y a) * alpha)
       (z a + (z v - z a) * alpha).

End V3.

Module Quat.

(** [setFromAxisAngle(axis, angle)], the axis being of unit length. *)
Definition setFromAxisAngle (axis : Vector3) (angle : R) : Quaternion :=
  let s := sin (angle / 2) in
  quat (x axis * s) (y axis * s) (z axis * s) (cos (angle / 2)).

(** [a.multiply(b)]. *)
Definition multiply (a b : Quaternion) : Quaternion :=
  quat (qx a * qw b + qw a * qx b + qy a * qz b - qz a * qy b)
       (qy a * qw b + qw a * qy b + qz a * qx b - qx a * qz b)
       (qz a * qw b + qw a * qz b + qx a * qy b - qy a * qx b)
       (qw a * qw b - qx a * qx b - qy a * qy b - qz a * qz b).

End Quat.

(** ** The physics engine, as the controller sees it

    Ammo.js is an external collaborator.  A rigid body carries its world
    transform, the transform of its motion state, its linear velocity, its
    friction and its activation flag; the collision dispatcher exposes the
    contact manifolds of the last simulation step; the world answers ray
    tests. *)

Record Transform : Type := mkTransform {
  origin : Vector3;
  rotation : Quaternion
}.

Record Body : Type := mkBody {
  worldTransform : Transform;
  motionState : Transform;
  linearVelocity : Vector3;
  friction : R;
  active : bool
}.

Definition setLinearVelocity (v : Vector3) (b : Body) : Body :=
  mkBody (worldTransform b) (motionState b) v (friction b) (active b).

Definition setFriction (f : R) (b : Body) : Body :=
  mkBody (worldTransform b) (motionState b) (linearVelocity b) f (active b).

Definition activate (b : Body) : Body :=
  mkBody (worldTransform b) (motionState b) (linearVelocity b) (friction b) true.

Definition setWorldTransform (t : Transform) (b : Body) : Body :=
  mkBody t (motionState b) (linearVelocity b) (friction b) (active b).

(** A contact point of a manifold: [getDistance()], [m_normalWorldOnB],
    [m_positionWorldOnA] and [m_positionWorldOnB]. *)
Record ContactPoint : Type := mkContact {
  getDistance : R;
  normalWorldOnB : Vector3;
  positionWorldOnA : Vector3;
  positionWorldOnB : Vector3
}.

(** A manifold: the pointers of its two bodies ([Ammo.getPointer]) and its
    contact points. *)
Record Manifold : Type := mkManifold {
  ptr0 : Z;
  ptr1 : Z;
  contactPoints : list ContactPoint
}.

Definition Dispatcher : Type := list Manifold.

(** [rayTest start end] is [cb.hasHit()] after
    [physicsWorld.rayTest(start, end, cb)]. *)
Record PhysicsWorld : Type := mkWorld {
  rayTest : Vector3 -> Vector3 -> bool
}.

(** What one call of [physicsWorld.stepSimulation(dt, 1)] does to the objects
    the controller reads afterwards.  The engine is not modelled: every frame
    is given the outcome of its step, and the theorems hold for all of them. *)
Record EngineStep : Type := mkEngineStep {
  steppedWorld : PhysicsWorld;
  steppedManifolds : list Manifold;
  steppedBody : Body -> Body
}.

(** ** The scene layer *)

Record Camera : Type := mkCamera {
  position : Vector3;
  lookAtTarget : Vector3
}.

(** The four animation states, the keys of [state.playerActions]. *)
Inductive AnimName : Type := idle | move | in_air | climb.

Definition AnimName_eqb (a b : AnimName) : bool :=
  match a, b with
  | idle, idle | move, move | in_air, in_air | climb, climb => true
  | _, _ => false
  end.

(** Calls that leave the controller: into the engine, the animation mixer
    and the renderer.  They are recorded, most recent first, in the [effects]
    field of the state, which the JavaScript object does not have. *)
Inductive Effect : Type :=
  | StepSimulation (dt : R)
  | SyncVisuals
  | MixerUpdate (dt : R)
  | Render
  | ActionPlay (name : AnimName)
  | ActionCrossFade (from to : AnimName) (seconds : R)
  | ActionStop (name : AnimName)
  | MoveClipDirection (dir : R).

(** ** CONFIG

    The tunables the modelled functions read. *)
Record Config : Type := mkConfig {
  FADE_SECONDS : R;
  GROUND_PLANE_Y : R;
  PLAYER_RADIUS : R;
  PLAYER_HEIGHT : R;
  PLAYER_MOVE_MIDAIR : bool;
  PLAYER_MID_AIR_DAMPEN : R;
  PLAYER_JUMP_IMPULSE : R;
  PLAYER_MAX_SPEED : R;
  PLAYER_ACCEL : R;
  PLAYER_BRAKE : R;
  PLAYER_AIR_ACCEL : R;
  PLAYER_AIR_BRAKE : R;
  PLAYER_SIDE_DAMP_GROUND : R;
  PLAYER_SIDE_DAMP_AIR : R;
  PLAYER_USE_STRAFE_DAMP : bool;
  PLAYER_DEFAULT_FRICTION : R;
  TURN_SPEED : R;
  WALL_SLIDE_FRICTION : R;
  WALL_SLIDE_MAX_FALL_SPEED : R;
  WALL_NORMAL_MAX_Y : R;
  GROUND_NORMAL_MIN_Y : R;
  GROUND_BAND_FRACTION : R;
  WALL_CLIMB_SPEED : R;
  WALL_CLIMB_STICK_SPEED : R;
  WALL_CLIMB_MIN_NORMAL : R;
  WALL_CLIMB_EXIT_COOLDOWN : R;
  CLIMB_ANIM_GRACE_SECONDS : R;
  ANIM_AIR_MIN_TIME : R;
  MOVE_SPEED_THRESHOLD : R;
  CAMERA_MIN_DISTANCE : R;
  CAMERA_MAX_DISTANCE : R;
  CAMERA_VERTICAL_OFFSET : R;
  CAMERA_DEFAULT_PITCH : R;
  CAMERA_MIN_PITCH : R;
  CAMERA_MAX_PITCH : R;
  CAMERA_BELOW_PLAYER_ENABLE_HEIGHT : R;
  CAMERA_MIN_PITCH_BELOW : R;
  MOUSE_YAW_SENSITIVITY : R;
  MOUSE_PITCH_SENSITIVITY : R
}.

(** The defaults of the configuration reference (GameCoreConfigsDoc). *)
Definition defaultConfig : Config := {|
  FADE_SECONDS := 0.15;
  GROUND_PLANE_Y := 0;
  PLAYER_RADIUS := 2;
  PLAYER_HEIGHT := 8;
  PLAYER_MOVE_MIDAIR := true;
  PLAYER_MID_AIR_DAMPEN := 0.5;
  PLAYER_JUMP_IMPULSE := 25;
  PLAYER_MAX_SPEED := 15.0;
  PLAYER_ACCEL := 55.0;
  PLAYER_BRAKE := 75.0;
  PLAYER_AIR_ACCEL := 18.0;
  PLAYER_AIR_BRAKE := 8.0;
  PLAYER_SIDE_DAMP_GROUND := 18.0;
  PLAYER_SIDE_DAMP_AIR := 2.0;
  PLAYER_USE_STRAFE_DAMP := true;
  PLAYER_DEFAULT_FRICTION := 2.5;
  TURN_SPEED := 3;
  WALL_SLIDE_FRICTION := 0.15;
  WALL_SLIDE_MAX_FALL_SPEED := -8.0;
  WALL_NORMAL_MAX_Y := 0.30;
  GROUND_NORMAL_MIN_Y := 0.10;
  GROUND_BAND_FRACTION := 0.10;
  WALL_CLIMB_SPEED := 9.5;
  WALL_CLIMB_STICK_SPEED := 3.0;
  WALL_CLIMB_MIN_NORMAL := 0.5;
  WALL_CLIMB_EXIT_COOLDOWN := 0.3;
  CLIMB_ANIM_GRACE_SECONDS := 1.0;
  ANIM_AIR_MIN_TIME := 0.10;
  MOVE_SPEED_THRESHOLD := 0.6;
  CAMERA_MIN_DISTANCE := 20;
  CAMERA_MAX_DISTANCE := 40;
  CAMERA_VERTICAL_OFFSET := 20;
  CAMERA_DEFAULT_PITCH := 0.55;
  CAMERA_MIN_PITCH := 0.15;
  CAMERA_MAX_PITCH := 1.20;
  CAMERA_BELOW_PLAYER_ENABLE_HEIGHT := 18;
  CAMERA_MIN_PITCH_BELOW := -0.65;
  MOUSE_YAW_SENSITIVITY := 0.0025;
  MOUSE_PITCH_SENSITIVITY := 0.0020
|}.

(** ** The game state, [createGameState]

    The fields of the state object the per-frame pipeline reads or writes.
    [renderer] and [playerMixer] only record whether the object exists;
    [playerActions name] tells whether a clip action was loaded for [name],
    and an action is identified by its name. *)

Record State : Type := mkState {
  camera : option Camera;
  renderer : bool;
  physicsWorld : option PhysicsWorld;
  dispatcher : option Dispatcher;
  keys : gmap string bool;
  spaceWasDown : bool;
  Player : option Body;
  playerPtr : Z;
  playerMixer : bool;
  playerActions : AnimName -> bool;
  playerCurrentAction : option AnimName;
  playerCurrentState : AnimName;
  playerGrounded : bool;
  playerOnWall : bool;
  playerWallNormal : Vector3;
  playerClimbing : bool;
  climbExitTimer : R;
  climbAnimGrace : R;
  animInAir : bool;
  animAirTimer : R;
  pointerLocked : bool;
  cameraYawInitialized : bool;
  cameraYaw : R;
  cameraPitch : R;
  cameraDistance : R;
  playerHeightAboveGround : R;
  lastMoveAxis : R;
  moveAnimDir : R;
  effects : list Effect
}.

(** Field assignment, [state.f = v]. *)
Definition set_camera (v : option Camera) (s : State) : State :=
  mkState
    v (renderer s) (physicsWorld s) (dispatcher s) (keys s) (spaceWasDown s)
    (Player s) (playerPtr s) (playerMixer s) (playerActions s)
    (playerCurrentAction s) (playerCurrentState s) (playerGrounded s)
    (playerOnWall s) (playerWallNormal s) (playerClimbing s)
    (climbExitTimer s) (climbAnimGrace s) (animInAir s) (animAirTimer s)
    (pointerLocked s) (cameraYawInitialized s) (cameraYaw s) (cameraPitch s)
    (cameraDistance s) (playerHeightAboveGround s) (lastMoveAxis s)
    (moveAnimDir s) (effects s).

Definition set_physicsWorld (v : option PhysicsWorld) (s : State) : State :=
  mkState
    (camera s) (renderer s) v (dispatcher s) (keys s) (spaceWasDown s)
    (Player s) (playerPtr s) (playerMixer s) (playerActions s)
    (playerCurrentAction s) (playerCurrentState s) (playerGrounded s)
    (playerOnWall s) (playerWallNormal s) (playerClimbing s)
    (climbExitTimer s) (climbAnimGrace s) (animInAir s) (animAirTimer s)
    (pointerLocked s) (cameraYawInitialized s) (cameraYaw s) (cameraPitch s)
    (cameraDistance s) (playerHeightAboveGround s) (lastMoveAxis s)
    (moveAnimDir s) (effects s).

Definition set_dispatcher (v : option Dispatcher) (s : State) : State :=
  mkState
    (camera s) (renderer s) (physicsWorld s) v (keys s) (spaceWasDown s)
    (Player s) (playerPtr s) (playerMixer s) (playerActions s)
    (playerCurrentAction s) (playerCurrentState s) (playerGrounded s)
    (playerOnWall s) (playerWallNormal s) (playerClimbing s)
    (climbExitTimer s) (climbAnimGrace s) (animInAir s) (animAirTimer s)
    (pointerLocked s) (cameraYawInitialized s) (cameraYaw s) (cameraPitch s)
    (cameraDistance s) (playerHeightAboveGround s) (lastMoveAxis s)
    (moveAnimDir s) (effects s).

Definition set_keys (v : gmap string bool) (s : State) : State :=
  mkState
    (camera s) (renderer s) (physicsWorld s) (dispatcher s) v
    (spaceWasDown s) (Player s) (playerPtr s) (playerMixer s)
    (playerActions s) (playerCurrentAction s) (playerCurrentState s)
    (playerGrounded s) (playerOnWall s) (playerWallNormal s)
    (playerClimbing s) (climbExitTimer s) (climbAnimGrace s) (animInAir s)
    (animAirTimer s) (pointerLocked s) (cameraYawInitialized s) (cameraYaw s)
    (cameraPitch s) (cameraDistance s) (playerHeightAboveGround s)
    (lastMoveAxis s) (moveAnimDir s) (effects s).

Definition set_spaceWasDown (v : bool) (s : State) : State :=
  mkState
    (camera s) (renderer s) (physicsWorld s) (dispatcher s) (keys s) v
    (Player s) (playerPtr s) (playerMixer s) (playerActions s)
    (playerCurrentAction s) (playerCurrentState s) (playerGrounded s)
    (playerOnWall s) (playerWallNormal s) (playerClimbing s)
    (climbExitTimer s) (climbAnimGrace s) (animInAir s) (animAirTimer s)
    (pointerLocked s) (cameraYawInitialized s) (cameraYaw s) (cameraPitch s)
    (cameraDistance s) (playerHeightAboveGround s) (lastMoveAxis s)
    (moveAnimDir s) (effects s).

Definition set_Player (v : option Body) (s : State) : State :=
  mkState
    (camera s) (renderer s) (physicsWorld s) (dispatcher s) (keys s)
    (spaceWasDown s) v (playerPtr s) (playerMixer s) (playerActions s)
    (playerCurrentAction s) (playerCurrentState s) (playerGrounded s)
    (playerOnWall s) (playerWallNormal s) (playerClimbing s)
    (climbExitTimer s) (climbAnimGrace s) (animInAir s) (animAirTimer s)
    (pointerLocked s) (cameraYawInitialized s) (cameraYaw s) (cameraPitch s)
    (cameraDistance s) (playerHeightAboveGround s) (lastMoveAxis s)
    (moveAnimDir s) (effects s).

Definition set_playerCurrentAction (v : option AnimName) (s : State) : State :=
  mkState
    (camera s) (renderer s) (physicsWorld s) (dispatcher s) (keys s)
    (spaceWasDown s) (Player s) (playerPtr s) (playerMixer s)
    (playerActions s) v (playerCurrentState s) (playerGrounded s)
    (playerOnWall s) (playerWallNormal s) (playerClimbing s)
    (climbExitTimer s) (climbAnimGrace s) (animInAir s) (animAirTimer s)
    (pointerLocked s) (cameraYawInitialized s) (cameraYaw s) (cameraPitch s)
    (cameraDistance s) (playerHeightAboveGround s) (lastMoveAxis s)
    (moveAnimDir s) (effects s).

Definition set_playerCurrentState (v : AnimName) (s : State) : State :=
  mkState
    (camera s) (renderer s) (physicsWorld s) (dispatcher s) (keys s)
    (spaceWasDown s) (Player s) (playerPtr s) (playerMixer s)
    (playerActions s) (playerCurrentAction s) v (playerGrounded s)
    (playerOnWall s) (playerWallNormal s) (playerClimbing s)
    (climbExitTimer s) (climbAnimGrace s) (animInAir s) (animAirTimer s)
    (pointerLocked s) (cameraYawInitialized s) (cameraYaw s) (cameraPitch s)
    (cameraDistance s) (playerHeightAboveGround s) (lastMoveAxis s)
    (moveAnimDir s) (effects s).

Definition set_playerGrounded (v : bool) (s : State) : State :=
  mkState
    (camera s) (renderer s) (physicsWorld s) (dispatcher s) (keys s)
    (spaceWasDown s) (Player s) (playerPtr s) (playerMixer s)
    (playerActions s) (playerCurrentAction s) (playerCurrentState s) v
    (playerOnWall s) (playerWallNormal s) (playerClimbing s)
    (climbExitTimer s) (climbAnimGrace s) (animInAir s) (animAirTimer s)
    (pointerLocked s) (cameraYawInitialized s) (cameraYaw s) (cameraPitch s)
    (cameraDistance s) (playerHeightAboveGround s) (lastMoveAxis s)
    (moveAnimDir s) (effects s).

Definition set_playerOnWall (v : bool) (s : State) : State :=
  mkState
    (camera s) (renderer s) (physicsWorld s) (dispatcher s) (keys s)
    (spaceWasDown s) (Player s) (playerPtr s) (playerMixer s)
    (playerActions s) (playerCurrentAction s) (playerCurrentState s)
    (playerGrounded s) v (playerWallNormal s) (playerClimbing s)
    (climbExitTimer s) (climbAnimGrace s) (animInAir s) (animAirTimer s)
    (pointerLocked s) (cameraYawInitialized s) (cameraYaw s) (cameraPitch s)
    (cameraDistance s) (playerHeightAboveGround s) (lastMoveAxis s)
    (moveAnimDir s) (effects s).

Definition set_playerWallNormal (v : Vector3) (s : State) : State :=
  mkState
    (camera s) (renderer s) (physicsWorld s) (dispatcher s) (keys s)
    (spaceWasDown s) (Player s) (playerPtr s) (playerMixer s)
    (playerActions s) (playerCurrentAction s) (playerCurrentState s)
    (playerGrounded s) (playerOnWall s) v (playerClimbing s)
    (climbExitTimer s) (climbAnimGrace s) (animInAir s) (animAirTimer s)
    (pointerLocked s) (cameraYawInitialized s) (cameraYaw s) (cameraPitch s)
    (cameraDistance s) (playerHeightAboveGround s) (lastMoveAxis s)
    (moveAnimDir s) (effects s).

Definition set_playerClimbing (v : bool) (s : State) : State :=
  mkState
    (camera s) (renderer s) (physicsWorld s) (dispatcher s) (keys s)
    (spaceWasDown s) (Player s) (playerPtr s) (playerMixer s)
    (playerActions s) (playerCurrentAction s) (playerCurrentState s)
    (playerGrounded s) (playerOnWall s) (playerWallNormal s) v
    (climbExitTimer s) (climbAnimGrace s) (animInAir s) (animAirTimer s)
    (pointerLocked s) (cameraYawInitialized s) (cameraYaw s) (cameraPitch s)
    (cameraDistance s) (playerHeightAboveGround s) (lastMoveAxis s)
    (moveAnimDir s) (effects s).

Definition set_climbExitTimer (v : R) (s : State) : State :=
  mkState
    (camera s) (renderer s) (physicsWorld s) (dispatcher s) (keys s)
    (spaceWasDown s) (Player s) (playerPtr s) (playerMixer s)
    (playerActions s) (playerCurrentAction s) (playerCurrentState s)
    (playerGrounded s) (playerOnWall s) (playerWallNormal s)
    (playerClimbing s) v (climbAnimGrace s) (animInAir s) (animAirTimer s)
    (pointerLocked s) (cameraYawInitialized s) (cameraYaw s) (cameraPitch s)
    (cameraDistance s) (playerHeightAboveGround s) (lastMoveAxis s)
    (moveAnimDir s) (effects s).

Definition set_climbAnimGrace (v : R) (s : State) : State :=
  mkState
    (camera s) (renderer s) (physicsWorld s) (dispatcher s) (keys s)
    (spaceWasDown s) (Player s) (playerPtr s) (playerMixer s)
    (playerActions s) (playerCurrentAction s) (playerCurrentState s)
    (playerGrounded s) (playerOnWall s) (playerWallNormal s)
    (playerClimbing s) (climbExitTimer s) v (animInAir s) (animAirTimer s)
    (pointerLocked s) (cameraYawInitialized s) (cameraYaw s) (cameraPitch s)
    (cameraDistance s) (playerHeightAboveGround s) (lastMoveAxis s)
    (moveAnimDir s) (effects s).

Definition set_animInAir (v : bool) (s : State) : State :=
  mkState
    (camera s) (renderer s) (physicsWorld s) (dispatcher s) (keys s)
    (spaceWasDown s) (Player s) (playerPtr s) (playerMixer s)
    (playerActions s) (playerCurrentAction s) (playerCurrentState s)
    (playerGrounded s) (playerOnWall s) (playerWallNormal s)
    (playerClimbing s) (climbExitTimer s) (climbAnimGrace s) v
    (animAirTimer s) (pointerLocked s) (cameraYawInitialized s) (cameraYaw s)
    (cameraPitch s) (cameraDistance s) (playerHeightAboveGround s)
    (lastMoveAxis s) (moveAnimDir s) (effects s).

Definition set_animAirTimer (v : R) (s : State) : State :=
  mkState
    (camera s) (renderer s) (physicsWorld s) (dispatcher s) (keys s)
    (spaceWasDown s) (Player s) (playerPtr s) (playerMixer s)
    (playerActions s) (playerCurrentAction s) (playerCurrentState s)
    (playerGrounded s) (playerOnWall s) (playerWallNormal s)
    (playerClimbing s) (climbExitTimer s) (climbAnimGrace s) (animInAir s) v
    (pointerLocked s) (cameraYawInitialized s) (cameraYaw s) (cameraPitch s)
    (cameraDistance s) (playerHeightAboveGround s) (lastMoveAxis s)
    (moveAnimDir s) (effects s).

Definition set_pointerLocked (v : bool) (s : State) : State :=
  mkState
    (camera s) (renderer s) (physicsWorld s) (dispatcher s) (keys s)
    (spaceWasDown s) (Player s) (playerPtr s) (playerMixer s)
    (playerActions s) (playerCurrentAction s) (playerCurrentState s)
    (playerGrounded s) (playerOnWall s) (playerWallNormal s)
    (playerClimbing s) (climbExitTimer s) (climbAnimGrace s) (animInAir s)
    (animAirTimer s) v (cameraYawInitialized s) (cameraYaw s) (cameraPitch s)
    (cameraDistance s) (playerHeightAboveGround s) (lastMoveAxis s)
    (moveAnimDir s) (effects s).

Definition set_cameraYawInitialized (v : bool) (s : State) : State :=
  mkState
    (camera s) (renderer s) (physicsWorld s) (dispatcher s) (keys s)
    (spaceWasDown s) (Player s) (playerPtr s) (playerMixer s)
    (playerActions s) (playerCurrentAction s) (playerCurrentState s)
    (playerGrounded s) (playerOnWall s) (playerWallNormal s)
    (playerClimbing s) (climbExitTimer s) (climbAnimGrace s) (animInAir s)
    (animAirTimer s) (pointerLocked s) v (cameraYaw s) (cameraPitch s)
    (cameraDistance s) (playerHeightAboveGround s) (lastMoveAxis s)
    (moveAnimDir s) (effects s).

Definition set_cameraYaw (v : R) (s : State) : State :=
  mkState
    (camera s) (renderer s) (physicsWorld s) (dispatcher s) (keys s)
    (spaceWasDown s) (Player s) (playerPtr s) (playerMixer s)
    (playerActions s) (playerCurrentAction s) (playerCurrentState s)
    (playerGrounded s) (playerOnWall s) (playerWallNormal s)
    (playerClimbing s) (climbExitTimer s) (climbAnimGrace s) (animInAir s)
    (animAirTimer s) (pointerLocked s) (cameraYawInitialized s) v
    (cameraPitch s) (cameraDistance s) (playerHeightAboveGround s)
    (lastMoveAxis s) (moveAnimDir s) (effects s).

Definition set_cameraPitch (v : R) (s : State) : State :=
  mkState
    (camera s) (renderer s) (physicsWorld s) (dispatcher s) (keys s)
    (spaceWasDown s) (Player s) (playerPtr s) (playerMixer s)
    (playerActions s) (playerCurrentAction s) (playerCurrentState s)
    (playerGrounded s) (playerOnWall s) (playerWallNormal s)
    (playerClimbing s) (climbExitTimer s) (climbAnimGrace s) (animInAir s)
    (animAirTimer s) (pointerLocked s) (cameraYawInitialized s) (cameraYaw s)
    v (cameraDistance s) (playerHeightAboveGround s) (lastMoveAxis s)
    (moveAnimDir s) (effects s).

Definition set_cameraDistance (v : R) (s : State) : State :=
  mkState
    (camera s) (renderer s) (physicsWorld s) (dispatcher s) (keys s)
    (spaceWasDown s) (Player s) (playerPtr s) (playerMixer s)
    (playerActions s) (playerCurrentAction s) (playerCurrentState s)
    (playerGrounded s) (playerOnWall s) (playerWallNormal s)
    (playerClimbing s) (climbExitTimer s) (climbAnimGrace s) (animInAir s)
    (animAirTimer s) (pointerLocked s) (cameraYawInitialized s) (cameraYaw s)
    (cameraPitch s) v (playerHeightAboveGround s) (lastMoveAxis s)
    (moveAnimDir s) (effects s).

Definition set_playerHeightAboveGround (v : R) (s : State) : State :=
  mkState
    (camera s) (renderer s) (physicsWorld s) (dispatcher s) (keys s)
    (spaceWasDown s) (Player s) (playerPtr s) (playerMixer s)
    (playerActions s) (playerCurrentAction s) (playerCurrentState s)
    (playerGrounded s) (playerOnWall s) (playerWallNormal s)
    (playerClimbing s) (climbExitTimer s) (climbAnimGrace s) (animInAir s)
    (animAirTimer s) (pointerLocked s) (cameraYawInitialized s) (cameraYaw s)
    (cameraPitch s) (cameraDistance s) v (lastMoveAxis s) (moveAnimDir s)
    (effects s).

Definition set_lastMoveAxis (v : R) (s : State) : State :=
  mkState
    (camera s) (renderer s) (physicsWorld s) (dispatcher s) (keys s)
    (spaceWasDown s) (Player s) (playerPtr s) (playerMixer s)
    (playerActions s) (playerCurrentAction s) (playerCurrentState s)
    (playerGrounded s) (playerOnWall s) (playerWallNormal s)
    (playerClimbing s) (climbExitTimer s) (climbAnimGrace s) (animInAir s)
    (animAirTimer s) (pointerLocked s) (cameraYawInitialized s) (cameraYaw s)
    (cameraPitch s) (cameraDistance s) (playerHeightAboveGround s) v
    (moveAnimDir s) (effects s).

Definition set_moveAnimDir (v : R) (s : State) : State :=
  mkState
    (camera s) (renderer s) (physicsWorld s) (dispatcher s) (keys s)
    (spaceWasDown s) (Player s) (playerPtr s) (playerMixer s)
    (playerActions s) (playerCurrentAction s) (playerCurrentState s)
    (playerGrounded s) (playerOnWall s) (playerWallNormal s)
    (playerClimbing s) (climbExitTimer s) (climbAnimGrace s) (animInAir s)
    (animAirTimer s) (pointerLocked s) (cameraYawInitialized s) (cameraYaw s)
    (cameraPitch s) (cameraDistance s) (playerHeightAboveGround s)
    (lastMoveAxis s) v (effects s).

Definition set_effects (v : list Effect) (s : State) : State :=
  mkState
    (camera s) (renderer s) (physicsWorld s) (dispatcher s) (keys s)
    (spaceWasDown s) (Player s) (playerPtr s) (playerMixer s)
    (playerActions s) (playerCurrentAction s) (playerCurrentState s)
    (playerGrounded s) (playerOnWall s) (playerWallNormal s)
    (playerClimbing s) (climbExitTimer s) (climbAnimGrace s) (animInAir s)
    (animAirTimer s) (pointerLocked s) (cameraYawInitialized s) (cameraYaw s)
    (cameraPitch s) (cameraDistance s) (playerHeightAboveGround s)
    (lastMoveAxis s) (moveAnimDir s) v.
Definition log (e : Effect) (s : State) : State :=
  set_effects (e :: effects s) s.

Definition createGameState : State := {|
  camera := None;
  renderer := false;
  physicsWorld := None;
  dispatcher := None;
  keys := ∅;
  spaceWasDown := false;
  Player := None;
  playerPtr := 0%Z;
  playerMixer := false;
  playerActions := fun _ => false;
  playerCurrentAction := None;
  playerCurrentState := idle;
  playerGrounded := false;
  playerOnWall := false;
  playerWallNormal := vec3 0 0 0;
  playerClimbing := false;
  climbExitTimer := 0;
  climbAnimGrace := 0;
  animInAir := false;
  animAirTimer := 0;
  pointerLocked := false;
  cameraYawInitialized := false;
  cameraYaw := 0;
  cameraPitch := 0;
  cameraDistance := 30;
  playerHeightAboveGround := 0;
  lastMoveAxis := 0;
  moveAnimDir := 1;
  effects := []
|}.

(** ** Faults

    A function that dereferences a reference returns [None] when the
    reference is [null]; the rest of the function is then not run. *)

Notation "'let?' x ':=' e 'in' k" :=
  (match e with Some x => k | None => None end)
  (at level 10, x name, e at level 100, k at level 200, only parsing).

Notation "'let?' ' p ':=' e 'in' k" :=
  (match e with Some p => k | None => None end)
  (at level 10, p pattern, e at level 100, k at level 200, only parsing).

(** ** Input + movement *)

(** [state.keys[code]] read as a condition: a key never pressed is
    [undefined], which is falsy. *)
Definition keyDown (s : State) (code : string) : bool :=
  default false (keys s !! code).

(** The listeners of [bindKeys]. *)
Definition onKeyDown (code : string) (s : State) : State :=
  set_keys (<[code := true]> (keys s)) s.

Definition onKeyUp (code : string) (s : State) : State :=
  set_keys (<[code := false]> (keys s)) s.

Definition isGroundedRay (cfg : Config) (s : State) (threshold : R)
  : option bool :=
  let? p := Player s in
  let o := origin (motionState p) in
  let rayStart :=
    vec3 (x o) (y o - PLAYER_HEIGHT cfg / 2 + PLAYER_RADIUS cfg - 0.1) (z o) in
  let rayEnd := V3.add rayStart (vec3 0 (- threshold) 0) in
  let? w := physicsWorld s in
  Some (rayTest w rayStart rayEnd).

(** [state.playerGrounded || isGroundedRay(state, CONFIG, 2)]: the ray is
    only cast when the contact flag is off. *)
Definition isGrounded (cfg : Config) (s : State) : option bool :=
  if playerGrounded s then Some true else isGroundedRay cfg s 2.

Definition jump (cfg : Config) (s : State) : option State :=
  let? p := Player s in
  let lv := linearVelocity p in
  let p1 := setLinearVelocity (vec3 (x lv) (PLAYER_JUMP_IMPULSE cfg) (z lv)) p in
  Some (set_Player (Some (activate p1)) s).

Definition applyWallClimb (cfg : Config) (s : State) : option State :=
  let stick :=
    V3.multiplyScalar (playerWallNormal s) (- WALL_CLIMB_STICK_SPEED cfg) in
  let? p := Player s in
  let p1 := setFriction (WALL_SLIDE_FRICTION cfg) p in
  let p2 := setLinearVelocity (vec3 (x stick) (WALL_CLIMB_SPEED cfg) (z stick)) p1 in
  Some (set_Player (Some (activate p2)) s).

Definition wallJumpOff (cfg : Config) (s : State) : option State :=
  let away := V3.multiplyScalar (playerWallNormal s) 8.0 in
  let? p := Player s in
  let p1 := setLinearVelocity (vec3 (x away) (PLAYER_JUMP_IMPULSE cfg) (z away)) p in
  let s1 := set_Player (Some (activate p1)) s in
  let s2 := set_playerClimbing false s1 in
  let s3 := set_climbAnimGrace 0 s2 in
  Some (set_climbExitTimer (WALL_CLIMB_EXIT_COOLDOWN cfg) s3).

Definition getPlayerBasis (s : State) : option (Vector3 * Vector3) :=
  let? p := Player s in
  let q := rotation (worldTransform p) in
  let forward := V3.normalize (V3.applyQuaternion (vec3 0 0 1) q) in
  let right := V3.normalize (V3.applyQuaternion (vec3 1 0 0) q) in
  Some (forward, right).

(** *** The stages of [applyCharacterMovement] *)

(** Wall slide constraints on the desired velocity. *)
Definition wallSlideRedirect (wallSliding : bool) (n desired : Vector3)
  : Vector3 :=
  if wallSliding && Rgtb (V3.lengthSq n) 1e-6 then
    let into := V3.dot desired n in
    if Rgtb into 0 then V3.addScaledVector desired n (- into) else desired
  else desired.

(** The step from [current] toward [target], of length at most [maxDelta]. *)
Definition moveToward (current target : Vector3) (maxDelta : R) : Vector3 :=
  let delta := V3.sub target current in
  let deltaLen := V3.length delta in
  let delta1 :=
    if Rgtb deltaLen maxDelta && Rgtb deltaLen 1e-6
    then V3.multiplyScalar delta (maxDelta / deltaLen)
    else delta in
  V3.add current delta1.

(** Strafe damp. *)
Definition strafeDamp (cfg : Config) (grounded : bool)
    (forward right : Vector3) (dt : R) (newVel : Vector3) : Vector3 :=
  if PLAYER_USE_STRAFE_DAMP cfg then
    let sideDamp :=
      if grounded then PLAYER_SIDE_DAMP_GROUND cfg
      else PLAYER_SIDE_DAMP_AIR cfg in
    let f := V3.normalize (V3.setY forward 0) in
    let r := V3.normalize (V3.setY right 0) in
    let fSpd := V3.dot newVel f in
    let rSpd := V3.dot newVel r in
    let rKeep := exp (- sideDamp * dt) in
    let rSpdDamped := rSpd * rKeep in
    V3.add (V3.multiplyScalar f fSpd) (V3.multiplyScalar r rSpdDamped)
  else newVel.

(** The clamp of the speed to [PLAYER_MAX_SPEED]. *)
Definition clampSpeed (cfg : Config) (newVel : Vector3) : Vector3 :=
  let spd := V3.length newVel in
  if Rgtb spd (PLAYER_MAX_SPEED cfg)
  then V3.multiplyScalar newVel (PLAYER_MAX_SPEED cfg / spd)
  else newVel.

(** The last block: the fall speed cap and the second strip while wall
    sliding, and the friction.  Returns [(vy, newVel, friction)]. *)
Definition wallSlideCap (cfg : Config) (wallSliding : bool) (n : Vector3)
    (vy0 : R) (newVel : Vector3) : R * Vector3 * R :=
  if wallSliding && Rgtb (V3.lengthSq n) 1e-6 then
    let vy :=
      if Rltb vy0 (WALL_SLIDE_MAX_FALL_SPEED cfg)
      then WALL_SLIDE_MAX_FALL_SPEED cfg else vy0 in
    let into2 := V3.dot newVel n in
    let newVel1 :=
      if Rgtb into2 0 then V3.addScaledVector newVel n (- into2) else newVel in
    (vy, newVel1, WALL_SLIDE_FRICTION cfg)
  else (vy0, newVel, PLAYER_DEFAULT_FRICTION cfg).

(** The move axis after the first line: forced to zero in the air when
    [PLAYER_MOVE_MIDAIR] is off. *)
Definition effectiveMoveAxis (cfg : Config) (s : State) (moveAxis : R)
  : option R :=
  if PLAYER_MOVE_MIDAIR cfg then Some moveAxis
  else let? g := isGrounded cfg s in Some (if g then moveAxis else 0).

(** The velocity and the friction the integrator writes to the body [p]:
    the function from the read of the velocity to the choice of the
    friction, for the basis, the grounded test and the move axis found
    before. *)
Definition movementVelocity (cfg : Config) (s : State) (p : Body)
    (forward rightward : Vector3) (grounded : bool) (moveAxis dt : R)
  : Vector3 * R :=
  let lv := linearVelocity p in
  let current := vec3 (x lv) 0 (z lv) in
  let desired0 :=
    V3.multiplyScalar forward (PLAYER_MAX_SPEED cfg * moveAxis) in
  let wallSliding :=
    negb grounded && playerOnWall s && negb (Reqb moveAxis 0) in
  let desired := wallSlideRedirect wallSliding (playerWallNormal s) desired0 in
  let accel :=
    if grounded then PLAYER_ACCEL cfg
    else PLAYER_AIR_ACCEL cfg * PLAYER_MID_AIR_DAMPEN cfg in
  let brake :=
    if grounded then PLAYER_BRAKE cfg else PLAYER_AIR_BRAKE cfg in
  let target := if negb (Reqb moveAxis 0) then desired else vec3 0 0 0 in
  let rate := if negb (Reqb moveAxis 0) then accel else brake in
  let maxDelta := rate * dt in
  let newVel0 := moveToward current target maxDelta in
  let newVel1 := strafeDamp cfg grounded forward rightward dt newVel0 in
  let newVel2 := clampSpeed cfg newVel1 in
  let '(vy, newVel, fr) :=
    wallSlideCap cfg wallSliding (playerWallNormal s) (y lv) newVel2 in
  (vec3 (x newVel) vy (z newVel), fr).

Definition applyCharacterMovement (cfg : Config) (s : State)
    (moveAxis0 dt : R) : option State :=
  let? moveAxis := effectiveMoveAxis cfg s moveAxis0 in
  let? p := Player s in
  let? '(forward, rightward) := getPlayerBasis s in
  let? grounded := isGrounded cfg s in
  let '(v, fr) :=
    movementVelocity cfg s p forward rightward grounded moveAxis dt in
  let p1 := setFriction fr p in
  let p2 := setLinearVelocity v p1 in
  Some (set_Player (Some (activate p2)) s).

Definition turn (cfg : Config) (s : State) (delta dt : R) : option State :=
  let? p := Player s in
  let t := worldTransform p in
  let rot := rotation t in
  let dq := Quat.setFromAxisAngle (vec3 0 1 0) (delta * dt) in
  let q := Quat.multiply rot dq in
  let p1 := setWorldTransform (mkTransform (origin t) q) p in
  Some (set_Player (Some (activate p1)) s).

(** *** The stages of [handleInput] *)

(** The two timers count down to zero. *)
Definition tickTimers (s : State) (dt : R) : State :=
  let s1 :=
    if Rgtb (climbExitTimer s) 0
    then set_climbExitTimer (Rmax 0 (climbExitTimer s - dt)) s else s in
  if Rgtb (climbAnimGrace s1) 0
  then set_climbAnimGrace (Rmax 0 (climbAnimGrace s1 - dt)) s1 else s1.

(** [moveAxis]: plus one for the forward key, minus one for the back key. *)
Definition readMoveAxis (s : State) : R :=
  let forwardKey := keyDown s "ArrowUp" || keyDown s "KeyW" in
  let backKey := keyDown s "ArrowDown" || keyDown s "KeyS" in
  let moveAxis := 0 in
  let moveAxis := if forwardKey then moveAxis + 1 else moveAxis in
  if backKey then moveAxis - 1 else moveAxis.

Definition wallOkPhysics (cfg : Config) (s : State) : bool :=
  playerOnWall s
  && Rgeb (V3.length (playerWallNormal s)) (WALL_CLIMB_MIN_NORMAL cfg).

Definition canAttemptClimb (s : State) (grounded : bool) (moveAxis : R)
  : bool :=
  negb grounded && Rgtb moveAxis 0 && Rleb (climbExitTimer s) 0.

(** Climb gating: the climb state machine. *)
Definition climbGate (cfg : Config) (s : State) (grounded : bool)
    (moveAxis : R) : State :=
  if playerClimbing s then
    if grounded || Rleb moveAxis 0 then
      set_climbAnimGrace 0 (set_playerClimbing false s)
    else if canAttemptClimb s grounded moveAxis && wallOkPhysics cfg s then
      set_climbAnimGrace (CLIMB_ANIM_GRACE_SECONDS cfg)
        (set_playerClimbing true s)
    else
      if Rleb (climbAnimGrace s) 0 then set_playerClimbing false s else s
  else
    if canAttemptClimb s grounded moveAxis && wallOkPhysics cfg s then
      set_climbAnimGrace (CLIMB_ANIM_GRACE_SECONDS cfg)
        (set_playerClimbing true s)
    else s.

(** What the jump block of a frame called. *)
Inductive JumpCall : Type := NoJump | Jumped | WallJumped.

(** The jump block: on the rising edge of the space key, a wall jump while
    climbing, else a jump while grounded. *)
Definition jumpBlock (cfg : Config) (s : State) (grounded : bool)
  : option (JumpCall * State) :=
  let spaceDown := keyDown s "Space" in
  let? '(call, s1) :=
    (if spaceDown && negb (spaceWasDown s) then
       if playerClimbing s then let? s' := wallJumpOff cfg s in Some (WallJumped, s')
       else if grounded then let? s' := jump cfg s in Some (Jumped, s')
       else Some (NoJump, s)
     else Some (NoJump, s)) in
  Some (call, set_spaceWasDown spaceDown s1).

(** The state at the climb gating of [handleInput], with the values of
    [grounded] and [moveAxis] there. *)
Definition beforeClimbGate (cfg : Config) (s : State) (dt : R)
  : option (State * bool * R) :=
  let s1 := tickTimers s dt in
  let leftKey := keyDown s1 "ArrowLeft" || keyDown s1 "KeyA" in
  let rightKey := keyDown s1 "ArrowRight" || keyDown s1 "KeyD" in
  let? s2 := (if leftKey then turn cfg s1 (TURN_SPEED cfg) dt else Some s1) in
  let? s3 := (if rightKey then turn cfg s2 (- TURN_SPEED cfg) dt else Some s2) in
  let moveAxis := readMoveAxis s3 in
  let s4 := set_lastMoveAxis moveAxis s3 in
  let? grounded := isGrounded cfg s4 in
  Some (s4, grounded, moveAxis).

(** [handleInput], with the call its jump block made. *)
Definition handleInputCall (cfg : Config) (s : State) (dt : R)
  : option (JumpCall * State) :=
  match Player s with
  | None => Some (NoJump, s)
  | Some _ =>
    let? '(s4, grounded, moveAxis) := beforeClimbGate cfg s dt in
    let s5 := climbGate cfg s4 grounded moveAxis in
    let? s6 := (if negb (playerClimbing s5)
          then applyCharacterMovement cfg s5 moveAxis dt
          else applyWallClimb cfg s5) in
    jumpBlock cfg s6 grounded
  end.

Definition handleInput (cfg : Config) (s : State) (dt : R) : option State :=
  snd <$> handleInputCall cfg s dt.

(** ** Contacts (grounded / wall) *)

(** The body of the inner loop, for one contact point of a manifold of the
    player. *)
Definition classifyContact (cfg : Config) (isPlayer0 isPlayer1 : bool)
    (groundBandTopY : R) (s : State) (pt : ContactPoint) : State :=
  if Rgeb (getDistance pt) 0 then s
  else
    let nB := normalWorldOnB pt in
    let nx := if isPlayer1 then - x nB else x nB in
    let ny := if isPlayer1 then - y nB else y nB in
    let nz := if isPlayer1 then - z nB else z nB in
    let pPlayer :=
      if isPlayer0 then positionWorldOnA pt else positionWorldOnB pt in
    let py := y pPlayer in
    let s1 :=
      if Rleb py (groundBandTopY + 0.05)
         && Rgtb ny (GROUND_NORMAL_MIN_Y cfg)
      then set_playerGrounded true s else s in
    let horizLenSq := nx * nx + nz * nz in
    if Rgtb horizLenSq 1e-5 && Rleb (Rabs ny) (WALL_NORMAL_MAX_Y cfg) then
      let s2 := set_playerOnWall true s1 in
      let len := sqrt horizLenSq in
      let n := playerWallNormal s2 in
      set_playerWallNormal (vec3 (x n + nx / len) (y n) (z n + nz / len)) s2
    else s1.

(** The body of the outer loop: manifolds of other bodies are skipped. *)
Definition classifyManifold (cfg : Config) (groundBandTopY : R) (s : State)
    (m : Manifold) : State :=
  let isPlayer0 := Z.eqb (ptr0 m) (playerPtr s) in
  let isPlayer1 := Z.eqb (ptr1 m) (playerPtr s) in
  if negb isPlayer0 && negb isPlayer1 then s
  else
    fold_left (classifyContact cfg isPlayer0 isPlayer1 groundBandTopY)
      (contactPoints m) s.

(** The reset of the three flags at the top of [updatePlayerContacts]. *)
Definition resetContacts (s : State) : State :=
  set_playerWallNormal (vec3 0 0 0)
    (set_playerOnWall false (set_playerGrounded false s)).

(** The state after the two loops: the wall normal is the sum of the unit
    horizontal normals of the wall contacts, not yet renormalised.  [None]
    when the function returns before the loops. *)
Definition accumulateContacts (cfg : Config) (s : State) : option State :=
  let s0 := resetContacts s in
  match Player s0, dispatcher s0 with
  | Some p, Some manifolds =>
    if Z.eqb (playerPtr s0) 0 then None
    else
      let centerY := y (origin (worldTransform p)) in
      let bottomY := centerY - PLAYER_HEIGHT cfg / 2 in
      let groundBandTopY :=
        bottomY + PLAYER_HEIGHT cfg * GROUND_BAND_FRACTION cfg in
      Some (fold_left (classifyManifold cfg groundBandTopY) manifolds s0)
  | _, _ => None
  end.

(** The renormalisation of the accumulated wall normal. *)
Definition renormalizeWall (s : State) : State :=
  if playerOnWall s then
    let s1 := set_playerWallNormal (V3.setY (playerWallNormal s) 0) s in
    let l := V3.length (playerWallNormal s1) in
    if Rgtb l 1e-6
    then set_playerWallNormal (V3.multiplyScalar (playerWallNormal s1) (1 / l)) s1
    else s1
  else s.

(** Landing: a grounded player does not climb. *)
Definition landingOverride (s : State) : State :=
  if playerGrounded s
  then set_climbAnimGrace 0 (set_playerClimbing false s)
  else s.

Definition updatePlayerContacts (cfg : Config) (s : State) : State :=
  match accumulateContacts cfg s with
  | None => resetContacts s
  | Some s1 => landingOverride (renormalizeWall s1)
  end.

(** ** Animation state switching *)

Definition playPlayerAction (cfg : Config) (s : State) (name : AnimName)
    (immediate : bool) : State :=
  if negb (playerActions s name) then s
  else
    match playerCurrentAction s with
    | Some cur =>
      if AnimName_eqb cur name then s
      else
        let s1 := log (ActionPlay name) s in
        let s2 :=
          if negb immediate
          then log (ActionCrossFade cur name (FADE_SECONDS cfg)) s1
          else log (ActionStop cur) s1 in
        set_playerCurrentState name (set_playerCurrentAction (Some name) s2)
    | None =>
      let s1 := log (ActionPlay name) s in
      set_playerCurrentState name (set_playerCurrentAction (Some name) s1)
    end.

Definition applyMoveAnimDirection (s : State) (dir : R) (force : bool)
  : State :=
  if negb (playerActions s move) then s
  else
    let clampedDir := if Rltb dir 0 then -1 else 1 in
    if negb force && Reqb clampedDir (moveAnimDir s) then s
    else set_moveAnimDir clampedDir (log (MoveClipDirection clampedDir) s).

(** The grounding gate of the animation: the air latch and its timer. *)
Definition animGroundingGate (cfg : Config) (s : State) (grounded : bool)
    (dt : R) : State :=
  if grounded then set_animAirTimer 0 (set_animInAir false s)
  else
    let s1 := set_animAirTimer (animAirTimer s + dt) s in
    if negb (animInAir s1) && Rgeb (animAirTimer s1) (ANIM_AIR_MIN_TIME cfg)
    then set_animInAir true s1 else s1.

(** The clip asked for outside a climb: [in_air] under the latch, else
    [move] or [idle] by the horizontal speed of the body. *)
Definition desiredAction (cfg : Config) (s : State) (p : Body) : AnimName :=
  let lv := linearVelocity p in
  let horizSpeed := sqrt (x lv * x lv + z lv * z lv) in
  if animInAir s then in_air
  else if Rgtb horizSpeed (MOVE_SPEED_THRESHOLD cfg) then move
  else idle.

(** The end of [updatePlayerAnimationState]: the switch to the clip asked
    for and the playback direction of the move clip. *)
Definition selectAction (cfg : Config) (s : State) (p : Body) : State :=
  let desired := desiredAction cfg s p in
  let s1 :=
    if negb (AnimName_eqb desired (playerCurrentState s))
    then playPlayerAction cfg s desired false else s in
  if AnimName_eqb desired move then
    let dir := if Rltb (lastMoveAxis s1) 0 then -1 else 1 in
    applyMoveAnimDirection s1 dir false
  else if negb (Reqb (moveAnimDir s1) 1)
  then applyMoveAnimDirection s1 1 false else s1.

Definition updatePlayerAnimationState (cfg : Config) (s : State) (dt : R)
  : option State :=
  match Player s with
  | None => Some s
  | Some p =>
    if negb (playerMixer s) then Some s
    else if playerClimbing s || Rgtb (climbAnimGrace s) 0 then
      let s1 := set_animAirTimer 0 (set_animInAir false s) in
      Some (if negb (AnimName_eqb (playerCurrentState s1) climb)
            then playPlayerAction cfg s1 climb false else s1)
    else
      let? grounded := isGrounded cfg s in
      let s1 := animGroundingGate cfg s grounded dt in
      Some (selectAction cfg s1 p)
  end.

(** ** Sync visuals from physics

    The meshes of the scene are outside the state; the call is recorded. *)
Definition syncVisualsFromPhysics (cfg : Config) (s : State) : State :=
  log SyncVisuals s.

(** ** Camera follow *)

Definition getDynamicMinPitch (cfg : Config) (s : State) : R :=
  if Rgtb (playerHeightAboveGround s) (CAMERA_BELOW_PLAYER_ENABLE_HEIGHT cfg)
  then CAMERA_MIN_PITCH_BELOW cfg
  else CAMERA_MIN_PITCH cfg.

(** The one-time initialisation of yaw, distance and pitch from the pose
    the camera has. *)
Definition initCameraOrbit (cfg : Config) (cam : Camera)
    (targetPos : Vector3) (s : State) : State :=
  let toCam := V3.sub (position cam) targetPos in
  let s1 :=
    set_cameraDistance
      (clamp (V3.length toCam) (CAMERA_MIN_DISTANCE cfg)
         (CAMERA_MAX_DISTANCE cfg)) s in
  let s2 := set_cameraYaw (atan2 (x toCam) (z toCam)) s1 in
  let horizLen0 := sqrt (x toCam * x toCam + z toCam * z toCam) in
  let horizLen := if Reqb horizLen0 0 then 1e-6 else horizLen0 in
  let s3 := set_cameraPitch (atan2 (y toCam) horizLen) s2 in
  let s4 :=
    set_cameraPitch
      (clamp (cameraPitch s3) (getDynamicMinPitch cfg s3)
         (CAMERA_MAX_PITCH cfg)) s3 in
  set_cameraYawInitialized true s4.

Definition updateCamera (cfg : Config) (s : State) : option State :=
  match Player s with
  | None => Some s
  | Some p =>
    let o := origin (motionState p) in
    let targetPos := vec3 (x o) (y o) (z o) in
    let s1 := set_playerHeightAboveGround (y targetPos - GROUND_PLANE_Y cfg) s in
    let? cam := camera s1 in
    let s2 :=
      if negb (cameraYawInitialized s1)
      then initCameraOrbit cfg cam targetPos s1 else s1 in
    let s3 :=
      set_cameraPitch
        (clamp (cameraPitch s2) (getDynamicMinPitch cfg s2)
           (CAMERA_MAX_PITCH cfg)) s2 in
    let horiz := cameraDistance s3 * cos (cameraPitch s3) in
    let yOff := cameraDistance s3 * sin (cameraPitch s3) in
    let xOff := horiz * sin (cameraYaw s3) in
    let zOff := horiz * cos (cameraYaw s3) in
    let desiredPos :=
      vec3 (x targetPos + xOff)
           (y targetPos + yOff + CAMERA_VERTICAL_OFFSET cfg * 0.15)
           (z targetPos + zOff) in
    let lookAtPos :=
      V3.add targetPos (vec3 0 (CAMERA_VERTICAL_OFFSET cfg * 0.35) 0) in
    Some (set_camera
            (Some (mkCamera (V3.lerp (position cam) desiredPos 0.15) lookAtPos))
            s3)
  end.

(** The listeners of [initThree] that write the state. *)
Definition onPointerLockChange (locked : bool) (s : State) : State :=
  set_pointerLocked locked s.

Definition onMouseMove (cfg : Config) (movementX movementY : R) (s : State)
  : State :=
  if negb (pointerLocked s) then s
  else
    let s1 :=
      set_cameraYaw (cameraYaw s - movementX * MOUSE_YAW_SENSITIVITY cfg) s in
    let s2 :=
      set_cameraPitch
        (cameraPitch s1 - movementY * MOUSE_PITCH_SENSITIVITY cfg) s1 in
    set_cameraPitch
      (clamp (cameraPitch s2) (getDynamicMinPitch cfg s2)
         (CAMERA_MAX_PITCH cfg)) s2.

Definition onWheel (cfg : Config) (deltaY : R) (s : State) : State :=
  let delta := sign deltaY in
  set_cameraDistance
    (clamp (cameraDistance s + delta * 2.0) (CAMERA_MIN_DISTANCE cfg)
       (CAMERA_MAX_DISTANCE cfg)) s.

(** ** The frame, [stepCore] *)

(** [state.physicsWorld.stepSimulation(dt, 1)], with the outcome [eng] of
    the step. *)
Definition stepSimulation (eng : EngineStep) (dt : R) (s : State) : State :=
  let s1 := set_physicsWorld (Some (steppedWorld eng)) s in
  let s2 :=
    set_dispatcher
      (match dispatcher s1 with
       | Some _ => Some (steppedManifolds eng)
       | None => None
       end) s1 in
  let s3 :=
    set_Player
      (match Player s2 with
       | Some p => Some (steppedBody eng p)
       | None => None
       end) s2 in
  log (StepSimulation dt) s3.

(** The mixer update of [stepCore], when there is a mixer. *)
Definition mixerUpdate (dt : R) (s : State) : State :=
  if playerMixer s then log (MixerUpdate dt) s else s.

(** The state after the physics step and the contact classifier. *)
Definition afterContacts (cfg : Config) (eng : EngineStep) (s : State)
    (dt : R) : State :=
  updatePlayerContacts cfg (stepSimulation eng dt s).

(** The frame after [handleInput]: visual sync, animations, camera and
    render. *)
Definition frameTail (cfg : Config) (dt : R) (call : JumpCall) (s3 : State)
  : option (JumpCall * State) :=
  let? s5 :=
    updatePlayerAnimationState cfg (syncVisualsFromPhysics cfg s3) dt in
  let? s7 := updateCamera cfg (mixerUpdate dt s5) in
  Some (call, log Render s7).

(** [stepCore], with the call the jump block of its [handleInput] made. *)
Definition stepCoreCall (cfg : Config) (eng : EngineStep) (s : State)
    (dt : R) : option (JumpCall * State) :=
  match physicsWorld s with
  | None => Some (NoJump, s)
  | Some _ =>
    if negb (renderer s) then Some (NoJump, s)
    else
      let? '(call, s3) := handleInputCall cfg (afterContacts cfg eng s dt) dt in
      frameTail cfg dt call s3
  end.

Definition stepCore (cfg : Config) (eng : EngineStep) (s : State) (dt : R)
  : option State :=
  snd <$> stepCoreCall cfg eng s dt.

(** ** Events

    The browser delivers key, pointer and wheel events between frames; a
    frame carries its time step and the outcome of the physics step. *)
Inductive Event : Type :=
  | KeyDown (code : string)
  | KeyUp (code : string)
  | PointerLockChange (locked : bool)
  | MouseMove (movementX movementY : R)
  | Wheel (deltaY : R)
  | Frame (dt : R) (eng : EngineStep).

Definition dispatch (cfg : Config) (ev : Event) (s : State)
  : option (list JumpCall * State) :=
  match ev with
  | KeyDown code => Some ([], onKeyDown code s)
  | KeyUp code => Some ([], onKeyUp code s)
  | PointerLockChange locked => Some ([], onPointerLockChange locked s)
  | MouseMove mx my => Some ([], onMouseMove cfg mx my s)
  | Wheel dy => Some ([], onWheel cfg dy s)
  | Frame dt eng =>
    let? '(call, s1) := stepCoreCall cfg eng s dt in Some ([call], s1)
  end.

(** The events in order, with the calls of the jump blocks of the frames,
    one per frame, in order. *)
Fixpoint run (cfg : Config) (evs : list Event) (s : State)
  : option (list JumpCall * State) :=
  match evs with
  | [] => Some ([], s)
  | ev :: rest =>
    let? '(calls, s1) := dispatch cfg ev s in
    let? '(calls', s2) := run cfg rest s1 in
    Some (calls ++ calls', s2)
  end.

(** The number of jumps and wall jumps among the calls. *)
Definition isJump (c : JumpCall) : bool :=
  match c with NoJump => false | _ => true end.

Definition countJumps (calls : list JumpCall) : nat :=
  List.length (filter isJump calls).

(** ** Notions used by the statements *)

(** The condition under which the gating turns a player that is not
    climbing into a climbing one. *)
Definition climbEntry (cfg : Config) (s : State) (grounded : bool)
    (moveAxis : R) : Prop :=
  grounded = false
  /\ 0 < moveAxis
  /\ climbExitTimer s <= 0
  /\ (playerOnWall s = true
      /\ WALL_CLIMB_MIN_NORMAL cfg <= V3.length (playerWallNormal s)).

(** The move axis the integrator works with. *)
Definition midairAxis (cfg : Config) (grounded : bool) (moveAxis : R) : R :=
  if PLAYER_MOVE_MIDAIR cfg then moveAxis
  else if grounded then moveAxis else 0.

(** The three contact flags written at once. *)
Definition withContacts (g o : bool) (n : Vector3) (s : State) : State :=
  set_playerWallNormal n (set_playerOnWall o (set_playerGrounded g s)).

(** A wall normal as the classifier leaves it: horizontal, and either of
    unit length or of length at most 1e-6 (no wall contact, or contacts
    that cancel). *)
Definition classifierNormal (n : Vector3) : Prop :=
  y n = 0 /\ (V3.lengthSq n = 1 \/ V3.lengthSq n <= 1e-12).

(** The fields [handleInput] writes, written at once. *)
Definition inputWrites (p : Body) (c : bool) (e a m : R) (sp : bool)
    (s : State) : State :=
  set_spaceWasDown sp
    (set_lastMoveAxis m
       (set_climbAnimGrace a
          (set_climbExitTimer e
             (set_playerClimbing c (set_Player (Some p) s))))).

(** ** Scenes for the examples *)

(** A body standing upright at height 4 (half of the default height),
    facing along +z, at rest. *)
Definition standingBody : Body := {|
  worldTransform := mkTransform (vec3 0 4 0) (quat 0 0 0 1);
  motionState := mkTransform (vec3 0 4 0) (quat 0 0 0 1);
  linearVelocity := vec3 0 0 0;
  friction := 2.5;
  active := true
|}.

(** A world in which no ray hits, and one in which every ray hits. *)
Definition openAir : PhysicsWorld := mkWorld (fun _ _ => false).
Definition solidGround : PhysicsWorld := mkWorld (fun _ _ => true).

(** The state after start-up, with the body in the air and no contact. *)
Definition airborne : State := {|
  camera := Some (mkCamera (vec3 0 55 100) (vec3 0 0 0));
  renderer := true;
  physicsWorld := Some openAir;
  dispatcher := Some [];
  keys := ∅;
  spaceWasDown := false;
  Player := Some standingBody;
  playerPtr := 7%Z;
  playerMixer := true;
  playerActions := fun _ => true;
  playerCurrentAction := Some idle;
  playerCurrentState := idle;
  playerGrounded := false;
  playerOnWall := false;
  playerWallNormal := vec3 0 0 0;
  playerClimbing := false;
  climbExitTimer := 0;
  climbAnimGrace := 0;
  animInAir := false;
  animAirTimer := 0;
  pointerLocked := false;
  cameraYawInitialized := false;
  cameraYaw := 0;
  cameraPitch := 0.55;
  cameraDistance := 30;
  playerHeightAboveGround := 0;
  lastMoveAxis := 0;
  moveAnimDir := 1;
  effects := []
|}.

(** In the air against a wall of normal (1, 0, 0), the forward key held. *)
Definition atWall : State :=
  set_keys (<["KeyW" := true]> ∅)
    (set_playerWallNormal (vec3 1 0 0) (set_playerOnWall true airborne)).

(** The fields [updatePlayerAnimationState] writes, written at once. *)
Definition animWrites (ia : bool) (at_ : R) (ca : option AnimName)
    (cs : AnimName) (md : R) (ef : list Effect) (s : State) : State :=
  set_effects ef
    (set_moveAnimDir md
       (set_playerCurrentState cs
          (set_playerCurrentAction ca
             (set_animAirTimer at_ (set_animInAir ia s))))).

(** The fields [updateCamera] writes, written at once. *)
Definition cameraWrites (cam : option Camera) (h d yw pt : R) (ini : bool)
    (s : State) : State :=
  set_camera cam
    (set_cameraYawInitialized ini
       (set_cameraPitch pt
          (set_cameraYaw yw
             (set_cameraDistance d (set_playerHeightAboveGround h s))))).

(** The lower bound of the pitch for a height above the ground plane. *)
Definition minPitchAt (cfg : Config) (h : R) : R :=
  if Rgtb h (CAMERA_BELOW_PLAYER_ENABLE_HEIGHT cfg)
  then CAMERA_MIN_PITCH_BELOW cfg
  else CAMERA_MIN_PITCH cfg.

(** A contact under the feet of [standingBody]: the player is body 0 of the
    manifold, the contact is at height 0 and its normal points up. *)
Definition groundContact : ContactPoint := {|
  getDistance := -0.01;
  normalWorldOnB := vec3 0 1 0;
  positionWorldOnA := vec3 0 0 0;
  positionWorldOnB := vec3 0 0 0
|}.

(** The player standing on the ground while the state still says it
    climbs a wall. *)
Definition landedWhileClimbing : State :=
  set_climbAnimGrace 1
    (set_playerClimbing true
       (set_dispatcher (Some [mkManifold 7 0 [groundContact]]) atWall)).

(** The wall confidence as the specification words it: the length of the
    accumulated wall normal, before the renormalisation, against the
    threshold.  [s1] is the state after the loops of the classifier. *)
Definition spec_wallConfident (cfg : Config) (s1 : State) : bool :=
  playerOnWall s1
  && Rgeb (V3.length (playerWallNormal s1)) (WALL_CLIMB_MIN_NORMAL cfg).

(** Two touching wall contacts at the height of the body centre, with unit
    horizontal normals (9/41, 0, 40/41) and (9/41, 0, -40/41): the two
    sides of a narrow corner. *)
Definition cornerContactA : ContactPoint := {|
  getDistance := -0.01;
  normalWorldOnB := vec3 (9 / 41) 0 (40 / 41);
  positionWorldOnA := vec3 0 4 0;
  positionWorldOnB := vec3 0 4 0
|}.

Definition cornerContactB : ContactPoint := {|
  getDistance := -0.01;
  normalWorldOnB := vec3 (9 / 41) 0 (- (40 / 41));
  positionWorldOnA := vec3 0 4 0;
  positionWorldOnB := vec3 0 4 0
|}.

(** The player in the air in that corner. *)
Definition inCorner : State :=
  set_dispatcher (Some [mkManifold 7 0 [cornerContactA; cornerContactB]])
    airborne.

(** The horizontal speed of a velocity, as the animation selector computes
    it. *)
Definition horizSpeed (v : Vector3) : R := sqrt (x v * x v + z v * z v).



(** The sum of the time steps. *)
Definition elapsed (dts : list R) : R := fold_right Rplus 0 dts.

(** A pair of horizontal, orthogonal unit vectors. *)
Definition horizontalBasis (fwd rgt : Vector3) : Prop :=
  y fwd = 0 /\ V3.lengthSq fwd = 1
  /\ y rgt = 0 /\ V3.lengthSq rgt = 1
  /\ V3.dot fwd rgt = 0.

(** A rotation about the vertical axis, as [createPlayer] sets it and
    [turn] keeps it. *)
Definition yawOnly (q : Quaternion) : Prop :=
  qx q = 0 /\ qz q = 0 /\ qy q * qy q + qw q * qw q = 1.


(** The player standing on the ground, at rest. *)
Definition standing : State := set_playerGrounded true airborne.

(** The grounding gate of the animation over a run of airborne frames. *)
Definition airborneFrames (cfg : Config) (dts : list R) (s : State) : State :=
  fold_left (fun st dt => animGroundingGate cfg st false dt) dts s.

(** A physics step that leaves the world, the contacts and the bodies as
    they are. *)
Definition quietStep : EngineStep := mkEngineStep openAir [] (fun p => p).

(** World and renderer ready, the player body not created yet. *)
Definition beforeSpawn : State := {|
  camera := None;
  renderer := true;
  physicsWorld := Some openAir;
  dispatcher := Some [];
  keys := ∅;
  spaceWasDown := false;
  Player := None;
  playerPtr := 0%Z;
  playerMixer := false;
  playerActions := fun _ => false;
  playerCurrentAction := None;
  playerCurrentState := idle;
  playerGrounded := false;
  playerOnWall := false;
  playerWallNormal := vec3 0 0 0;
  playerClimbing := false;
  climbExitTimer := 0;
  climbAnimGrace := 0;
  animInAir := false;
  animAirTimer := 0;
  pointerLocked := false;
  cameraYawInitialized := false;
  cameraYaw := 0;
  cameraPitch := 0;
  cameraDistance := 30;
  playerHeightAboveGround := 0;
  lastMoveAxis := 0;
  moveAnimDir := 1;
  effects := []
|}.

(** The pitch of the camera lies between the dynamic minimum for the stored
    height of the player and the maximum. *)
Definition pitchInRange (cfg : Config) (s : State) : Prop :=
  getDynamicMinPitch cfg s <= cameraPitch s <= CAMERA_MAX_PITCH cfg.

(** The events that reach a clamp of the pitch: a mouse move under pointer
    lock, and a frame that reaches [updateCamera] with a player body. *)
Definition clampsPitch (ev : Event) (s : State) : bool :=
  match ev with
  | MouseMove _ _ => pointerLocked s
  | Frame _ _ =>
    match physicsWorld s, Player s with
    | Some _, Some _ => renderer s
    | _, _ => false
    end
  | _ => false
  end.


(** A game in progress: world, renderer, player body and camera exist. *)
Definition running (s : State) : Prop :=
  physicsWorld s <> None /\ renderer s = true
  /\ Player s <> None /\ camera s <> None.

(** The event that releases the jump key. *)
Definition releasesSpace (ev : Event) : bool :=
  match ev with
  | KeyUp code => bool_decide (code = "Space")
  | _ => false
  end.

Definition isFrame (ev : Event) : bool :=
  match ev with Frame _ _ => true | _ => false end.

Definition countFrames (evs : list Event) : nat :=
  List.length (filter isFrame evs).

(** The jump key pressed in mid-air. *)
Definition jumpPressedInAir : State := onKeyDown "Space" airborne.

(** A physics step over solid ground: every ray hits. *)
Definition groundStep : EngineStep := mkEngineStep solidGround [] (fun p => p).

(** The jump key pressed while standing. *)
Definition jumpPressedStanding : State := onKeyDown "Space" standing.


(** ** Notions for the further properties *)

(** The squared norm of a quaternion. *)
Definition quatNormSq (q : Quaternion) : R :=
  qx q * qx q + qy q * qy q + qz q * qz q + qw q * qw q.

(** The rotation [turn] multiplies by: the angle [a] about the y axis. *)
Definition yawStep (a : R) : Quaternion :=
  Quat.setFromAxisAngle (vec3 0 1 0) a.

(** The rotation of the body after the two turn lines of [handleInput]. *)
Definition turnedRotation (cfg : Config) (s : State) (dt : R)
    (q : Quaternion) : Quaternion :=
  let q1 :=
    if keyDown s "ArrowLeft" || keyDown s "KeyA"
    then Quat.multiply q (yawStep (TURN_SPEED cfg * dt)) else q in
  if keyDown s "ArrowRight" || keyDown s "KeyD"
  then Quat.multiply q1 (yawStep (- TURN_SPEED cfg * dt)) else q1.

(** The state [airborne] with the forward and the back key down. *)
Definition bothMoveKeys : State :=
  onKeyDown "KeyS" (onKeyDown "KeyW" airborne).

(** The state [airborne] with a left and a right key down. *)
Definition bothTurnKeys : State :=
  onKeyDown "KeyD" (onKeyDown "ArrowLeft" airborne).

(** The body after the two turn lines of [handleInput]. *)
Definition turnedBody (cfg : Config) (s : State) (dt : R) (p : Body) : Body :=
  let turned (delta : R) (b : Body) :=
    mkBody
      (mkTransform (origin (worldTransform b))
         (Quat.multiply (rotation (worldTransform b)) (yawStep (delta * dt))))
      (motionState b) (linearVelocity b) (friction b) true in
  let p1 :=
    if keyDown s "ArrowLeft" || keyDown s "KeyA"
    then turned (TURN_SPEED cfg) p else p in
  if keyDown s "ArrowRight" || keyDown s "KeyD"
  then turned (- TURN_SPEED cfg) p1 else p1.

(** The state at the climb gating of [handleInput] and the state after it,
    for a body [p] and the outcome [g] of the grounded test. *)
Definition atClimbGate (cfg : Config) (s : State) (dt : R) (p : Body)
  : State :=
  set_lastMoveAxis (readMoveAxis s)
    (set_Player (Some (turnedBody cfg s dt p)) (tickTimers s dt)).

Definition afterClimbGate (cfg : Config) (s : State) (dt : R) (p : Body)
    (g : bool) : State :=
  climbGate cfg (atClimbGate cfg s dt p) g (readMoveAxis s).

(** [forward] and [right] of [getPlayerBasis], for a body. *)
Definition bodyBasis (p : Body) : Vector3 * Vector3 :=
  let q := rotation (worldTransform p) in
  (V3.normalize (V3.applyQuaternion (vec3 0 0 1) q),
   V3.normalize (V3.applyQuaternion (vec3 1 0 0) q)).

(** The body after the movement branch of [handleInput]: the integrator
    when the player does not climb after the gating, the wall climb when it
    does. *)
Definition movedBody (cfg : Config) (s : State) (dt : R) (p : Body)
    (g : bool) : Body :=
  let s5 := afterClimbGate cfg s dt p g in
  let p4 := turnedBody cfg s dt p in
  if negb (playerClimbing s5) then
    let vf :=
      movementVelocity cfg s5 p4 (fst (bodyBasis p4)) (snd (bodyBasis p4)) g
        (midairAxis cfg g (readMoveAxis s)) dt in
    activate (setLinearVelocity (fst vf) (setFriction (snd vf) p4))
  else
    let n := playerWallNormal s5 in
    activate
      (setLinearVelocity
         (vec3 (x n * - WALL_CLIMB_STICK_SPEED cfg) (WALL_CLIMB_SPEED cfg)
            (z n * - WALL_CLIMB_STICK_SPEED cfg))
         (setFriction (WALL_SLIDE_FRICTION cfg) p4)).

(** What the jump block calls, from the state it runs on. *)
Definition jumpCallOf (s : State) (g : bool) : JumpCall :=
  if keyDown s "Space" && negb (spaceWasDown s) then
    if playerClimbing s then WallJumped
    else if g then Jumped else NoJump
  else NoJump.

(** The call of the jump block of [handleInput], from the state
    [handleInput] starts on. *)
Definition inputCall (cfg : Config) (s : State) (dt : R) (p : Body)
    (g : bool) : JumpCall :=
  if keyDown s "Space" && negb (spaceWasDown s) then
    if playerClimbing (afterClimbGate cfg s dt p g) then WallJumped
    else if g then Jumped else NoJump
  else NoJump.

(** The player climbing a wall with the forward key held. *)
Definition climbingAtWall : State :=
  set_climbAnimGrace 1 (set_playerClimbing true atWall).


(** The state [atWall] just after a wall jump: the exit timer runs. *)
Definition afterWallJump : State :=
  set_climbExitTimer (WALL_CLIMB_EXIT_COOLDOWN defaultConfig) atWall.


(** The top of the ground band of [updatePlayerContacts], for a body. *)
Definition groundBandTop (cfg : Config) (p : Body) : R :=
  y (origin (worldTransform p)) - PLAYER_HEIGHT cfg / 2
  + PLAYER_HEIGHT cfg * GROUND_BAND_FRACTION cfg.

(** A contact point that [updatePlayerContacts] counts as ground, and one
    it counts as wall, in a manifold whose body 0 ([isPlayer0]) or body 1
    ([isPlayer1]) is the player. *)
Definition isGroundContact (cfg : Config) (isPlayer0 isPlayer1 : bool)
    (top : R) (pt : ContactPoint) : Prop :=
  getDistance pt < 0
  /\ y (if isPlayer0 then positionWorldOnA pt else positionWorldOnB pt)
     <= top + 0.05
  /\ GROUND_NORMAL_MIN_Y cfg
     < (if isPlayer1 then - y (normalWorldOnB pt) else y (normalWorldOnB pt)).

Definition isWallContact (cfg : Config) (isPlayer1 : bool)
    (pt : ContactPoint) : Prop :=
  let nB := normalWorldOnB pt in
  let nx := if isPlayer1 then - x nB else x nB in
  let ny := if isPlayer1 then - y nB else y nB in
  let nz := if isPlayer1 then - z nB else z nB in
  getDistance pt < 0
  /\ 1e-5 < nx * nx + nz * nz
  /\ Rabs ny <= WALL_NORMAL_MAX_Y cfg.

(** A manifold of the player, for the pointer [ptr]. *)
Definition ofPlayer (ptr : Z) (m : Manifold) : Prop :=
  ptr0 m = ptr \/ ptr1 m = ptr.

(** A wall contact for [standingBody]: the player is body 0, the normal
    points along +x. *)
Definition wallContact : ContactPoint := {|
  getDistance := -0.01;
  normalWorldOnB := vec3 1 0 0;
  positionWorldOnA := vec3 (-2) 4 0;
  positionWorldOnB := vec3 (-2) 4 0
|}.

(** The player touching a wall, as the dispatcher reports it. *)
Definition touchingWall : State :=
  set_dispatcher (Some [mkManifold 7 0 [wallContact]]) airborne.


(** The defaults with steering in the air switched off. *)
Definition noMidairConfig : Config := {|
  FADE_SECONDS := 0.15;
  GROUND_PLANE_Y := 0;
  PLAYER_RADIUS := 2;
  PLAYER_HEIGHT := 8;
  PLAYER_MOVE_MIDAIR := false;
  PLAYER_MID_AIR_DAMPEN := 0.5;
  PLAYER_JUMP_IMPULSE := 25;
  PLAYER_MAX_SPEED := 15.0;
  PLAYER_ACCEL := 55.0;
  PLAYER_BRAKE := 75.0;
  PLAYER_AIR_ACCEL := 18.0;
  PLAYER_AIR_BRAKE := 8.0;
  PLAYER_SIDE_DAMP_GROUND := 18.0;
  PLAYER_SIDE_DAMP_AIR := 2.0;
  PLAYER_USE_STRAFE_DAMP := true;
  PLAYER_DEFAULT_FRICTION := 2.5;
  TURN_SPEED := 3;
  WALL_SLIDE_FRICTION := 0.15;
  WALL_SLIDE_MAX_FALL_SPEED := -8.0;
  WALL_NORMAL_MAX_Y := 0.30;
  GROUND_NORMAL_MIN_Y := 0.10;
  GROUND_BAND_FRACTION := 0.10;
  WALL_CLIMB_SPEED := 9.5;
  WALL_CLIMB_STICK_SPEED := 3.0;
  WALL_CLIMB_MIN_NORMAL := 0.5;
  WALL_CLIMB_EXIT_COOLDOWN := 0.3;
  CLIMB_ANIM_GRACE_SECONDS := 1.0;
  ANIM_AIR_MIN_TIME := 0.10;
  MOVE_SPEED_THRESHOLD := 0.6;
  CAMERA_MIN_DISTANCE := 20;
  CAMERA_MAX_DISTANCE := 40;
  CAMERA_VERTICAL_OFFSET := 20;
  CAMERA_DEFAULT_PITCH := 0.55;
  CAMERA_MIN_PITCH := 0.15;
  CAMERA_MAX_PITCH := 1.20;
  CAMERA_BELOW_PLAYER_ENABLE_HEIGHT := 18;
  CAMERA_MIN_PITCH_BELOW := -0.65;
  MOUSE_YAW_SENSITIVITY := 0.0025;
  MOUSE_PITCH_SENSITIVITY := 0.0020
|}.

(** The body [standingBody] drifting along +x at 1 unit per second. *)
Definition driftingBody : Body :=
  setLinearVelocity (vec3 1 (-3) 0) standingBody.

(** The drifting body on the ground, no key held. *)
Definition drifting : State := set_Player (Some driftingBody) standing.

(** The drifting body in the air with the forward key held. *)
Definition driftingInAir : State :=
  onKeyDown "KeyW" (set_Player (Some driftingBody) airborne).


(** The current action is the one of the current animation state, as
    [createPlayer] leaves them and the selector keeps them. *)
Definition animConsistent (s : State) : Prop :=
  playerCurrentAction s = Some (playerCurrentState s).

(** The effects [playPlayerAction] records when it switches to [name]. *)
Definition switchEffects (cfg : Config) (s : State) (name : AnimName)
    (immediate : bool) : list Effect :=
  match playerCurrentAction s with
  | Some cur =>
    (if immediate then ActionStop cur
     else ActionCrossFade cur name (FADE_SECONDS cfg))
    :: ActionPlay name :: effects s
  | None => ActionPlay name :: effects s
  end.

(** The body [standingBody] running backward at 5 units per second. *)
Definition backingBody : Body :=
  setLinearVelocity (vec3 0 0 (-5)) standingBody.

(** The player on the ground, running backward, still in the idle state. *)
Definition backingUp : State :=
  set_lastMoveAxis (-1) (set_Player (Some backingBody) standing).


(** The camera defaults at the end of [startCore]. *)
Definition cameraDefaults (cfg : Config) (s : State) : State :=
  let s1 := set_cameraPitch (CAMERA_DEFAULT_PITCH cfg) s in
  set_cameraDistance
    (clamp (cameraDistance s1) (CAMERA_MIN_DISTANCE cfg)
       (CAMERA_MAX_DISTANCE cfg)) s1.

(** The offset of the orbit position of the camera from the player, for a
    distance, a pitch and a yaw. *)
Definition orbitOffset (d pitch yaw : R) : Vector3 :=
  vec3 (d * cos pitch * sin yaw) (d * sin pitch) (d * cos pitch * cos yaw).

(** The state [airborne] after its first camera update. *)
Definition orbiting : State :=
  set_cameraYawInitialized true airborne.


(** ** The debug view

    [setDebugMode] and the handlers of [createDebugUI] that call it.  The
    objects of the scene whose [visible] flag they write are named by
    numbers; the same object may be listed more than once (the axes of a
    game object are also an entry of [debugAxes]).  [CONFIG.DEBUG_MODE],
    which these functions write, is a field here.  A scene object never
    written is visible, as three.js creates it. *)

Record DebugObject : Type := mkDebugObject {
  debugMesh : option nat;
  debugObjAxes : option nat
}.

Record DebugView : Type := mkDebugView {
  DEBUG_MODE : bool;
  debugUiCheckbox : option bool;
  playerDebugMesh : option nat;
  gameObjects : list DebugObject;
  debugAxes : list nat;
  staticTrimeshDebug : list DebugObject;
  visibility : gmap nat bool
}.

Definition isVisible (v : DebugView) (i : nat) : bool :=
  default true (visibility v !! i).

(** [if (x) x.visible = on] for each of the references, in order. *)
Definition setVisible (on : bool) (refs : list (option nat))
    (m : gmap nat bool) : gmap nat bool :=
  fold_left
    (fun m r => match r with Some i => <[i := on]> m | None => m end)
    refs m.

(** The references [setDebugMode] goes through, in its order. *)
Definition debugRefs (v : DebugView) : list (option nat) :=
  [playerDebugMesh v]
  ++ flat_map (fun o => [debugMesh o; debugObjAxes o]) (gameObjects v)
  ++ map Some (debugAxes v)
  ++ flat_map (fun o => [debugMesh o; debugObjAxes o])
       (staticTrimeshDebug v).

Definition setDebugMode (on : bool) (v : DebugView) : DebugView :=
  {| DEBUG_MODE := on;
     debugUiCheckbox :=
       match debugUiCheckbox v with Some _ => Some on | None => None end;
     playerDebugMesh := playerDebugMesh v;
     gameObjects := gameObjects v;
     debugAxes := debugAxes v;
     staticTrimeshDebug := staticTrimeshDebug v;
     visibility := setVisible on (debugRefs v) (visibility v) |}.

(** The [change] listener of the checkbox, run after the browser has set
    [checked]. *)
Definition onDebugCheckboxChange (checked : bool) (v : DebugView)
  : DebugView :=
  setDebugMode checked
    {| DEBUG_MODE := DEBUG_MODE v;
       debugUiCheckbox := Some checked;
       playerDebugMesh := playerDebugMesh v;
       gameObjects := gameObjects v;
       debugAxes := debugAxes v;
       staticTrimeshDebug := staticTrimeshDebug v;
       visibility := visibility v |}.

(** The [keydown] listener for the Backquote key:
    [setDebugMode(state, CONFIG, !CONFIG.DEBUG_MODE)] and then
    [CONFIG.DEBUG_MODE = !CONFIG.DEBUG_MODE]. *)
Definition onBackquote (v : DebugView) : DebugView :=
  let v1 := setDebugMode (negb (DEBUG_MODE v)) v in
  {| DEBUG_MODE := negb (DEBUG_MODE v1);
     debugUiCheckbox := debugUiCheckbox v1;
     playerDebugMesh := playerDebugMesh v1;
     gameObjects := gameObjects v1;
     debugAxes := debugAxes v1;
     staticTrimeshDebug := staticTrimeshDebug v1;
     visibility := visibility v1 |}.

(** A scene with the player's debug mesh (object 0) and the ground (mesh 1,
    axes 2), the debug mode off and nothing shown. *)
Definition debugScene : DebugView :=
  {| DEBUG_MODE := false;
     debugUiCheckbox := Some false;
     playerDebugMesh := Some 0%nat;
     gameObjects := [mkDebugObject (Some 1%nat) (Some 2%nat)];
     debugAxes := [2%nat];
     staticTrimeshDebug := [];
     visibility := {[ 0%nat := false; 1%nat := false; 2%nat := false ]} |}.


(** ** The game objects of [syncVisualsFromPhysics]

    The loop over [state.gameObjects]: a game object has a rigid body, of
    which the loop reads the transform of the motion state (if it has one),
    and up to three scene objects (collider mesh, axes, visual model) whose
    position and quaternion the loop writes. *)

Record Pose : Type := mkPose {
  posePosition : Vector3;
  poseQuaternion : Quaternion
}.

Record GameObject : Type := mkGameObject {
  objMotionState : option Transform;
  objMesh : option Pose;
  objAxes : option Pose;
  objVisual : option Pose;
  visualOffset : option Vector3;
  visualRotationOffset : option Quaternion
}.

(** The body of the loop. *)
Definition syncGameObject (obj : GameObject) : GameObject :=
  match objMotionState obj with
  | None => obj
  | Some t =>
    let o := origin t in
    let rot := rotation t in
    let bodyPose := mkPose (vec3 (x o) (y o) (z o)) rot in
    let mesh1 :=
      match objMesh obj with Some _ => Some bodyPose | None => None end in
    let axes1 :=
      match objAxes obj with Some _ => Some bodyPose | None => None end in
    let visual1 :=
      match objVisual obj with
      | Some _ =>
        let offsetRotated :=
          match visualOffset obj with
          | Some off => V3.applyQuaternion off rot
          | None => vec3 0 0 0
          end in
        let finalQuat :=
          match visualRotationOffset obj with
          | Some r => Quat.multiply rot r
          | None => rot
          end in
        Some (mkPose (V3.add (vec3 (x o) (y o) (z o)) offsetRotated)
                finalQuat)
      | None => None
      end in
    mkGameObject (objMotionState obj) mesh1 axes1 visual1
      (visualOffset obj) (visualRotationOffset obj)
  end.

Definition syncGameObjects (objs : list GameObject) : list GameObject :=
  map syncGameObject objs.

(** A crate as [spawnEnvironment] makes it, its body at (3, 2.5, 4),
    turned by a quarter turn about the vertical axis. *)
Definition crate : GameObject := {|
  objMotionState :=
    Some (mkTransform (vec3 3 2.5 4) (quat 0 (sqrt 2 / 2) 0 (sqrt 2 / 2)));
  objMesh := Some (mkPose (vec3 0 0 0) (quat 0 0 0 1));
  objAxes := Some (mkPose (vec3 0 0 0) (quat 0 0 0 1));
  objVisual := Some (mkPose (vec3 0 0 0) (quat 0 0 0 1));
  visualOffset := Some (vec3 (-6) (-2.5) (-8));
  visualRotationOffset := None
|}.


(** ** [createPlayer]

    The transform the body is created with, and the start of the
    animations at the end of [createPlayer].  The spawn position and the
    starting yaw ([CONFIG.PLAYER_STARTING_POSITION],
    [CONFIG.PLAYER_STARTING_YAW_DEG]) are arguments. *)

(** [THREE.MathUtils.degToRad]. *)
Definition degToRad (degrees : R) : R := degrees * (PI / 180).

Definition playerStartTransform (cfg : Config) (position : Vector3)
    (yawDeg : R) : Transform :=
  let yawRad := degToRad yawDeg in
  mkTransform
    (vec3 (x position) (y position + PLAYER_HEIGHT cfg / 2) (z position))
    (quat 0 (sin (yawRad / 2)) 0 (cos (yawRad / 2))).

Definition startPlayerAnimations (cfg : Config) (s : State) : State :=
  let s1 := set_moveAnimDir 1 s in
  let s2 := applyMoveAnimDirection s1 1 true in
  if playerActions s2 idle then playPlayerAction cfg s2 idle true
  else if playerActions s2 move then playPlayerAction cfg s2 move true
  else if playerActions s2 in_air then playPlayerAction cfg s2 in_air true
  else if playerActions s2 climb then playPlayerAction cfg s2 climb true
  else s2.

(** The first of the four clips, in the order of [createPlayer], that is
    loaded. *)
Definition firstLoaded (actions : AnimName -> bool) : option AnimName :=
  if actions idle then Some idle
  else if actions move then Some move
  else if actions in_air then Some in_air
  else if actions climb then Some climb
  else None.


(** ** The calls of a frame *)

(** The calls into the animation mixer a frame can make: playing a clip,
    cross-fading to it, and setting the direction of the move clip. *)
Definition isFrameAnimEffect (e : Effect) : bool :=
  match e with
  | ActionPlay _ | ActionCrossFade _ _ _ | MoveClipDirection _ => true
  | _ => false
  end.


(** ** The velocity before the last block of [applyCharacterMovement] *)




(** ** The animation state outside the air latch *)

(** The clip the horizontal speed of the body asks for: [move] above
    [MOVE_SPEED_THRESHOLD], [idle] otherwise. *)
Definition speedAction (cfg : Config) (p : Body) : AnimName :=
  if Rgtb (horizSpeed (linearVelocity p)) (MOVE_SPEED_THRESHOLD cfg)
  then move else idle.

(** Whether the action [name] is the current action. *)
Definition isCurrentAction (s : State) (name : AnimName) : bool :=
  match playerCurrentAction s with
  | Some cur => AnimName_eqb cur name
  | None => false
  end.

(** The body [standingBody] moving at 5 along +x, and that body just off
    a ledge: in the air, the latch off and the timer at zero, the
    animation state still [idle]. *)
Definition runningBody : Body :=
  setLinearVelocity (vec3 5 0 0) standingBody.

Definition offLedge : State := set_Player (Some runningBody) airborne.

(** ** Frames on flat ground *)





(** * Properties *)

(** ** Comparisons *)

Lemma Rltb_true a b : Rltb a b = true <-> a < b.
Proof. unfold Rltb; destruct (Rlt_dec a b); split; intros; try easy; lra. Qed.

Lemma Rltb_false a b : Rltb a b = false <-> b <= a.
Proof. unfold Rltb; destruct (Rlt_dec a b); split; intros; try easy; lra. Qed.

Lemma Rleb_true a b : Rleb a b = true <-> a <= b.
Proof. unfold Rleb; destruct (Rle_dec a b); split; intros; try easy; lra. Qed.

Lemma Rleb_false a b : Rleb a b = false <-> b < a.
Proof. unfold Rleb; destruct (Rle_dec a b); split; intros; try easy; lra. Qed.

Lemma Reqb_true a b : Reqb a b = true <-> a = b.
Proof. unfold Reqb; destruct (Req_dec_T a b); split; intros; easy. Qed.

Lemma Reqb_false a b : Reqb a b = false <-> a <> b.
Proof. unfold Reqb; destruct (Req_dec_T a b); split; intros; easy. Qed.

Lemma AnimName_eqb_eq a b : AnimName_eqb a b = true <-> a = b.
Proof. destruct a, b; simpl; split; intros; congruence. Qed.


(** ** Tactics *)

(** Turns the boolean comparisons of the hypotheses and of the goal into
    propositions. *)
Ltac rbool :=
  repeat match goal with
  | H : Rltb _ _ = true |- _ => apply Rltb_true in H
  | H : Rltb _ _ = false |- _ => apply Rltb_false in H
  | H : Rleb _ _ = true |- _ => apply Rleb_true in H
  | H : Rleb _ _ = false |- _ => apply Rleb_false in H
  | H : Reqb _ _ = true |- _ => apply Reqb_true in H
  | H : Reqb _ _ = false |- _ => apply Reqb_false in H
  | H : Rgtb _ _ = _ |- _ => unfold Rgtb in H
  | H : Rgeb _ _ = _ |- _ => unfold Rgeb in H
  end.

(** Case analysis on a comparison, keeping the fact. *)
Ltac case_R c :=
  let E := fresh "E" in
  destruct c eqn:E; rbool.

(** ** The grounded test *)

(** The test reads the contact flag, the origin of the motion state and the
    world, and nothing else. *)
Lemma isGrounded_ext cfg s s' p p' :
  playerGrounded s' = playerGrounded s ->
  physicsWorld s' = physicsWorld s ->
  Player s = Some p -> Player s' = Some p' ->
  origin (motionState p') = origin (motionState p) ->
  isGrounded cfg s' = isGrounded cfg s.
Proof.
  intros Hg Hw Hp Hp' Ho.
  unfold isGrounded, isGroundedRay.
  rewrite Hg, Hw, Hp, Hp', Ho. reflexivity.
Qed.

Lemma isGrounded_total cfg s p w :
  Player s = Some p -> physicsWorld s = Some w ->
  exists g, isGrounded cfg s = Some g.
Proof.
  intros Hp Hw. unfold isGrounded, isGroundedRay. rewrite Hp, Hw.
  destruct (playerGrounded s); eauto.
Qed.

Lemma isGrounded_flag cfg s g :
  playerGrounded s = true -> isGrounded cfg s = Some g -> g = true.
Proof.
  intros Hg. unfold isGrounded. rewrite Hg. congruence.
Qed.

(** ** [handleInput] up to the climb gating *)

Lemma turn_spec cfg s delta dt p :
  Player s = Some p ->
  exists p',
    turn cfg s delta dt = Some (set_Player (Some p') s)
    /\ motionState p' = motionState p
    /\ linearVelocity p' = linearVelocity p
    /\ origin (worldTransform p') = origin (worldTransform p).
Proof.
  intros Hp. unfold turn. rewrite Hp. eexists. split; [reflexivity|].
  repeat split.
Qed.

Lemma set_Player_id s p : Player s = Some p -> set_Player (Some p) s = s.
Proof. destruct s; simpl; intros ->; reflexivity. Qed.

Lemma tickTimers_fields s dt :
  Player (tickTimers s dt) = Player s
  /\ physicsWorld (tickTimers s dt) = physicsWorld s
  /\ keys (tickTimers s dt) = keys s
  /\ playerGrounded (tickTimers s dt) = playerGrounded s
  /\ playerOnWall (tickTimers s dt) = playerOnWall s
  /\ playerWallNormal (tickTimers s dt) = playerWallNormal s
  /\ playerClimbing (tickTimers s dt) = playerClimbing s
  /\ spaceWasDown (tickTimers s dt) = spaceWasDown s.
Proof.
  unfold tickTimers.
  destruct (Rgtb (climbExitTimer s) 0); simpl;
    match goal with |- context [Rgtb ?a 0] => destruct (Rgtb a 0) end;
    simpl; repeat split.
Qed.

(** With a player body and a grounded test that does not fault, the first
    part of [handleInput] does not fault; it leaves the contact flags and
    the climb flag as they were, and its grounded test is the one of the
    incoming state. *)
Lemma beforeClimbGate_spec cfg s dt p grounded :
  Player s = Some p -> isGrounded cfg s = Some grounded ->
  exists s4 p4,
    beforeClimbGate cfg s dt = Some (s4, grounded, readMoveAxis s)
    /\ isGrounded cfg s4 = Some grounded
    /\ Player s4 = Some p4
    /\ motionState p4 = motionState p
    /\ linearVelocity p4 = linearVelocity p
    /\ physicsWorld s4 = physicsWorld s
    /\ keys s4 = keys s
    /\ spaceWasDown s4 = spaceWasDown s
    /\ playerGrounded s4 = playerGrounded s
    /\ playerOnWall s4 = playerOnWall s
    /\ playerWallNormal s4 = playerWallNormal s
    /\ playerClimbing s4 = playerClimbing s
    /\ climbExitTimer s4 = climbExitTimer (tickTimers s dt)
    /\ climbAnimGrace s4 = climbAnimGrace (tickTimers s dt)
    /\ s4 = set_lastMoveAxis (readMoveAxis s)
              (set_Player (Some p4) (tickTimers s dt)).
Proof.
  intros Hp Hgs.
  destruct (tickTimers_fields s dt)
    as (Tp & Tw & Tk & Tg & To & Tn & Tc & Tsp).
  unfold beforeClimbGate.
  remember (tickTimers s dt) as s1 eqn:Es1.
  assert (H2 : exists s2 p2,
             (if keyDown s1 "ArrowLeft" || keyDown s1 "KeyA"
              then turn cfg s1 (TURN_SPEED cfg) dt else Some s1)
             = Some s2
             /\ s2 = set_Player (Some p2) s1
             /\ motionState p2 = motionState p
             /\ linearVelocity p2 = linearVelocity p).
  { destruct (keyDown s1 "ArrowLeft" || keyDown s1 "KeyA").
    - destruct (turn_spec cfg s1 (TURN_SPEED cfg) dt p) as (p' & -> & ? & ? & ?).
      { congruence. }
      eauto 10.
    - exists s1, p. repeat split; try reflexivity.
      symmetry. apply set_Player_id. congruence. }
  destruct H2 as (s2 & p2 & -> & -> & Hm2 & Hv2).
  assert (H3 : exists p3,
             (if keyDown s1 "ArrowRight" || keyDown s1 "KeyD"
              then turn cfg (set_Player (Some p2) s1) (- TURN_SPEED cfg) dt
              else Some (set_Player (Some p2) s1))
             = Some (set_Player (Some p3) s1)
             /\ motionState p3 = motionState p
             /\ linearVelocity p3 = linearVelocity p).
  { match goal with |- context [if ?c then _ else _] => destruct c end.
    - unfold turn. simpl. eexists. split; [reflexivity|]. simpl. split; congruence.
    - exists p2. auto. }
  destruct H3 as (p3 & -> & Hm3 & Hv3).
  assert (Hax : readMoveAxis (set_Player (Some p3) s1) = readMoveAxis s).
  { unfold readMoveAxis, keyDown. simpl. rewrite Tk. reflexivity. }
  rewrite Hax.
  set (s4 := set_lastMoveAxis (readMoveAxis s) (set_Player (Some p3) s1)).
  assert (Hg : isGrounded cfg s4 = isGrounded cfg s).
  { apply (isGrounded_ext cfg s s4 p p3); simpl; congruence. }
  rewrite Hg, Hgs.
  exists s4, p3. rewrite Hg. subst s4 s1. simpl.
  repeat split; auto; try congruence;
    destruct (tickTimers_fields s dt) as (? & ? & ? & ? & ? & ? & ? & ?);
    congruence.
Qed.

(** ** The climb state machine *)

Lemma wallOkPhysics_true cfg s :
  wallOkPhysics cfg s = true <->
  playerOnWall s = true
  /\ WALL_CLIMB_MIN_NORMAL cfg <= V3.length (playerWallNormal s).
Proof.
  unfold wallOkPhysics, Rgeb. rewrite andb_true_iff, Rleb_true. tauto.
Qed.

Lemma canAttemptClimb_true s grounded moveAxis :
  canAttemptClimb s grounded moveAxis = true <->
  grounded = false /\ 0 < moveAxis /\ climbExitTimer s <= 0.
Proof.
  unfold canAttemptClimb, Rgtb.
  rewrite !andb_true_iff, negb_true_iff, Rltb_true, Rleb_true. tauto.
Qed.

Lemma climbGate_enters cfg s grounded moveAxis :
  playerClimbing s = false ->
  (playerClimbing (climbGate cfg s grounded moveAxis) = true
   <-> climbEntry cfg s grounded moveAxis).
Proof.
  intros Hc. unfold climbGate, climbEntry. rewrite Hc.
  destruct (canAttemptClimb s grounded moveAxis && wallOkPhysics cfg s) eqn:E.
  - apply andb_true_iff in E. destruct E as [E1 E2].
    apply canAttemptClimb_true in E1. apply wallOkPhysics_true in E2.
    simpl. tauto.
  - rewrite Hc. split; [discriminate|].
    intros (H1 & H2 & H3 & H4).
    apply andb_false_iff in E. destruct E as [E|E].
    + assert (canAttemptClimb s grounded moveAxis = true)
        by (apply canAttemptClimb_true; tauto).
      congruence.
    + assert (wallOkPhysics cfg s = true)
        by (apply wallOkPhysics_true; tauto).
      congruence.
Qed.

(** The gating writes the climb flag and the grace timer only. *)
Lemma climbGate_fields cfg s grounded moveAxis :
  let s' := climbGate cfg s grounded moveAxis in
  Player s' = Player s
  /\ physicsWorld s' = physicsWorld s
  /\ keys s' = keys s
  /\ spaceWasDown s' = spaceWasDown s
  /\ playerGrounded s' = playerGrounded s
  /\ playerOnWall s' = playerOnWall s
  /\ playerWallNormal s' = playerWallNormal s
  /\ climbExitTimer s' = climbExitTimer s.
Proof.
  unfold climbGate.
  repeat match goal with
         | |- context [if ?c then _ else _] => destruct c
         end; simpl; repeat split.
Qed.

(** ** The movement integrator *)

Lemma getPlayerBasis_total s p :
  Player s = Some p -> exists fr, getPlayerBasis s = Some fr.
Proof. intros Hp. unfold getPlayerBasis. rewrite Hp. eauto. Qed.

(** With a body and a grounded test that does not fault, the integrator
    writes the velocity and friction of [movementVelocity] to the body,
    wakes it, and leaves the rest of the state alone. *)
Lemma applyCharacterMovement_spec cfg s moveAxis0 dt p grounded fwd rgt :
  Player s = Some p ->
  isGrounded cfg s = Some grounded ->
  getPlayerBasis s = Some (fwd, rgt) ->
  let vf :=
    movementVelocity cfg s p fwd rgt grounded
      (midairAxis cfg grounded moveAxis0) dt in
  applyCharacterMovement cfg s moveAxis0 dt =
  Some (set_Player
          (Some (activate (setLinearVelocity (fst vf) (setFriction (snd vf) p))))
          s).
Proof.
  intros Hp Hg Hb vf.
  unfold applyCharacterMovement, effectiveMoveAxis.
  assert (Hm : (if PLAYER_MOVE_MIDAIR cfg then Some moveAxis0
                else let? g := isGrounded cfg s in
                     Some (if g then moveAxis0 else 0))
               = Some (midairAxis cfg grounded moveAxis0)).
  { unfold midairAxis. rewrite Hg. destruct (PLAYER_MOVE_MIDAIR cfg); reflexivity. }
  rewrite Hm, Hp, Hb, Hg. fold vf. destruct vf as [v fr]. reflexivity.
Qed.

(** ** [handleInput] after the climb gating *)

Lemma applyWallClimb_spec cfg s p :
  Player s = Some p ->
  exists p', applyWallClimb cfg s = Some (set_Player (Some p') s)
    /\ motionState p' = motionState p
    /\ linearVelocity p' =
       vec3 (x (playerWallNormal s) * - WALL_CLIMB_STICK_SPEED cfg)
            (WALL_CLIMB_SPEED cfg)
            (z (playerWallNormal s) * - WALL_CLIMB_STICK_SPEED cfg).
Proof.
  intros Hp. unfold applyWallClimb. rewrite Hp. eexists.
  split; [reflexivity|]. simpl. split; reflexivity.
Qed.

(** The movement branch: with a body and a grounded test that does not
    fault it does not fault, and it writes the body only. *)
Lemma movementBranch_spec cfg s moveAxis dt p g :
  Player s = Some p -> isGrounded cfg s = Some g ->
  exists p',
    (if negb (playerClimbing s)
     then applyCharacterMovement cfg s moveAxis dt
     else applyWallClimb cfg s) = Some (set_Player (Some p') s)
    /\ motionState p' = motionState p.
Proof.
  intros Hp Hg.
  destruct (playerClimbing s); simpl.
  - destruct (applyWallClimb_spec cfg s p Hp) as (p' & -> & Hm & _). eauto.
  - destruct (getPlayerBasis_total s p Hp) as ([fwd rgt] & Hb).
    rewrite (applyCharacterMovement_spec cfg s moveAxis dt p g fwd rgt Hp Hg Hb).
    eexists. split; [reflexivity|]. reflexivity.
Qed.

(** The jump block, case by case. *)
Lemma jumpBlock_spec cfg s grounded p :
  Player s = Some p ->
  exists call s',
    jumpBlock cfg s grounded = Some (call, s')
    /\ spaceWasDown s' = keyDown s "Space"
    /\ keys s' = keys s
    /\ (call = WallJumped <->
        keyDown s "Space" = true /\ spaceWasDown s = false
        /\ playerClimbing s = true)
    /\ (call = Jumped <->
        keyDown s "Space" = true /\ spaceWasDown s = false
        /\ playerClimbing s = false /\ grounded = true)
    /\ (call = NoJump -> s' = set_spaceWasDown (keyDown s "Space") s)
    /\ (playerClimbing s' = true -> playerClimbing s = true /\ call = NoJump)
    /\ (call = NoJump -> playerClimbing s' = playerClimbing s).
Proof.
  intros Hp. unfold jumpBlock, wallJumpOff, jump. rewrite Hp.
  destruct (keyDown s "Space"), (spaceWasDown s), (playerClimbing s) eqn:Ec,
    grounded; simpl;
    eexists; eexists; (split; [reflexivity|]); simpl;
    repeat split; intros; try congruence; try tauto;
    repeat match goal with H : _ /\ _ |- _ => destruct H end;
    try congruence.
Qed.

(** [handleInput] with a body and a grounded test that does not fault: it
    does not fault, and it is the first part, the gating, the movement
    branch and the jump block, one after the other. *)
Lemma handleInputCall_spec cfg s dt p grounded :
  Player s = Some p -> isGrounded cfg s = Some grounded ->
  exists s4 p6,
    beforeClimbGate cfg s dt = Some (s4, grounded, readMoveAxis s)
    /\ playerGrounded s4 = playerGrounded s
    /\ playerClimbing s4 = playerClimbing s
    /\ playerOnWall s4 = playerOnWall s
    /\ playerWallNormal s4 = playerWallNormal s
    /\ climbExitTimer s4 = climbExitTimer (tickTimers s dt)
    /\ keys s4 = keys s
    /\ spaceWasDown s4 = spaceWasDown s
    /\ handleInputCall cfg s dt =
       jumpBlock cfg
         (set_Player (Some p6) (climbGate cfg s4 grounded (readMoveAxis s)))
         grounded
    /\ exists p4,
         s4 = set_lastMoveAxis (readMoveAxis s)
                (set_Player (Some p4) (tickTimers s dt)).
Proof.
  intros Hp Hgs.
  destruct (beforeClimbGate_spec cfg s dt p grounded Hp Hgs)
    as (s4 & p4 & Hb & Hg & Hp4 & Hm4 & Hv4 & Hw4 & Hk4 & Hs4 & Hgr4
        & Ho4 & Hn4 & Hc4 & He4 & Ha4 & Hshape).
  unfold handleInputCall. rewrite Hp, Hb.
  destruct (climbGate_fields cfg s4 grounded (readMoveAxis s))
    as (Gp & Gw & _ & _ & Gg & _).
  destruct (movementBranch_spec cfg
              (climbGate cfg s4 grounded (readMoveAxis s))
              (readMoveAxis s) dt p4 grounded) as (p6 & -> & _).
  { congruence. }
  { rewrite <- Hg.
    apply (isGrounded_ext cfg s4 _ p4 p4); congruence. }
  exists s4, p6. repeat split; eauto.
Qed.

(** ** Climb entry *)

(** C1.  On a frame that finds the player not climbing, the climb gating of
    [handleInput] makes the player climb if and only if the four conditions
    hold together at the gating: not grounded, the move axis positive, the
    exit cooldown (after this frame's countdown) at most zero, and on a wall
    with a wall normal of length at least [WALL_CLIMB_MIN_NORMAL].  Each of
    the four, when it fails, blocks the entry whatever the other three are.
    [handleInput] does not fault, and unless the space key is pressed on
    this very frame (a wall jump leaves the climb at once) the player is
    climbing at its end exactly under the same condition. *)
Theorem climb_entry_iff (cfg : Config) (s : State) (dt : R) (p : Body)
    (w : PhysicsWorld) :
  Player s = Some p -> physicsWorld s = Some w -> playerClimbing s = false ->
  exists s4 grounded s',
    beforeClimbGate cfg s dt = Some (s4, grounded, readMoveAxis s)
    /\ isGrounded cfg s = Some grounded
    /\ playerOnWall s4 = playerOnWall s
    /\ playerWallNormal s4 = playerWallNormal s
    /\ climbExitTimer s4 = climbExitTimer (tickTimers s dt)
    /\ (playerClimbing (climbGate cfg s4 grounded (readMoveAxis s)) = true
        <-> climbEntry cfg s4 grounded (readMoveAxis s))
    /\ (grounded = true ->
        playerClimbing (climbGate cfg s4 grounded (readMoveAxis s)) = false)
    /\ (readMoveAxis s <= 0 ->
        playerClimbing (climbGate cfg s4 grounded (readMoveAxis s)) = false)
    /\ (0 < climbExitTimer s4 ->
        playerClimbing (climbGate cfg s4 grounded (readMoveAxis s)) = false)
    /\ (wallOkPhysics cfg s4 = false ->
        playerClimbing (climbGate cfg s4 grounded (readMoveAxis s)) = false)
    /\ handleInput cfg s dt = Some s'
    /\ (keyDown s "Space" && negb (spaceWasDown s) = false ->
        (playerClimbing s' = true
         <-> climbEntry cfg s4 grounded (readMoveAxis s))).
Proof.
  intros Hp Hw Hc.
  destruct (isGrounded_total cfg s p w Hp Hw) as (g & Hg).
  destruct (handleInputCall_spec cfg s dt p g Hp Hg)
    as (s4 & p6 & Hb & Hgr4 & Hc4 & Ho4 & Hn4 & He4 & Hk4 & Hs4 & Hcall & _).
  rewrite Hc in Hc4.
  pose proof (climbGate_enters cfg s4 g (readMoveAxis s) Hc4) as Hiff.
  set (s5 := climbGate cfg s4 g (readMoveAxis s)) in *.
  assert (Hno : forall P : Prop,
             (climbEntry cfg s4 g (readMoveAxis s) -> ~ P) -> P ->
             playerClimbing s5 = false).
  { intros P HP HPs. destruct (playerClimbing s5) eqn:E; [|reflexivity].
    exfalso. exact (HP (proj1 Hiff eq_refl) HPs). }
  destruct (jumpBlock_spec cfg (set_Player (Some p6) s5) g p6 eq_refl)
    as (call & s' & Hj & Hsp & Hk & Hwj & Hju & Hnj & Hcl & Hnc).
  exists s4, g, s'.
  repeat match goal with |- _ /\ _ => split end; auto.
  - intros Hgt. apply (Hno (g = true)); [|exact Hgt].
    unfold climbEntry. intros (H1 & _). congruence.
  - intros Hm. apply (Hno (readMoveAxis s <= 0)); [|exact Hm].
    unfold climbEntry. intros (_ & H2 & _). lra.
  - intros Ht. apply (Hno (0 < climbExitTimer s4)); [|exact Ht].
    unfold climbEntry. intros (_ & _ & H3 & _). lra.
  - intros Hwo. apply (Hno (wallOkPhysics cfg s4 = false)); [|exact Hwo].
    unfold climbEntry. intros (_ & _ & _ & H4) Hf.
    apply wallOkPhysics_true in H4. congruence.
  - unfold handleInput. rewrite Hcall, Hj. reflexivity.
  - intros Hedge. rewrite <- Hiff.
    assert (Hcall' : call = NoJump).
    { destruct (climbGate_fields cfg s4 g (readMoveAxis s))
        as (_ & _ & Gk & Gs & _).
      fold s5 in Gk, Gs.
      assert (Hk6 : keyDown (set_Player (Some p6) s5) "Space" = keyDown s "Space").
      { unfold keyDown. simpl. rewrite Gk, Hk4. reflexivity. }
      assert (Hs6 : spaceWasDown (set_Player (Some p6) s5) = spaceWasDown s).
      { simpl. congruence. }
      rewrite Hk6, Hs6 in Hwj, Hju.
      destruct call; [reflexivity| |].
      - destruct Hju as [Hju _]. destruct (Hju eq_refl) as (A & B & _).
        rewrite A, B in Hedge. discriminate.
      - destruct Hwj as [Hwj _]. destruct (Hwj eq_refl) as (A & B & _).
        rewrite A, B in Hedge. discriminate. }
    rewrite (Hnc Hcall'). simpl. tauto.
Qed.

Lemma climb_entry_iff_witness :
  Player atWall = Some standingBody
  /\ physicsWorld atWall = Some openAir
  /\ playerClimbing atWall = false
  /\ exists s4 grounded s',
    beforeClimbGate defaultConfig atWall (1 / 60)
      = Some (s4, grounded, readMoveAxis atWall)
    /\ isGrounded defaultConfig atWall = Some grounded
    /\ playerOnWall s4 = playerOnWall atWall
    /\ playerWallNormal s4 = playerWallNormal atWall
    /\ climbExitTimer s4 = climbExitTimer (tickTimers atWall (1 / 60))
    /\ (playerClimbing
          (climbGate defaultConfig s4 grounded (readMoveAxis atWall)) = true
        <-> climbEntry defaultConfig s4 grounded (readMoveAxis atWall))
    /\ (grounded = true ->
        playerClimbing
          (climbGate defaultConfig s4 grounded (readMoveAxis atWall)) = false)
    /\ (readMoveAxis atWall <= 0 ->
        playerClimbing
          (climbGate defaultConfig s4 grounded (readMoveAxis atWall)) = false)
    /\ (0 < climbExitTimer s4 ->
        playerClimbing
          (climbGate defaultConfig s4 grounded (readMoveAxis atWall)) = false)
    /\ (wallOkPhysics defaultConfig s4 = false ->
        playerClimbing
          (climbGate defaultConfig s4 grounded (readMoveAxis atWall)) = false)
    /\ handleInput defaultConfig atWall (1 / 60) = Some s'
    /\ (keyDown atWall "Space" && negb (spaceWasDown atWall) = false ->
        (playerClimbing s' = true
         <-> climbEntry defaultConfig s4 grounded (readMoveAxis atWall))).
Proof.
  split; [reflexivity|]. split; [reflexivity|]. split; [reflexivity|].
  apply (climb_entry_iff defaultConfig atWall (1 / 60) standingBody openAir);
    reflexivity.
Defined.

(** ** The contact classifier *)

Lemma withContacts_id s :
  withContacts (playerGrounded s) (playerOnWall s) (playerWallNormal s) s = s.
Proof. destruct s; reflexivity. Qed.

(** One contact point writes the three contact flags only; it never clears
    a flag, and it leaves the vertical component of the accumulated normal
    alone. *)
Lemma classifyContact_shape cfg i0 i1 top s pt :
  exists g o n,
    classifyContact cfg i0 i1 top s pt = withContacts g o n s
    /\ (playerGrounded s = true -> g = true)
    /\ (playerOnWall s = true -> o = true)
    /\ (o = false -> n = playerWallNormal s)
    /\ y n = y (playerWallNormal s).
Proof.
  unfold classifyContact.
  destruct (Rgeb (getDistance pt) 0).
  { exists (playerGrounded s), (playerOnWall s), (playerWallNormal s).
    rewrite withContacts_id. auto. }
  match goal with
  | |- context [if ?c then set_playerGrounded true s else s] => destruct c
  end;
  match goal with
  | |- context [if ?c then _ else _] => destruct c
  end; simpl.
  - eexists true, true, _. split; [reflexivity|]. simpl.
    repeat split; auto; discriminate.
  - exists true, (playerOnWall s), (playerWallNormal s).
    split; [destruct s; reflexivity|]. auto.
  - eexists (playerGrounded s), true, _.
    split; [destruct s; reflexivity|]. simpl.
    repeat split; auto; discriminate.
  - exists (playerGrounded s), (playerOnWall s), (playerWallNormal s).
    rewrite withContacts_id. auto.
Qed.

Lemma classifyContacts_shape cfg i0 i1 top pts : forall s,
  exists g o n,
    fold_left (classifyContact cfg i0 i1 top) pts s = withContacts g o n s
    /\ (playerGrounded s = true -> g = true)
    /\ (playerOnWall s = true -> o = true)
    /\ (o = false -> n = playerWallNormal s)
    /\ y n = y (playerWallNormal s).
Proof.
  induction pts as [|pt pts IH]; intros s; simpl.
  - exists (playerGrounded s), (playerOnWall s), (playerWallNormal s).
    rewrite withContacts_id. auto.
  - destruct (classifyContact_shape cfg i0 i1 top s pt)
      as (g & o & n & -> & Hg & Ho & Hn & Hy).
    destruct (IH (withContacts g o n s))
      as (g' & o' & n' & -> & Hg' & Ho' & Hn' & Hy').
    simpl in *.
    exists g', o', n'. split; [reflexivity|].
    repeat split.
    + auto.
    + auto.
    + intros E. rewrite (Hn' E). apply Hn.
      destruct o; [|reflexivity]. rewrite Ho' in E by reflexivity. discriminate.
    + congruence.
Qed.

Lemma classifyManifolds_shape cfg top ms : forall s,
  exists g o n,
    fold_left (classifyManifold cfg top) ms s = withContacts g o n s
    /\ (playerGrounded s = true -> g = true)
    /\ (playerOnWall s = true -> o = true)
    /\ (o = false -> n = playerWallNormal s)
    /\ y n = y (playerWallNormal s).
Proof.
  induction ms as [|m ms IH]; intros s; simpl.
  - exists (playerGrounded s), (playerOnWall s), (playerWallNormal s).
    rewrite withContacts_id. auto.
  - assert (H : exists g o n,
               classifyManifold cfg top s m = withContacts g o n s
               /\ (playerGrounded s = true -> g = true)
               /\ (playerOnWall s = true -> o = true)
               /\ (o = false -> n = playerWallNormal s)
               /\ y n = y (playerWallNormal s)).
    { unfold classifyManifold.
      destruct (negb (ptr0 m =? playerPtr s)%Z && negb (ptr1 m =? playerPtr s)%Z).
      - exists (playerGrounded s), (playerOnWall s), (playerWallNormal s).
        rewrite withContacts_id. auto.
      - apply classifyContacts_shape. }
    destruct H as (g & o & n & -> & Hg & Ho & Hn & Hy).
    destruct (IH (withContacts g o n s))
      as (g' & o' & n' & -> & Hg' & Ho' & Hn' & Hy').
    simpl in *.
    exists g', o', n'. split; [reflexivity|].
    repeat split.
    + auto.
    + auto.
    + intros E. rewrite (Hn' E). apply Hn.
      destruct o; [|reflexivity]. rewrite Ho' in E by reflexivity. discriminate.
    + congruence.
Qed.

(** The accumulation: when the guard lets the loops run there is a body, and
    the state is the incoming one with new contact flags; off a wall the
    accumulated normal is zero, and its vertical component is always zero. *)
Lemma accumulateContacts_shape cfg s s1 :
  accumulateContacts cfg s = Some s1 ->
  exists g o n,
    s1 = withContacts g o n s
    /\ (o = false -> n = vec3 0 0 0)
    /\ y n = 0
    /\ exists p, Player s = Some p.
Proof.
  unfold accumulateContacts. simpl.
  destruct (Player s) as [p|] eqn:Hp; [|discriminate].
  destruct (dispatcher s) as [ms|]; [|discriminate].
  destruct (playerPtr s =? 0)%Z; [discriminate|].
  intros [= <-].
  match goal with
  | |- context [fold_left ?f ms ?s0] =>
    destruct (classifyManifolds_shape cfg
                (y (origin (worldTransform p)) - PLAYER_HEIGHT cfg / 2
                 + PLAYER_HEIGHT cfg * GROUND_BAND_FRACTION cfg) ms s0)
      as (g & o & n & -> & _ & _ & Hn & Hy)
  end.
  simpl in *. exists g, o, n.
  split; [reflexivity|]. repeat split; eauto.
Qed.

(** ** Vectors *)

Lemma lengthSq_nonneg a : 0 <= V3.lengthSq a.
Proof. unfold V3.lengthSq. nra. Qed.

Lemma length_nonneg a : 0 <= V3.length a.
Proof. apply sqrt_pos. Qed.

Lemma length_sqr a : V3.length a * V3.length a = V3.lengthSq a.
Proof. apply sqrt_sqrt, lengthSq_nonneg. Qed.

Lemma lengthSq_multiplyScalar a k :
  V3.lengthSq (V3.multiplyScalar a k) = V3.lengthSq a * (k * k).
Proof. unfold V3.lengthSq, V3.multiplyScalar. simpl. ring. Qed.

Lemma length_multiplyScalar a k :
  0 <= k -> V3.length (V3.multiplyScalar a k) = V3.length a * k.
Proof.
  intros Hk. unfold V3.length. rewrite lengthSq_multiplyScalar.
  rewrite sqrt_mult_alt by apply lengthSq_nonneg.
  rewrite sqrt_square by exact Hk. reflexivity.
Qed.

(** Order of lengths from order of squared lengths. *)
Lemma length_le_of_sq a b :
  0 <= b -> V3.lengthSq a <= b * b -> V3.length a <= b.
Proof.
  intros Hb H. unfold V3.length.
  rewrite <- (sqrt_square b Hb). apply sqrt_le_1_alt. exact H.
Qed.

(** ** The renormalised wall normal *)

Lemma renormalizeWall_shape s :
  y (playerWallNormal s) = 0 ->
  (playerOnWall s = false -> playerWallNormal s = vec3 0 0 0) ->
  exists n,
    renormalizeWall s = set_playerWallNormal n s
    /\ classifierNormal n
    /\ (V3.length (playerWallNormal s) > 1e-6 ->
        n = V3.multiplyScalar (playerWallNormal s)
              (1 / V3.length (playerWallNormal s)))
    /\ (V3.length (playerWallNormal s) <= 1e-6 -> n = playerWallNormal s).
Proof.
  intros Hy Hoff. unfold renormalizeWall.
  assert (Hset : V3.setY (playerWallNormal s) 0 = playerWallNormal s).
  { destruct (playerWallNormal s) as [a b c]. simpl in *. subst b. reflexivity. }
  destruct (playerOnWall s) eqn:Ho.
  - simpl. rewrite Hset.
    case_R (Rgtb (V3.length (playerWallNormal s)) 1e-6).
    + eexists. split; [reflexivity|]. split; [|split; [reflexivity|lra]].
      split.
      * simpl. rewrite Hy. ring.
      * left. rewrite lengthSq_multiplyScalar.
        rewrite <- length_sqr. field. lra.
    + exists (playerWallNormal s). split; [destruct s; reflexivity|].
      split; [|split; [lra|reflexivity]].
      split; [exact Hy|]. right.
      rewrite <- length_sqr.
      pose proof (length_nonneg (playerWallNormal s)). nra.
  - exists (playerWallNormal s). split; [destruct s; reflexivity|].
    rewrite (Hoff eq_refl).
    assert (Hz : V3.length (vec3 0 0 0) = 0).
    { unfold V3.length, V3.lengthSq. simpl.
      replace (0 * 0 + 0 * 0 + 0 * 0) with 0 by ring. apply sqrt_0. }
    split; [|split; [rewrite Hz; lra|reflexivity]].
    split; [reflexivity|]. right. unfold V3.lengthSq. simpl. lra.
Qed.

(** The classifier: the state it returns is the incoming one with new
    contact flags and, when it found the player grounded, the climb flag
    cleared and the grace timer at zero; the wall normal it leaves is a
    classifier normal. *)
Lemma updatePlayerContacts_shape cfg s :
  exists g o n c a,
    updatePlayerContacts cfg s
    = set_climbAnimGrace a (set_playerClimbing c (withContacts g o n s))
    /\ classifierNormal n
    /\ (g = true -> c = false /\ a = 0 /\ exists p, Player s = Some p)
    /\ (g = false -> c = playerClimbing s /\ a = climbAnimGrace s).
Proof.
  unfold updatePlayerContacts.
  destruct (accumulateContacts cfg s) as [s1|] eqn:Hacc.
  - destruct (accumulateContacts_shape cfg s s1 Hacc)
      as (g & o & n & -> & Hn & Hy & Hp).
    destruct (renormalizeWall_shape (withContacts g o n s)) as (n' & -> & Hc & _).
    { exact Hy. }
    { simpl. exact Hn. }
    unfold landingOverride. simpl.
    destruct g.
    + exists true, o, n', false, 0. split; [reflexivity|].
      split; [exact Hc|]. split; [auto|discriminate].
    + exists false, o, n', (playerClimbing s), (climbAnimGrace s).
      split; [destruct s; reflexivity|].
      split; [exact Hc|]. split; [discriminate|auto].
  - exists false, false, (vec3 0 0 0), (playerClimbing s), (climbAnimGrace s).
    split; [destruct s; reflexivity|].
    split.
    + split; [reflexivity|]. right. unfold V3.lengthSq. simpl. lra.
    + split; [discriminate|auto].
Qed.

(** ** The fields [handleInput] writes *)

Lemma tickTimers_shape s dt :
  tickTimers s dt =
  set_climbAnimGrace (climbAnimGrace (tickTimers s dt))
    (set_climbExitTimer (climbExitTimer (tickTimers s dt)) s).
Proof.
  unfold tickTimers.
  destruct (Rgtb (climbExitTimer s) 0); simpl;
    match goal with |- context [Rgtb ?a 0] => destruct (Rgtb a 0) end;
    destruct s; reflexivity.
Qed.

Lemma climbGate_shape cfg s grounded moveAxis :
  climbGate cfg s grounded moveAxis =
  set_climbAnimGrace (climbAnimGrace (climbGate cfg s grounded moveAxis))
    (set_playerClimbing (playerClimbing (climbGate cfg s grounded moveAxis)) s).
Proof.
  unfold climbGate.
  destruct (playerClimbing s) eqn:Ec;
    repeat match goal with
           | |- context [if ?c then _ else _] => destruct c
           end; destruct s; simpl in *; subst; reflexivity.
Qed.

(** Grounded, the gating never leaves the player climbing. *)
Lemma climbGate_grounded cfg s moveAxis :
  playerClimbing (climbGate cfg s true moveAxis) = false.
Proof.
  unfold climbGate, canAttemptClimb. simpl.
  destruct (playerClimbing s) eqn:Ec; simpl; [reflexivity|exact Ec].
Qed.

Lemma jumpBlock_shape cfg s grounded p :
  Player s = Some p ->
  exists call p' c e a,
    jumpBlock cfg s grounded
    = Some (call,
            set_spaceWasDown (keyDown s "Space")
              (set_climbExitTimer e
                 (set_climbAnimGrace a
                    (set_playerClimbing c (set_Player (Some p') s)))))
    /\ (call = WallJumped <->
        keyDown s "Space" = true /\ spaceWasDown s = false
        /\ playerClimbing s = true)
    /\ (call = Jumped <->
        keyDown s "Space" = true /\ spaceWasDown s = false
        /\ playerClimbing s = false /\ grounded = true)
    /\ c = match call with WallJumped => false | _ => playerClimbing s end
    /\ motionState p' = motionState p.
Proof.
  intros Hp. unfold jumpBlock, wallJumpOff, jump. rewrite Hp.
  destruct (keyDown s "Space"), (spaceWasDown s) eqn:Es,
    (playerClimbing s) eqn:Ec, grounded; simpl.
  all: try (exists NoJump, p, (playerClimbing s), (climbExitTimer s),
              (climbAnimGrace s);
            split; [destruct s; simpl in *; subst; reflexivity|];
            rewrite Ec;
            repeat split; intros; try congruence; try tauto;
            repeat match goal with H : _ /\ _ |- _ => destruct H end;
            congruence).
  all: eexists _, _, _, _, _;
    (split; [reflexivity|]);
    simpl; repeat split; intros; try congruence; try tauto;
    repeat match goal with H : _ /\ _ |- _ => destruct H end;
    try congruence.
Qed.

(** [handleInput] with a body and a grounded test that does not fault: it
    returns the incoming state with six fields written. *)
Lemma handleInputCall_shape cfg s dt p grounded :
  Player s = Some p -> isGrounded cfg s = Some grounded ->
  exists s4 call p' c e a,
    beforeClimbGate cfg s dt = Some (s4, grounded, readMoveAxis s)
    /\ handleInputCall cfg s dt
       = Some (call,
               inputWrites p' c e a (readMoveAxis s) (keyDown s "Space") s)
    /\ (call = WallJumped <->
        keyDown s "Space" = true /\ spaceWasDown s = false
        /\ playerClimbing (climbGate cfg s4 grounded (readMoveAxis s)) = true)
    /\ (call = Jumped <->
        keyDown s "Space" = true /\ spaceWasDown s = false
        /\ playerClimbing (climbGate cfg s4 grounded (readMoveAxis s)) = false
        /\ grounded = true)
    /\ c = match call with
           | WallJumped => false
           | _ => playerClimbing (climbGate cfg s4 grounded (readMoveAxis s))
           end
    /\ motionState p' = motionState p
    /\ playerClimbing s4 = playerClimbing s
    /\ climbAnimGrace s4 = climbAnimGrace (tickTimers s dt)
    /\ climbExitTimer s4 = climbExitTimer (tickTimers s dt)
    /\ playerOnWall s4 = playerOnWall s
    /\ playerWallNormal s4 = playerWallNormal s.
Proof.
  intros Hp Hgs.
  destruct (beforeClimbGate_spec cfg s dt p grounded Hp Hgs)
    as (s4 & p4 & Hb & Hg & Hp4 & Hm4 & Hv4 & Hw4 & Hk4 & Hs4 & Hgr4
        & Ho4 & Hn4 & Hc4 & He4 & Ha4 & Hshape).
  unfold handleInputCall. rewrite Hp, Hb.
  set (s5 := climbGate cfg s4 grounded (readMoveAxis s)).
  destruct (climbGate_fields cfg s4 grounded (readMoveAxis s))
    as (Gp & Gw & Gk & Gs & Gg & _).
  fold s5 in Gp, Gw, Gk, Gs, Gg.
  destruct (movementBranch_spec cfg s5 (readMoveAxis s) dt p4 grounded)
    as (p6 & -> & Hm6).
  { congruence. }
  { rewrite <- Hg. apply (isGrounded_ext cfg s4 _ p4 p4); congruence. }
  destruct (jumpBlock_shape cfg (set_Player (Some p6) s5) grounded p6 eq_refl)
    as (call & p' & c & e & a & -> & Hwj & Hju & Hc & Hm').
  assert (Hk6 : keyDown (set_Player (Some p6) s5) "Space" = keyDown s "Space").
  { unfold keyDown. simpl. rewrite Gk, Hk4. reflexivity. }
  rewrite Hk6 in *. simpl in Hwj, Hju, Hc.
  rewrite Gs, Hs4 in Hwj, Hju.
  exists s4, call, p', c, e, a.
  split; [reflexivity|]. split.
  - f_equal. f_equal. unfold inputWrites. subst s5.
    rewrite (climbGate_shape cfg s4 grounded (readMoveAxis s)).
    rewrite Hshape. rewrite (tickTimers_shape s dt).
    destruct s; reflexivity.
  - repeat split; try tauto; try congruence.
Qed.

(** ** The fields the animation selector writes *)

Lemma playPlayerAction_shape cfg s name immediate :
  exists ca cs ef,
    playPlayerAction cfg s name immediate
    = set_playerCurrentState cs
        (set_playerCurrentAction ca (set_effects ef s))
    /\ (cs = playerCurrentState s \/ cs = name).
Proof.
  destruct s. unfold playPlayerAction. simpl.
  repeat match goal with
         | |- context [match ?c with _ => _ end] => destruct c
         end; eexists _, _, _; (split; [reflexivity|]); simpl; auto.
Qed.

Lemma applyMoveAnimDirection_shape s dir force :
  exists md ef,
    applyMoveAnimDirection s dir force
    = set_moveAnimDir md (set_effects ef s).
Proof.
  destruct s. unfold applyMoveAnimDirection. simpl.
  repeat match goal with
         | |- context [if ?c then _ else _] => destruct c
         end; eexists _, _; reflexivity.
Qed.

(** The grounding gate, in closed form. *)
Lemma animGroundingGate_shape cfg s grounded dt :
  animGroundingGate cfg s grounded dt =
  if grounded then set_animAirTimer 0 (set_animInAir false s)
  else set_animAirTimer (animAirTimer s + dt)
         (set_animInAir
            (animInAir s || Rgeb (animAirTimer s + dt) (ANIM_AIR_MIN_TIME cfg))
            s).
Proof.
  unfold animGroundingGate. destruct grounded; [reflexivity|]. simpl.
  destruct (animInAir s) eqn:Ei; simpl.
  - destruct s; simpl in *; subst; reflexivity.
  - destruct (Rgeb (animAirTimer s + dt) (ANIM_AIR_MIN_TIME cfg));
      destruct s; simpl in *; subst; reflexivity.
Qed.

Lemma selectAction_shape cfg s p :
  exists ca cs md ef,
    selectAction cfg s p
    = set_effects ef
        (set_moveAnimDir md
           (set_playerCurrentState cs (set_playerCurrentAction ca s)))
    /\ (cs = playerCurrentState s \/ cs = desiredAction cfg s p).
Proof.
  unfold selectAction.
  set (desired := desiredAction cfg s p). clearbody desired.
  set (s2 := if negb (AnimName_eqb desired (playerCurrentState s))
             then _ else _).
  assert (H2 : exists ca cs ef,
             s2 = set_playerCurrentState cs
                    (set_playerCurrentAction ca (set_effects ef s))
             /\ (cs = playerCurrentState s \/ cs = desired)).
  { subst s2.
    destruct (negb (AnimName_eqb desired (playerCurrentState s))).
    - apply playPlayerAction_shape.
    - exists (playerCurrentAction s), (playerCurrentState s), (effects s).
      split; [destruct s; reflexivity|auto]. }
  clearbody s2.
  destruct H2 as (ca & cs & ef & H2 & Hcs).
  match goal with |- exists _ _ _ _, ?s3 = _ /\ _ =>
    assert (H3 : exists md ef', s3 = set_moveAnimDir md (set_effects ef' s2))
  end.
  { destruct (AnimName_eqb desired move).
    - apply applyMoveAnimDirection_shape.
    - destruct (negb (Reqb (moveAnimDir s2) 1)).
      + apply applyMoveAnimDirection_shape.
      + exists (moveAnimDir s2), (effects s2). destruct s2; reflexivity. }
  destruct H3 as (md & ef' & H3).
  exists ca, cs, md, ef'. rewrite H3, H2. split; [reflexivity|exact Hcs].
Qed.

(** Without a body or without a mixer the selector does nothing. *)
Lemma updatePlayerAnimationState_absent cfg s dt :
  Player s = None \/ playerMixer s = false ->
  updatePlayerAnimationState cfg s dt = Some s.
Proof.
  unfold updatePlayerAnimationState.
  intros [H|H]; rewrite H; [reflexivity|].
  destruct (Player s); reflexivity.
Qed.

(** During a climb, or within its grace, the latch and its timer are
    reset. *)
Lemma updatePlayerAnimationState_climb cfg s dt p :
  Player s = Some p -> playerMixer s = true ->
  playerClimbing s || Rgtb (climbAnimGrace s) 0 = true ->
  exists ca cs md ef,
    updatePlayerAnimationState cfg s dt
    = Some (animWrites false 0 ca cs md ef s).
Proof.
  intros Hp Hm Hc. unfold updatePlayerAnimationState.
  rewrite Hp, Hm, Hc. simpl.
  match goal with |- context [if ?c then _ else _] => destruct c end.
  - destruct (playPlayerAction_shape cfg
                (set_animAirTimer 0 (set_animInAir false s)) climb false)
      as (ca & cs & ef & -> & _).
    exists ca, cs, (moveAnimDir s), ef. reflexivity.
  - exists (playerCurrentAction s), (playerCurrentState s), (moveAnimDir s),
      (effects s). reflexivity.
Qed.

(** Outside a climb, the latch and its timer go through the grounding gate,
    and the state becomes the clip asked for, or stays. *)
Lemma updatePlayerAnimationState_gate cfg s dt p grounded :
  Player s = Some p -> playerMixer s = true ->
  playerClimbing s || Rgtb (climbAnimGrace s) 0 = false ->
  isGrounded cfg s = Some grounded ->
  let s1 := animGroundingGate cfg s grounded dt in
  exists ca cs md ef,
    updatePlayerAnimationState cfg s dt
    = Some (animWrites (animInAir s1) (animAirTimer s1) ca cs md ef s)
    /\ (cs = playerCurrentState s \/ cs = desiredAction cfg s1 p).
Proof.
  intros Hp Hm Hc Hg s1.
  unfold updatePlayerAnimationState. rewrite Hp, Hm, Hc, Hg. cbn [negb].
  fold s1.
  destruct (selectAction_shape cfg s1 p) as (ca & cs & md & ef & -> & Hcs).
  exists ca, cs, md, ef. split.
  - subst s1. rewrite animGroundingGate_shape.
    destruct grounded; reflexivity.
  - subst s1. rewrite animGroundingGate_shape in Hcs |- *.
    destruct grounded; simpl in Hcs |- *; exact Hcs.
Qed.

(** The selector does not fault when the grounded test does not, and it
    writes its own fields only. *)
Lemma updatePlayerAnimationState_total cfg s dt :
  (Player s = None \/ exists g, isGrounded cfg s = Some g) ->
  exists ia at_ ca cs md ef,
    updatePlayerAnimationState cfg s dt
    = Some (animWrites ia at_ ca cs md ef s).
Proof.
  intros H.
  assert (Hid : exists ia at_ ca cs md ef,
             Some s = Some (animWrites ia at_ ca cs md ef s)).
  { exists (animInAir s), (animAirTimer s), (playerCurrentAction s),
      (playerCurrentState s), (moveAnimDir s), (effects s).
    f_equal. destruct s; reflexivity. }
  destruct (Player s) as [p|] eqn:Hp.
  - destruct (playerMixer s) eqn:Hm.
    + destruct (playerClimbing s || Rgtb (climbAnimGrace s) 0) eqn:Hc.
      * destruct (updatePlayerAnimationState_climb cfg s dt p Hp Hm Hc)
          as (ca & cs & md & ef & ->). eauto 10.
      * destruct H as [H|[g Hg]]; [discriminate|].
        destruct (updatePlayerAnimationState_gate cfg s dt p g Hp Hm Hc Hg)
          as (ca & cs & md & ef & -> & _). eauto 10.
    + rewrite updatePlayerAnimationState_absent by auto. exact Hid.
  - rewrite updatePlayerAnimationState_absent by auto. exact Hid.
Qed.

(** ** The fields the camera writes *)

Arguments clamp : simpl never.
Arguments Rmax : simpl never.
Arguments Rmin : simpl never.

Lemma updateCamera_absent cfg s :
  Player s = None -> updateCamera cfg s = Some s.
Proof. intros H. unfold updateCamera. rewrite H. reflexivity. Qed.

(** A field assignment is computed once the state it applies to is a
    record: innermost first, so that a pile of assignments stays small. *)
Arguments set_camera _ !_ /.
Arguments set_physicsWorld _ !_ /.
Arguments set_dispatcher _ !_ /.
Arguments set_keys _ !_ /.
Arguments set_spaceWasDown _ !_ /.
Arguments set_Player _ !_ /.
Arguments set_playerCurrentAction _ !_ /.
Arguments set_playerCurrentState _ !_ /.
Arguments set_playerGrounded _ !_ /.
Arguments set_playerOnWall _ !_ /.
Arguments set_playerWallNormal _ !_ /.
Arguments set_playerClimbing _ !_ /.
Arguments set_climbExitTimer _ !_ /.
Arguments set_climbAnimGrace _ !_ /.
Arguments set_animInAir _ !_ /.
Arguments set_animAirTimer _ !_ /.
Arguments set_pointerLocked _ !_ /.
Arguments set_cameraYawInitialized _ !_ /.
Arguments set_cameraYaw _ !_ /.
Arguments set_cameraPitch _ !_ /.
Arguments set_cameraDistance _ !_ /.
Arguments set_playerHeightAboveGround _ !_ /.
Arguments set_lastMoveAxis _ !_ /.
Arguments set_moveAnimDir _ !_ /.
Arguments set_effects _ !_ /.

(** Unfolds the groups of field assignments. *)
Ltac unfold_setters :=
  unfold inputWrites, animWrites, cameraWrites, withContacts, log in *;
  simpl.

(** With a body and a camera, [updateCamera] does not fault; it stores the
    height of the body above the ground plane and leaves the pitch clamped
    for that height. *)
Lemma updateCamera_run cfg s p c :
  Player s = Some p -> camera s = Some c ->
  let h := y (origin (motionState p)) - GROUND_PLANE_Y cfg in
  exists cam d yw pt0,
    updateCamera cfg s
    = Some (cameraWrites (Some cam) h d yw
              (clamp pt0 (minPitchAt cfg h) (CAMERA_MAX_PITCH cfg)) true s)
    /\ (cameraYawInitialized s = true ->
        pt0 = cameraPitch s /\ d = cameraDistance s /\ yw = cameraYaw s).
Proof.
  intros Hp Hc h.
  destruct (cameraYawInitialized s) eqn:Hi; destruct s; simpl in *; subst;
    unfold updateCamera, initCameraOrbit; simpl;
    unfold cameraWrites, getDynamicMinPitch, minPitchAt; simpl; subst h;
    unfold_setters;
    eexists _, _, _, _; (split; [reflexivity|]); auto; discriminate.
Qed.

(** ** The frame, stage by stage *)

(** A frame without a world or without a renderer does nothing. *)
Lemma stepCoreCall_idle cfg eng s dt :
  physicsWorld s = None \/ renderer s = false ->
  stepCoreCall cfg eng s dt = Some (NoJump, s).
Proof.
  unfold stepCoreCall. intros [H|H]; rewrite H; [reflexivity|].
  destruct (physicsWorld s); reflexivity.
Qed.

(** A frame without a player body: the physics step, the reset of the
    contact flags, the visual sync, the mixer update and the render. *)
Lemma stepCoreCall_no_player cfg eng s dt w :
  physicsWorld s = Some w -> renderer s = true -> Player s = None ->
  stepCoreCall cfg eng s dt
  = Some (NoJump,
          log Render
            (mixerUpdate dt
               (log SyncVisuals (resetContacts (stepSimulation eng dt s))))).
Proof.
  intros Hw Hr Hp.
  assert (Hc : afterContacts cfg eng s dt
               = resetContacts (stepSimulation eng dt s)).
  { unfold afterContacts, updatePlayerContacts, accumulateContacts. simpl.
    rewrite Hp. reflexivity. }
  remember (resetContacts (stepSimulation eng dt s)) as s2 eqn:Es2.
  assert (Hp2 : Player s2 = None).
  { rewrite Es2. simpl. rewrite Hp. reflexivity. }
  unfold stepCoreCall. rewrite Hw, Hr, Hc.
  unfold handleInputCall. rewrite Hp2.
  unfold frameTail, syncVisualsFromPhysics.
  rewrite updatePlayerAnimationState_absent by (left; exact Hp2).
  rewrite updateCamera_absent; [reflexivity|].
  unfold mixerUpdate. destruct (playerMixer _); exact Hp2.
Qed.

(** The frame as the sequence of its stages. *)
Lemma stepCoreCall_unfold cfg eng s dt w call s3 s5 s7 :
  physicsWorld s = Some w -> renderer s = true ->
  handleInputCall cfg (afterContacts cfg eng s dt) dt = Some (call, s3) ->
  updatePlayerAnimationState cfg (log SyncVisuals s3) dt = Some s5 ->
  updateCamera cfg (mixerUpdate dt s5) = Some s7 ->
  stepCoreCall cfg eng s dt = Some (call, log Render s7).
Proof.
  intros Hw Hr Hin Han Hcam.
  unfold stepCoreCall. rewrite Hw, Hr, Hin.
  unfold frameTail, syncVisualsFromPhysics. rewrite Han, Hcam. reflexivity.
Qed.

(** A frame with a world, a renderer, a player body and a camera does not
    fault.  Its result is the state after the classifier with the writes of
    [handleInput], of the animation selector and of the camera, in that
    order. *)
Lemma stepCoreCall_stages cfg eng s dt w p c :
  physicsWorld s = Some w -> renderer s = true ->
  Player s = Some p -> camera s = Some c ->
  exists s2 grounded s4 call p' cc e a s3 ia at_ ca cs md ef s5 cam d yw pt0 s',
    s2 = afterContacts cfg eng s dt
    /\ isGrounded cfg s2 = Some grounded
    /\ beforeClimbGate cfg s2 dt = Some (s4, grounded, readMoveAxis s2)
    /\ handleInputCall cfg s2 dt = Some (call, s3)
    /\ s3 = inputWrites p' cc e a (readMoveAxis s2) (keyDown s2 "Space") s2
    /\ (call = WallJumped <->
        keyDown s2 "Space" = true /\ spaceWasDown s2 = false
        /\ playerClimbing (climbGate cfg s4 grounded (readMoveAxis s2)) = true)
    /\ (call = Jumped <->
        keyDown s2 "Space" = true /\ spaceWasDown s2 = false
        /\ playerClimbing (climbGate cfg s4 grounded (readMoveAxis s2)) = false
        /\ grounded = true)
    /\ cc = match call with
            | WallJumped => false
            | _ => playerClimbing (climbGate cfg s4 grounded (readMoveAxis s2))
            end
    /\ updatePlayerAnimationState cfg (log SyncVisuals s3) dt = Some s5
    /\ s5 = animWrites ia at_ ca cs md ef (log SyncVisuals s3)
    /\ (cameraYawInitialized s = true -> pt0 = cameraPitch s)
    /\ s' = log Render
              (cameraWrites (Some cam)
                 (y (origin (motionState p')) - GROUND_PLANE_Y cfg) d yw
                 (clamp pt0
                    (minPitchAt cfg
                       (y (origin (motionState p')) - GROUND_PLANE_Y cfg))
                    (CAMERA_MAX_PITCH cfg))
                 true (mixerUpdate dt s5))
    /\ stepCoreCall cfg eng s dt = Some (call, s').
Proof.
  intros Hw Hr Hp Hc.
  destruct (updatePlayerContacts_shape cfg (stepSimulation eng dt s))
    as (g & o & n & c0 & a0 & Hs2 & _).
  remember (updatePlayerContacts cfg (stepSimulation eng dt s)) as s2 eqn:Es2.
  assert (Hp2 : Player s2 = Some (steppedBody eng p)).
  { rewrite Hs2. simpl. rewrite Hp. reflexivity. }
  assert (Hw2 : physicsWorld s2 = Some (steppedWorld eng)).
  { rewrite Hs2. reflexivity. }
  assert (Hc2 : camera s2 = Some c).
  { rewrite Hs2. exact Hc. }
  assert (Hi2 : cameraYawInitialized s2 = cameraYawInitialized s).
  { rewrite Hs2. reflexivity. }
  assert (Hpt2 : cameraPitch s2 = cameraPitch s).
  { rewrite Hs2. reflexivity. }
  clear Hs2.
  destruct (isGrounded_total cfg s2 _ _ Hp2 Hw2) as (gr & Hgr).
  destruct (handleInputCall_shape cfg s2 dt _ gr Hp2 Hgr)
    as (s4 & call & p' & cc & e & a & Hb & Hcall & Hwj & Hju & Hcc & Hm' & _).
  remember (inputWrites p' cc e a (readMoveAxis s2) (keyDown s2 "Space") s2)
    as s3 eqn:Es3.
  assert (Hg3 : isGrounded cfg (log SyncVisuals s3) = Some gr).
  { rewrite <- Hgr.
    apply (isGrounded_ext cfg s2 _ (steppedBody eng p) p');
      try assumption; try (rewrite Es3; reflexivity).
    rewrite Hm'. reflexivity. }
  destruct (updatePlayerAnimationState_total cfg (log SyncVisuals s3) dt)
    as (ia & at_ & ca & cs & md & ef & Hanim); [eauto|].
  remember (animWrites ia at_ ca cs md ef (log SyncVisuals s3)) as s5 eqn:Es5.
  remember (mixerUpdate dt s5) as s6 eqn:Es6.
  assert (Hs6 : Player s6 = Some p' /\ camera s6 = Some c
                /\ cameraYawInitialized s6 = cameraYawInitialized s
                /\ cameraPitch s6 = cameraPitch s).
  { rewrite Es6. unfold mixerUpdate.
    destruct (playerMixer s5); rewrite Es5, Es3; simpl; auto. }
  destruct Hs6 as (Hp6 & Hc6 & Hi6 & Hpt6).
  destruct (updateCamera_run cfg s6 p' c Hp6 Hc6)
    as (cam & d & yw & pt0 & Hcam & Hini).
  eexists s2, gr, s4, call, p', cc, e, a, s3, ia, at_, ca, cs, md, ef, s5,
    cam, d, yw, pt0, _.
  rewrite <- Es6.
  repeat match goal with |- _ /\ _ => split end;
    try eassumption; try reflexivity.
  - intros Hi. rewrite <- Hpt6. apply Hini. rewrite Hi6. exact Hi.
  - apply (stepCoreCall_unfold cfg eng s dt w call s3 s5); auto.
    + unfold afterContacts. rewrite <- Es2. exact Hcall.
    + rewrite <- Es6. exact Hcam.
Qed.

(** ** Evaluation of comparisons between numerals *)

Ltac rdecide :=
  unfold Rgtb, Rgeb in *;
  repeat match goal with
  | |- context [Rltb ?a ?b] =>
    first [ rewrite (proj2 (Rltb_true a b)) by lra
          | rewrite (proj2 (Rltb_false a b)) by lra ]
  | |- context [Rleb ?a ?b] =>
    first [ rewrite (proj2 (Rleb_true a b)) by lra
          | rewrite (proj2 (Rleb_false a b)) by lra ]
  | |- context [Reqb ?a ?b] =>
    first [ rewrite (proj2 (Reqb_true a b)) by lra
          | rewrite (proj2 (Reqb_false a b)) by lra ]
  end.

(** ** Grounding by a contact *)

(** A touching contact in the ground band whose normal points up enough
    grounds the player. *)
Lemma classifyContact_grounds cfg (i0 i1 : bool) top s pt :
  getDistance pt < 0 ->
  y (if i0 then positionWorldOnA pt else positionWorldOnB pt) <= top + 0.05 ->
  GROUND_NORMAL_MIN_Y cfg
  < (if i1 then - y (normalWorldOnB pt) else y (normalWorldOnB pt)) ->
  playerGrounded (classifyContact cfg i0 i1 top s pt) = true.
Proof.
  intros Hd Hy Hn. unfold classifyContact.
  replace (Rgeb (getDistance pt) 0) with false
    by (symmetry; apply Rleb_false; exact Hd).
  match goal with
  | |- context [Rleb ?a ?b && Rgtb ?c ?d] =>
    replace (Rleb a b && Rgtb c d) with true
  end.
  - match goal with
    | |- context [if ?c then _ else _] => destruct c
    end; reflexivity.
  - symmetry. apply andb_true_iff. split.
    + apply Rleb_true. exact Hy.
    + apply Rltb_true. exact Hn.
Qed.

Lemma updatePlayerContacts_flags cfg s s1 :
  accumulateContacts cfg s = Some s1 ->
  playerGrounded (updatePlayerContacts cfg s) = playerGrounded s1
  /\ playerOnWall (updatePlayerContacts cfg s) = playerOnWall s1.
Proof.
  intros Hacc. unfold updatePlayerContacts. rewrite Hacc.
  destruct (accumulateContacts_shape cfg s s1 Hacc)
    as (g & o & n & -> & Hn & Hy & _).
  destruct (renormalizeWall_shape (withContacts g o n s)) as (n' & -> & _).
  { exact Hy. }
  { simpl. exact Hn. }
  unfold landingOverride. simpl. destruct g; split; reflexivity.
Qed.

(** ** Landing overrides climbing *)

Lemma landedWhileClimbing_grounded :
  playerGrounded (updatePlayerContacts defaultConfig landedWhileClimbing)
  = true.
Proof.
  assert (Hacc : accumulateContacts defaultConfig landedWhileClimbing
                 = Some (classifyContact defaultConfig true false
                           (4 - 8 / 2 + 8 * 0.10)
                           (resetContacts landedWhileClimbing) groundContact))
    by reflexivity.
  destruct (updatePlayerContacts_flags _ _ _ Hacc) as [-> _].
  apply classifyContact_grounds; simpl; lra.
Qed.

(** C3.  When the contact classifier finds the player grounded, it leaves
    the climb flag off and the climb grace timer at zero, whatever the wall
    flags and the climb state were before; grounded, the climb gating never
    yields a climbing player; and [handleInput], run on the state the
    classifier leaves, does not fault and ends with the player grounded and
    not climbing. *)
Theorem landing_overrides_climbing (cfg : Config) (s : State) (dt : R) :
  playerGrounded (updatePlayerContacts cfg s) = true ->
  playerClimbing (updatePlayerContacts cfg s) = false
  /\ climbAnimGrace (updatePlayerContacts cfg s) = 0
  /\ (forall s' moveAxis,
        playerClimbing (climbGate cfg s' true moveAxis) = false)
  /\ exists s3,
       handleInput cfg (updatePlayerContacts cfg s) dt = Some s3
       /\ playerGrounded s3 = true
       /\ playerClimbing s3 = false.
Proof.
  intros Hg.
  destruct (updatePlayerContacts_shape cfg s)
    as (g & o & n & c & a & Hs & _ & Hland & _).
  remember (updatePlayerContacts cfg s) as s2 eqn:Es2.
  assert (Hg' : g = true) by (rewrite Hs in Hg; exact Hg).
  destruct (Hland Hg') as (Hc & Ha & p & Hp).
  assert (Hp2 : Player s2 = Some p) by (rewrite Hs; exact Hp).
  assert (Hgr : isGrounded cfg s2 = Some true).
  { unfold isGrounded. rewrite Hg. reflexivity. }
  split; [rewrite Hs; exact Hc|].
  split; [rewrite Hs; exact Ha|].
  split; [intros; apply climbGate_grounded|].
  destruct (handleInputCall_shape cfg s2 dt p true Hp2 Hgr)
    as (s4 & call & p' & cc & e & a' & _ & Hcall & _ & _ & Hcc & _).
  eexists. split.
  - unfold handleInput. rewrite Hcall. reflexivity.
  - simpl. split; [exact Hg|].
    rewrite Hcc, climbGate_grounded. destruct call; reflexivity.
Qed.

Lemma landing_overrides_climbing_witness :
  playerGrounded (updatePlayerContacts defaultConfig landedWhileClimbing)
  = true
  /\ playerClimbing landedWhileClimbing = true
  /\ playerClimbing (updatePlayerContacts defaultConfig landedWhileClimbing)
     = false
  /\ climbAnimGrace (updatePlayerContacts defaultConfig landedWhileClimbing)
     = 0
  /\ (forall s' moveAxis,
        playerClimbing (climbGate defaultConfig s' true moveAxis) = false)
  /\ exists s3,
       handleInput defaultConfig
         (updatePlayerContacts defaultConfig landedWhileClimbing) (1 / 60)
       = Some s3
       /\ playerGrounded s3 = true
       /\ playerClimbing s3 = false.
Proof.
  split; [exact landedWhileClimbing_grounded|].
  split; [reflexivity|].
  apply (landing_overrides_climbing defaultConfig landedWhileClimbing (1 / 60)).
  exact landedWhileClimbing_grounded.
Defined.

(** ** Wall contacts *)

(** A touching contact whose normal is horizontal enough counts as a wall
    contact and adds its unit horizontal normal to the accumulator. *)
Lemma classifyContact_walls cfg (i0 i1 : bool) top s pt :
  let nx := if i1 then - x (normalWorldOnB pt) else x (normalWorldOnB pt) in
  let ny := if i1 then - y (normalWorldOnB pt) else y (normalWorldOnB pt) in
  let nz := if i1 then - z (normalWorldOnB pt) else z (normalWorldOnB pt) in
  getDistance pt < 0 ->
  1e-5 < nx * nx + nz * nz ->
  Rabs ny <= WALL_NORMAL_MAX_Y cfg ->
  playerOnWall (classifyContact cfg i0 i1 top s pt) = true
  /\ playerWallNormal (classifyContact cfg i0 i1 top s pt)
     = vec3 (x (playerWallNormal s) + nx / sqrt (nx * nx + nz * nz))
            (y (playerWallNormal s))
            (z (playerWallNormal s) + nz / sqrt (nx * nx + nz * nz)).
Proof.
  intros nx ny nz Hd Hh Hv. unfold classifyContact.
  replace (Rgeb (getDistance pt) 0) with false
    by (symmetry; apply Rleb_false; exact Hd).
  fold nx ny nz.
  replace (Rgtb (nx * nx + nz * nz) 1e-5 && Rleb (Rabs ny) (WALL_NORMAL_MAX_Y cfg))
    with true.
  - match goal with
    | |- context [if ?c then set_playerGrounded true s else s] => destruct c
    end; split; reflexivity.
  - symmetry. apply andb_true_iff. split.
    + apply Rltb_true. exact Hh.
    + apply Rleb_true. exact Hv.
Qed.

(** In the corner the accumulated wall normal is (18/41, 0, 0). *)
Lemma inCorner_accumulated :
  exists s1,
    accumulateContacts defaultConfig inCorner = Some s1
    /\ playerOnWall s1 = true
    /\ playerWallNormal s1 = vec3 (18 / 41) 0 0.
Proof.
  eexists. split; [reflexivity|].
  assert (Hunit : forall a, a * a = (40 / 41) * (40 / 41) ->
            sqrt (9 / 41 * (9 / 41) + a * a) = 1).
  { intros a Ha. rewrite Ha.
    replace (9 / 41 * (9 / 41) + 40 / 41 * (40 / 41)) with 1 by field.
    apply sqrt_1. }
  set (top := y (origin (worldTransform standingBody))
              - PLAYER_HEIGHT defaultConfig / 2
              + PLAYER_HEIGHT defaultConfig * GROUND_BAND_FRACTION defaultConfig).
  set (sA := classifyContact defaultConfig true false top
               (resetContacts inCorner) cornerContactA).
  destruct (classifyContact_walls defaultConfig true false top
              (resetContacts inCorner) cornerContactA) as [HoA HnA].
  { simpl. lra. }
  { simpl. lra. }
  { simpl. rewrite Rabs_R0. lra. }
  fold sA in HoA, HnA.
  destruct (classifyContact_walls defaultConfig true false top sA cornerContactB)
    as [HoB HnB].
  { simpl. lra. }
  { simpl. lra. }
  { simpl. rewrite Rabs_R0. lra. }
  split; [exact HoB|].
  change (playerWallNormal
            (classifyContact defaultConfig true false top sA cornerContactB)
          = vec3 (18 / 41) 0 0).
  rewrite HnB, HnA. simpl.
  rewrite (Hunit (40 / 41)) by reflexivity.
  rewrite (Hunit (- (40 / 41))) by ring.
  f_equal; field.
Qed.

(** ** The wall confidence *)

Lemma length_x_axis a : 0 <= a -> V3.length (vec3 a 0 0) = a.
Proof.
  intros Ha. unfold V3.length, V3.lengthSq. simpl.
  replace (a * a + 0 * 0 + 0 * 0) with (a * a) by ring.
  apply sqrt_square. exact Ha.
Qed.

Lemma length_of_lengthSq_1 n : V3.lengthSq n = 1 -> V3.length n = 1.
Proof. intros H. unfold V3.length. rewrite H. apply sqrt_1. Qed.

(** The wall normal the classifier stores, from the accumulated one. *)
Lemma updatePlayerContacts_wallNormal cfg s s1 :
  accumulateContacts cfg s = Some s1 ->
  playerOnWall (updatePlayerContacts cfg s) = playerOnWall s1
  /\ classifierNormal (playerWallNormal (updatePlayerContacts cfg s))
  /\ (1e-6 < V3.length (playerWallNormal s1) ->
      playerWallNormal (updatePlayerContacts cfg s)
      = V3.multiplyScalar (playerWallNormal s1)
          (1 / V3.length (playerWallNormal s1))
      /\ V3.length (playerWallNormal (updatePlayerContacts cfg s)) = 1)
  /\ (V3.length (playerWallNormal s1) <= 1e-6 ->
      playerWallNormal (updatePlayerContacts cfg s) = playerWallNormal s1).
Proof.
  intros Hacc. unfold updatePlayerContacts. rewrite Hacc.
  destruct (accumulateContacts_shape cfg s s1 Hacc)
    as (g & o & n & -> & Hn & Hy & _).
  destruct (renormalizeWall_shape (withContacts g o n s))
    as (n' & -> & Hc & Hlong & Hshort).
  { exact Hy. }
  { simpl. exact Hn. }
  simpl in Hlong, Hshort.
  assert (Hl : forall s', playerWallNormal (landingOverride s')
                          = playerWallNormal s'
                          /\ playerOnWall (landingOverride s') = playerOnWall s').
  { intros s'. unfold landingOverride. destruct (playerGrounded s'); auto. }
  rewrite !(proj1 (Hl _)), (proj2 (Hl _)). simpl.
  split; [reflexivity|]. split; [exact Hc|]. split.
  - intros Hgt. split; [apply Hlong; lra|].
    destruct Hc as [_ [H1|H0]].
    + apply length_of_lengthSq_1. exact H1.
    + exfalso. rewrite (Hlong Hgt) in H0.
      rewrite lengthSq_multiplyScalar, <- length_sqr in H0.
      assert (Hone : V3.length n * V3.length n
                     * (1 / V3.length n * (1 / V3.length n)) = 1)
        by (field; lra).
      lra.
  - intros Hle. apply Hshort. exact Hle.
Qed.

(** The length [handleInput] compares with [WALL_CLIMB_MIN_NORMAL] is the
    length of the stored wall normal, and the classifier has renormalised
    that normal before: the compared length is 1 as soon as the
    accumulated normal is longer than 1e-6, and the accumulated length (at
    most 1e-6) otherwise.  How many wall contacts there were, and how
    aligned, does not enter. *)
Theorem wall_confidence_is_renormalized (cfg : Config) (s s1 : State) :
  accumulateContacts cfg s = Some s1 ->
  let l := V3.length (playerWallNormal s1) in
  let s2 := updatePlayerContacts cfg s in
  playerOnWall s2 = playerOnWall s1
  /\ (1e-6 < l -> V3.length (playerWallNormal s2) = 1)
  /\ (l <= 1e-6 -> V3.length (playerWallNormal s2) = l)
  /\ wallOkPhysics cfg s2
     = playerOnWall s1
       && Rgeb (if Rgtb l 1e-6 then 1 else l) (WALL_CLIMB_MIN_NORMAL cfg).
Proof.
  intros Hacc l s2.
  destruct (updatePlayerContacts_wallNormal cfg s s1 Hacc)
    as (Ho & _ & Hlong & Hshort).
  fold s2 in Ho, Hlong, Hshort. fold l in Hlong, Hshort.
  split; [exact Ho|].
  split; [intros H; apply Hlong; exact H|].
  split; [intros H; unfold l; rewrite <- (Hshort H); reflexivity|].
  unfold wallOkPhysics. rewrite Ho. f_equal.
  case_R (Rgtb l 1e-6).
  - rewrite (proj2 (Hlong E)). reflexivity.
  - rewrite (Hshort E). reflexivity.
Qed.

Lemma wall_confidence_is_renormalized_witness :
  exists s1,
    accumulateContacts defaultConfig inCorner = Some s1
    /\ playerOnWall (updatePlayerContacts defaultConfig inCorner)
       = playerOnWall s1
    /\ (1e-6 < V3.length (playerWallNormal s1) ->
        V3.length (playerWallNormal (updatePlayerContacts defaultConfig inCorner))
        = 1)
    /\ (V3.length (playerWallNormal s1) <= 1e-6 ->
        V3.length (playerWallNormal (updatePlayerContacts defaultConfig inCorner))
        = V3.length (playerWallNormal s1))
    /\ wallOkPhysics defaultConfig (updatePlayerContacts defaultConfig inCorner)
       = playerOnWall s1
         && Rgeb (if Rgtb (V3.length (playerWallNormal s1)) 1e-6
                  then 1 else V3.length (playerWallNormal s1))
              (WALL_CLIMB_MIN_NORMAL defaultConfig).
Proof.
  destruct inCorner_accumulated as (s1 & Hacc & _).
  exists s1. split; [exact Hacc|].
  exact (wall_confidence_is_renormalized defaultConfig inCorner s1 Hacc).
Defined.

(** With a threshold above 1e-6 and at most 1 the comparison does not
    depend on the threshold: the wall is good exactly if the player is on
    a wall and the accumulated normal is longer than 1e-6. *)
Lemma wall_threshold_not_graded cfg s s1 :
  accumulateContacts cfg s = Some s1 ->
  1e-6 < WALL_CLIMB_MIN_NORMAL cfg <= 1 ->
  wallOkPhysics cfg (updatePlayerContacts cfg s)
  = playerOnWall s1 && Rgtb (V3.length (playerWallNormal s1)) 1e-6.
Proof.
  intros Hacc [Hlo Hhi].
  destruct (updatePlayerContacts_wallNormal cfg s s1 Hacc)
    as (Ho & _ & Hlong & Hshort).
  unfold wallOkPhysics. rewrite Ho. f_equal.
  case_R (Rgtb (V3.length (playerWallNormal s1)) 1e-6).
  - rewrite (proj2 (Hlong E)). unfold Rgeb. apply Rleb_true. exact Hhi.
  - rewrite (Hshort E). unfold Rgeb. apply Rleb_false. lra.
Qed.

(** C2, at the failing input.  In the corner the accumulated wall normal
    has length 18/41, below the default threshold 0.5: measured before the
    renormalisation, as the claim has it, the wall is not good enough to
    climb.  The code renormalises the normal first, compares its length,
    1, with the threshold, and finds the wall good. *)
Lemma wall_confidence_counterexample :
  exists s1,
    accumulateContacts defaultConfig inCorner = Some s1
    /\ V3.length (playerWallNormal s1) = 18 / 41
    /\ spec_wallConfident defaultConfig s1 = false
    /\ V3.length (playerWallNormal (updatePlayerContacts defaultConfig inCorner))
       = 1
    /\ wallOkPhysics defaultConfig (updatePlayerContacts defaultConfig inCorner)
       = true.
Proof.
  destruct inCorner_accumulated as (s1 & Hacc & Ho & Hn).
  assert (Hl : V3.length (playerWallNormal s1) = 18 / 41).
  { rewrite Hn. apply length_x_axis. lra. }
  destruct (updatePlayerContacts_wallNormal defaultConfig inCorner s1 Hacc)
    as (Ho2 & _ & Hlong & _).
  assert (Hone : V3.length
                   (playerWallNormal (updatePlayerContacts defaultConfig inCorner))
                 = 1)
    by (apply Hlong; rewrite Hl; lra).
  exists s1. split; [exact Hacc|]. split; [exact Hl|]. split.
  - unfold spec_wallConfident. rewrite Ho, Hl. simpl.
    unfold Rgeb. apply Rleb_false. lra.
  - split; [exact Hone|].
    unfold wallOkPhysics. rewrite Ho2, Ho, Hone. simpl.
    unfold Rgeb. apply Rleb_true. lra.
Qed.

(** ** The speed cap *)

Lemma horizSpeed_le_of_sq v b :
  0 <= b -> x v * x v + z v * z v <= b * b -> horizSpeed v <= b.
Proof.
  intros Hb H. unfold horizSpeed.
  rewrite <- (sqrt_square b Hb). apply sqrt_le_1_alt. exact H.
Qed.

(** After the clamp the speed is at most [PLAYER_MAX_SPEED]. *)
Lemma clampSpeed_lengthSq cfg v :
  0 <= PLAYER_MAX_SPEED cfg ->
  V3.lengthSq (clampSpeed cfg v)
  <= PLAYER_MAX_SPEED cfg * PLAYER_MAX_SPEED cfg.
Proof.
  intros Hmax. unfold clampSpeed.
  pose proof (length_nonneg v) as Hl.
  pose proof (length_sqr v) as Hsq.
  case_R (Rgtb (V3.length v) (PLAYER_MAX_SPEED cfg)).
  - rewrite lengthSq_multiplyScalar, <- Hsq.
    apply Req_le. field. lra.
  - rewrite <- Hsq. nra.
Qed.

(** Removing the component along a unit horizontal vector does not
    lengthen the horizontal part, and leaves nothing along that vector. *)
Lemma strip_horizontal v n :
  y n = 0 -> V3.lengthSq n = 1 ->
  let v' := V3.addScaledVector v n (- V3.dot v n) in
  x v' * x v' + z v' * z v' <= x v * x v + z v * z v
  /\ x v' * x n + z v' * z n = 0.
Proof.
  intros Hy Hn v'. subst v'.
  unfold V3.addScaledVector, V3.dot, V3.lengthSq in *. simpl.
  rewrite Hy in *.
  assert (Hn' : x n * x n + z n * z n = 1) by lra.
  set (d := x v * x n + y v * 0 + z v * z n).
  split.
  - replace ((x v + x n * - d) * (x v + x n * - d)
             + (z v + z n * - d) * (z v + z n * - d))
      with (x v * x v + z v * z v
            - d * d * (2 - (x n * x n + z n * z n)))
      by (unfold d; ring).
    rewrite Hn'. assert (0 <= d * d) by nra. lra.
  - replace ((x v + x n * - d) * x n + (z v + z n * - d) * z n)
      with (d * (1 - (x n * x n + z n * z n))) by (unfold d; ring).
    rewrite Hn'. ring.
Qed.

(** The last block, on a classifier normal: the horizontal part does not
    grow. *)
Lemma wallSlideCap_horizontal cfg wallSliding n vy0 v :
  classifierNormal n ->
  let '(vy, v', fr) := wallSlideCap cfg wallSliding n vy0 v in
  x v' * x v' + z v' * z v' <= x v * x v + z v * z v.
Proof.
  intros [Hy Hn]. unfold wallSlideCap.
  destruct wallSliding; simpl; [|lra].
  case_R (Rgtb (V3.lengthSq n) 1e-6); [|lra].
  destruct Hn as [Hn|Hn]; [|lra].
  case_R (Rgtb (V3.dot v n) 0); [|lra].
  apply (strip_horizontal v n Hy Hn).
Qed.

(** The velocity the integrator computes has horizontal speed at most
    [PLAYER_MAX_SPEED], for a classifier normal. *)
Lemma movementVelocity_speed cfg s p fwd rgt grounded moveAxis dt :
  0 <= PLAYER_MAX_SPEED cfg ->
  classifierNormal (playerWallNormal s) ->
  horizSpeed (fst (movementVelocity cfg s p fwd rgt grounded moveAxis dt))
  <= PLAYER_MAX_SPEED cfg.
Proof.
  intros Hmax Hn. unfold movementVelocity.
  match goal with
  | |- context [wallSlideCap cfg ?ws ?n ?vy0 (clampSpeed cfg ?v1)] =>
    pose proof (wallSlideCap_horizontal cfg ws n vy0 (clampSpeed cfg v1) Hn)
      as Hcap;
    pose proof (clampSpeed_lengthSq cfg v1 Hmax) as Hclamp;
    destruct (wallSlideCap cfg ws n vy0 (clampSpeed cfg v1)) as [[vy v'] fr]
  end.
  simpl. apply horizSpeed_le_of_sq; [exact Hmax|]. simpl.
  unfold V3.lengthSq in Hclamp.
  match type of Hclamp with
  | ?a * ?a + ?b * ?b + ?c * ?c <= _ => assert (0 <= b * b) by nra
  end.
  lra.
Qed.

(** C4.  For a state whose wall normal is the one the contact classifier
    left, a speed cap that is not negative, any body, any move axis and any
    time step, the integrator does not fault once the grounded test does
    not, and the velocity it writes to the body has horizontal speed at
    most [PLAYER_MAX_SPEED]; this includes the second strip of the
    into-wall component after the clamp. *)
Theorem speed_cap (cfg : Config) (s0 s : State) (p : Body) (grounded : bool)
    (moveAxis dt : R) :
  0 <= PLAYER_MAX_SPEED cfg ->
  playerWallNormal s = playerWallNormal (updatePlayerContacts cfg s0) ->
  Player s = Some p ->
  isGrounded cfg s = Some grounded ->
  exists s' p',
    applyCharacterMovement cfg s moveAxis dt = Some s'
    /\ Player s' = Some p'
    /\ horizSpeed (linearVelocity p') <= PLAYER_MAX_SPEED cfg.
Proof.
  intros Hmax Hn Hp Hg.
  destruct (getPlayerBasis_total s p Hp) as ([fwd rgt] & Hb).
  rewrite (applyCharacterMovement_spec cfg s moveAxis dt p grounded fwd rgt
             Hp Hg Hb).
  eexists _, _. split; [reflexivity|]. split; [reflexivity|].
  simpl. apply movementVelocity_speed; [exact Hmax|].
  rewrite Hn.
  destruct (updatePlayerContacts_shape cfg s0)
    as (g & o & n & c & a & -> & Hc & _).
  exact Hc.
Qed.

Lemma speed_cap_witness :
  0 <= PLAYER_MAX_SPEED defaultConfig
  /\ playerWallNormal airborne
     = playerWallNormal (updatePlayerContacts defaultConfig airborne)
  /\ Player airborne = Some standingBody
  /\ isGrounded defaultConfig airborne = Some false
  /\ exists s' p',
       applyCharacterMovement defaultConfig airborne 1 (1 / 60) = Some s'
       /\ Player s' = Some p'
       /\ horizSpeed (linearVelocity p') <= PLAYER_MAX_SPEED defaultConfig.
Proof.
  assert (H0 : 0 <= PLAYER_MAX_SPEED defaultConfig) by (simpl; lra).
  split; [exact H0|].
  split; [reflexivity|]. split; [reflexivity|]. split; [reflexivity|].
  apply (speed_cap defaultConfig airborne airborne standingBody false 1
           (1 / 60) H0); reflexivity.
Defined.

(** ** The vertical velocity *)






(** ** The step toward the target *)

Lemma vec3_eta v : vec3 (x v) (y v) (z v) = v.
Proof. destruct v; reflexivity. Qed.

Lemma vec3_eq a b c a' b' c' :
  a = a' -> b = b' -> c = c' -> vec3 a b c = vec3 a' b' c'.
Proof. intros -> -> ->; reflexivity. Qed.


(** The step never moves further than the larger of [maxDelta] and 1e-6. *)
Lemma moveToward_bound current target maxDelta :
  0 <= maxDelta ->
  V3.length (V3.sub (moveToward current target maxDelta) current)
  <= Rmax maxDelta 1e-6.
Proof.
  intros Hm. unfold moveToward.
  set (delta := V3.sub target current).
  assert (Hsub : forall d, V3.sub (V3.add current d) current = d).
  { intros d. unfold V3.sub, V3.add. simpl.
    rewrite <- (vec3_eta d) at 4. apply vec3_eq; ring. }
  rewrite Hsub.
  pose proof (length_nonneg delta) as Hl.
  destruct (Rgtb (V3.length delta) maxDelta) eqn:E1;
    destruct (Rgtb (V3.length delta) 1e-6) eqn:E2; simpl; rbool.
  - rewrite length_multiplyScalar.
    + replace (V3.length delta * (maxDelta / V3.length delta)) with maxDelta
        by (field; lra).
      apply Rmax_l.
    + apply Rmult_le_pos; [exact Hm|].
      apply Rlt_le, Rinv_0_lt_compat. lra.
  - eapply Rle_trans; [exact E2|apply Rmax_r].
  - eapply Rle_trans; [exact E1|apply Rmax_l].
  - eapply Rle_trans; [exact E2|apply Rmax_r].
Qed.

(** ** Forward from rest *)

Lemma normalize_unit_horizontal v :
  y v = 0 -> V3.lengthSq v = 1 -> V3.normalize (V3.setY v 0) = v.
Proof.
  intros Hy Hl. unfold V3.normalize.
  assert (Hs : V3.setY v 0 = v).
  { unfold V3.setY. rewrite <- Hy. apply vec3_eta. }
  rewrite Hs.
  assert (Hlen : V3.length v = 1) by (apply length_of_lengthSq_1; exact Hl).
  rewrite Hlen.
  rewrite (proj2 (Reqb_false 1 0)) by lra.
  unfold V3.multiplyScalar. rewrite <- (vec3_eta v) at 4.
  apply vec3_eq; field.
Qed.






(** ** The air latch *)

(** Over airborne frames the timer adds up the time steps, and the latch is
    on only if it was on before or the timer has reached the threshold. *)
Lemma airborneFrames_spec cfg dts : forall s,
  Forall (fun dt => 0 <= dt) dts ->
  animAirTimer (airborneFrames cfg dts s) = animAirTimer s + elapsed dts
  /\ (animInAir (airborneFrames cfg dts s) = true ->
      animInAir s = true
      \/ ANIM_AIR_MIN_TIME cfg <= animAirTimer s + elapsed dts).
Proof.
  unfold airborneFrames.
  induction dts as [|dt dts IH]; intros s Hdts.
  - simpl. rewrite Rplus_0_r. auto.
  - cbn [fold_left]. unfold elapsed. cbn [fold_right].
    inversion Hdts as [|? ? Hdt Hrest]; subst.
    assert (Hel : 0 <= elapsed dts).
    { clear -Hrest. induction Hrest; simpl; [lra|]. unfold elapsed in *. lra. }
    destruct (IH (animGroundingGate cfg s false dt) Hrest) as [Ht Hl].
    assert (Hgate : animAirTimer (animGroundingGate cfg s false dt)
                    = animAirTimer s + dt
                    /\ animInAir (animGroundingGate cfg s false dt)
                       = animInAir s
                         || Rgeb (animAirTimer s + dt) (ANIM_AIR_MIN_TIME cfg))
      by (rewrite animGroundingGate_shape; split; reflexivity).
    destruct Hgate as [Hgt Hgl]. rewrite Hgt in Ht, Hl. rewrite Hgl in Hl.
    fold (elapsed dts) in *.
    split; [rewrite Ht; ring|].
    intros Hon. destruct (Hl Hon) as [H|H].
    + apply orb_true_iff in H. destruct H as [H|H]; [auto|].
      unfold Rgeb in H. rbool. right. lra.
    + right. lra.
Qed.

(** The clip asked for depends on the state through the air latch only. *)
Lemma desiredAction_ext cfg a b p :
  animInAir a = animInAir b -> desiredAction cfg a p = desiredAction cfg b p.
Proof. intros H. unfold desiredAction. rewrite H. reflexivity. Qed.

Lemma desiredAction_grounded cfg s p :
  animInAir s = false -> desiredAction cfg s p <> in_air.
Proof.
  intros H. unfold desiredAction. rewrite H.
  match goal with |- context [if ?c then _ else _] => destruct c end;
    discriminate.
Qed.

Lemma animWrites_animInAir ia at_ ca cs md ef s :
  animInAir (animWrites ia at_ ca cs md ef s) = ia.
Proof. destruct s. reflexivity. Qed.

Lemma animWrites_animAirTimer ia at_ ca cs md ef s :
  animAirTimer (animWrites ia at_ ca cs md ef s) = at_.
Proof. destruct s. reflexivity. Qed.

Lemma animWrites_playerCurrentState ia at_ ca cs md ef s :
  playerCurrentState (animWrites ia at_ ca cs md ef s) = cs.
Proof. destruct s. reflexivity. Qed.

(** What [playPlayerAction] leaves as the animation state. *)
Lemma playPlayerAction_state cfg s name immediate :
  playerCurrentState (playPlayerAction cfg s name immediate)
  = if playerActions s name && negb (isCurrentAction s name)
    then name else playerCurrentState s.
Proof.
  unfold playPlayerAction, isCurrentAction, log.
  destruct (playerActions s name); cbn [negb andb]; [|reflexivity].
  destruct (playerCurrentAction s) as [cur|].
  - destruct (AnimName_eqb cur name); cbn [negb]; [reflexivity|].
    destruct immediate; destruct s; reflexivity.
  - cbn [negb]. destruct s; reflexivity.
Qed.

Lemma applyMoveAnimDirection_state s dir force :
  playerCurrentState (applyMoveAnimDirection s dir force)
  = playerCurrentState s
  /\ animInAir (applyMoveAnimDirection s dir force) = animInAir s.
Proof.
  destruct (applyMoveAnimDirection_shape s dir force) as (md & ef & ->).
  destruct s; split; reflexivity.
Qed.

(** The animation state the selector leaves: the clip asked for when its
    action is loaded and is not the current action already, and else the
    state it found. *)
Lemma selectAction_state cfg s p :
  playerCurrentState (selectAction cfg s p)
  = (let d := desiredAction cfg s p in
     if playerActions s d && negb (isCurrentAction s d)
     then d else playerCurrentState s)
  /\ animInAir (selectAction cfg s p) = animInAir s.
Proof.
  unfold selectAction. cbv zeta.
  set (d := desiredAction cfg s p). clearbody d.
  set (s1 := if negb (AnimName_eqb d (playerCurrentState s))
             then playPlayerAction cfg s d false else s).
  assert (H1 : playerCurrentState s1
               = (if playerActions s d && negb (isCurrentAction s d)
                  then d else playerCurrentState s)
               /\ animInAir s1 = animInAir s).
  { subst s1. destruct (AnimName_eqb d (playerCurrentState s)) eqn:E;
      cbn [negb].
    - apply AnimName_eqb_eq in E.
      split; [|reflexivity].
      destruct (playerActions s d && negb (isCurrentAction s d)); congruence.
    - split; [apply playPlayerAction_state|].
      destruct (playPlayerAction_shape cfg s d false) as (ca & cs & ef & -> & _).
      destruct s; reflexivity. }
  clearbody s1. destruct H1 as [H1 H1'].
  destruct (AnimName_eqb d move).
  - destruct (applyMoveAnimDirection_state s1
                (if Rltb (lastMoveAxis s1) 0 then -1 else 1) false)
      as [-> ->]. auto.
  - destruct (negb (Reqb (moveAnimDir s1) 1)).
    + destruct (applyMoveAnimDirection_state s1 1 false) as [-> ->]. auto.
    + auto.
Qed.

(** Outside a climb and its grace the selector is the grounding gate
    followed by the choice of the clip. *)
Lemma updatePlayerAnimationState_select cfg s dt p grounded :
  Player s = Some p -> playerMixer s = true ->
  playerClimbing s || Rgtb (climbAnimGrace s) 0 = false ->
  isGrounded cfg s = Some grounded ->
  updatePlayerAnimationState cfg s dt
  = Some (selectAction cfg (animGroundingGate cfg s grounded dt) p).
Proof.
  intros Hp Hm Hc Hg. unfold updatePlayerAnimationState.
  rewrite Hp, Hm, Hc, Hg. reflexivity.
Qed.

Lemma animGroundingGate_fields cfg s grounded dt :
  playerActions (animGroundingGate cfg s grounded dt) = playerActions s
  /\ playerCurrentAction (animGroundingGate cfg s grounded dt)
     = playerCurrentAction s
  /\ playerCurrentState (animGroundingGate cfg s grounded dt)
     = playerCurrentState s
  /\ animInAir (animGroundingGate cfg s grounded dt)
     = (if grounded then false
        else animInAir s
             || Rgeb (animAirTimer s + dt) (ANIM_AIR_MIN_TIME cfg)).
Proof.
  rewrite animGroundingGate_shape.
  destruct grounded; destruct s; repeat split; reflexivity.
Qed.

(** The animation state after the selector, outside a climb and its
    grace. *)
Lemma updatePlayerAnimationState_state cfg s dt p grounded :
  Player s = Some p -> playerMixer s = true ->
  playerClimbing s || Rgtb (climbAnimGrace s) 0 = false ->
  isGrounded cfg s = Some grounded ->
  exists s',
    updatePlayerAnimationState cfg s dt = Some s'
    /\ animInAir s'
       = (if grounded then false
          else animInAir s
               || Rgeb (animAirTimer s + dt) (ANIM_AIR_MIN_TIME cfg))
    /\ playerCurrentState s'
       = (let d := desiredAction cfg s' p in
          if playerActions s d && negb (isCurrentAction s d)
          then d else playerCurrentState s).
Proof.
  intros Hp Hm Hc Hg.
  rewrite (updatePlayerAnimationState_select cfg s dt p grounded Hp Hm Hc Hg).
  eexists. split; [reflexivity|].
  destruct (animGroundingGate_fields cfg s grounded dt)
    as (Ha & Hca & Hcs & Hia).
  destruct (selectAction_state cfg (animGroundingGate cfg s grounded dt) p)
    as [Hst Hin].
  split; [rewrite Hin; exact Hia|].
  rewrite Hst. cbv zeta.
  rewrite (desiredAction_ext cfg
             (selectAction cfg (animGroundingGate cfg s grounded dt) p)
             (animGroundingGate cfg s grounded dt) p Hin).
  unfold isCurrentAction. rewrite Ha, Hca, Hcs. reflexivity.
Qed.

Lemma desiredAction_speed cfg s p :
  animInAir s = false -> desiredAction cfg s p = speedAction cfg p.
Proof. intros H. unfold desiredAction, speedAction, horizSpeed. rewrite H. reflexivity. Qed.

(** C9, as the code has it.  Outside a climb and its grace,
    [updatePlayerAnimationState] does not fault; on a grounded frame it
    switches the air latch off and sets the air timer to zero; on an
    airborne frame it adds [dt] to the air timer and the latch is on
    afterwards exactly if it was on before or the timer has reached
    [ANIM_AIR_MIN_TIME].  Over a run of airborne frames after a reset the
    timer is the accumulated time, and the latch is on only if that time
    has reached the threshold.  The animation state becomes the clip asked
    for when its action is loaded and not current already, and stays
    otherwise.  In particular one airborne frame of 1/60 s after a
    grounded one, with a threshold of 0.1 s, leaves the latch off; the
    animation state does not become [in_air]: the clip asked for is the
    one the horizontal speed asks for, [move] above [MOVE_SPEED_THRESHOLD]
    and [idle] otherwise, as on a grounded frame, so the state is
    unchanged when it was that clip already. *)
Theorem air_latch (cfg : Config) (s : State) (p : Body) (grounded : bool)
    (dt : R) (dts : list R) :
  Player s = Some p ->
  playerMixer s = true ->
  playerClimbing s || Rgtb (climbAnimGrace s) 0 = false ->
  isGrounded cfg s = Some grounded ->
  exists s',
    updatePlayerAnimationState cfg s dt = Some s'
    /\ (grounded = true -> animInAir s' = false /\ animAirTimer s' = 0)
    /\ (grounded = false ->
        animAirTimer s' = animAirTimer s + dt
        /\ (animInAir s' = true <->
            animInAir s = true
            \/ ANIM_AIR_MIN_TIME cfg <= animAirTimer s + dt))
    /\ (playerCurrentState s' = playerCurrentState s
        \/ playerCurrentState s' = desiredAction cfg s' p)
    /\ playerCurrentState s'
       = (let d := desiredAction cfg s' p in
          if playerActions s d && negb (isCurrentAction s d)
          then d else playerCurrentState s)
    /\ (Forall (fun dt => 0 <= dt) dts ->
        let sN :=
          airborneFrames cfg dts (set_animAirTimer 0 (set_animInAir false s)) in
        animAirTimer sN = elapsed dts
        /\ (animInAir sN = true -> ANIM_AIR_MIN_TIME cfg <= elapsed dts))
    /\ (grounded = false -> animInAir s = false -> animAirTimer s = 0 ->
        dt = 1 / 60 -> ANIM_AIR_MIN_TIME cfg = 0.1 ->
        animInAir s' = false
        /\ (playerCurrentState s <> in_air -> playerCurrentState s' <> in_air)
        /\ (playerCurrentState s = desiredAction cfg s p ->
            playerCurrentState s' = playerCurrentState s)
        /\ playerCurrentState s'
           = (if playerActions s (speedAction cfg p)
                 && negb (isCurrentAction s (speedAction cfg p))
              then speedAction cfg p else playerCurrentState s)).
Proof.
  intros Hp Hm Hc Hg.
  destruct (updatePlayerAnimationState_gate cfg s dt p grounded Hp Hm Hc Hg)
    as (ca & cs & md & ef & Hrun & Hcs).
  destruct (updatePlayerAnimationState_state cfg s dt p grounded Hp Hm Hc Hg)
    as (s'' & Hrun' & _ & Hstate).
  rewrite Hrun in Hrun'. injection Hrun' as Hsame. rewrite <- Hsame in Hstate.
  clear s'' Hsame.
  remember (animGroundingGate cfg s grounded dt) as s1 eqn:Es1.
  rewrite animGroundingGate_shape in Es1.
  eexists. split; [exact Hrun|].
  set (s' := animWrites (animInAir s1) (animAirTimer s1) ca cs md ef s) in *.
  assert (Hia : animInAir s' = animInAir s1)
    by apply animWrites_animInAir.
  assert (Hat : animAirTimer s' = animAirTimer s1)
    by apply animWrites_animAirTimer.
  assert (Hst : playerCurrentState s' = cs)
    by apply animWrites_playerCurrentState.
  assert (Hlatch :
            animInAir s || Rgeb (animAirTimer s + dt) (ANIM_AIR_MIN_TIME cfg)
            = true <->
            animInAir s = true
            \/ ANIM_AIR_MIN_TIME cfg <= animAirTimer s + dt).
  { rewrite orb_true_iff. unfold Rgeb. rewrite Rleb_true. tauto. }
  split; [|split; [|split; [|split; [|split]]]].
  - intros ->. rewrite Hia, Hat. subst s1. split; destruct s; reflexivity.
  - intros ->. rewrite Hia, Hat. subst s1. split; [destruct s; reflexivity|].
    replace (animInAir _) with
      (animInAir s || Rgeb (animAirTimer s + dt) (ANIM_AIR_MIN_TIME cfg))
      by (destruct s; reflexivity).
    exact Hlatch.
  - rewrite Hst. destruct Hcs as [->| ->]; [left; reflexivity|right].
    apply desiredAction_ext. symmetry. exact Hia.
  - exact Hstate.
  - intros Hdts sN.
    destruct (airborneFrames_spec cfg dts
                (set_animAirTimer 0 (set_animInAir false s)) Hdts) as [Ht Hl].
    fold sN in Ht, Hl.
    replace (animAirTimer (set_animAirTimer 0 (set_animInAir false s)))
      with 0 in Ht, Hl by (destruct s; reflexivity).
    replace (animInAir (set_animAirTimer 0 (set_animInAir false s)))
      with false in Hl by (destruct s; reflexivity).
    rewrite Rplus_0_l in Ht, Hl.
    split; [exact Ht|]. intros Hon. destruct (Hl Hon); [discriminate|assumption].
  - intros -> Hoff Ht0 Hdt Hmin.
    assert (Hstay : animInAir s1 = false).
    { subst s1.
      replace (animInAir _) with
        (animInAir s || Rgeb (animAirTimer s + dt) (ANIM_AIR_MIN_TIME cfg))
        by (destruct s; reflexivity).
      rewrite Hoff, Ht0, Hdt, Hmin. simpl. unfold Rgeb. apply Rleb_false. lra. }
    assert (Hstay' : animInAir s' = false) by (rewrite Hia; exact Hstay).
    split; [exact Hstay'|]. split; [|split].
    + rewrite Hst. intros Hne. destruct Hcs as [->| ->]; [exact Hne|].
      apply desiredAction_grounded. exact Hstay.
    + rewrite Hst. intros Heq. destruct Hcs as [->| ->]; [reflexivity|].
      rewrite Heq. apply desiredAction_ext. congruence.
    + rewrite Hstate. cbv zeta.
      rewrite (desiredAction_speed cfg s' p Hstay'). reflexivity.
Qed.

Lemma air_latch_witness :
  Player airborne = Some standingBody
  /\ playerMixer airborne = true
  /\ playerClimbing airborne || Rgtb (climbAnimGrace airborne) 0 = false
  /\ isGrounded defaultConfig airborne = Some false
  /\ exists s',
       updatePlayerAnimationState defaultConfig airborne (1 / 60) = Some s'
       /\ animAirTimer s' = animAirTimer airborne + 1 / 60
       /\ animInAir s' = false
       /\ playerCurrentState s' <> in_air.
Proof.
  assert (Hc : playerClimbing airborne || Rgtb (climbAnimGrace airborne) 0
               = false).
  { simpl. unfold Rgtb. apply Rltb_false. lra. }
  split; [reflexivity|]. split; [reflexivity|]. split; [exact Hc|].
  split; [reflexivity|].
  destruct (air_latch defaultConfig airborne standingBody false (1 / 60) []
              eq_refl eq_refl Hc eq_refl)
    as (s' & Hrun & _ & Hair & _ & _ & _ & Hone).
  exists s'. split; [exact Hrun|].
  split; [exact (proj1 (Hair eq_refl))|].
  assert (Hmin : ANIM_AIR_MIN_TIME defaultConfig = 0.1) by (simpl; lra).
  destruct (Hone eq_refl eq_refl eq_refl eq_refl Hmin) as (Hoff & Hne & _).
  split; [exact Hoff|]. apply Hne. discriminate.
Defined.

(** C9, as the claim states it, fails for a player that runs off a ledge
    with the animation state still [idle]: after one airborne frame of
    1/60 s with the threshold at 0.1 s the latch is off, as the claim
    says, but the animation state is not unchanged: the horizontal speed,
    5, exceeds [MOVE_SPEED_THRESHOLD] and the state becomes [move]. *)
Lemma air_latch_counterexample :
  isGrounded defaultConfig offLedge = Some false
  /\ ANIM_AIR_MIN_TIME defaultConfig = 0.1
  /\ animInAir offLedge = false
  /\ animAirTimer offLedge = 0
  /\ playerCurrentState offLedge = idle
  /\ exists s',
       updatePlayerAnimationState defaultConfig offLedge (1 / 60) = Some s'
       /\ animInAir s' = false
       /\ playerCurrentState s' = move
       /\ playerCurrentState s' <> playerCurrentState offLedge.
Proof.
  assert (Hc : playerClimbing offLedge || Rgtb (climbAnimGrace offLedge) 0
               = false).
  { simpl. unfold Rgtb. apply Rltb_false. lra. }
  split; [reflexivity|]. split; [simpl; lra|].
  split; [reflexivity|]. split; [reflexivity|]. split; [reflexivity|].
  destruct (updatePlayerAnimationState_state defaultConfig offLedge (1 / 60)
              runningBody false eq_refl eq_refl Hc eq_refl)
    as (s' & Hrun & Hia & Hst).
  assert (Hoff : animInAir s' = false).
  { rewrite Hia. simpl. unfold Rgeb. apply Rleb_false. lra. }
  assert (Hmove : speedAction defaultConfig runningBody = move).
  { unfold speedAction, horizSpeed. simpl.
    replace (5 * 5 + 0 * 0) with (5 * 5) by ring.
    rewrite sqrt_square by lra.
    unfold Rgtb. rewrite (proj2 (Rltb_true 0.6 5)) by lra. reflexivity. }
  cbv zeta in Hst.
  rewrite (desiredAction_speed defaultConfig s' runningBody Hoff), Hmove in Hst.
  exists s'. split; [exact Hrun|]. split; [exact Hoff|].
  assert (Hs' : playerCurrentState s' = move) by (rewrite Hst; reflexivity).
  split; [exact Hs'|]. rewrite Hs'. discriminate.
Qed.

(** ** Frames without a world or without a player body *)

(** What a frame without a player body records, latest first. *)
Lemma stepCoreCall_no_player_effects eng s dt :
  effects (log Render
             (mixerUpdate dt
                (log SyncVisuals (resetContacts (stepSimulation eng dt s)))))
  = Render
    :: (if playerMixer s then [MixerUpdate dt] else [])
    ++ SyncVisuals :: StepSimulation dt :: effects s.
Proof.
  unfold mixerUpdate.
  replace (playerMixer (log SyncVisuals (resetContacts (stepSimulation eng dt s))))
    with (playerMixer s) by (destruct s; reflexivity).
  destruct (playerMixer s); destruct s; reflexivity.
Qed.

(** C10, as the code has it.  Without a physics world (or without a
    renderer) [stepCore] returns at once: the state is unchanged and no
    stage runs.  With a world and a renderer but no player body the frame
    does not fault, and the stages that concern the player do nothing:
    the contact classifier only resets its three flags, [handleInput], the
    animation selector and [updateCamera] return the state as it is.  The
    physics step, the visual sync, the mixer update (if there is a mixer)
    and the render are still carried out. *)
Theorem frame_without_world_or_body (cfg : Config) (eng : EngineStep)
    (s : State) (dt : R) :
  (physicsWorld s = None \/ renderer s = false ->
   stepCore cfg eng s dt = Some s)
  /\ (Player s = None ->
      updatePlayerContacts cfg s = resetContacts s
      /\ handleInput cfg s dt = Some s
      /\ updatePlayerAnimationState cfg s dt = Some s
      /\ updateCamera cfg s = Some s)
  /\ (forall w,
      physicsWorld s = Some w -> renderer s = true -> Player s = None ->
      exists s',
        stepCore cfg eng s dt = Some s'
        /\ s' = log Render
                  (mixerUpdate dt
                     (log SyncVisuals
                        (resetContacts (stepSimulation eng dt s))))
        /\ effects s'
           = Render
             :: (if playerMixer s then [MixerUpdate dt] else [])
             ++ SyncVisuals :: StepSimulation dt :: effects s
        /\ s' <> s).
Proof.
  split; [|split].
  - intros H. unfold stepCore.
    rewrite (stepCoreCall_idle cfg eng s dt H). reflexivity.
  - intros Hp. split; [|split; [|split]].
    + unfold updatePlayerContacts, accumulateContacts.
      replace (Player (resetContacts s)) with (Player s)
        by (destruct s; reflexivity).
      rewrite Hp. reflexivity.
    + unfold handleInput, handleInputCall. rewrite Hp. reflexivity.
    + apply updatePlayerAnimationState_absent. left. exact Hp.
    + apply updateCamera_absent. exact Hp.
  - intros w Hw Hr Hp. eexists. split; [|split; [reflexivity|split]].
    + unfold stepCore.
      rewrite (stepCoreCall_no_player cfg eng s dt w Hw Hr Hp). reflexivity.
    + apply stepCoreCall_no_player_effects.
    + intros Heq. apply (f_equal effects) in Heq.
      rewrite stepCoreCall_no_player_effects in Heq.
      apply (f_equal (@List.length Effect)) in Heq.
      cbn [List.length] in Heq. rewrite length_app in Heq.
      cbn [List.length] in Heq. lia.
Qed.

Lemma frame_without_world_or_body_witness :
  (physicsWorld createGameState = None \/ renderer createGameState = false)
  /\ stepCore defaultConfig quietStep createGameState (1 / 60)
     = Some createGameState
  /\ physicsWorld beforeSpawn = Some openAir
  /\ renderer beforeSpawn = true
  /\ Player beforeSpawn = None
  /\ handleInput defaultConfig beforeSpawn (1 / 60) = Some beforeSpawn
  /\ exists s',
       stepCore defaultConfig quietStep beforeSpawn (1 / 60) = Some s'
       /\ effects s'
          = Render :: [] ++ SyncVisuals
            :: StepSimulation (1 / 60) :: effects beforeSpawn.
Proof.
  pose proof (frame_without_world_or_body defaultConfig quietStep
                createGameState (1 / 60)) as (Hidle & _ & _).
  pose proof (frame_without_world_or_body defaultConfig quietStep
                beforeSpawn (1 / 60)) as (_ & Hstages & Hframe).
  split; [left; reflexivity|].
  split; [apply Hidle; left; reflexivity|].
  split; [reflexivity|]. split; [reflexivity|]. split; [reflexivity|].
  split; [apply (Hstages eq_refl)|].
  destruct (Hframe openAir eq_refl eq_refl eq_refl) as (s' & Hs & _ & He & _).
  exists s'. split; [exact Hs|exact He].
Defined.

(** C10, as the claim states it, fails without a player body: with a world
    and a renderer the frame still steps the physics, syncs the visuals and
    renders, so it is not a frame without work. *)
Lemma frame_without_body_counterexample :
  Player beforeSpawn = None
  /\ exists s',
       stepCore defaultConfig quietStep beforeSpawn (1 / 60) = Some s'
       /\ effects s' = [Render; SyncVisuals; StepSimulation (1 / 60)]
       /\ effects beforeSpawn = []
       /\ s' <> beforeSpawn.
Proof.
  split; [reflexivity|].
  exists (log Render
            (mixerUpdate (1 / 60)
               (log SyncVisuals
                  (resetContacts
                     (stepSimulation quietStep (1 / 60) beforeSpawn))))).
  split.
  - unfold stepCore.
    rewrite (stepCoreCall_no_player defaultConfig quietStep beforeSpawn
               (1 / 60) openAir eq_refl eq_refl eq_refl).
    reflexivity.
  - rewrite stepCoreCall_no_player_effects.
    split; [reflexivity|]. split; [reflexivity|].
    intros Heq. apply (f_equal effects) in Heq.
    rewrite stepCoreCall_no_player_effects in Heq. discriminate Heq.
Qed.

(** ** The camera pitch *)

Lemma clamp_bounds v lo hi : lo <= hi -> lo <= clamp v lo hi <= hi.
Proof.
  intros H. unfold clamp, Rmax, Rmin.
  repeat destruct (Rle_dec _ _); lra.
Qed.

Lemma minPitchAt_le cfg h :
  CAMERA_MIN_PITCH cfg <= CAMERA_MAX_PITCH cfg ->
  CAMERA_MIN_PITCH_BELOW cfg <= CAMERA_MAX_PITCH cfg ->
  minPitchAt cfg h <= CAMERA_MAX_PITCH cfg.
Proof. intros H1 H2. unfold minPitchAt. destruct (Rgtb _ _); assumption. Qed.

Lemma pitchInRange_clamp cfg s v :
  CAMERA_MIN_PITCH cfg <= CAMERA_MAX_PITCH cfg ->
  CAMERA_MIN_PITCH_BELOW cfg <= CAMERA_MAX_PITCH cfg ->
  cameraPitch s
  = clamp v (minPitchAt cfg (playerHeightAboveGround s)) (CAMERA_MAX_PITCH cfg) ->
  pitchInRange cfg s.
Proof.
  intros H1 H2 Hp. unfold pitchInRange. rewrite Hp.
  apply clamp_bounds. apply minPitchAt_le; assumption.
Qed.

Lemma pitchInRange_ext cfg s s' :
  cameraPitch s' = cameraPitch s ->
  playerHeightAboveGround s' = playerHeightAboveGround s ->
  pitchInRange cfg s -> pitchInRange cfg s'.
Proof.
  unfold pitchInRange, getDynamicMinPitch. intros -> ->. auto.
Qed.

(** The mouse move under pointer lock: the pitch is the clamp of the moved
    pitch, for the height stored by the last camera update. *)
Lemma onMouseMove_locked cfg mx my s :
  pointerLocked s = true ->
  cameraPitch (onMouseMove cfg mx my s)
  = clamp (cameraPitch s - my * MOUSE_PITCH_SENSITIVITY cfg)
      (minPitchAt cfg (playerHeightAboveGround s)) (CAMERA_MAX_PITCH cfg)
  /\ cameraYaw (onMouseMove cfg mx my s)
     = cameraYaw s - mx * MOUSE_YAW_SENSITIVITY cfg
  /\ playerHeightAboveGround (onMouseMove cfg mx my s)
     = playerHeightAboveGround s
  /\ camera (onMouseMove cfg mx my s) = camera s.
Proof.
  intros H. unfold onMouseMove. rewrite H. destruct s. simpl.
  repeat split; reflexivity.
Qed.

Lemma onMouseMove_unlocked cfg mx my s :
  pointerLocked s = false -> onMouseMove cfg mx my s = s.
Proof. intros H. unfold onMouseMove. rewrite H. reflexivity. Qed.

Lemma cameraWrites_fields e cam h d yw pt ini t :
  camera (log e (cameraWrites cam h d yw pt ini t)) = cam
  /\ cameraPitch (log e (cameraWrites cam h d yw pt ini t)) = pt
  /\ playerHeightAboveGround (log e (cameraWrites cam h d yw pt ini t)) = h.
Proof. destruct t. repeat split; reflexivity. Qed.

(** A frame without a player body leaves the camera fields alone. *)
Lemma no_player_frame_camera eng dt s :
  let s' :=
    log Render
      (mixerUpdate dt
         (log SyncVisuals (resetContacts (stepSimulation eng dt s)))) in
  camera s' = camera s
  /\ cameraPitch s' = cameraPitch s
  /\ playerHeightAboveGround s' = playerHeightAboveGround s.
Proof.
  unfold mixerUpdate.
  replace (playerMixer (log SyncVisuals (resetContacts (stepSimulation eng dt s))))
    with (playerMixer s) by (destruct s; reflexivity).
  destruct (playerMixer s); destruct s; repeat split; reflexivity.
Qed.

(** Every event, on a state with a camera, leaves a state with a camera and
    does not fault. *)
Lemma dispatch_total cfg ev s :
  camera s <> None ->
  exists calls s',
    dispatch cfg ev s = Some (calls, s') /\ camera s' <> None.
Proof.
  intros Hc.
  destruct ev as [code|code|locked|mx my|dy|dt eng]; simpl.
  - eexists _, _. split; [reflexivity|]. destruct s; exact Hc.
  - eexists _, _. split; [reflexivity|]. destruct s; exact Hc.
  - eexists _, _. split; [reflexivity|]. destruct s; exact Hc.
  - eexists _, _. split; [reflexivity|].
    destruct (pointerLocked s) eqn:E.
    + destruct (onMouseMove_locked cfg mx my s E) as (_ & _ & _ & ->). exact Hc.
    + rewrite (onMouseMove_unlocked cfg mx my s E). exact Hc.
  - eexists _, _. split; [reflexivity|]. destruct s; exact Hc.
  - destruct (physicsWorld s) as [w|] eqn:Hw;
      [destruct (renderer s) eqn:Hr|].
    + destruct (Player s) as [p|] eqn:Hp.
      * destruct (camera s) as [c|] eqn:Hcam; [|congruence].
        destruct (stepCoreCall_stages cfg eng s dt w p c Hw Hr Hp Hcam)
          as (s2 & grounded & s4 & call & p' & cc & e & a & s3 & ia & at_
              & ca & cs & md & ef & s5 & cam & d & yw & pt0 & s' & _ & _ & _
              & _ & _ & _ & _ & _ & _ & _ & _ & Hs' & Hrun).
        rewrite Hrun. eexists _, _. split; [reflexivity|].
        rewrite Hs'.
        destruct (cameraWrites_fields Render (Some cam)
                    (y (origin (motionState p')) - GROUND_PLANE_Y cfg) d yw
                    (clamp pt0
                       (minPitchAt cfg
                          (y (origin (motionState p')) - GROUND_PLANE_Y cfg))
                       (CAMERA_MAX_PITCH cfg)) true (mixerUpdate dt s5))
          as (-> & _). discriminate.
      * rewrite (stepCoreCall_no_player cfg eng s dt w Hw Hr Hp).
        eexists _, _. split; [reflexivity|].
        destruct (no_player_frame_camera eng dt s) as (-> & _). exact Hc.
    + rewrite (stepCoreCall_idle cfg eng s dt) by (right; exact Hr).
      eexists _, _. split; [reflexivity|]. exact Hc.
    + rewrite (stepCoreCall_idle cfg eng s dt) by (left; exact Hw).
      eexists _, _. split; [reflexivity|]. exact Hc.
Qed.

Lemma run_total cfg evs : forall s,
  camera s <> None ->
  exists calls s', run cfg evs s = Some (calls, s') /\ camera s' <> None.
Proof.
  induction evs as [|ev evs IH]; intros s Hc.
  - eexists _, _. split; [reflexivity|exact Hc].
  - cbn [run].
    destruct (dispatch_total cfg ev s Hc) as (c1 & s1 & -> & Hc1).
    destruct (IH s1 Hc1) as (c2 & s2 & Hr & Hc2).
    cbn. rewrite Hr. eexists _, _. split; [reflexivity|exact Hc2].
Qed.

(** One event: the pitch is in range afterwards if the event clamps it or
    if it was in range before. *)
Lemma dispatch_pitch cfg ev s calls s' :
  CAMERA_MIN_PITCH cfg <= CAMERA_MAX_PITCH cfg ->
  CAMERA_MIN_PITCH_BELOW cfg <= CAMERA_MAX_PITCH cfg ->
  camera s <> None ->
  dispatch cfg ev s = Some (calls, s') ->
  clampsPitch ev s = true \/ pitchInRange cfg s ->
  pitchInRange cfg s'.
Proof.
  intros H1 H2 Hc Hd Hpre.
  destruct ev as [code|code|locked|mx my|dy|dt eng]; simpl in Hd.
  - injection Hd as _ <-. destruct Hpre as [?|Hpre]; [discriminate|].
    revert Hpre. apply pitchInRange_ext; destruct s; reflexivity.
  - injection Hd as _ <-. destruct Hpre as [?|Hpre]; [discriminate|].
    revert Hpre. apply pitchInRange_ext; destruct s; reflexivity.
  - injection Hd as _ <-. destruct Hpre as [?|Hpre]; [discriminate|].
    revert Hpre. apply pitchInRange_ext; destruct s; reflexivity.
  - injection Hd as _ <-.
    destruct (pointerLocked s) eqn:E.
    + destruct (onMouseMove_locked cfg mx my s E) as (Hp & _ & Hh & _).
      eapply pitchInRange_clamp; [exact H1|exact H2|].
      rewrite Hh. exact Hp.
    + rewrite (onMouseMove_unlocked cfg mx my s E).
      destruct Hpre as [Hf|Hpre]; [|exact Hpre].
      simpl in Hf. congruence.
  - injection Hd as _ <-. destruct Hpre as [?|Hpre]; [discriminate|].
    revert Hpre. apply pitchInRange_ext; destruct s; reflexivity.
  - unfold clampsPitch in Hpre.
    destruct (physicsWorld s) as [w|] eqn:Hw;
      [destruct (renderer s) eqn:Hr|].
    + destruct (Player s) as [p|] eqn:Hp.
      * destruct (camera s) as [c|] eqn:Hcam; [|congruence].
        destruct (stepCoreCall_stages cfg eng s dt w p c Hw Hr Hp Hcam)
          as (s2 & grounded & s4 & call & p' & cc & e & a & s3 & ia & at_
              & ca & cs & md & ef & s5 & cam & d & yw & pt0 & s'' & _ & _
              & _ & _ & _ & _ & _ & _ & _ & _ & _ & Hs' & Hrun).
        rewrite Hrun in Hd. injection Hd as _ <-.
        destruct (cameraWrites_fields Render (Some cam)
                    (y (origin (motionState p')) - GROUND_PLANE_Y cfg) d yw
                    (clamp pt0
                       (minPitchAt cfg
                          (y (origin (motionState p')) - GROUND_PLANE_Y cfg))
                       (CAMERA_MAX_PITCH cfg)) true (mixerUpdate dt s5))
          as (_ & Hpt & Hh).
        rewrite <- Hs' in Hpt, Hh.
        eapply pitchInRange_clamp; [exact H1|exact H2|].
        rewrite Hh. exact Hpt.
      * rewrite (stepCoreCall_no_player cfg eng s dt w Hw Hr Hp) in Hd.
        injection Hd as _ <-.
        destruct Hpre as [?|Hpre]; [discriminate|].
        destruct (no_player_frame_camera eng dt s) as (_ & Hpt & Hh).
        revert Hpre. apply pitchInRange_ext; assumption.
    + rewrite (stepCoreCall_idle cfg eng s dt) in Hd by (right; exact Hr).
      injection Hd as _ <-.
      destruct Hpre as [Hf|Hpre]; [|exact Hpre].
      destruct (Player s); discriminate.
    + rewrite (stepCoreCall_idle cfg eng s dt) in Hd by (left; exact Hw).
      injection Hd as _ <-.
      destruct Hpre as [?|Hpre]; [discriminate|exact Hpre].
Qed.

Lemma run_pitch cfg evs : forall s calls s',
  CAMERA_MIN_PITCH cfg <= CAMERA_MAX_PITCH cfg ->
  CAMERA_MIN_PITCH_BELOW cfg <= CAMERA_MAX_PITCH cfg ->
  camera s <> None ->
  run cfg evs s = Some (calls, s') ->
  pitchInRange cfg s -> pitchInRange cfg s'.
Proof.
  induction evs as [|ev evs IH]; intros s calls s' H1 H2 Hc Hr Hpre.
  - injection Hr as _ <-. exact Hpre.
  - cbn [run] in Hr.
    destruct (dispatch_total cfg ev s Hc) as (c1 & s1 & Hd & Hc1).
    rewrite Hd in Hr. cbn in Hr.
    destruct (run cfg evs s1) as [[c2 s2]|] eqn:Hr2; [|discriminate].
    injection Hr as _ <-.
    apply (IH s1 c2 s2 H1 H2 Hc1 Hr2).
    apply (dispatch_pitch cfg ev s c1 s1 H1 H2 Hc Hd). right. exact Hpre.
Qed.

(** C8.  With the minimum pitches of the configuration not above the
    maximum and a camera in the scene, no sequence of events faults, and
    after any sequence of key, pointer-lock, mouse, wheel and frame events
    that starts with a clamping event (a mouse move under pointer lock or a
    frame with a player body), or that starts from a pitch in range, the
    pitch lies between the dynamic minimum and [CAMERA_MAX_PITCH]; the
    dynamic minimum is [CAMERA_MIN_PITCH_BELOW] when the stored height of
    the player above the ground plane exceeds
    [CAMERA_BELOW_PLAYER_ENABLE_HEIGHT] and [CAMERA_MIN_PITCH] otherwise.
    The mouse move under pointer lock stores the clamp of the moved pitch,
    and [updateCamera] with a player body stores a clamped pitch for the
    height it has just stored. *)
Theorem camera_pitch_clamped (cfg : Config) (ev : Event) (evs : list Event)
    (s : State) :
  CAMERA_MIN_PITCH cfg <= CAMERA_MAX_PITCH cfg ->
  CAMERA_MIN_PITCH_BELOW cfg <= CAMERA_MAX_PITCH cfg ->
  camera s <> None ->
  clampsPitch ev s = true \/ pitchInRange cfg s ->
  (exists calls s',
     run cfg (ev :: evs) s = Some (calls, s')
     /\ getDynamicMinPitch cfg s' <= cameraPitch s' <= CAMERA_MAX_PITCH cfg
     /\ getDynamicMinPitch cfg s'
        = if Rgtb (playerHeightAboveGround s')
               (CAMERA_BELOW_PLAYER_ENABLE_HEIGHT cfg)
          then CAMERA_MIN_PITCH_BELOW cfg
          else CAMERA_MIN_PITCH cfg)
  /\ (forall mx my,
      pointerLocked s = true ->
      cameraPitch (onMouseMove cfg mx my s)
      = clamp (cameraPitch s - my * MOUSE_PITCH_SENSITIVITY cfg)
          (getDynamicMinPitch cfg s) (CAMERA_MAX_PITCH cfg))
  /\ (forall p,
      Player s = Some p ->
      exists s' pt0,
        updateCamera cfg s = Some s'
        /\ playerHeightAboveGround s'
           = y (origin (motionState p)) - GROUND_PLANE_Y cfg
        /\ cameraPitch s'
           = clamp pt0 (getDynamicMinPitch cfg s') (CAMERA_MAX_PITCH cfg)
        /\ (cameraYawInitialized s = true -> pt0 = cameraPitch s)).
Proof.
  intros H1 H2 Hc Hpre. split; [|split].
  - destruct (run_total cfg (ev :: evs) s Hc) as (calls & s' & Hrun & _).
    exists calls, s'. split; [exact Hrun|]. split; [|reflexivity].
    cbn [run] in Hrun.
    destruct (dispatch_total cfg ev s Hc) as (c1 & s1 & Hd & Hc1).
    rewrite Hd in Hrun. cbn in Hrun.
    destruct (run cfg evs s1) as [[c2 s2]|] eqn:Hr2; [|discriminate].
    injection Hrun as _ <-.
    apply (run_pitch cfg evs s1 c2 s2 H1 H2 Hc1 Hr2).
    exact (dispatch_pitch cfg ev s c1 s1 H1 H2 Hc Hd Hpre).
  - intros mx my Hl.
    destruct (onMouseMove_locked cfg mx my s Hl) as (Hp & _). exact Hp.
  - intros p Hp.
    destruct (camera s) as [c|] eqn:Hcam; [|congruence].
    destruct (updateCamera_run cfg s p c Hp Hcam)
      as (cam & d & yw & pt0 & Hrun & Hini).
    eexists _, pt0. split; [exact Hrun|].
    unfold getDynamicMinPitch.
    split; [|split].
    + destruct s; reflexivity.
    + destruct s; reflexivity.
    + intros Hi. exact (proj1 (Hini Hi)).
Qed.

Lemma camera_pitch_clamped_witness :
  CAMERA_MIN_PITCH defaultConfig <= CAMERA_MAX_PITCH defaultConfig
  /\ CAMERA_MIN_PITCH_BELOW defaultConfig <= CAMERA_MAX_PITCH defaultConfig
  /\ camera airborne <> None
  /\ clampsPitch (Frame (1 / 60) quietStep) airborne = true
  /\ exists calls s',
       run defaultConfig
         [Frame (1 / 60) quietStep; PointerLockChange true;
          MouseMove 3 400; Frame (1 / 60) quietStep] airborne
       = Some (calls, s')
       /\ getDynamicMinPitch defaultConfig s' <= cameraPitch s'
          <= CAMERA_MAX_PITCH defaultConfig.
Proof.
  assert (H1 : CAMERA_MIN_PITCH defaultConfig <= CAMERA_MAX_PITCH defaultConfig)
    by (simpl; lra).
  assert (H2 : CAMERA_MIN_PITCH_BELOW defaultConfig
               <= CAMERA_MAX_PITCH defaultConfig) by (simpl; lra).
  assert (H3 : camera airborne <> None) by discriminate.
  split; [exact H1|]. split; [exact H2|]. split; [exact H3|].
  split; [reflexivity|].
  destruct (camera_pitch_clamped defaultConfig (Frame (1 / 60) quietStep)
              [PointerLockChange true; MouseMove 3 400;
               Frame (1 / 60) quietStep] airborne H1 H2 H3
              (or_introl eq_refl))
    as ((calls & s' & Hrun & Hin & _) & _).
  exists calls, s'. split; [exact Hrun|exact Hin].
Defined.

(** ** The jump key *)

(** The fields of the state a frame leaves that the next frame starts
    from. *)
Lemma frame_fields cam h d yw pt ini dt ia at_ ca cs md ef p' cc e a m sp
    g o n c0 a0 eng s s' :
  s' = log Render
         (cameraWrites cam h d yw pt ini
            (mixerUpdate dt
               (animWrites ia at_ ca cs md ef
                  (log SyncVisuals
                     (inputWrites p' cc e a m sp
                        (set_climbAnimGrace a0
                           (set_playerClimbing c0
                              (withContacts g o n
                                 (stepSimulation eng dt s))))))))) ->
  keys s' = keys s
  /\ spaceWasDown s' = sp
  /\ physicsWorld s' = Some (steppedWorld eng)
  /\ renderer s' = renderer s
  /\ Player s' = Some p'
  /\ camera s' = cam.
Proof.
  intros ->. unfold mixerUpdate.
  match goal with
  | |- context [if playerMixer ?t then _ else _] =>
    replace (playerMixer t) with (playerMixer s) by (destruct s; reflexivity)
  end.
  destruct (playerMixer s); destruct s; repeat split; reflexivity.
Qed.

Lemma afterContacts_fields cfg eng s dt :
  keys (afterContacts cfg eng s dt) = keys s
  /\ spaceWasDown (afterContacts cfg eng s dt) = spaceWasDown s.
Proof.
  unfold afterContacts.
  destruct (updatePlayerContacts_shape cfg (stepSimulation eng dt s))
    as (g & o & n & c & a & -> & _).
  destruct s; split; reflexivity.
Qed.

Lemma afterContacts_unfold cfg eng s dt :
  afterContacts cfg eng s dt = updatePlayerContacts cfg (stepSimulation eng dt s).
Proof. reflexivity. Qed.

Lemma frame_state_fields cfg eng s dt s2 s3 s5 s' p' cc e a m sp ia at_ ca cs
    md ef cam h d yw pt :
  s2 = afterContacts cfg eng s dt ->
  s3 = inputWrites p' cc e a m sp s2 ->
  s5 = animWrites ia at_ ca cs md ef (log SyncVisuals s3) ->
  s' = log Render (cameraWrites (Some cam) h d yw pt true (mixerUpdate dt s5)) ->
  keys s' = keys s
  /\ spaceWasDown s' = sp
  /\ physicsWorld s' = Some (steppedWorld eng)
  /\ renderer s' = renderer s
  /\ Player s' = Some p'
  /\ camera s' = Some cam.
Proof.
  intros Hs2 Hs3 Hs5 Hs'.
  destruct (updatePlayerContacts_shape cfg (stepSimulation eng dt s))
    as (g & o & n & c0 & a0 & Hshape & _).
  rewrite afterContacts_unfold, Hshape in Hs2.
  subst s2 s3 s5.
  exact (frame_fields (Some cam) h d yw pt true dt ia at_ ca cs md ef p' cc
           e a m sp g o n c0 a0 eng s s' Hs').
Qed.

(** A frame of a game in progress: it does not fault, it leaves the game in
    progress and the keys as they are, it remembers whether the space key
    is down, and its jump block calls [wallJumpOff] or [jump] on the rising
    edge of the space key only. *)
Lemma frame_jump cfg eng s dt :
  running s ->
  exists call s' s2 s4 grounded climbing,
    stepCoreCall cfg eng s dt = Some (call, s')
    /\ s2 = afterContacts cfg eng s dt
    /\ isGrounded cfg s2 = Some grounded
    /\ beforeClimbGate cfg s2 dt = Some (s4, grounded, readMoveAxis s2)
    /\ climbing = playerClimbing (climbGate cfg s4 grounded (readMoveAxis s2))
    /\ (call = WallJumped <->
        keyDown s "Space" = true /\ spaceWasDown s = false /\ climbing = true)
    /\ (call = Jumped <->
        keyDown s "Space" = true /\ spaceWasDown s = false
        /\ climbing = false /\ grounded = true)
    /\ running s'
    /\ keys s' = keys s
    /\ spaceWasDown s' = keyDown s "Space".
Proof.
  intros (Hw & Hr & Hp & Hc).
  destruct (physicsWorld s) as [w|] eqn:Ew; [|congruence].
  destruct (Player s) as [p|] eqn:Ep; [|congruence].
  destruct (camera s) as [c|] eqn:Ec; [|congruence].
  destruct (stepCoreCall_stages cfg eng s dt w p c Ew Hr Ep Ec)
    as (s2 & grounded & s4 & call & p' & cc & e & a & s3 & ia & at_
        & ca & cs & md & ef & s5 & cam & d & yw & pt0 & s' & Hs2 & Hg & Hb
        & _ & Hs3 & Hwj & Hj & _ & _ & Hs5 & _ & Hs' & Hrun).
  destruct (afterContacts_fields cfg eng s dt) as (Hk & Hsp).
  rewrite <- Hs2 in Hk, Hsp.
  assert (Hkd : keyDown s2 "Space" = keyDown s "Space").
  { unfold keyDown. rewrite Hk. reflexivity. }
  rewrite Hkd, Hsp in Hwj, Hj. rewrite Hkd in Hs3.
  destruct (frame_state_fields cfg eng s dt s2 s3 s5 s' p' cc e a
              (readMoveAxis s2) (keyDown s "Space") ia at_ ca cs md ef cam
              _ d yw _ Hs2 Hs3 Hs5 Hs')
    as (Hk' & Hsp' & Hw' & Hr' & Hp' & Hc').
  exists call, s', s2, s4, grounded,
    (playerClimbing (climbGate cfg s4 grounded (readMoveAxis s2))).
  split; [exact Hrun|]. split; [exact Hs2|]. split; [exact Hg|].
  split; [exact Hb|]. split; [reflexivity|].
  split; [exact Hwj|]. split; [exact Hj|].
  split; [|split; assumption].
  unfold running. rewrite Hw', Hr', Hp', Hc'.
  repeat split; congruence.
Qed.

Lemma countJumps_app c1 c2 :
  countJumps (c1 ++ c2) = (countJumps c1 + countJumps c2)%nat.
Proof. unfold countJumps. rewrite filter_app, length_app. reflexivity. Qed.

Lemma countJumps_none calls :
  countJumps calls = 0%nat -> calls = repeat NoJump (List.length calls).
Proof.
  induction calls as [|c calls IH]; [reflexivity|].
  destruct c; cbn; intros H; try discriminate.
  f_equal. apply IH. exact H.
Qed.

(** An event other than a frame and other than the release of the space
    key keeps the game in progress and the space key down. *)
Lemma held_event cfg ev s :
  isFrame ev = false -> releasesSpace ev = false ->
  running s -> keyDown s "Space" = true ->
  exists s',
    dispatch cfg ev s = Some ([], s')
    /\ running s' /\ keyDown s' "Space" = true
    /\ spaceWasDown s' = spaceWasDown s.
Proof.
  intros Hf Hrel Hrun Hk.
  destruct ev as [code|code|locked|mx my|dy|dt eng]; simpl in *;
    try discriminate.
  - eexists. split; [reflexivity|].
    split; [destruct s; exact Hrun|]. split; [|destruct s; reflexivity].
    unfold keyDown, onKeyDown in *.
    replace (keys (set_keys (<[code:=true]> (keys s)) s))
      with (<[code:=true]> (keys s)) by (destruct s; reflexivity).
    rewrite lookup_insert. destruct (decide (code = "Space")); [reflexivity|].
    exact Hk.
  - eexists. split; [reflexivity|].
    split; [destruct s; exact Hrun|]. split; [|destruct s; reflexivity].
    unfold keyDown, onKeyUp in *.
    replace (keys (set_keys (<[code:=false]> (keys s)) s))
      with (<[code:=false]> (keys s)) by (destruct s; reflexivity).
    apply bool_decide_eq_false in Hrel.
    rewrite lookup_insert_ne by exact Hrel. exact Hk.
  - eexists. split; [reflexivity|].
    split; [destruct s; exact Hrun|].
    split; [destruct s; exact Hk|destruct s; reflexivity].
  - eexists. split; [reflexivity|].
    unfold onMouseMove. destruct (pointerLocked s); simpl.
    + split; [destruct s; exact Hrun|].
      split; [destruct s; exact Hk|destruct s; reflexivity].
    + auto.
  - eexists. split; [reflexivity|].
    split; [destruct s; exact Hrun|].
    split; [destruct s; exact Hk|destruct s; reflexivity].
Qed.

(** With the space key down since the frame before, no event makes a
    jump. *)
Lemma dispatch_held cfg ev s :
  releasesSpace ev = false ->
  running s -> keyDown s "Space" = true -> spaceWasDown s = true ->
  exists calls s',
    dispatch cfg ev s = Some (calls, s')
    /\ countJumps calls = 0%nat
    /\ List.length calls = (if isFrame ev then 1 else 0)%nat
    /\ running s' /\ keyDown s' "Space" = true /\ spaceWasDown s' = true.
Proof.
  intros Hrel Hrun Hk Hsp.
  destruct (isFrame ev) eqn:Hf.
  - destruct ev as [code|code|locked|mx my|dy|dt eng]; try discriminate.
    destruct (frame_jump cfg eng s dt Hrun)
      as (call & s' & s2 & s4 & grounded & climbing & Hstep & _ & _ & _ & _
          & Hwj & Hj & Hrun' & Hk' & Hsp').
    simpl. rewrite Hstep. exists [call], s'. split; [reflexivity|].
    assert (Hcall : call = NoJump).
    { destruct call; [reflexivity| |].
      - destruct (proj1 Hj eq_refl) as (_ & H & _). congruence.
      - destruct (proj1 Hwj eq_refl) as (_ & H & _). congruence. }
    subst call. split; [reflexivity|]. split; [reflexivity|].
    split; [exact Hrun'|]. split.
    + unfold keyDown in *. rewrite Hk'. exact Hk.
    + rewrite Hsp'. exact Hk.
  - destruct (held_event cfg ev s Hf Hrel Hrun Hk)
      as (s' & Hd & Hrun' & Hk' & Hsp').
    exists [], s'. split; [exact Hd|]. split; [reflexivity|].
    split; [reflexivity|]. split; [exact Hrun'|]. split; [exact Hk'|].
    rewrite Hsp'. exact Hsp.
Qed.

Lemma run_held cfg evs : forall s,
  Forall (fun ev => releasesSpace ev = false) evs ->
  running s -> keyDown s "Space" = true -> spaceWasDown s = true ->
  exists calls s',
    run cfg evs s = Some (calls, s')
    /\ countJumps calls = 0%nat
    /\ List.length calls = countFrames evs
    /\ running s' /\ keyDown s' "Space" = true /\ spaceWasDown s' = true.
Proof.
  induction evs as [|ev evs IH]; intros s Hrel Hrun Hk Hsp.
  - exists [], s. repeat split; try assumption; apply Hrun.
  - inversion Hrel as [|? ? Hev Hevs]; subst.
    destruct (dispatch_held cfg ev s Hev Hrun Hk Hsp)
      as (c1 & s1 & Hd & Hj1 & Hl1 & Hrun1 & Hk1 & Hsp1).
    destruct (IH s1 Hevs Hrun1 Hk1 Hsp1)
      as (c2 & s2 & Hr & Hj2 & Hl2 & Hrun2 & Hk2 & Hsp2).
    exists (c1 ++ c2), s2. cbn [run]. rewrite Hd. cbn. rewrite Hr.
    split; [reflexivity|].
    split; [rewrite countJumps_app, Hj1, Hj2; reflexivity|].
    split; [|auto].
    rewrite length_app, Hl1, Hl2. unfold countFrames.
    cbn [filter list_filter]. destruct ev; reflexivity.
Qed.

(** The frame on which the space key is newly down, followed by any events
    that do not release it. *)
Lemma run_pressed cfg eng dt evs s :
  Forall (fun ev => releasesSpace ev = false) evs ->
  running s -> keyDown s "Space" = true -> spaceWasDown s = false ->
  exists call calls s' s2 s4 grounded climbing,
    run cfg (Frame dt eng :: evs) s = Some (call :: calls, s')
    /\ s2 = afterContacts cfg eng s dt
    /\ isGrounded cfg s2 = Some grounded
    /\ beforeClimbGate cfg s2 dt = Some (s4, grounded, readMoveAxis s2)
    /\ climbing = playerClimbing (climbGate cfg s4 grounded (readMoveAxis s2))
    /\ (call = WallJumped <-> climbing = true)
    /\ (call = Jumped <-> climbing = false /\ grounded = true)
    /\ countJumps calls = 0%nat
    /\ List.length calls = countFrames evs
    /\ spaceWasDown s' = true.
Proof.
  intros Hrel Hrun Hk Hsp.
  destruct (frame_jump cfg eng s dt Hrun)
    as (call & s1 & s2 & s4 & grounded & climbing & Hstep & Hs2 & Hg & Hb
        & Hcl & Hwj & Hj & Hrun1 & Hk1 & Hsp1).
  assert (Hkd1 : keyDown s1 "Space" = true).
  { unfold keyDown in *. rewrite Hk1. exact Hk. }
  rewrite Hk in Hsp1.
  destruct (run_held cfg evs s1 Hrel Hrun1 Hkd1 Hsp1)
    as (calls & s' & Hr & Hj0 & Hl & _ & _ & Hsp').
  exists call, calls, s', s2, s4, grounded, climbing.
  split.
  { cbn [run dispatch]. rewrite Hstep. cbn. rewrite Hr. reflexivity. }
  split; [exact Hs2|]. split; [exact Hg|]. split; [exact Hb|].
  split; [exact Hcl|].
  split; [rewrite Hwj; tauto|]. split; [rewrite Hj; tauto|].
  auto.
Qed.

Lemma countJumps_cons call calls :
  countJumps (call :: calls)
  = ((if isJump call then 1 else 0) + countJumps calls)%nat.
Proof. destruct call; reflexivity. Qed.

(** C7, as the code has it.  In a game in progress, take the frame on which
    the space key is down and was not down on the frame before, followed by
    any events that do not release the key (frames among them).  No event
    faults.  The jump block of that first frame calls [wallJumpOff] exactly
    if the player climbs after the climb gating, and [jump] exactly if the
    player does not climb and is grounded; if the player is in the air and
    does not climb it calls neither.  The jump blocks of all later frames
    call neither.  So the number of jumps and wall jumps is at most one,
    and it is one exactly if the player climbs or is grounded on the first
    frame. *)
Theorem jump_edge_triggered (cfg : Config) (eng : EngineStep) (dt : R)
    (evs : list Event) (s : State) :
  Forall (fun ev => releasesSpace ev = false) evs ->
  running s -> keyDown s "Space" = true -> spaceWasDown s = false ->
  exists call calls s' s2 s4 grounded climbing,
    run cfg (Frame dt eng :: evs) s = Some (call :: calls, s')
    /\ s2 = afterContacts cfg eng s dt
    /\ isGrounded cfg s2 = Some grounded
    /\ beforeClimbGate cfg s2 dt = Some (s4, grounded, readMoveAxis s2)
    /\ climbing = playerClimbing (climbGate cfg s4 grounded (readMoveAxis s2))
    /\ (call = WallJumped <-> climbing = true)
    /\ (call = Jumped <-> climbing = false /\ grounded = true)
    /\ countJumps calls = 0%nat
    /\ List.length calls = countFrames evs
    /\ (countJumps (call :: calls) <= 1)%nat
    /\ (countJumps (call :: calls) = 1%nat <->
        climbing = true \/ grounded = true).
Proof.
  intros Hrel Hrun Hk Hsp.
  destruct (run_pressed cfg eng dt evs s Hrel Hrun Hk Hsp)
    as (call & calls & s' & s2 & s4 & grounded & climbing & Hr & Hs2 & Hg
        & Hb & Hcl & Hwj & Hj & Hj0 & Hl & _).
  exists call, calls, s', s2, s4, grounded, climbing.
  split; [exact Hr|]. split; [exact Hs2|]. split; [exact Hg|].
  split; [exact Hb|]. split; [exact Hcl|]. split; [exact Hwj|].
  split; [exact Hj|]. split; [exact Hj0|]. split; [exact Hl|].
  rewrite countJumps_cons, Hj0.
  split; [destruct call; simpl; lia|].
  clear Hcl. destruct call; simpl; split; intros H; try lia; try discriminate.
  - exfalso. destruct climbing.
    + assert (NoJump = WallJumped) by (apply Hwj; reflexivity). discriminate.
    + destruct H as [H|H]; [discriminate|].
      assert (NoJump = Jumped) by (apply Hj; split; [reflexivity|exact H]).
      discriminate.
  - right. apply (proj1 Hj). reflexivity.
  - left. apply (proj1 Hwj). reflexivity.
Qed.

Lemma keyDown_onKeyDown code s : keyDown (onKeyDown code s) code = true.
Proof.
  unfold keyDown, onKeyDown.
  replace (keys (set_keys (<[code:=true]> (keys s)) s))
    with (<[code:=true]> (keys s)) by (destruct s; reflexivity).
  rewrite lookup_insert_eq. reflexivity.
Qed.

Lemma jumpPressedStanding_running : running jumpPressedStanding.
Proof. repeat split; discriminate. Qed.

Lemma jumpPressedInAir_running : running jumpPressedInAir.
Proof. repeat split; discriminate. Qed.

Lemma jump_edge_triggered_witness :
  Forall (fun ev => releasesSpace ev = false)
    [Frame (1 / 60) groundStep; KeyDown "Space"; Frame (1 / 60) groundStep]
  /\ running jumpPressedStanding
  /\ keyDown jumpPressedStanding "Space" = true
  /\ spaceWasDown jumpPressedStanding = false
  /\ exists call calls s',
       run defaultConfig
         [Frame (1 / 60) groundStep; Frame (1 / 60) groundStep;
          KeyDown "Space"; Frame (1 / 60) groundStep] jumpPressedStanding
       = Some (call :: calls, s')
       /\ countJumps calls = 0%nat
       /\ List.length calls = 2%nat
       /\ (countJumps (call :: calls) <= 1)%nat.
Proof.
  assert (H1 : Forall (fun ev => releasesSpace ev = false)
                 [Frame (1 / 60) groundStep; KeyDown "Space";
                  Frame (1 / 60) groundStep])
    by (repeat constructor).
  assert (H2 : keyDown jumpPressedStanding "Space" = true)
    by apply keyDown_onKeyDown.
  split; [exact H1|]. split; [exact jumpPressedStanding_running|].
  split; [exact H2|]. split; [reflexivity|].
  destruct (jump_edge_triggered defaultConfig groundStep (1 / 60)
              [Frame (1 / 60) groundStep; KeyDown "Space";
               Frame (1 / 60) groundStep] jumpPressedStanding
              H1 jumpPressedStanding_running H2 eq_refl)
    as (call & calls & s' & s2 & s4 & grounded & climbing & Hr & _ & _ & _
        & _ & _ & _ & Hj0 & Hl & Hle & _).
  exists call, calls, s'. split; [exact Hr|]. split; [exact Hj0|].
  split; [exact Hl|exact Hle].
Defined.

(** C7, as the claim states it, fails when the key is pressed in the air:
    with the player in the air and not climbing, the space key newly down
    and held over three frames, no jump and no wall jump is made. *)
Lemma jump_debounce_counterexample :
  keyDown jumpPressedInAir "Space" = true
  /\ spaceWasDown jumpPressedInAir = false
  /\ exists s',
       run defaultConfig
         [Frame (1 / 60) quietStep; Frame (1 / 60) quietStep;
          Frame (1 / 60) quietStep] jumpPressedInAir
       = Some ([NoJump; NoJump; NoJump], s')
       /\ countJumps [NoJump; NoJump; NoJump] = 0%nat.
Proof.
  assert (H1 : Forall (fun ev => releasesSpace ev = false)
                 [Frame (1 / 60) quietStep; Frame (1 / 60) quietStep])
    by (repeat constructor).
  assert (H2 : keyDown jumpPressedInAir "Space" = true)
    by apply keyDown_onKeyDown.
  split; [exact H2|]. split; [reflexivity|].
  destruct (run_pressed defaultConfig quietStep (1 / 60)
              [Frame (1 / 60) quietStep; Frame (1 / 60) quietStep]
              jumpPressedInAir H1 jumpPressedInAir_running H2 eq_refl)
    as (call & calls & s' & s2 & s4 & grounded & climbing & Hr & Hs2 & Hg
        & Hb & Hcl & Hwj & Hj & Hj0 & Hl & _).
  assert (Hg2 : isGrounded defaultConfig s2 = Some false)
    by (rewrite Hs2; reflexivity).
  assert (Hgr : grounded = false) by congruence.
  assert (Hp2 : Player s2 = Some standingBody) by (rewrite Hs2; reflexivity).
  destruct (beforeClimbGate_spec defaultConfig s2 (1 / 60) standingBody false
              Hp2 Hg2)
    as (s4' & p4 & Hb' & _ & _ & _ & _ & _ & _ & _ & _ & Hw4 & _ & Hc4 & _).
  subst grounded. rewrite Hb' in Hb. injection Hb as <-.
  assert (Hclimb : climbing = false).
  { rewrite Hcl. apply not_true_is_false. intros Hc.
    apply climbGate_enters in Hc.
    - destruct Hc as (_ & _ & _ & Hon & _).
      rewrite Hw4, Hs2 in Hon. discriminate Hon.
    - rewrite Hc4, Hs2. reflexivity. }
  assert (Hcall : call = NoJump).
  { destruct call; [reflexivity| |].
    - destruct (proj1 Hj eq_refl) as (_ & H). discriminate.
    - rewrite (proj1 Hwj eq_refl) in Hclimb. discriminate. }
  apply countJumps_none in Hj0. rewrite Hl in Hj0.
  exists s'. split; [|reflexivity].
  rewrite Hr, Hcall, Hj0. reflexivity.
Qed.

(** * Further properties of the controller *)

(** ** The key map *)

Lemma keys_onKeyDown code s : keys (onKeyDown code s) = <[code:=true]> (keys s).
Proof. destruct s; reflexivity. Qed.

Lemma keys_onKeyUp code s : keys (onKeyUp code s) = <[code:=false]> (keys s).
Proof. destruct s; reflexivity. Qed.

Lemma keyDown_onKeyDown_ne code other s :
  other <> code -> keyDown (onKeyDown code s) other = keyDown s other.
Proof.
  intros H. unfold keyDown. rewrite keys_onKeyDown.
  rewrite lookup_insert_ne by congruence. reflexivity.
Qed.

Lemma keyDown_onKeyUp_ne code other s :
  other <> code -> keyDown (onKeyUp code s) other = keyDown s other.
Proof.
  intros H. unfold keyDown. rewrite keys_onKeyUp.
  rewrite lookup_insert_ne by congruence. reflexivity.
Qed.

Lemma keyDown_onKeyUp code s : keyDown (onKeyUp code s) code = false.
Proof.
  unfold keyDown. rewrite keys_onKeyUp, lookup_insert_eq. reflexivity.
Qed.

(** X1.  The key map follows the key events: a key never pressed reads as
    up; after its keydown a key reads as down and after its keyup as up; a
    repeated keydown (auto-repeat) changes nothing more; and an event for
    one key leaves the reading of every other key as it was. *)
Theorem key_map_follows_events (code other : string) (s : State) :
  keyDown createGameState code = false
  /\ keyDown (onKeyDown code s) code = true
  /\ keyDown (onKeyUp code s) code = false
  /\ keyDown (onKeyUp code (onKeyDown code s)) code = false
  /\ keyDown (onKeyDown code (onKeyUp code s)) code = true
  /\ onKeyDown code (onKeyDown code s) = onKeyDown code s
  /\ (other <> code ->
      keyDown (onKeyDown code s) other = keyDown s other
      /\ keyDown (onKeyUp code s) other = keyDown s other).
Proof.
  split; [reflexivity|].
  split; [apply keyDown_onKeyDown|].
  split; [apply keyDown_onKeyUp|].
  split; [apply keyDown_onKeyUp|].
  split; [apply keyDown_onKeyDown|].
  split.
  - unfold onKeyDown at 1 3. rewrite keys_onKeyDown, insert_insert_eq.
    destruct s; reflexivity.
  - intros H. split;
      [apply keyDown_onKeyDown_ne|apply keyDown_onKeyUp_ne]; exact H.
Qed.

Lemma key_map_follows_events_witness :
  "KeyW" <> "Space"
  /\ keyDown (onKeyDown "Space" atWall) "Space" = true
  /\ keyDown (onKeyDown "Space" atWall) "KeyW" = keyDown atWall "KeyW"
  /\ keyDown (onKeyUp "Space" atWall) "KeyW" = keyDown atWall "KeyW".
Proof.
  assert (H : "KeyW" <> "Space") by discriminate.
  split; [exact H|].
  destruct (key_map_follows_events "Space" "KeyW" atWall)
    as (_ & Hd & _ & _ & _ & _ & Hne).
  split; [exact Hd|]. exact (Hne H).
Defined.

(** ** The move axis *)

(** X2.  The move axis [handleInput] computes is -1, 0 or 1: 1 exactly with
    a forward key down and no back key, -1 exactly with a back key down and
    no forward key, and 0 when neither or both are down.  With a body,
    [handleInput] stores it in [lastMoveAxis]. *)
Theorem move_axis_values (cfg : Config) (s : State) (dt : R) :
  let forwardKey := keyDown s "ArrowUp" || keyDown s "KeyW" in
  let backKey := keyDown s "ArrowDown" || keyDown s "KeyS" in
  (readMoveAxis s = 1 <-> forwardKey = true /\ backKey = false)
  /\ (readMoveAxis s = -1 <-> forwardKey = false /\ backKey = true)
  /\ (readMoveAxis s = 0 <-> forwardKey = backKey)
  /\ (forall p g,
      Player s = Some p -> isGrounded cfg s = Some g ->
      exists s', handleInput cfg s dt = Some s'
                 /\ lastMoveAxis s' = readMoveAxis s).
Proof.
  intros forwardKey backKey.
  assert (Hv : readMoveAxis s
               = (if forwardKey then 1 else 0) - (if backKey then 1 else 0)).
  { unfold readMoveAxis. fold forwardKey backKey.
    destruct forwardKey, backKey; ring. }
  split; [|split; [|split]].
  - rewrite Hv. destruct forwardKey, backKey; split; intros H;
      try (destruct H; discriminate); try lra; auto.
  - rewrite Hv. destruct forwardKey, backKey; split; intros H;
      try (destruct H; discriminate); try lra; auto.
  - rewrite Hv. destruct forwardKey, backKey; split; intros H;
      try discriminate; try lra; auto.
  - intros p g Hp Hg.
    destruct (handleInputCall_shape cfg s dt p g Hp Hg)
      as (s4 & call & p' & c & e & a & _ & Hcall & _).
    eexists. split.
    + unfold handleInput. rewrite Hcall. reflexivity.
    + destruct s; reflexivity.
Qed.

Lemma move_axis_values_witness :
  Player bothMoveKeys = Some standingBody
  /\ isGrounded defaultConfig bothMoveKeys = Some false
  /\ readMoveAxis bothMoveKeys = 0
  /\ exists s', handleInput defaultConfig bothMoveKeys (1 / 60) = Some s'
                /\ lastMoveAxis s' = readMoveAxis bothMoveKeys.
Proof.
  destruct (move_axis_values defaultConfig bothMoveKeys (1 / 60))
    as (_ & _ & H0 & Hin).
  split; [reflexivity|]. split; [reflexivity|].
  split.
  - apply H0. unfold bothMoveKeys.
    rewrite (keyDown_onKeyDown "KeyS").
    rewrite (keyDown_onKeyDown_ne "KeyS" "KeyW") by discriminate.
    rewrite (keyDown_onKeyDown "KeyW"). rewrite orb_true_r. reflexivity.
  - apply (Hin standingBody false); reflexivity.
Defined.

(** ** Turning *)

Lemma quat_eq a b :
  qx a = qx b -> qy a = qy b -> qz a = qz b -> qw a = qw b -> a = b.
Proof. destruct a, b; simpl; intros; subst; reflexivity. Qed.

Lemma yawStep_0 q : Quat.multiply q (yawStep 0) = q.
Proof.
  unfold yawStep, Quat.setFromAxisAngle, Quat.multiply. simpl.
  replace (0 / 2) with 0 by field. rewrite sin_0, cos_0.
  apply quat_eq; simpl; ring.
Qed.

(** Two turns about the vertical axis are one turn by the sum of the
    angles. *)
Lemma yawStep_add q a b :
  Quat.multiply (Quat.multiply q (yawStep a)) (yawStep b)
  = Quat.multiply q (yawStep (a + b)).
Proof.
  unfold yawStep, Quat.setFromAxisAngle, Quat.multiply. simpl.
  replace ((a + b) / 2) with (a / 2 + b / 2) by field.
  rewrite sin_plus, cos_plus.
  apply quat_eq; simpl; ring.
Qed.

Lemma yawStep_normSq q a :
  quatNormSq (Quat.multiply q (yawStep a)) = quatNormSq q.
Proof.
  unfold yawStep, Quat.setFromAxisAngle, Quat.multiply, quatNormSq. simpl.
  pose proof (sin2_cos2 (a / 2)) as H. unfold Rsqr in H.
  remember (sin (a / 2)) as sn. remember (cos (a / 2)) as cs.
  replace (qx q * qx q + qy q * qy q + qz q * qz q + qw q * qw q)
    with ((qx q * qx q + qy q * qy q + qz q * qz q + qw q * qw q)
          * (sn * sn + cs * cs)) by (rewrite H; ring).
  ring.
Qed.

Lemma yawStep_yawOnly q a :
  yawOnly q -> yawOnly (Quat.multiply q (yawStep a)).
Proof.
  intros (Hx & Hz & Hn).
  unfold yawOnly, yawStep, Quat.setFromAxisAngle, Quat.multiply. simpl.
  rewrite Hx, Hz.
  pose proof (sin2_cos2 (a / 2)) as H. unfold Rsqr in H.
  remember (sin (a / 2)) as sn. remember (cos (a / 2)) as cs.
  split; [ring|]. split; [ring|].
  match goal with
  | |- ?l = 1 =>
    assert (E : l = (qy q * qy q + qw q * qw q) * (sn * sn + cs * cs)) by ring;
    rewrite E, H, Hn; ring
  end.
Qed.

(** [turn] on a body: the rotation is multiplied by the yaw step, the body
    is woken, nothing else changes. *)
Lemma turn_body cfg s delta dt p :
  Player s = Some p ->
  turn cfg s delta dt
  = Some (set_Player
            (Some (mkBody
                     (mkTransform (origin (worldTransform p))
                        (Quat.multiply (rotation (worldTransform p))
                           (yawStep (delta * dt))))
                     (motionState p) (linearVelocity p) (friction p) true))
            s).
Proof. intros Hp. unfold turn. rewrite Hp. reflexivity. Qed.

Lemma Player_set_Player v s : Player (set_Player v s) = v.
Proof. destruct s; reflexivity. Qed.

Lemma set_Player_set_Player v w s :
  set_Player v (set_Player w s) = set_Player v s.
Proof. destruct s; reflexivity. Qed.

(** X3.  Turning composes.  With a body, two calls of [turn] do not fault
    and leave the rotation the first one found multiplied by one rotation
    about the vertical axis by the sum of the two angles; opposite angles
    give back the world transform as it was.  A turn changes neither the
    position, the motion state, the velocity nor the friction of the body,
    it keeps the norm of the rotation, and it keeps a rotation about the
    vertical axis a rotation about the vertical axis. *)
Theorem turn_composes (cfg : Config) (s : State) (p : Body)
    (delta1 dt1 delta2 dt2 : R) :
  Player s = Some p ->
  exists s1 s2 p2,
    turn cfg s delta1 dt1 = Some s1
    /\ turn cfg s1 delta2 dt2 = Some s2
    /\ s2 = set_Player (Some p2) s
    /\ rotation (worldTransform p2)
       = Quat.multiply (rotation (worldTransform p))
           (yawStep (delta1 * dt1 + delta2 * dt2))
    /\ origin (worldTransform p2) = origin (worldTransform p)
    /\ motionState p2 = motionState p
    /\ linearVelocity p2 = linearVelocity p
    /\ friction p2 = friction p
    /\ active p2 = true
    /\ quatNormSq (rotation (worldTransform p2))
       = quatNormSq (rotation (worldTransform p))
    /\ (yawOnly (rotation (worldTransform p)) ->
        yawOnly (rotation (worldTransform p2)))
    /\ (delta1 * dt1 + delta2 * dt2 = 0 ->
        worldTransform p2 = worldTransform p).
Proof.
  intros Hp.
  rewrite (turn_body cfg s delta1 dt1 p Hp).
  eexists _, _, _. split; [reflexivity|].
  split.
  { rewrite (turn_body cfg _ delta2 dt2 _ (Player_set_Player _ s)).
    rewrite set_Player_set_Player. reflexivity. }
  split; [reflexivity|]. cbn [worldTransform rotation origin motionState
                              linearVelocity friction active].
  rewrite yawStep_add.
  split; [reflexivity|]. split; [reflexivity|]. split; [reflexivity|].
  split; [reflexivity|]. split; [reflexivity|]. split; [reflexivity|].
  split; [apply yawStep_normSq|].
  split; [apply yawStep_yawOnly|].
  intros ->. rewrite yawStep_0. destruct p as [[o r] ? ? ? ?]. reflexivity.
Qed.

Lemma turn_composes_witness :
  Player airborne = Some standingBody
  /\ exists s1 s2 p2,
       turn defaultConfig airborne 3 (1 / 60) = Some s1
       /\ turn defaultConfig s1 (-3) (1 / 60) = Some s2
       /\ s2 = set_Player (Some p2) airborne
       /\ worldTransform p2 = worldTransform standingBody.
Proof.
  split; [reflexivity|].
  destruct (turn_composes defaultConfig airborne standingBody 3 (1 / 60)
              (-3) (1 / 60) eq_refl)
    as (s1 & s2 & p2 & H1 & H2 & H3 & _ & _ & _ & _ & _ & _ & _ & _ & H0).
  exists s1, s2, p2. split; [exact H1|]. split; [exact H2|].
  split; [exact H3|]. apply H0. lra.
Defined.

(** ** [handleInput], stage by stage, with the body *)

Lemma keyDown_tickTimers s dt code :
  keyDown (tickTimers s dt) code = keyDown s code.
Proof.
  destruct (tickTimers_fields s dt) as (_ & _ & Hk & _).
  unfold keyDown. rewrite Hk. reflexivity.
Qed.

Lemma lastMoveAxis_fields v s :
  Player (set_lastMoveAxis v s) = Player s
  /\ physicsWorld (set_lastMoveAxis v s) = physicsWorld s
  /\ playerGrounded (set_lastMoveAxis v s) = playerGrounded s
  /\ playerClimbing (set_lastMoveAxis v s) = playerClimbing s
  /\ playerOnWall (set_lastMoveAxis v s) = playerOnWall s
  /\ playerWallNormal (set_lastMoveAxis v s) = playerWallNormal s
  /\ climbExitTimer (set_lastMoveAxis v s) = climbExitTimer s
  /\ climbAnimGrace (set_lastMoveAxis v s) = climbAnimGrace s
  /\ keys (set_lastMoveAxis v s) = keys s
  /\ spaceWasDown (set_lastMoveAxis v s) = spaceWasDown s.
Proof. destruct s; repeat split; reflexivity. Qed.

Lemma set_Player_fields v s :
  physicsWorld (set_Player v s) = physicsWorld s
  /\ playerGrounded (set_Player v s) = playerGrounded s
  /\ playerClimbing (set_Player v s) = playerClimbing s
  /\ playerOnWall (set_Player v s) = playerOnWall s
  /\ playerWallNormal (set_Player v s) = playerWallNormal s
  /\ climbExitTimer (set_Player v s) = climbExitTimer s
  /\ climbAnimGrace (set_Player v s) = climbAnimGrace s
  /\ keys (set_Player v s) = keys s
  /\ spaceWasDown (set_Player v s) = spaceWasDown s.
Proof. destruct s; repeat split; reflexivity. Qed.

Lemma turnedBody_fields cfg s dt p :
  origin (worldTransform (turnedBody cfg s dt p)) = origin (worldTransform p)
  /\ rotation (worldTransform (turnedBody cfg s dt p))
     = turnedRotation cfg s dt (rotation (worldTransform p))
  /\ motionState (turnedBody cfg s dt p) = motionState p
  /\ linearVelocity (turnedBody cfg s dt p) = linearVelocity p
  /\ friction (turnedBody cfg s dt p) = friction p.
Proof.
  unfold turnedBody, turnedRotation.
  destruct (keyDown s "ArrowLeft" || keyDown s "KeyA"),
    (keyDown s "ArrowRight" || keyDown s "KeyD"); repeat split.
Qed.

(** The fields of the state at the climb gating. *)
Lemma atClimbGate_fields cfg s dt p :
  let s4 := atClimbGate cfg s dt p in
  Player s4 = Some (turnedBody cfg s dt p)
  /\ physicsWorld s4 = physicsWorld s
  /\ playerGrounded s4 = playerGrounded s
  /\ playerClimbing s4 = playerClimbing s
  /\ playerOnWall s4 = playerOnWall s
  /\ playerWallNormal s4 = playerWallNormal s
  /\ climbExitTimer s4 = climbExitTimer (tickTimers s dt)
  /\ climbAnimGrace s4 = climbAnimGrace (tickTimers s dt)
  /\ keys s4 = keys s
  /\ spaceWasDown s4 = spaceWasDown s.
Proof.
  unfold atClimbGate.
  destruct (lastMoveAxis_fields (readMoveAxis s)
              (set_Player (Some (turnedBody cfg s dt p)) (tickTimers s dt)))
    as (-> & -> & -> & -> & -> & -> & -> & -> & -> & ->).
  destruct (set_Player_fields (Some (turnedBody cfg s dt p)) (tickTimers s dt))
    as (-> & -> & -> & -> & -> & -> & -> & -> & ->).
  rewrite Player_set_Player.
  destruct (tickTimers_fields s dt)
    as (_ & -> & -> & -> & -> & -> & -> & ->).
  repeat split.
Qed.

(** The first part of [handleInput], with the body it leaves. *)
Lemma beforeClimbGate_body cfg s dt p g :
  Player s = Some p -> isGrounded cfg s = Some g ->
  beforeClimbGate cfg s dt
  = Some (atClimbGate cfg s dt p, g, readMoveAxis s).
Proof.
  intros Hp Hg.
  assert (Hp1 : Player (tickTimers s dt) = Some p).
  { destruct (tickTimers_fields s dt) as (-> & _). exact Hp. }
  unfold beforeClimbGate. rewrite !keyDown_tickTimers.
  assert (Hturn :
    exists s3,
      (let? s2 := (if keyDown s "ArrowLeft" || keyDown s "KeyA"
                   then turn cfg (tickTimers s dt) (TURN_SPEED cfg) dt
                   else Some (tickTimers s dt)) in
       if keyDown s "ArrowRight" || keyDown s "KeyD"
       then turn cfg s2 (- TURN_SPEED cfg) dt else Some s2) = Some s3
      /\ s3 = set_Player (Some (turnedBody cfg s dt p)) (tickTimers s dt)).
  { unfold turnedBody.
    destruct (keyDown s "ArrowLeft" || keyDown s "KeyA"),
      (keyDown s "ArrowRight" || keyDown s "KeyD").
    - rewrite (turn_body cfg _ _ dt p Hp1).
      rewrite (turn_body cfg _ _ dt _ (Player_set_Player _ _)).
      rewrite set_Player_set_Player. eexists. split; reflexivity.
    - rewrite (turn_body cfg _ _ dt p Hp1). eexists. split; reflexivity.
    - rewrite (turn_body cfg _ _ dt p Hp1). eexists. split; reflexivity.
    - eexists. split; [reflexivity|].
      symmetry. apply set_Player_id. exact Hp1. }
  destruct Hturn as (s3 & Hrun & Hs3).
  destruct (if keyDown s "ArrowLeft" || keyDown s "KeyA"
            then turn cfg (tickTimers s dt) (TURN_SPEED cfg) dt
            else Some (tickTimers s dt)) as [s2|] eqn:E2;
    [|discriminate Hrun].
  cbv beta iota in Hrun. rewrite Hrun.
  assert (Hax : readMoveAxis s3 = readMoveAxis s).
  { unfold readMoveAxis, keyDown. rewrite Hs3.
    destruct (set_Player_fields (Some (turnedBody cfg s dt p))
                (tickTimers s dt)) as (_ & _ & _ & _ & _ & _ & _ & -> & _).
    destruct (tickTimers_fields s dt) as (_ & _ & -> & _). reflexivity. }
  rewrite Hax. rewrite Hs3. fold (atClimbGate cfg s dt p).
  destruct (atClimbGate_fields cfg s dt p)
    as (H4p & H4w & H4g & _).
  destruct (turnedBody_fields cfg s dt p) as (_ & _ & Hm & _).
  rewrite (isGrounded_ext cfg s (atClimbGate cfg s dt p) p
             (turnedBody cfg s dt p) H4g H4w Hp H4p
             (f_equal origin Hm)).
  rewrite Hg. reflexivity.
Qed.

Lemma afterClimbGate_fields cfg s dt p g :
  let s5 := afterClimbGate cfg s dt p g in
  Player s5 = Some (turnedBody cfg s dt p)
  /\ physicsWorld s5 = physicsWorld s
  /\ playerGrounded s5 = playerGrounded s
  /\ playerOnWall s5 = playerOnWall s
  /\ playerWallNormal s5 = playerWallNormal s
  /\ climbExitTimer s5 = climbExitTimer (tickTimers s dt)
  /\ keys s5 = keys s
  /\ spaceWasDown s5 = spaceWasDown s.
Proof.
  unfold afterClimbGate.
  destruct (climbGate_fields cfg (atClimbGate cfg s dt p) g (readMoveAxis s))
    as (-> & -> & -> & -> & -> & -> & -> & ->).
  destruct (atClimbGate_fields cfg s dt p)
    as (-> & -> & -> & _ & -> & -> & -> & _ & -> & ->).
  repeat split.
Qed.

(** [handleInput] with a body is its jump block, run on the state after
    the gating with the body the movement branch leaves. *)
Lemma handleInputCall_steps cfg s dt p g :
  Player s = Some p -> isGrounded cfg s = Some g ->
  handleInputCall cfg s dt
  = jumpBlock cfg
      (set_Player (Some (movedBody cfg s dt p g))
         (afterClimbGate cfg s dt p g)) g.
Proof.
  intros Hp Hg.
  unfold handleInputCall. rewrite Hp.
  rewrite (beforeClimbGate_body cfg s dt p g Hp Hg).
  fold (afterClimbGate cfg s dt p g).
  destruct (afterClimbGate_fields cfg s dt p g)
    as (H5p & H5w & H5g & _).
  destruct (turnedBody_fields cfg s dt p) as (_ & _ & Hm & _).
  assert (Hg5 : isGrounded cfg (afterClimbGate cfg s dt p g) = Some g).
  { rewrite (isGrounded_ext cfg s _ p (turnedBody cfg s dt p) H5g H5w Hp H5p
               (f_equal origin Hm)). exact Hg. }
  unfold movedBody.
  destruct (playerClimbing (afterClimbGate cfg s dt p g)) eqn:Ec; cbn [negb].
  - unfold applyWallClimb. rewrite H5p. reflexivity.
  - assert (Hb : getPlayerBasis (afterClimbGate cfg s dt p g)
                 = Some (fst (bodyBasis (turnedBody cfg s dt p)),
                         snd (bodyBasis (turnedBody cfg s dt p)))).
    { unfold getPlayerBasis. rewrite H5p. reflexivity. }
    rewrite (applyCharacterMovement_spec cfg _ (readMoveAxis s) dt _ g _ _
               H5p Hg5 Hb).
    reflexivity.
Qed.

Lemma movedBody_fields cfg s dt p g :
  worldTransform (movedBody cfg s dt p g)
  = worldTransform (turnedBody cfg s dt p)
  /\ motionState (movedBody cfg s dt p g) = motionState p
  /\ active (movedBody cfg s dt p g) = true.
Proof.
  destruct (turnedBody_fields cfg s dt p) as (_ & _ & Hm & _).
  unfold movedBody.
  destruct (negb (playerClimbing (afterClimbGate cfg s dt p g)));
    cbn [worldTransform motionState active activate setLinearVelocity
         setFriction]; auto.
Qed.

(** The jump block on a state with a body, as one expression. *)
Lemma jumpBlock_body cfg s g p call :
  Player s = Some p -> call = jumpCallOf s g ->
  jumpBlock cfg s g
  = Some (call,
          set_spaceWasDown (keyDown s "Space")
            match call with
            | WallJumped =>
              set_climbExitTimer (WALL_CLIMB_EXIT_COOLDOWN cfg)
                (set_climbAnimGrace 0
                   (set_playerClimbing false
                      (set_Player
                         (Some (activate
                                  (setLinearVelocity
                                     (vec3 (x (playerWallNormal s) * 8.0)
                                        (PLAYER_JUMP_IMPULSE cfg)
                                        (z (playerWallNormal s) * 8.0)) p)))
                         s)))
            | Jumped =>
              set_Player
                (Some (activate
                         (setLinearVelocity
                            (vec3 (x (linearVelocity p))
                               (PLAYER_JUMP_IMPULSE cfg)
                               (z (linearVelocity p))) p))) s
            | NoJump => s
            end).
Proof.
  intros Hp ->. unfold jumpBlock, jumpCallOf, wallJumpOff, jump. rewrite Hp.
  destruct (keyDown s "Space" && negb (spaceWasDown s)); [|reflexivity].
  destruct (playerClimbing s); [reflexivity|].
  destruct g; reflexivity.
Qed.

Lemma jumpCallOf_moved cfg s dt p g :
  jumpCallOf
    (set_Player (Some (movedBody cfg s dt p g)) (afterClimbGate cfg s dt p g))
    g
  = inputCall cfg s dt p g.
Proof.
  unfold jumpCallOf, inputCall, keyDown.
  destruct (set_Player_fields (Some (movedBody cfg s dt p g))
              (afterClimbGate cfg s dt p g))
    as (_ & _ & -> & _ & _ & _ & _ & -> & ->).
  destruct (afterClimbGate_fields cfg s dt p g)
    as (_ & _ & _ & _ & _ & _ & -> & ->).
  reflexivity.
Qed.

(** The state [handleInput] leaves, field by field. *)
Lemma handleInputCall_result cfg s dt p g :
  Player s = Some p -> isGrounded cfg s = Some g ->
  let s5 := afterClimbGate cfg s dt p g in
  let p6 := movedBody cfg s dt p g in
  let call := inputCall cfg s dt p g in
  exists s' p',
    handleInputCall cfg s dt = Some (call, s')
    /\ Player s' = Some p'
    /\ p' = match call with
            | WallJumped =>
              activate
                (setLinearVelocity
                   (vec3 (x (playerWallNormal s) * 8.0)
                      (PLAYER_JUMP_IMPULSE cfg)
                      (z (playerWallNormal s) * 8.0)) p6)
            | Jumped =>
              activate
                (setLinearVelocity
                   (vec3 (x (linearVelocity p6)) (PLAYER_JUMP_IMPULSE cfg)
                      (z (linearVelocity p6))) p6)
            | NoJump => p6
            end
    /\ playerClimbing s'
       = match call with WallJumped => false | _ => playerClimbing s5 end
    /\ climbAnimGrace s'
       = match call with WallJumped => 0 | _ => climbAnimGrace s5 end
    /\ climbExitTimer s'
       = match call with
         | WallJumped => WALL_CLIMB_EXIT_COOLDOWN cfg
         | _ => climbExitTimer (tickTimers s dt)
         end
    /\ spaceWasDown s' = keyDown s "Space"
    /\ lastMoveAxis s' = readMoveAxis s.
Proof.
  intros Hp Hg s5 p6 call.
  rewrite (handleInputCall_steps cfg s dt p g Hp Hg).
  fold s5 p6.
  rewrite (jumpBlock_body cfg (set_Player (Some p6) s5) g p6 call
             (Player_set_Player _ _)
             (eq_sym (jumpCallOf_moved cfg s dt p g))).
  assert (Hk : keyDown (set_Player (Some p6) s5) "Space" = keyDown s "Space").
  { unfold keyDown.
    destruct (set_Player_fields (Some p6) s5)
      as (_ & _ & _ & _ & _ & _ & _ & -> & _).
    destruct (afterClimbGate_fields cfg s dt p g)
      as (_ & _ & _ & _ & _ & _ & Hk & _).
    fold s5 in Hk. rewrite Hk. reflexivity. }
  assert (Hn : playerWallNormal (set_Player (Some p6) s5)
               = playerWallNormal s).
  { destruct (set_Player_fields (Some p6) s5)
      as (_ & _ & _ & _ & -> & _).
    destruct (afterClimbGate_fields cfg s dt p g)
      as (_ & _ & _ & _ & Hn & _).
    exact Hn. }
  assert (He : climbExitTimer s5 = climbExitTimer (tickTimers s dt)).
  { destruct (afterClimbGate_fields cfg s dt p g)
      as (_ & _ & _ & _ & _ & He & _). exact He. }
  assert (Hl : lastMoveAxis s5 = readMoveAxis s).
  { unfold s5, afterClimbGate, atClimbGate.
    rewrite climbGate_shape.
    remember (set_Player (Some (turnedBody cfg s dt p)) (tickTimers s dt))
      as t eqn:Et. clear Et.
    destruct t; reflexivity. }
  rewrite Hk, Hn, <- He, <- Hl.
  clearbody s5 p6 call.
  eexists _,
    (match call with
     | WallJumped =>
       activate
         (setLinearVelocity
            (vec3 (x (playerWallNormal s) * 8.0) (PLAYER_JUMP_IMPULSE cfg)
               (z (playerWallNormal s) * 8.0)) p6)
     | Jumped =>
       activate
         (setLinearVelocity
            (vec3 (x (linearVelocity p6)) (PLAYER_JUMP_IMPULSE cfg)
               (z (linearVelocity p6))) p6)
     | NoJump => p6
     end).
  split; [reflexivity|].
  destruct call; destruct s5; cbn; repeat split; reflexivity.
Qed.

Lemma turnedRotation_cancel cfg s dt q :
  keyDown s "ArrowLeft" || keyDown s "KeyA"
  = (keyDown s "ArrowRight" || keyDown s "KeyD") ->
  turnedRotation cfg s dt q = q.
Proof.
  intros H. unfold turnedRotation. rewrite H.
  destruct (keyDown s "ArrowRight" || keyDown s "KeyD"); [|reflexivity].
  rewrite yawStep_add.
  replace (TURN_SPEED cfg * dt + - TURN_SPEED cfg * dt) with 0 by ring.
  apply yawStep_0.
Qed.

(** X4.  [handleInput] never moves the body.  With a body and a grounded
    test that does not fault it does not fault; the body it leaves has the
    position it had and the motion state it had, is awake, and its rotation
    is the old one turned about the vertical axis by the turn keys; with
    both a left and a right key down, or with neither, the world transform
    is the one it was.  Camera, world, dispatcher, keys, contact flags,
    wall normal and the record of outside calls are left as they were. *)
Theorem handleInput_leaves_position (cfg : Config) (s : State) (dt : R)
    (p : Body) (g : bool) :
  Player s = Some p -> isGrounded cfg s = Some g ->
  exists s' p',
    handleInput cfg s dt = Some s'
    /\ Player s' = Some p'
    /\ origin (worldTransform p') = origin (worldTransform p)
    /\ rotation (worldTransform p')
       = turnedRotation cfg s dt (rotation (worldTransform p))
    /\ motionState p' = motionState p
    /\ active p' = true
    /\ (keyDown s "ArrowLeft" || keyDown s "KeyA"
        = (keyDown s "ArrowRight" || keyDown s "KeyD") ->
        worldTransform p' = worldTransform p)
    /\ camera s' = camera s
    /\ physicsWorld s' = physicsWorld s
    /\ dispatcher s' = dispatcher s
    /\ keys s' = keys s
    /\ playerGrounded s' = playerGrounded s
    /\ playerOnWall s' = playerOnWall s
    /\ playerWallNormal s' = playerWallNormal s
    /\ effects s' = effects s.
Proof.
  intros Hp Hg.
  destruct (handleInputCall_result cfg s dt p g Hp Hg)
    as (s' & p' & Hrun & Hp' & Hbody & _).
  destruct (handleInputCall_shape cfg s dt p g Hp Hg)
    as (s4 & call & p2 & c & e & a & _ & Hshape & _).
  rewrite Hrun in Hshape. injection Hshape as _ Hs'.
  destruct (movedBody_fields cfg s dt p g) as (Hwt & Hms & Hact).
  destruct (turnedBody_fields cfg s dt p) as (Ho & Hr & _).
  assert (Hwt' : worldTransform p' = worldTransform (turnedBody cfg s dt p)).
  { rewrite Hbody, <- Hwt. destruct (inputCall cfg s dt p g); reflexivity. }
  assert (Hms' : motionState p' = motionState p).
  { rewrite Hbody, <- Hms. destruct (inputCall cfg s dt p g); reflexivity. }
  assert (Hact' : active p' = true).
  { rewrite Hbody. destruct (inputCall cfg s dt p g);
      [exact Hact|reflexivity|reflexivity]. }
  exists s', p'. split.
  { unfold handleInput. rewrite Hrun. reflexivity. }
  split; [exact Hp'|]. rewrite Hwt'.
  split; [exact Ho|]. split; [exact Hr|]. split; [exact Hms'|].
  split; [exact Hact'|].
  split.
  { intros Hboth.
    pose proof (turnedRotation_cancel cfg s dt (rotation (worldTransform p))
                  Hboth) as Hc.
    rewrite <- Hr in Hc.
    destruct (worldTransform (turnedBody cfg s dt p)) as [o r].
    destruct (worldTransform p) as [o0 r0].
    simpl in Ho, Hc. subst. reflexivity. }
  rewrite Hs'. destruct s; repeat split; reflexivity.
Qed.

Lemma handleInput_leaves_position_witness :
  Player bothTurnKeys = Some standingBody
  /\ isGrounded defaultConfig bothTurnKeys = Some false
  /\ exists s' p',
       handleInput defaultConfig bothTurnKeys (1 / 60) = Some s'
       /\ Player s' = Some p'
       /\ worldTransform p' = worldTransform standingBody
       /\ motionState p' = motionState standingBody.
Proof.
  split; [reflexivity|]. split; [reflexivity|].
  destruct (handleInput_leaves_position defaultConfig bothTurnKeys (1 / 60)
              standingBody false eq_refl eq_refl)
    as (s' & p' & Hrun & Hp' & _ & _ & Hm & _ & Hboth & _).
  exists s', p'. split; [exact Hrun|]. split; [exact Hp'|].
  split; [|exact Hm].
  apply Hboth. unfold bothTurnKeys.
  rewrite (keyDown_onKeyDown "KeyD").
  rewrite (keyDown_onKeyDown_ne "KeyD" "ArrowLeft") by discriminate.
  rewrite (keyDown_onKeyDown "ArrowLeft").
  rewrite orb_true_r. reflexivity.
Defined.

(** ** The velocity [handleInput] writes *)

Lemma inputCall_cases cfg s dt p g :
  inputCall cfg s dt p g
  = if playerClimbing (afterClimbGate cfg s dt p g)
    then (if keyDown s "Space" && negb (spaceWasDown s)
          then WallJumped else NoJump)
    else (if keyDown s "Space" && negb (spaceWasDown s) && g
          then Jumped else NoJump).
Proof.
  unfold inputCall.
  destruct (keyDown s "Space" && negb (spaceWasDown s)),
    (playerClimbing (afterClimbGate cfg s dt p g)), g; reflexivity.
Qed.

(** X5.  The velocity of the body at the end of [handleInput].  Climbing
    after the gating, it is the wall-climb velocity (the stick speed against
    the wall normal, [WALL_CLIMB_SPEED] upward, whatever the physics step
    had left), unless the space key is newly down: then it is the wall-jump
    velocity (8 along the wall normal, [PLAYER_JUMP_IMPULSE] upward).  Not
    climbing, it is the velocity of the movement integrator, with its
    vertical component replaced by [PLAYER_JUMP_IMPULSE] when the space key
    is newly down and the player is grounded. *)
Theorem handleInput_velocity (cfg : Config) (s : State) (dt : R) (p : Body)
    (g : bool) :
  Player s = Some p -> isGrounded cfg s = Some g ->
  exists s' p',
    handleInput cfg s dt = Some s'
    /\ Player s' = Some p'
    /\ linearVelocity p'
       = let n := playerWallNormal s in
         let p4 := turnedBody cfg s dt p in
         let moved :=
           fst (movementVelocity cfg (afterClimbGate cfg s dt p g) p4
                  (fst (bodyBasis p4)) (snd (bodyBasis p4)) g
                  (midairAxis cfg g (readMoveAxis s)) dt) in
         if playerClimbing (afterClimbGate cfg s dt p g) then
           if keyDown s "Space" && negb (spaceWasDown s)
           then vec3 (x n * 8.0) (PLAYER_JUMP_IMPULSE cfg) (z n * 8.0)
           else vec3 (x n * - WALL_CLIMB_STICK_SPEED cfg)
                  (WALL_CLIMB_SPEED cfg)
                  (z n * - WALL_CLIMB_STICK_SPEED cfg)
         else
           if keyDown s "Space" && negb (spaceWasDown s) && g
           then vec3 (x moved) (PLAYER_JUMP_IMPULSE cfg) (z moved)
           else moved.
Proof.
  intros Hp Hg.
  destruct (handleInputCall_result cfg s dt p g Hp Hg)
    as (s' & p' & Hrun & Hp' & Hbody & _).
  exists s', p'. split.
  { unfold handleInput. rewrite Hrun. reflexivity. }
  split; [exact Hp'|].
  rewrite Hbody, inputCall_cases. cbv zeta.
  destruct (afterClimbGate_fields cfg s dt p g)
    as (_ & _ & _ & _ & Hn & _).
  unfold movedBody. rewrite Hn.
  destruct (playerClimbing (afterClimbGate cfg s dt p g)); cbn [negb].
  - destruct (keyDown s "Space" && negb (spaceWasDown s)); reflexivity.
  - destruct (keyDown s "Space" && negb (spaceWasDown s) && g); reflexivity.
Qed.

Lemma handleInput_velocity_witness :
  Player climbingAtWall = Some standingBody
  /\ isGrounded defaultConfig climbingAtWall = Some false
  /\ exists s' p',
       handleInput defaultConfig climbingAtWall (1 / 60) = Some s'
       /\ Player s' = Some p'.
Proof.
  split; [reflexivity|]. split; [reflexivity|].
  destruct (handleInput_velocity defaultConfig climbingAtWall (1 / 60)
              standingBody false eq_refl eq_refl)
    as (s' & p' & Hrun & Hp' & _).
  exists s', p'. split; [exact Hrun|exact Hp'].
Defined.

(** ** The climb exit cooldown *)

Lemma tickTimers_exit s dt :
  climbExitTimer (tickTimers s dt)
  = if Rgtb (climbExitTimer s) 0
    then Rmax 0 (climbExitTimer s - dt) else climbExitTimer s.
Proof.
  unfold tickTimers.
  destruct (Rgtb (climbExitTimer s) 0);
    match goal with |- context [Rgtb ?a 0] => destruct (Rgtb a 0) end;
    destruct s; reflexivity.
Qed.

Lemma tickTimers_grace s dt :
  climbAnimGrace (tickTimers s dt)
  = if Rgtb (climbAnimGrace s) 0
    then Rmax 0 (climbAnimGrace s - dt) else climbAnimGrace s.
Proof.
  unfold tickTimers.
  destruct (Rgtb (climbExitTimer s) 0).
  - replace (climbAnimGrace
               (set_climbExitTimer (Rmax 0 (climbExitTimer s - dt)) s))
      with (climbAnimGrace s) by (destruct s; reflexivity).
    destruct (Rgtb (climbAnimGrace s) 0); destruct s; reflexivity.
  - destruct (Rgtb (climbAnimGrace s) 0); destruct s; reflexivity.
Qed.

(** X6.  The climb exit timer.  At the end of [handleInput] it is the wall
    jump's [WALL_CLIMB_EXIT_COOLDOWN] if a wall jump was made, and else the
    timer counted down by [dt] and stopped at zero; it is never negative if
    it was not (and the cooldown is not).  While it is above [dt], a player
    that does not climb cannot start to: the frame ends not climbing, with
    the timer lowered by exactly [dt]. *)
Theorem climb_exit_cooldown (cfg : Config) (s : State) (dt : R) (p : Body)
    (g : bool) :
  Player s = Some p -> isGrounded cfg s = Some g ->
  exists s',
    handleInputCall cfg s dt = Some (inputCall cfg s dt p g, s')
    /\ climbExitTimer s'
       = match inputCall cfg s dt p g with
         | WallJumped => WALL_CLIMB_EXIT_COOLDOWN cfg
         | _ => if Rgtb (climbExitTimer s) 0
                then Rmax 0 (climbExitTimer s - dt) else climbExitTimer s
         end
    /\ (0 <= climbExitTimer s -> 0 <= WALL_CLIMB_EXIT_COOLDOWN cfg ->
        0 <= climbExitTimer s')
    /\ (playerClimbing s = false ->
        0 < climbExitTimer s -> dt < climbExitTimer s ->
        inputCall cfg s dt p g <> WallJumped
        /\ playerClimbing s' = false
        /\ climbExitTimer s' = climbExitTimer s - dt).
Proof.
  intros Hp Hg.
  destruct (handleInputCall_result cfg s dt p g Hp Hg)
    as (s' & p' & Hrun & _ & _ & Hc & _ & He & _).
  rewrite tickTimers_exit in He.
  exists s'. split; [exact Hrun|]. split; [exact He|].
  split.
  - intros H0 Hcd. rewrite He.
    destruct (inputCall cfg s dt p g); try exact Hcd;
      destruct (Rgtb (climbExitTimer s) 0); try exact H0; apply Rmax_l.
  - intros Hnc Hpos Hdt.
    assert (Hgate : playerClimbing (afterClimbGate cfg s dt p g) = false).
    { apply not_true_is_false. intros Hon.
      unfold afterClimbGate in Hon.
      destruct (atClimbGate_fields cfg s dt p)
        as (_ & _ & _ & Hc4 & _ & _ & He4 & _).
      apply climbGate_enters in Hon; [|rewrite Hc4; exact Hnc].
      destruct Hon as (_ & _ & Hle & _).
      rewrite He4, tickTimers_exit in Hle.
      assert (Rgtb (climbExitTimer s) 0 = true)
        by (unfold Rgtb; apply Rltb_true; exact Hpos).
      rewrite H in Hle. unfold Rmax in Hle.
      destruct (Rle_dec 0 (climbExitTimer s - dt)); lra. }
    assert (Hcall : inputCall cfg s dt p g <> WallJumped).
    { rewrite inputCall_cases, Hgate.
      destruct (keyDown s "Space" && negb (spaceWasDown s) && g);
        discriminate. }
    split; [exact Hcall|].
    rewrite Hc, He.
    assert (Hgt : Rgtb (climbExitTimer s) 0 = true)
      by (unfold Rgtb; apply Rltb_true; exact Hpos).
    rewrite Hgt, Hgate.
    destruct (inputCall cfg s dt p g); try congruence;
      (split; [reflexivity|]); unfold Rmax;
      destruct (Rle_dec 0 (climbExitTimer s - dt)); lra.
Qed.

Lemma climb_exit_cooldown_witness :
  Player afterWallJump = Some standingBody
  /\ isGrounded defaultConfig afterWallJump = Some false
  /\ playerClimbing afterWallJump = false
  /\ 0 < climbExitTimer afterWallJump
  /\ 1 / 60 < climbExitTimer afterWallJump
  /\ exists s',
       handleInputCall defaultConfig afterWallJump (1 / 60)
       = Some (inputCall defaultConfig afterWallJump (1 / 60) standingBody
                 false, s')
       /\ playerClimbing s' = false
       /\ climbExitTimer s' = climbExitTimer afterWallJump - 1 / 60.
Proof.
  assert (H1 : 0 < climbExitTimer afterWallJump) by (simpl; lra).
  assert (H2 : 1 / 60 < climbExitTimer afterWallJump) by (simpl; lra).
  split; [reflexivity|]. split; [reflexivity|]. split; [reflexivity|].
  split; [exact H1|]. split; [exact H2|].
  destruct (climb_exit_cooldown defaultConfig afterWallJump (1 / 60)
              standingBody false eq_refl eq_refl)
    as (s' & Hrun & _ & _ & Hblock).
  destruct (Hblock eq_refl H1 H2) as (_ & Hc & He).
  exists s'. split; [exact Hrun|]. split; [exact Hc|exact He].
Defined.

(** ** Staying on the wall *)

(** The gating on a climbing player. *)
Lemma climbGate_continues cfg s g m :
  playerClimbing s = true ->
  (playerClimbing (climbGate cfg s g m) = true
   <-> g = false /\ 0 < m
       /\ ((climbExitTimer s <= 0 /\ playerOnWall s = true
            /\ WALL_CLIMB_MIN_NORMAL cfg <= V3.length (playerWallNormal s))
           \/ 0 < climbAnimGrace s))
  /\ climbAnimGrace (climbGate cfg s g m)
     = if g || Rleb m 0 then 0
       else if canAttemptClimb s g m && wallOkPhysics cfg s
            then CLIMB_ANIM_GRACE_SECONDS cfg
            else climbAnimGrace s.
Proof.
  intros Hc. unfold climbGate. rewrite Hc.
  destruct (g || Rleb m 0) eqn:E1.
  - split; [|destruct s; reflexivity].
    replace (playerClimbing
               (set_climbAnimGrace 0 (set_playerClimbing false s)))
      with false by (destruct s; reflexivity).
    split; [discriminate|]. intros (-> & Hm & _).
    simpl in E1. apply Rleb_true in E1. lra.
  - apply orb_false_iff in E1. destruct E1 as [-> E1].
    apply Rleb_false in E1.
    destruct (canAttemptClimb s false m && wallOkPhysics cfg s) eqn:E2.
    + split; [|destruct s; reflexivity].
      replace (playerClimbing
                 (set_climbAnimGrace (CLIMB_ANIM_GRACE_SECONDS cfg)
                    (set_playerClimbing true s)))
        with true by (destruct s; reflexivity).
      apply andb_true_iff in E2. destruct E2 as [E2 E3].
      apply canAttemptClimb_true in E2. apply wallOkPhysics_true in E3.
      split; [|reflexivity]. intros _.
      split; [reflexivity|]. split; [lra|]. left. tauto.
    + assert (Hno : ~ (climbExitTimer s <= 0 /\ playerOnWall s = true
                       /\ WALL_CLIMB_MIN_NORMAL cfg
                          <= V3.length (playerWallNormal s))).
      { intros (H1 & H2 & H3).
        assert (canAttemptClimb s false m = true)
          by (apply canAttemptClimb_true; repeat split; [lra|exact H1]).
        assert (wallOkPhysics cfg s = true)
          by (apply wallOkPhysics_true; tauto).
        rewrite H, H0 in E2. discriminate. }
      destruct (Rleb (climbAnimGrace s) 0) eqn:E3.
      * split; [|destruct s; reflexivity].
        replace (playerClimbing (set_playerClimbing false s))
          with false by (destruct s; reflexivity).
        apply Rleb_true in E3.
        split; [discriminate|]. intros (_ & _ & [H|H]); [tauto|lra].
      * split; [|reflexivity]. rewrite Hc. apply Rleb_false in E3.
        split; [|reflexivity]. intros _.
        split; [reflexivity|]. split; [lra|]. right. lra.
Qed.

(** X7.  Staying on the wall.  On a frame that finds the player climbing,
    the player still climbs after the climb gating exactly if it is not
    grounded, the move axis is positive, and either the wall holds (exit
    timer at most zero, on a wall, wall normal of length at least
    [WALL_CLIMB_MIN_NORMAL]) or the climb grace timer, counted down by this
    frame, is still positive.  Grounded, or with the move axis at most
    zero, the climb ends at once with the grace timer at zero, whatever the
    wall contact.  [handleInput] does not fault, and unless the space key
    is newly down the player climbs at its end under the same condition. *)
Theorem climb_continues_iff (cfg : Config) (s : State) (dt : R) (p : Body)
    (g : bool) :
  Player s = Some p -> isGrounded cfg s = Some g ->
  playerClimbing s = true ->
  let stays :=
    g = false /\ 0 < readMoveAxis s
    /\ ((climbExitTimer (tickTimers s dt) <= 0 /\ playerOnWall s = true
         /\ WALL_CLIMB_MIN_NORMAL cfg <= V3.length (playerWallNormal s))
        \/ 0 < climbAnimGrace (tickTimers s dt)) in
  exists s',
    handleInput cfg s dt = Some s'
    /\ (playerClimbing (afterClimbGate cfg s dt p g) = true <-> stays)
    /\ (keyDown s "Space" && negb (spaceWasDown s) = false ->
        (playerClimbing s' = true <-> stays))
    /\ (keyDown s "Space" && negb (spaceWasDown s) = true ->
        playerClimbing s' = false)
    /\ (g = true \/ readMoveAxis s <= 0 ->
        playerClimbing s' = false /\ climbAnimGrace s' = 0).
Proof.
  intros Hp Hg Hc stays.
  destruct (handleInputCall_result cfg s dt p g Hp Hg)
    as (s' & p' & Hrun & _ & _ & Hc' & Ha' & _).
  destruct (atClimbGate_fields cfg s dt p)
    as (_ & _ & _ & Hc4 & Ho4 & Hn4 & He4 & Ha4 & _).
  assert (Hc4' : playerClimbing (atClimbGate cfg s dt p) = true)
    by congruence.
  destruct (climbGate_continues cfg (atClimbGate cfg s dt p) g
              (readMoveAxis s) Hc4') as (Hiff & Hgrace).
  fold (afterClimbGate cfg s dt p g) in Hiff, Hgrace.
  rewrite He4, Ho4, Hn4, Ha4 in Hiff. fold stays in Hiff.
  rewrite inputCall_cases in Hc', Ha'.
  exists s'. split.
  { unfold handleInput. rewrite Hrun. reflexivity. }
  split; [exact Hiff|].
  split; [|split].
  - intros Hedge. rewrite Hedge in Hc'. cbn [andb] in Hc'.
    rewrite Hc'.
    destruct (playerClimbing (afterClimbGate cfg s dt p g)); exact Hiff.
  - intros Hedge. rewrite Hedge in Hc'. cbn [andb] in Hc'.
    rewrite Hc'.
    destruct (playerClimbing (afterClimbGate cfg s dt p g)) eqn:E;
      [reflexivity|]. destruct g; reflexivity.
  - intros Hstop.
    assert (Hns : ~ stays).
    { intros (H1 & H2 & _). destruct Hstop; [congruence|lra]. }
    assert (E : playerClimbing (afterClimbGate cfg s dt p g) = false).
    { apply not_true_is_false. intros H. apply Hiff in H. tauto. }
    rewrite Hc', Ha', E.
    assert (Hg0 : climbAnimGrace (afterClimbGate cfg s dt p g) = 0).
    { rewrite Hgrace.
      destruct Hstop as [->|Hm]; [reflexivity|].
      assert (Rleb (readMoveAxis s) 0 = true) by (apply Rleb_true; exact Hm).
      rewrite H, orb_true_r. reflexivity. }
    rewrite Hg0.
    destruct (keyDown s "Space" && negb (spaceWasDown s) && g); auto.
Qed.

Lemma climb_continues_iff_witness :
  Player climbingAtWall = Some standingBody
  /\ isGrounded defaultConfig climbingAtWall = Some false
  /\ playerClimbing climbingAtWall = true
  /\ exists s',
       handleInput defaultConfig climbingAtWall (1 / 60) = Some s'
       /\ playerClimbing s' = true.
Proof.
  split; [reflexivity|]. split; [reflexivity|]. split; [reflexivity|].
  destruct (climb_continues_iff defaultConfig climbingAtWall (1 / 60)
              standingBody false eq_refl eq_refl eq_refl)
    as (s' & Hrun & _ & Hend & _).
  exists s'. split; [exact Hrun|].
  apply Hend; [reflexivity|].
  split; [reflexivity|]. split.
  - assert (H : readMoveAxis climbingAtWall = 0 + 1) by reflexivity.
    rewrite H. lra.
  - right. rewrite tickTimers_grace.
    assert (Hg : climbAnimGrace climbingAtWall = 1) by reflexivity.
    rewrite Hg.
    assert (Hpos : Rgtb 1 0 = true) by (unfold Rgtb; apply Rltb_true; lra).
    rewrite Hpos. unfold Rmax. destruct (Rle_dec 0 (1 - 1 / 60)); lra.
Defined.

(** ** The contact classifier, contact by contact *)

(** A flag that a loop body only ever raises, under a condition on the
    element that depends on a part of the state the body leaves alone. *)
Lemma fold_left_flag {A K : Type} (f : State -> A -> State)
    (flag : State -> bool) (key : State -> K) (q : K -> A -> Prop) :
  (forall s a, key (f s a) = key s) ->
  (forall s a, flag (f s a) = true <-> flag s = true \/ q (key s) a) ->
  forall l s,
    key (fold_left f l s) = key s
    /\ (flag (fold_left f l s) = true
        <-> flag s = true \/ exists a, In a l /\ q (key s) a).
Proof.
  intros Hkey Hstep. induction l as [|a l IH]; intros s.
  - simpl. split; [reflexivity|]. split; [auto|].
    intros [H|(a & [] & _)]. exact H.
  - cbn [fold_left]. destruct (IH (f s a)) as (Hk & Hf).
    rewrite Hk, Hkey. split; [reflexivity|].
    rewrite Hf, Hstep, Hkey. split.
    + intros [[H|H]|(b & Hb & Hq)]; [auto| |].
      * right. exists a. split; [left; reflexivity|exact H].
      * right. exists b. split; [right; exact Hb|exact Hq].
    + intros [H|(b & [<-|Hb] & Hq)]; [auto|auto|].
      right. exists b. auto.
Qed.

Lemma classifyContact_ptr cfg i0 i1 top s pt :
  playerPtr (classifyContact cfg i0 i1 top s pt) = playerPtr s.
Proof.
  destruct (classifyContact_shape cfg i0 i1 top s pt) as (g & o & n & -> & _).
  destruct s; reflexivity.
Qed.

Lemma classifyContact_grounded_iff cfg i0 i1 top s pt :
  playerGrounded (classifyContact cfg i0 i1 top s pt) = true
  <-> playerGrounded s = true \/ isGroundContact cfg i0 i1 top pt.
Proof.
  unfold classifyContact, isGroundContact.
  case_R (Rgeb (getDistance pt) 0).
  { split; [auto|]. intros [H|(H & _)]; [exact H|lra]. }
  match goal with
  | |- context [Rleb ?a ?b && Rgtb ?c ?d] =>
    destruct (Rleb a b && Rgtb c d) eqn:Eg
  end.
  - apply andb_true_iff in Eg. destruct Eg as [E1 E2]. rbool.
    match goal with
    | |- context [if ?c then _ else _] => destruct c
    end; destruct s; simpl; split; auto; intros _; reflexivity.
  - assert (Hno : ~ (y (if i0 then positionWorldOnA pt
                         else positionWorldOnB pt) <= top + 0.05
                     /\ GROUND_NORMAL_MIN_Y cfg
                        < (if i1 then - y (normalWorldOnB pt)
                           else y (normalWorldOnB pt)))).
    { intros (H1 & H2). apply andb_false_iff in Eg.
      destruct Eg as [Eg|Eg]; rbool; lra. }
    match goal with
    | |- context [if ?c then _ else _] => destruct c
    end; destruct s; simpl; split; auto; intros [H|(_ & H1 & H2)];
      auto; tauto.
Qed.

Lemma classifyContact_onWall_iff cfg i0 i1 top s pt :
  playerOnWall (classifyContact cfg i0 i1 top s pt) = true
  <-> playerOnWall s = true \/ isWallContact cfg i1 pt.
Proof.
  unfold classifyContact, isWallContact. cbv zeta.
  case_R (Rgeb (getDistance pt) 0).
  { split; [auto|]. intros [H|(H & _)]; [exact H|lra]. }
  match goal with
  | |- context [Rgtb ?a ?b && Rleb ?c ?d] =>
    destruct (Rgtb a b && Rleb c d) eqn:Ew
  end.
  - apply andb_true_iff in Ew. destruct Ew as [E1 E2]. rbool.
    split; [intros _; right; repeat split; assumption|].
    intros _.
    match goal with
    | |- context [if ?c then _ else _] => destruct c
    end; destruct s; reflexivity.
  - assert (Hno : ~ (1e-5 < (if i1 then - x (normalWorldOnB pt)
                             else x (normalWorldOnB pt))
                            * (if i1 then - x (normalWorldOnB pt)
                               else x (normalWorldOnB pt))
                            + (if i1 then - z (normalWorldOnB pt)
                               else z (normalWorldOnB pt))
                              * (if i1 then - z (normalWorldOnB pt)
                                 else z (normalWorldOnB pt))
                     /\ Rabs (if i1 then - y (normalWorldOnB pt)
                              else y (normalWorldOnB pt))
                        <= WALL_NORMAL_MAX_Y cfg)).
    { intros (H1 & H2). apply andb_false_iff in Ew.
      destruct Ew as [Ew|Ew]; rbool; lra. }
    match goal with
    | |- context [if ?c then _ else _] => destruct c
    end; destruct s; simpl; split; auto; intros [H|(_ & H1 & H2)];
      auto; tauto.
Qed.

(** The condition under which a manifold raises the grounded flag, and the
    one under which it raises the wall flag. *)
Lemma classifyManifold_flags cfg top s m :
  playerPtr (classifyManifold cfg top s m) = playerPtr s
  /\ (playerGrounded (classifyManifold cfg top s m) = true
      <-> playerGrounded s = true
          \/ (ofPlayer (playerPtr s) m
              /\ exists pt, In pt (contactPoints m)
                   /\ isGroundContact cfg (Z.eqb (ptr0 m) (playerPtr s))
                        (Z.eqb (ptr1 m) (playerPtr s)) top pt))
  /\ (playerOnWall (classifyManifold cfg top s m) = true
      <-> playerOnWall s = true
          \/ (ofPlayer (playerPtr s) m
              /\ exists pt, In pt (contactPoints m)
                   /\ isWallContact cfg (Z.eqb (ptr1 m) (playerPtr s)) pt)).
Proof.
  assert (Hfold : forall i0 i1,
    playerPtr (fold_left (classifyContact cfg i0 i1 top) (contactPoints m) s)
    = playerPtr s
    /\ (playerGrounded
          (fold_left (classifyContact cfg i0 i1 top) (contactPoints m) s)
        = true
        <-> playerGrounded s = true
            \/ exists pt, In pt (contactPoints m)
                 /\ isGroundContact cfg i0 i1 top pt)
    /\ (playerOnWall
          (fold_left (classifyContact cfg i0 i1 top) (contactPoints m) s)
        = true
        <-> playerOnWall s = true
            \/ exists pt, In pt (contactPoints m)
                 /\ isWallContact cfg i1 pt)).
  { intros i0 i1.
    destruct (fold_left_flag (classifyContact cfg i0 i1 top)
                playerGrounded playerPtr
                (fun _ pt => isGroundContact cfg i0 i1 top pt)
                (classifyContact_ptr cfg i0 i1 top)
                (classifyContact_grounded_iff cfg i0 i1 top)
                (contactPoints m) s) as (Hk & Hg).
    destruct (fold_left_flag (classifyContact cfg i0 i1 top)
                playerOnWall playerPtr
                (fun _ pt => isWallContact cfg i1 pt)
                (classifyContact_ptr cfg i0 i1 top)
                (classifyContact_onWall_iff cfg i0 i1 top)
                (contactPoints m) s) as (_ & Hw).
    auto. }
  unfold classifyManifold, ofPlayer.
  destruct (Z.eqb_spec (ptr0 m) (playerPtr s)) as [E0|E0];
    destruct (Z.eqb_spec (ptr1 m) (playerPtr s)) as [E1|E1]; cbn [negb andb];
    try (split; [reflexivity|]; split; split; auto;
         intros [H|([H|H] & _)]; auto; contradiction);
    match goal with
    | |- context [fold_left (classifyContact _ ?i0 ?i1 _) _ _] =>
      destruct (Hfold i0 i1) as (Hk & Hg & Hw)
    end;
    (split; [exact Hk|]); rewrite Hg, Hw; split; split;
    intros [H|H]; auto; right; tauto.
Qed.

Lemma resetContacts_fields s :
  Player (resetContacts s) = Player s
  /\ dispatcher (resetContacts s) = dispatcher s
  /\ playerPtr (resetContacts s) = playerPtr s
  /\ playerGrounded (resetContacts s) = false
  /\ playerOnWall (resetContacts s) = false
  /\ playerWallNormal (resetContacts s) = vec3 0 0 0
  /\ playerClimbing (resetContacts s) = playerClimbing s
  /\ climbAnimGrace (resetContacts s) = climbAnimGrace s.
Proof. destruct s; repeat split; reflexivity. Qed.

(** The classifier returns before its loops exactly without a body, without
    a dispatcher or with a null player pointer. *)
Lemma accumulateContacts_none cfg s :
  accumulateContacts cfg s = None
  <-> Player s = None \/ dispatcher s = None \/ playerPtr s = 0%Z.
Proof.
  unfold accumulateContacts.
  destruct (resetContacts_fields s) as (-> & -> & -> & _).
  destruct (Player s), (dispatcher s); try (split; auto; fail).
  destruct (Z.eqb_spec (playerPtr s) 0); split; auto; try discriminate.
  intros [H|[H|H]]; try discriminate. contradiction.
Qed.

Lemma accumulateContacts_some cfg s p ms :
  Player s = Some p -> dispatcher s = Some ms -> playerPtr s <> 0%Z ->
  accumulateContacts cfg s
  = Some (fold_left (classifyManifold cfg (groundBandTop cfg p)) ms
            (resetContacts s)).
Proof.
  intros Hp Hd Hptr. unfold accumulateContacts.
  destruct (resetContacts_fields s) as (-> & -> & -> & _).
  rewrite Hp, Hd.
  destruct (Z.eqb_spec (playerPtr s) 0); [contradiction|reflexivity].
Qed.

Lemma classifyManifold_ptr cfg top s m :
  playerPtr (classifyManifold cfg top s m) = playerPtr s.
Proof. exact (proj1 (classifyManifold_flags cfg top s m)). Qed.

(** X8.  What the contact classifier reports.  After
    [updatePlayerContacts] the player is grounded exactly if there are a
    body, a dispatcher and a player pointer other than zero, and some
    manifold of the player has a contact point that penetrates (negative
    distance), lies on the player at most 0.05 above the ground band, and
    has a normal toward the player whose y exceeds [GROUND_NORMAL_MIN_Y].
    The player is on a wall exactly if some such manifold has a
    penetrating contact whose normal has a squared horizontal length above
    1e-5 and a y of absolute value at most [WALL_NORMAL_MAX_Y].  Manifolds
    between other bodies and contacts that do not penetrate never count. *)
Theorem contact_flags_iff (cfg : Config) (s : State) :
  (playerGrounded (updatePlayerContacts cfg s) = true
   <-> exists p ms m pt,
         Player s = Some p /\ dispatcher s = Some ms
         /\ playerPtr s <> 0%Z
         /\ In m ms /\ ofPlayer (playerPtr s) m
         /\ In pt (contactPoints m)
         /\ isGroundContact cfg (Z.eqb (ptr0 m) (playerPtr s))
              (Z.eqb (ptr1 m) (playerPtr s)) (groundBandTop cfg p) pt)
  /\ (playerOnWall (updatePlayerContacts cfg s) = true
      <-> exists p ms m pt,
            Player s = Some p /\ dispatcher s = Some ms
            /\ playerPtr s <> 0%Z
            /\ In m ms /\ ofPlayer (playerPtr s) m
            /\ In pt (contactPoints m)
            /\ isWallContact cfg (Z.eqb (ptr1 m) (playerPtr s)) pt).
Proof.
  destruct (accumulateContacts cfg s) as [s1|] eqn:Hacc.
  - destruct (updatePlayerContacts_flags cfg s s1 Hacc) as (-> & ->).
    destruct (Player s) as [p|] eqn:Hp;
      [|assert (accumulateContacts cfg s = None)
          by (apply accumulateContacts_none; auto); congruence].
    destruct (dispatcher s) as [ms|] eqn:Hd;
      [|assert (accumulateContacts cfg s = None)
          by (apply accumulateContacts_none; auto); congruence].
    destruct (Z.eq_dec (playerPtr s) 0%Z) as [Hptr|Hptr];
      [assert (accumulateContacts cfg s = None)
          by (apply accumulateContacts_none; auto); congruence|].
    rewrite (accumulateContacts_some cfg s p ms Hp Hd Hptr) in Hacc.
    injection Hacc as <-.
    destruct (resetContacts_fields s) as (_ & _ & Hrp & Hrg & Hrw & _).
    destruct (fold_left_flag (classifyManifold cfg (groundBandTop cfg p))
                playerGrounded playerPtr
                (fun ptr m =>
                   ofPlayer ptr m
                   /\ exists pt, In pt (contactPoints m)
                        /\ isGroundContact cfg (Z.eqb (ptr0 m) ptr)
                             (Z.eqb (ptr1 m) ptr) (groundBandTop cfg p) pt)
                (classifyManifold_ptr cfg (groundBandTop cfg p))
                (fun s m =>
                   proj1 (proj2 (classifyManifold_flags cfg
                                   (groundBandTop cfg p) s m)))
                ms (resetContacts s)) as (_ & Hg).
    destruct (fold_left_flag (classifyManifold cfg (groundBandTop cfg p))
                playerOnWall playerPtr
                (fun ptr m =>
                   ofPlayer ptr m
                   /\ exists pt, In pt (contactPoints m)
                        /\ isWallContact cfg (Z.eqb (ptr1 m) ptr) pt)
                (classifyManifold_ptr cfg (groundBandTop cfg p))
                (fun s m =>
                   proj2 (proj2 (classifyManifold_flags cfg
                                   (groundBandTop cfg p) s m)))
                ms (resetContacts s)) as (_ & Hw).
    rewrite Hg, Hw, Hrp, Hrg, Hrw. split; split.
    + intros [H|(m & Hm & Hof & pt & Hpt & Hq)]; [discriminate|].
      exists p, ms, m, pt. auto 10.
    + intros (p' & ms' & m & pt & Hp' & Hd' & _ & Hm & Hof & Hpt & Hq).
      injection Hp' as <-. injection Hd' as <-.
      right. exists m. split; [exact Hm|]. split; [exact Hof|].
      exists pt. auto.
    + intros [H|(m & Hm & Hof & pt & Hpt & Hq)]; [discriminate|].
      exists p, ms, m, pt. auto 10.
    + intros (p' & ms' & m & pt & Hp' & Hd' & _ & Hm & Hof & Hpt & Hq).
      injection Hp' as <-. injection Hd' as <-.
      right. exists m. split; [exact Hm|]. split; [exact Hof|].
      exists pt. auto.
  - unfold updatePlayerContacts. rewrite Hacc.
    destruct (resetContacts_fields s) as (_ & _ & _ & -> & -> & _).
    apply accumulateContacts_none in Hacc.
    split; split; try discriminate;
      intros (p & ms & m & pt & Hp & Hd & Hptr & _);
      destruct Hacc as [H|[H|H]]; congruence.
Qed.

Lemma contact_flags_iff_witness :
  playerGrounded (updatePlayerContacts defaultConfig landedWhileClimbing)
  = true
  /\ playerOnWall (updatePlayerContacts defaultConfig touchingWall) = true
  /\ playerGrounded (updatePlayerContacts defaultConfig touchingWall) = false.
Proof.
  destruct (contact_flags_iff defaultConfig landedWhileClimbing)
    as ((_ & Hg) & _).
  destruct (contact_flags_iff defaultConfig touchingWall)
    as ((Hg2 & _) & (_ & Hw)).
  split; [|split].
  - apply Hg.
    exists standingBody, [mkManifold 7 0 [groundContact]],
      (mkManifold 7 0 [groundContact]), groundContact.
    split; [reflexivity|]. split; [reflexivity|]. split; [discriminate|].
    split; [left; reflexivity|]. split; [left; reflexivity|].
    split; [left; reflexivity|].
    unfold isGroundContact, groundBandTop. simpl. lra.
  - apply Hw.
    exists standingBody, [mkManifold 7 0 [wallContact]],
      (mkManifold 7 0 [wallContact]), wallContact.
    split; [reflexivity|]. split; [reflexivity|]. split; [discriminate|].
    split; [left; reflexivity|]. split; [left; reflexivity|].
    split; [left; reflexivity|].
    unfold isWallContact. simpl. rewrite Rabs_R0. lra.
  - apply not_true_is_false. intros H. apply Hg2 in H.
    destruct H as (p & ms & m & pt & Hp & Hd & _ & Hm & _ & Hpt & Hq).
    injection Hd as <-. destruct Hm as [<-|[]].
    destruct Hpt as [<-|[]].
    unfold isGroundContact in Hq. simpl in Hq. lra.
Defined.

Lemma withContacts_fields g o n s :
  playerGrounded (withContacts g o n s) = g
  /\ playerOnWall (withContacts g o n s) = o
  /\ playerWallNormal (withContacts g o n s) = n.
Proof. destruct s; repeat split; reflexivity. Qed.

Lemma length_zero : V3.length (vec3 0 0 0) = 0.
Proof.
  unfold V3.length, V3.lengthSq. simpl.
  replace (0 * 0 + 0 * 0 + 0 * 0) with 0 by ring. apply sqrt_0.
Qed.

(** The state the classifier leaves: the three contact fields, and the
    climb flag and grace timer when the player is grounded. *)
Lemma updatePlayerContacts_writes cfg s :
  exists g o n c a,
    updatePlayerContacts cfg s
    = set_climbAnimGrace a (set_playerClimbing c (withContacts g o n s))
    /\ classifierNormal n
    /\ (o = false -> n = vec3 0 0 0)
    /\ (g = true -> c = false /\ a = 0)
    /\ (g = false -> c = playerClimbing s /\ a = climbAnimGrace s).
Proof.
  unfold updatePlayerContacts.
  destruct (accumulateContacts cfg s) as [s1|] eqn:Hacc.
  - destruct (accumulateContacts_shape cfg s s1 Hacc)
      as (g & o & n & -> & Hn & Hy & Hp).
    destruct (withContacts_fields g o n s) as (Wg & Wo & Wn).
    destruct (renormalizeWall_shape (withContacts g o n s))
      as (n' & -> & Hc & _ & Hle).
    { rewrite Wn. exact Hy. }
    { rewrite Wo, Wn. exact Hn. }
    assert (Hzero : o = false -> n' = vec3 0 0 0).
    { intros Ho. rewrite Wn in Hle. rewrite (Hn Ho) in Hle.
      apply Hle. rewrite length_zero. lra. }
    unfold landingOverride.
    replace (playerGrounded (set_playerWallNormal n' (withContacts g o n s)))
      with g by (destruct s; reflexivity).
    destruct g.
    + exists true, o, n', false, 0. split; [destruct s; reflexivity|].
      split; [exact Hc|]. split; [exact Hzero|]. split; [auto|discriminate].
    + exists false, o, n', (playerClimbing s), (climbAnimGrace s).
      split; [destruct s; reflexivity|].
      split; [exact Hc|]. split; [exact Hzero|]. split; [discriminate|auto].
  - exists false, false, (vec3 0 0 0), (playerClimbing s), (climbAnimGrace s).
    split; [destruct s; reflexivity|].
    split.
    + split; [reflexivity|]. right. unfold V3.lengthSq. simpl. lra.
    + split; [reflexivity|]. split; [discriminate|auto].
Qed.

(** X9.  What the contact classifier writes.  [updatePlayerContacts]
    writes the grounded flag, the wall flag and the wall normal, and, when
    it finds the player grounded, the climb flag and the climb grace timer;
    it leaves every other field of the state as it was.  The wall normal
    it leaves is horizontal, and of length exactly 1 or at most 1e-6; it is
    the zero vector when the player is not on a wall.  Not grounded, the
    climb flag and the grace timer are the ones it found.  Without a body,
    without a dispatcher or with a null player pointer it only resets the
    three contact fields. *)
Theorem classifier_writes (cfg : Config) (s : State) :
  (exists g o n c a,
     updatePlayerContacts cfg s
     = set_climbAnimGrace a (set_playerClimbing c (withContacts g o n s)))
  /\ y (playerWallNormal (updatePlayerContacts cfg s)) = 0
  /\ (V3.length (playerWallNormal (updatePlayerContacts cfg s)) = 1
      \/ V3.length (playerWallNormal (updatePlayerContacts cfg s)) <= 1e-6)
  /\ (playerOnWall (updatePlayerContacts cfg s) = false ->
      playerWallNormal (updatePlayerContacts cfg s) = vec3 0 0 0)
  /\ (playerGrounded (updatePlayerContacts cfg s) = false ->
      playerClimbing (updatePlayerContacts cfg s) = playerClimbing s
      /\ climbAnimGrace (updatePlayerContacts cfg s) = climbAnimGrace s)
  /\ (Player s = None \/ dispatcher s = None \/ playerPtr s = 0%Z ->
      updatePlayerContacts cfg s = resetContacts s).
Proof.
  destruct (updatePlayerContacts_writes cfg s)
    as (g & o & n & c & a & Hs & (Hy & Hlen) & Hzero & Hland & Hair).
  split; [eauto 10|].
  assert (Hn : playerWallNormal (updatePlayerContacts cfg s) = n)
    by (rewrite Hs; destruct s; reflexivity).
  assert (Ho : playerOnWall (updatePlayerContacts cfg s) = o)
    by (rewrite Hs; destruct s; reflexivity).
  assert (Hg : playerGrounded (updatePlayerContacts cfg s) = g)
    by (rewrite Hs; destruct s; reflexivity).
  assert (Hc : playerClimbing (updatePlayerContacts cfg s) = c)
    by (rewrite Hs; destruct s; reflexivity).
  assert (Ha : climbAnimGrace (updatePlayerContacts cfg s) = a)
    by (rewrite Hs; destruct s; reflexivity).
  rewrite Hn, Ho, Hg, Hc, Ha.
  split; [exact Hy|]. split.
  { destruct Hlen as [H1|H0].
    - left. unfold V3.length. rewrite H1. apply sqrt_1.
    - right. unfold V3.length.
      assert (0 <= V3.lengthSq n) by (unfold V3.lengthSq; nra).
      replace 1e-6 with (sqrt (1e-6 * 1e-6)) by (apply sqrt_square; lra).
      apply sqrt_le_1_alt. lra. }
  split; [exact Hzero|]. split; [exact Hair|].
  intros Hnone. apply (accumulateContacts_none cfg) in Hnone.
  unfold updatePlayerContacts. rewrite Hnone. reflexivity.
Qed.

Lemma classifier_writes_witness :
  dispatcher createGameState = None
  /\ updatePlayerContacts defaultConfig createGameState
     = resetContacts createGameState
  /\ (playerOnWall (updatePlayerContacts defaultConfig airborne) = false ->
      playerWallNormal (updatePlayerContacts defaultConfig airborne)
      = vec3 0 0 0).
Proof.
  destruct (classifier_writes defaultConfig createGameState)
    as (_ & _ & _ & _ & _ & Hnone).
  destruct (classifier_writes defaultConfig airborne)
    as (_ & _ & _ & Hzero & _).
  split; [reflexivity|]. split; [|exact Hzero].
  apply Hnone. right. left. reflexivity.
Defined.

(** ** Running the classifier twice *)

(** The loops of the classifier read the player pointer and the three
    contact fields, and nothing else of the state. *)
Lemma classifyContact_ext cfg i0 i1 top s t pt :
  playerGrounded s = playerGrounded t ->
  playerOnWall s = playerOnWall t ->
  playerWallNormal s = playerWallNormal t ->
  playerGrounded (classifyContact cfg i0 i1 top s pt)
  = playerGrounded (classifyContact cfg i0 i1 top t pt)
  /\ playerOnWall (classifyContact cfg i0 i1 top s pt)
     = playerOnWall (classifyContact cfg i0 i1 top t pt)
  /\ playerWallNormal (classifyContact cfg i0 i1 top s pt)
     = playerWallNormal (classifyContact cfg i0 i1 top t pt).
Proof.
  intros Hg Ho Hn. unfold classifyContact.
  destruct (Rgeb (getDistance pt) 0); [auto|].
  destruct s, t; simpl in *; subst.
  repeat match goal with
         | |- context [if ?c then _ else _] => destruct c
         end; repeat split; reflexivity.
Qed.

Lemma classifyContacts_ext cfg i0 i1 top pts : forall s t,
  playerGrounded s = playerGrounded t ->
  playerOnWall s = playerOnWall t ->
  playerWallNormal s = playerWallNormal t ->
  playerGrounded (fold_left (classifyContact cfg i0 i1 top) pts s)
  = playerGrounded (fold_left (classifyContact cfg i0 i1 top) pts t)
  /\ playerOnWall (fold_left (classifyContact cfg i0 i1 top) pts s)
     = playerOnWall (fold_left (classifyContact cfg i0 i1 top) pts t)
  /\ playerWallNormal (fold_left (classifyContact cfg i0 i1 top) pts s)
     = playerWallNormal (fold_left (classifyContact cfg i0 i1 top) pts t).
Proof.
  induction pts as [|pt pts IH]; intros s t Hg Ho Hn; [auto|].
  cbn [fold_left].
  destruct (classifyContact_ext cfg i0 i1 top s t pt Hg Ho Hn)
    as (Hg' & Ho' & Hn').
  apply IH; assumption.
Qed.

Lemma classifyManifolds_ext cfg top ms : forall s t,
  playerPtr s = playerPtr t ->
  playerGrounded s = playerGrounded t ->
  playerOnWall s = playerOnWall t ->
  playerWallNormal s = playerWallNormal t ->
  playerGrounded (fold_left (classifyManifold cfg top) ms s)
  = playerGrounded (fold_left (classifyManifold cfg top) ms t)
  /\ playerOnWall (fold_left (classifyManifold cfg top) ms s)
     = playerOnWall (fold_left (classifyManifold cfg top) ms t)
  /\ playerWallNormal (fold_left (classifyManifold cfg top) ms s)
     = playerWallNormal (fold_left (classifyManifold cfg top) ms t).
Proof.
  induction ms as [|m ms IH]; intros s t Hp Hg Ho Hn; [auto|].
  cbn [fold_left].
  assert (Hstep :
    playerGrounded (classifyManifold cfg top s m)
    = playerGrounded (classifyManifold cfg top t m)
    /\ playerOnWall (classifyManifold cfg top s m)
       = playerOnWall (classifyManifold cfg top t m)
    /\ playerWallNormal (classifyManifold cfg top s m)
       = playerWallNormal (classifyManifold cfg top t m)).
  { unfold classifyManifold. rewrite Hp.
    destruct (negb (ptr0 m =? playerPtr t)%Z && negb (ptr1 m =? playerPtr t)%Z);
      [auto|].
    apply classifyContacts_ext; assumption. }
  destruct Hstep as (Hg' & Ho' & Hn').
  apply IH; try assumption.
  rewrite !classifyManifold_ptr. exact Hp.
Qed.

(** The wall normal after the renormalisation, from the wall flag and the
    accumulated normal. *)
Lemma afterLoops_form g o n s :
  exists r,
    landingOverride (renormalizeWall (withContacts g o n s))
    = (if g
       then set_climbAnimGrace 0
              (set_playerClimbing false
                 (set_playerWallNormal r (withContacts g o n s)))
       else set_playerWallNormal r (withContacts g o n s))
    /\ forall t,
         landingOverride (renormalizeWall (withContacts g o n t))
         = (if g
            then set_climbAnimGrace 0
                   (set_playerClimbing false
                      (set_playerWallNormal r (withContacts g o n t)))
            else set_playerWallNormal r (withContacts g o n t)).
Proof.
  assert (Hform : forall t,
    renormalizeWall (withContacts g o n t)
    = set_playerWallNormal
        (if o
         then (if Rgtb (V3.length (V3.setY n 0)) 1e-6
               then V3.multiplyScalar (V3.setY n 0)
                      (1 / V3.length (V3.setY n 0))
               else V3.setY n 0)
         else n) (withContacts g o n t)).
  { intros t. unfold renormalizeWall.
    destruct (withContacts_fields g o n t) as (_ & -> & ->).
    destruct o; [|destruct t; reflexivity]. cbv zeta.
    replace (playerWallNormal
               (set_playerWallNormal (V3.setY n 0) (withContacts g true n t)))
      with (V3.setY n 0) by (destruct t; reflexivity).
    destruct (Rgtb (V3.length (V3.setY n 0)) 1e-6);
      destruct t; reflexivity. }
  eexists. split.
  - rewrite Hform. unfold landingOverride.
    match goal with
    | |- context [playerGrounded ?u] =>
      replace (playerGrounded u) with g by (destruct s; reflexivity)
    end.
    reflexivity.
  - intros t. rewrite Hform. unfold landingOverride.
    match goal with
    | |- context [playerGrounded ?u] =>
      replace (playerGrounded u) with g by (destruct t; reflexivity)
    end.
    reflexivity.
Qed.

(** The classifier after its loops, run twice with the same contacts. *)
Lemma afterLoops_twice g o n s :
  landingOverride
    (renormalizeWall
       (withContacts g o n
          (landingOverride (renormalizeWall (withContacts g o n s)))))
  = landingOverride (renormalizeWall (withContacts g o n s)).
Proof.
  destruct (afterLoops_form g o n s) as (r & _ & Hr).
  rewrite (Hr s). rewrite Hr.
  destruct g; destruct s; unfold withContacts; simpl; reflexivity.
Qed.

(** X10.  Running the contact classifier again on the state it has left,
    before the physics engine steps again, changes nothing: its report
    depends on the body, the dispatcher and the player pointer only, and
    landing has already been applied. *)
Theorem classifier_idempotent (cfg : Config) (s : State) :
  updatePlayerContacts cfg (updatePlayerContacts cfg s)
  = updatePlayerContacts cfg s.
Proof.
  destruct (updatePlayerContacts_writes cfg s)
    as (g0 & o0 & n0 & c0 & a0 & Hs & _).
  assert (Hsame : Player (updatePlayerContacts cfg s) = Player s
                  /\ dispatcher (updatePlayerContacts cfg s) = dispatcher s
                  /\ playerPtr (updatePlayerContacts cfg s) = playerPtr s).
  { rewrite Hs. destruct s; repeat split; reflexivity. }
  destruct Hsame as (HP & HD & HZ).
  destruct (accumulateContacts cfg s) as [s1|] eqn:Hacc.
  - assert (Hsome : exists p ms,
              Player s = Some p /\ dispatcher s = Some ms
              /\ playerPtr s <> 0%Z).
    { destruct (Player s) as [p|] eqn:Hp;
        [|assert (accumulateContacts cfg s = None)
            by (apply accumulateContacts_none; auto); congruence].
      destruct (dispatcher s) as [ms|] eqn:Hd;
        [|assert (accumulateContacts cfg s = None)
            by (apply accumulateContacts_none; auto); congruence].
      destruct (Z.eq_dec (playerPtr s) 0%Z) as [Hptr|Hptr];
        [assert (accumulateContacts cfg s = None)
            by (apply accumulateContacts_none; auto); congruence|].
      eauto. }
    destruct Hsome as (p & ms & Hp & Hd & Hptr).
    pose proof (accumulateContacts_some cfg s p ms Hp Hd Hptr) as Hacc1.
    assert (Hacc2 : accumulateContacts cfg (updatePlayerContacts cfg s)
                    = Some (fold_left
                              (classifyManifold cfg (groundBandTop cfg p)) ms
                              (resetContacts (updatePlayerContacts cfg s)))).
    { apply accumulateContacts_some; congruence. }
    destruct (accumulateContacts_shape cfg s _ Hacc1)
      as (g & o & n & Hs1 & _).
    destruct (accumulateContacts_shape cfg _ _ Hacc2)
      as (g' & o' & n' & Hs2 & _).
    destruct (resetContacts_fields s) as (_ & _ & R1 & R2 & R3 & R4 & _).
    destruct (resetContacts_fields (updatePlayerContacts cfg s))
      as (_ & _ & R1' & R2' & R3' & R4' & _).
    destruct (classifyManifolds_ext cfg (groundBandTop cfg p) ms
                (resetContacts s)
                (resetContacts (updatePlayerContacts cfg s)))
      as (Eg & Eo & En); try congruence.
    rewrite Hs1, Hs2 in Eg, Eo, En.
    destruct (withContacts_fields g o n s) as (W1 & W2 & W3).
    destruct (withContacts_fields g' o' n' (updatePlayerContacts cfg s))
      as (W1' & W2' & W3').
    rewrite W1, W1' in Eg. rewrite W2, W2' in Eo. rewrite W3, W3' in En.
    subst g' o' n'.
    assert (HU : updatePlayerContacts cfg s
                 = landingOverride (renormalizeWall (withContacts g o n s))).
    { unfold updatePlayerContacts at 1. rewrite Hacc1, Hs1. reflexivity. }
    unfold updatePlayerContacts at 1. rewrite Hacc2, Hs2.
    rewrite HU. apply afterLoops_twice.
  - assert (HU : updatePlayerContacts cfg s = resetContacts s).
    { unfold updatePlayerContacts. rewrite Hacc. reflexivity. }
    assert (Hacc2 : accumulateContacts cfg (updatePlayerContacts cfg s)
                    = None).
    { apply accumulateContacts_none. rewrite HP, HD, HZ.
      apply accumulateContacts_none in Hacc. exact Hacc. }
    unfold updatePlayerContacts at 1. rewrite Hacc2, HU.
    destruct s; reflexivity.
Qed.

(** ** The movement integrator: steering in the air, braking, strafe damp *)

Lemma strafeDamp_zero cfg g fwd rgt dt :
  strafeDamp cfg g fwd rgt dt (vec3 0 0 0) = vec3 0 0 0.
Proof.
  unfold strafeDamp. destruct (PLAYER_USE_STRAFE_DAMP cfg); [|reflexivity].
  unfold V3.add, V3.multiplyScalar, V3.dot. simpl.
  apply vec3_eq; ring.
Qed.

Lemma clampSpeed_zero cfg :
  0 <= PLAYER_MAX_SPEED cfg -> clampSpeed cfg (vec3 0 0 0) = vec3 0 0 0.
Proof.
  intros H. unfold clampSpeed. rewrite length_zero.
  unfold Rgtb. rewrite (proj2 (Rltb_false _ _)) by lra. reflexivity.
Qed.

(** With no move axis the integrator brakes; a body slower than the brake
    can take off in this frame is stopped. *)
Lemma movementVelocity_brakes cfg s p fwd rgt (g : bool) dt :
  0 <= PLAYER_MAX_SPEED cfg ->
  horizSpeed (linearVelocity p)
  <= (if g then PLAYER_BRAKE cfg else PLAYER_AIR_BRAKE cfg) * dt ->
  movementVelocity cfg s p fwd rgt g 0 dt
  = (vec3 0 (y (linearVelocity p)) 0, PLAYER_DEFAULT_FRICTION cfg).
Proof.
  intros Hmax Hslow. unfold movementVelocity.
  rewrite (proj2 (Reqb_true 0 0)) by reflexivity. cbn [negb andb].
  rewrite andb_false_r.
  assert (Hstep :
    moveToward (vec3 (x (linearVelocity p)) 0 (z (linearVelocity p)))
      (vec3 0 0 0)
      ((if g then PLAYER_BRAKE cfg else PLAYER_AIR_BRAKE cfg) * dt)
    = vec3 0 0 0).
  { unfold moveToward.
    assert (Hlen :
      V3.length (V3.sub (vec3 0 0 0)
                   (vec3 (x (linearVelocity p)) 0 (z (linearVelocity p))))
      = horizSpeed (linearVelocity p)).
    { unfold V3.length, V3.lengthSq, V3.sub, horizSpeed. simpl.
      f_equal. ring. }
    rewrite Hlen.
    unfold Rgtb at 1. rewrite (proj2 (Rltb_false _ _)) by lra.
    cbn [andb]. unfold V3.add, V3.sub. simpl. apply vec3_eq; ring. }
  rewrite Hstep, strafeDamp_zero, (clampSpeed_zero cfg Hmax).
  unfold wallSlideCap. cbn [andb]. reflexivity.
Qed.

(** X11.  Braking to rest.  With no move key held (or both), a body whose
    horizontal speed is at most the brake times [dt] ([PLAYER_BRAKE] on the
    ground, [PLAYER_AIR_BRAKE] in the air) is stopped by the integrator in
    this frame: the velocity written has no horizontal component at all,
    the vertical velocity is the one read, and the friction is the default
    one. *)
Theorem braking_stops (cfg : Config) (s : State) (p : Body) (g : bool)
    (dt : R) :
  Player s = Some p -> isGrounded cfg s = Some g ->
  0 <= PLAYER_MAX_SPEED cfg ->
  horizSpeed (linearVelocity p)
  <= (if g then PLAYER_BRAKE cfg else PLAYER_AIR_BRAKE cfg) * dt ->
  exists p',
    applyCharacterMovement cfg s 0 dt = Some (set_Player (Some p') s)
    /\ linearVelocity p' = vec3 0 (y (linearVelocity p)) 0
    /\ friction p' = PLAYER_DEFAULT_FRICTION cfg
    /\ worldTransform p' = worldTransform p
    /\ active p' = true.
Proof.
  intros Hp Hg Hmax Hslow.
  destruct (getPlayerBasis_total s p Hp) as ([fwd rgt] & Hb).
  rewrite (applyCharacterMovement_spec cfg s 0 dt p g fwd rgt Hp Hg Hb).
  assert (Hax : midairAxis cfg g 0 = 0).
  { unfold midairAxis. destruct (PLAYER_MOVE_MIDAIR cfg), g; reflexivity. }
  rewrite Hax, (movementVelocity_brakes cfg s p fwd rgt g dt Hmax Hslow).
  eexists. split; [reflexivity|]. repeat split.
Qed.

Lemma braking_stops_witness :
  Player drifting = Some driftingBody
  /\ isGrounded defaultConfig drifting = Some true
  /\ 0 <= PLAYER_MAX_SPEED defaultConfig
  /\ horizSpeed (linearVelocity driftingBody)
     <= PLAYER_BRAKE defaultConfig * (1 / 60)
  /\ exists p',
       applyCharacterMovement defaultConfig drifting 0 (1 / 60)
       = Some (set_Player (Some p') drifting)
       /\ linearVelocity p' = vec3 0 (-3) 0.
Proof.
  assert (H0 : 0 <= PLAYER_MAX_SPEED defaultConfig) by (simpl; lra).
  assert (H1 : horizSpeed (linearVelocity driftingBody)
               <= PLAYER_BRAKE defaultConfig * (1 / 60)).
  { unfold horizSpeed. simpl.
    replace (1 * 1 + 0 * 0) with 1 by ring. rewrite sqrt_1. lra. }
  split; [reflexivity|]. split; [reflexivity|]. split; [exact H0|].
  split; [exact H1|].
  destruct (braking_stops defaultConfig drifting driftingBody true (1 / 60)
              eq_refl eq_refl H0 H1) as (p' & Hrun & Hv & _).
  exists p'. split; [exact Hrun|exact Hv].
Defined.

(** X12.  Steering in the air switched off.  With [PLAYER_MOVE_MIDAIR]
    false and the player not grounded, the integrator ignores the move
    axis: whatever the keys, it does what it does with a move axis of zero.
    With a body it then brakes the horizontal velocity toward zero at
    [PLAYER_AIR_BRAKE], never wall-slides (default friction), and passes
    the vertical velocity through. *)
Theorem midair_input_ignored (cfg : Config) (s : State) (moveAxis dt : R) :
  PLAYER_MOVE_MIDAIR cfg = false -> isGrounded cfg s = Some false ->
  applyCharacterMovement cfg s moveAxis dt
  = applyCharacterMovement cfg s 0 dt
  /\ forall p,
       Player s = Some p ->
       exists p',
         applyCharacterMovement cfg s moveAxis dt
         = Some (set_Player (Some p') s)
         /\ linearVelocity p'
            = (let lv := linearVelocity p in
               let v :=
                 clampSpeed cfg
                   (strafeDamp cfg false (fst (bodyBasis p))
                      (snd (bodyBasis p)) dt
                      (moveToward (vec3 (x lv) 0 (z lv)) (vec3 0 0 0)
                         (PLAYER_AIR_BRAKE cfg * dt))) in
               vec3 (x v) (y lv) (z v))
         /\ friction p' = PLAYER_DEFAULT_FRICTION cfg.
Proof.
  intros Hmid Hg. split.
  - unfold applyCharacterMovement, effectiveMoveAxis.
    rewrite Hmid, Hg. reflexivity.
  - intros p Hp.
    assert (Hb : getPlayerBasis s
                 = Some (fst (bodyBasis p), snd (bodyBasis p))).
    { unfold getPlayerBasis. rewrite Hp. reflexivity. }
    rewrite (applyCharacterMovement_spec cfg s moveAxis dt p false _ _
               Hp Hg Hb).
    assert (Hax : midairAxis cfg false moveAxis = 0).
    { unfold midairAxis. rewrite Hmid. reflexivity. }
    rewrite Hax. unfold movementVelocity.
    rewrite (proj2 (Reqb_true 0 0)) by reflexivity. cbn [negb andb].
    rewrite andb_false_r. unfold wallSlideCap. cbn [andb].
    eexists. split; [reflexivity|]. split; reflexivity.
Qed.

Lemma midair_input_ignored_witness :
  PLAYER_MOVE_MIDAIR noMidairConfig = false
  /\ isGrounded noMidairConfig driftingInAir = Some false
  /\ readMoveAxis driftingInAir = 0 + 1
  /\ applyCharacterMovement noMidairConfig driftingInAir 1 (1 / 60)
     = applyCharacterMovement noMidairConfig driftingInAir 0 (1 / 60).
Proof.
  split; [reflexivity|]. split; [reflexivity|]. split; [reflexivity|].
  apply (midair_input_ignored noMidairConfig driftingInAir 1 (1 / 60));
    reflexivity.
Defined.

(** Two horizontal unit vectors at right angles span the horizontal
    plane. *)
Lemma horizontalBasis_complete a b c d :
  a * a + b * b = 1 -> c * c + d * d = 1 -> a * c + b * d = 0 ->
  a * a + c * c = 1 /\ b * b + d * d = 1 /\ a * b + c * d = 0.
Proof.
  intros H1 H2 H3.
  assert (K1 : a * a + c * c - 1
               = (a * c - b * d) * (a * c + b * d)
                 + (a * a) * (1 - (c * c + d * d))
                 + (c * c) * (1 - (a * a + b * b))
                 + ((a * a + b * b) * (c * c + d * d) - 1)) by ring.
  rewrite H1, H2, H3 in K1.
  assert (E1 : a * a + c * c = 1) by lra.
  assert (E2 : b * b + d * d = 1) by lra.
  split; [exact E1|]. split; [exact E2|].
  assert (K2 : (a * b + c * d) * (a * b + c * d)
               = (a * a + c * c) * (b * b + d * d)
                 - ((a * a + b * b) * (c * c + d * d)
                    - (a * c + b * d) * (a * c + b * d))) by ring.
  rewrite E1, E2, H1, H2, H3 in K2.
  assert (K3 : (a * b + c * d) * (a * b + c * d) = 0) by lra.
  apply Rmult_integral in K3. tauto.
Qed.

Lemma exp_nonpos_le_1 t : 0 <= t -> 0 < exp (- t) <= 1.
Proof.
  intros Ht. split; [apply exp_pos|].
  destruct (Req_dec t 0) as [->|Hne].
  - rewrite Ropp_0, exp_0. lra.
  - left. rewrite <- exp_0. apply exp_increasing. lra.
Qed.

(** X13.  Strafe damping.  For a forward and a right vector that are
    horizontal unit vectors at right angles (the basis of a body turned
    about the vertical axis only), a horizontal velocity and a damping rate
    times [dt] that is not negative, the strafe damp leaves the component
    of the velocity along forward as it is, multiplies the component along
    right by [exp (- sideDamp * dt)], keeps the velocity horizontal, and so
    never lengthens it. *)
Theorem strafe_damp_never_speeds_up (cfg : Config) (g : bool)
    (fwd rgt v : Vector3) (dt : R) :
  horizontalBasis fwd rgt -> y v = 0 ->
  0 <= (if g then PLAYER_SIDE_DAMP_GROUND cfg
        else PLAYER_SIDE_DAMP_AIR cfg) * dt ->
  let sideDamp :=
    if g then PLAYER_SIDE_DAMP_GROUND cfg else PLAYER_SIDE_DAMP_AIR cfg in
  let v' := strafeDamp cfg g fwd rgt dt v in
  y v' = 0
  /\ V3.dot v' fwd = V3.dot v fwd
  /\ V3.dot v' rgt
     = V3.dot v rgt
       * (if PLAYER_USE_STRAFE_DAMP cfg then exp (- sideDamp * dt) else 1)
  /\ V3.lengthSq v' <= V3.lengthSq v.
Proof.
  intros (Hfy & Hfl & Hry & Hrl & Hfr) Hvy Hdamp sideDamp v'.
  subst v'. unfold strafeDamp.
  destruct (PLAYER_USE_STRAFE_DAMP cfg).
  - rewrite (normalize_unit_horizontal fwd Hfy Hfl).
    rewrite (normalize_unit_horizontal rgt Hry Hrl).
    fold sideDamp.
    replace (- sideDamp * dt) with (- (sideDamp * dt)) by ring.
    destruct (exp_nonpos_le_1 (sideDamp * dt) Hdamp) as (Hk0 & Hk1).
    remember (exp (- (sideDamp * dt))) as k eqn:Ek. clear Ek.
    unfold V3.lengthSq, V3.dot in *.
    destruct fwd as [a fy b], rgt as [c ry d], v as [vx vy vz].
    simpl in *. subst fy ry vy.
    assert (H1 : a * a + b * b = 1) by lra.
    assert (H2 : c * c + d * d = 1) by lra.
    assert (H3 : a * c + b * d = 0) by lra.
    destruct (horizontalBasis_complete a b c d H1 H2 H3) as (E1 & E2 & E3).
    split; [ring|]. split; [|split].
    + replace ((a * (vx * a + 0 * 0 + vz * b)
                + c * ((vx * c + 0 * 0 + vz * d) * k)) * a
               + (0 * (vx * a + 0 * 0 + vz * b)
                  + 0 * ((vx * c + 0 * 0 + vz * d) * k)) * 0
               + (b * (vx * a + 0 * 0 + vz * b)
                  + d * ((vx * c + 0 * 0 + vz * d) * k)) * b)
        with ((vx * a + vz * b) * (a * a + b * b)
              + (vx * c + vz * d) * k * (a * c + b * d)) by ring.
      rewrite H1, H3. ring.
    + replace ((a * (vx * a + 0 * 0 + vz * b)
                + c * ((vx * c + 0 * 0 + vz * d) * k)) * c
               + (0 * (vx * a + 0 * 0 + vz * b)
                  + 0 * ((vx * c + 0 * 0 + vz * d) * k)) * 0
               + (b * (vx * a + 0 * 0 + vz * b)
                  + d * ((vx * c + 0 * 0 + vz * d) * k)) * d)
        with ((vx * a + vz * b) * (a * c + b * d)
              + (vx * c + vz * d) * k * (c * c + d * d)) by ring.
      rewrite H2, H3. ring.
    + set (A := vx * a + vz * b). set (B := vx * c + vz * d).
      assert (HL : (a * (vx * a + 0 * 0 + vz * b)
                    + c * ((vx * c + 0 * 0 + vz * d) * k))
                   * (a * (vx * a + 0 * 0 + vz * b)
                      + c * ((vx * c + 0 * 0 + vz * d) * k))
                   + (0 * (vx * a + 0 * 0 + vz * b)
                      + 0 * ((vx * c + 0 * 0 + vz * d) * k))
                     * (0 * (vx * a + 0 * 0 + vz * b)
                        + 0 * ((vx * c + 0 * 0 + vz * d) * k))
                   + (b * (vx * a + 0 * 0 + vz * b)
                      + d * ((vx * c + 0 * 0 + vz * d) * k))
                     * (b * (vx * a + 0 * 0 + vz * b)
                        + d * ((vx * c + 0 * 0 + vz * d) * k))
                   = A * A * (a * a + b * b)
                     + 2 * A * (B * k) * (a * c + b * d)
                     + (B * k) * (B * k) * (c * c + d * d))
        by (unfold A, B; ring).
      rewrite HL, H1, H2, H3.
      assert (HR : vx * vx + 0 * 0 + vz * vz
                   = A * A + B * B
                     + vx * vx * (1 - (a * a + c * c))
                     + vz * vz * (1 - (b * b + d * d))
                     - 2 * vx * vz * (a * b + c * d))
        by (unfold A, B; ring).
      rewrite HR, E1, E2, E3.
      assert (0 <= B * B) by nra.
      assert (k * k <= 1) by nra.
      nra.
  - split; [exact Hvy|]. split; [reflexivity|]. split; [ring|lra].
Qed.

Lemma strafe_damp_never_speeds_up_witness :
  horizontalBasis (vec3 0 0 1) (vec3 1 0 0)
  /\ 0 <= PLAYER_SIDE_DAMP_GROUND defaultConfig * (1 / 60)
  /\ V3.lengthSq
       (strafeDamp defaultConfig true (vec3 0 0 1) (vec3 1 0 0) (1 / 60)
          (vec3 3 0 4))
     <= V3.lengthSq (vec3 3 0 4).
Proof.
  assert (H0 : horizontalBasis (vec3 0 0 1) (vec3 1 0 0)).
  { unfold horizontalBasis, V3.lengthSq, V3.dot. simpl.
    repeat split; ring. }
  assert (H1 : 0 <= PLAYER_SIDE_DAMP_GROUND defaultConfig * (1 / 60))
    by (simpl; lra).
  split; [exact H0|]. split; [exact H1|].
  apply (strafe_damp_never_speeds_up defaultConfig true (vec3 0 0 1)
           (vec3 1 0 0) (vec3 3 0 4) (1 / 60) H0 eq_refl H1).
Defined.

(** ** The animation actions *)

Lemma AnimName_eqb_refl a : AnimName_eqb a a = true.
Proof. destruct a; reflexivity. Qed.

Lemma AnimName_eqb_neq a b : AnimName_eqb a b = false <-> a <> b.
Proof.
  split.
  - intros H E. subst. rewrite AnimName_eqb_refl in H. discriminate.
  - intros H. destruct (AnimName_eqb a b) eqn:E; [|reflexivity].
    apply AnimName_eqb_eq in E. contradiction.
Qed.

(** The switch to another action, when its clip is loaded and it is not
    the current one. *)
Lemma playPlayerAction_switch cfg s name immediate :
  playerActions s name = true -> playerCurrentAction s <> Some name ->
  playPlayerAction cfg s name immediate
  = set_playerCurrentState name
      (set_playerCurrentAction (Some name)
         (set_effects (switchEffects cfg s name immediate) s)).
Proof.
  intros Hl Hne. unfold playPlayerAction, switchEffects, log.
  rewrite Hl. cbn [negb].
  destruct (playerCurrentAction s) as [cur|] eqn:Ec.
  - assert (E : AnimName_eqb cur name = false).
    { apply AnimName_eqb_neq. congruence. }
    rewrite E. destruct immediate; destruct s; reflexivity.
  - destruct s; reflexivity.
Qed.

(** X14.  [playPlayerAction].  Asked for an action whose clip is not
    loaded, or for the current action, it changes nothing.  Otherwise it
    makes the action the current one and its name the current state, and
    it plays the new action and then cross-fades from the old one over
    [FADE_SECONDS] (stops the old one when immediate; neither when there
    was none).  Asked again for the same action it changes nothing more:
    no second reset, no second cross-fade. *)
Theorem play_action_once (cfg : Config) (s : State) (name : AnimName)
    (immediate again : bool) :
  (playerActions s name = false ->
   playPlayerAction cfg s name immediate = s)
  /\ (playerCurrentAction s = Some name ->
      playPlayerAction cfg s name immediate = s)
  /\ (playerActions s name = true -> playerCurrentAction s <> Some name ->
      playerCurrentAction (playPlayerAction cfg s name immediate) = Some name
      /\ playerCurrentState (playPlayerAction cfg s name immediate) = name
      /\ effects (playPlayerAction cfg s name immediate)
         = match playerCurrentAction s with
           | Some cur =>
             (if immediate then ActionStop cur
              else ActionCrossFade cur name (FADE_SECONDS cfg))
             :: ActionPlay name :: effects s
           | None => ActionPlay name :: effects s
           end)
  /\ playPlayerAction cfg (playPlayerAction cfg s name immediate) name again
     = playPlayerAction cfg s name immediate.
Proof.
  assert (Hmiss : forall t i, playerActions t name = false ->
                    playPlayerAction cfg t name i = t).
  { intros t i H. unfold playPlayerAction. rewrite H. reflexivity. }
  assert (Hcur : forall t i, playerCurrentAction t = Some name ->
                   playPlayerAction cfg t name i = t).
  { intros t i H. unfold playPlayerAction. rewrite H, AnimName_eqb_refl.
    destruct (negb (playerActions t name)); reflexivity. }
  split; [apply Hmiss|]. split; [apply Hcur|]. split.
  - intros Hl Hne. rewrite (playPlayerAction_switch cfg s name immediate Hl Hne).
    unfold switchEffects. destruct s; repeat split; reflexivity.
  - destruct (playerActions s name) eqn:Hl;
      [|rewrite (Hmiss s immediate Hl); apply Hmiss; exact Hl].
    destruct (playerCurrentAction s) as [cur|] eqn:Ec.
    + destruct (AnimName_eqb cur name) eqn:E.
      * apply AnimName_eqb_eq in E. subst cur.
        rewrite (Hcur s immediate Ec). apply Hcur. exact Ec.
      * apply AnimName_eqb_neq in E.
        apply Hcur.
        rewrite (playPlayerAction_switch cfg s name immediate Hl)
          by (rewrite Ec; congruence).
        destruct s; reflexivity.
    + apply Hcur.
      rewrite (playPlayerAction_switch cfg s name immediate Hl)
        by (rewrite Ec; discriminate).
      destruct s; reflexivity.
Qed.

Lemma play_action_once_witness :
  playerActions airborne move = true
  /\ playerCurrentAction airborne <> Some move
  /\ playerCurrentState (playPlayerAction defaultConfig airborne move false)
     = move
  /\ effects (playPlayerAction defaultConfig airborne move false)
     = [ActionCrossFade idle move (FADE_SECONDS defaultConfig);
        ActionPlay move]
  /\ playPlayerAction defaultConfig createGameState move false
     = createGameState.
Proof.
  assert (H1 : playerCurrentAction airborne <> Some move) by discriminate.
  destruct (play_action_once defaultConfig airborne move false false)
    as (_ & _ & Hsw & _).
  destruct (play_action_once defaultConfig createGameState move false false)
    as (Hmiss & _).
  destruct (Hsw eq_refl H1) as (_ & Hs & He).
  split; [reflexivity|]. split; [exact H1|]. split; [exact Hs|].
  split; [exact He|]. apply Hmiss. reflexivity.
Defined.

(** ** The animation selector with all clips loaded *)

(** The switch of the selector: after it the current state and action are
    the ones asked for. *)
Lemma ensure_action cfg t name :
  playerActions t name = true -> animConsistent t ->
  exists ef,
    (if negb (AnimName_eqb name (playerCurrentState t))
     then playPlayerAction cfg t name false else t)
    = set_playerCurrentState name
        (set_playerCurrentAction (Some name) (set_effects ef t)).
Proof.
  intros Hl Hc. unfold animConsistent in Hc.
  destruct (AnimName_eqb name (playerCurrentState t)) eqn:E; cbn [negb].
  - apply AnimName_eqb_eq in E. exists (effects t).
    rewrite E in *. destruct t; simpl in *. rewrite Hc. reflexivity.
  - apply AnimName_eqb_neq in E. eexists.
    apply playPlayerAction_switch; [exact Hl|].
    rewrite Hc. congruence.
Qed.

Lemma applyMoveAnimDirection_loaded t dir :
  playerActions t move = true -> dir = -1 \/ dir = 1 ->
  exists ef,
    applyMoveAnimDirection t dir false
    = set_moveAnimDir dir (set_effects ef t).
Proof.
  intros Hl Hd. unfold applyMoveAnimDirection. rewrite Hl. cbn [negb andb].
  assert (Hc : (if Rltb dir 0 then -1 else 1) = dir).
  { destruct Hd as [->| ->]; rdecide; reflexivity. }
  rewrite Hc.
  destruct (Reqb dir (moveAnimDir t)) eqn:E.
  - apply Reqb_true in E. exists (effects t). rewrite E.
    destruct t; reflexivity.
  - eexists. unfold log. destruct t; reflexivity.
Qed.

Lemma selectAction_loaded cfg t p :
  (forall n, playerActions t n = true) -> animConsistent t ->
  let d := desiredAction cfg t p in
  let md :=
    if AnimName_eqb d move && Rltb (lastMoveAxis t) 0 then -1 else 1 in
  exists ef,
    selectAction cfg t p
    = set_effects ef
        (set_moveAnimDir md
           (set_playerCurrentState d (set_playerCurrentAction (Some d) t))).
Proof.
  intros Hl Hc d md. unfold selectAction. fold d.
  destruct (ensure_action cfg t d (Hl d) Hc) as (ef & ->).
  remember (set_playerCurrentState d
              (set_playerCurrentAction (Some d) (set_effects ef t)))
    as t1 eqn:Et1.
  assert (Hl1 : playerActions t1 move = true).
  { rewrite Et1. destruct t; simpl. apply (Hl move). }
  assert (Hax : lastMoveAxis t1 = lastMoveAxis t)
    by (rewrite Et1; destruct t; reflexivity).
  assert (Hmd : moveAnimDir t1 = moveAnimDir t)
    by (rewrite Et1; destruct t; reflexivity).
  rewrite Hax. subst md.
  destruct (AnimName_eqb d move) eqn:Ed; cbn [andb].
  - destruct (applyMoveAnimDirection_loaded t1
                (if Rltb (lastMoveAxis t) 0 then -1 else 1) Hl1)
      as (ef2 & ->).
    { destruct (Rltb (lastMoveAxis t) 0); auto. }
    exists ef2. rewrite Et1. destruct t; reflexivity.
  - destruct (Reqb (moveAnimDir t1) 1) eqn:E1; cbn [negb].
    + apply Reqb_true in E1. exists ef. rewrite Et1.
      rewrite Hmd in E1. destruct t; simpl in *. rewrite E1. reflexivity.
    + destruct (applyMoveAnimDirection_loaded t1 1 Hl1) as (ef2 & ->);
        [auto|].
      exists ef2. rewrite Et1. destruct t; reflexivity.
Qed.

(** X15.  The animation state follows the player.  With a body, a mixer,
    all four clips loaded and the current action matching the current
    state, [updatePlayerAnimationState] does not fault (outside a climb, if
    the grounded test does not), keeps action and state matching, and
    leaves the state [climb] while the player climbs or the climb grace
    runs, and otherwise [in_air] under the air latch, [move] when the
    horizontal speed exceeds [MOVE_SPEED_THRESHOLD], and [idle] else.
    Outside a climb the move clip is set to play backward exactly when the
    state is [move] and the last move axis is negative, and forward in
    every other case; during a climb the latch and its timer are reset and
    the direction is left alone. *)
Theorem animation_follows_state (cfg : Config) (s : State) (dt : R)
    (p : Body) (g : bool) :
  Player s = Some p -> playerMixer s = true ->
  (forall n, playerActions s n = true) -> animConsistent s ->
  (playerClimbing s || Rgtb (climbAnimGrace s) 0 = false ->
   isGrounded cfg s = Some g) ->
  exists s',
    updatePlayerAnimationState cfg s dt = Some s'
    /\ animConsistent s'
    /\ (forall n, playerActions s' n = true)
    /\ playerCurrentState s'
       = (if playerClimbing s || Rgtb (climbAnimGrace s) 0 then climb
          else if animInAir s' then in_air
          else if Rgtb (horizSpeed (linearVelocity p))
                    (MOVE_SPEED_THRESHOLD cfg)
               then move else idle)
    /\ moveAnimDir s'
       = (if playerClimbing s || Rgtb (climbAnimGrace s) 0
          then moveAnimDir s
          else if AnimName_eqb (playerCurrentState s') move
                  && Rltb (lastMoveAxis s) 0
               then -1 else 1)
    /\ (playerClimbing s || Rgtb (climbAnimGrace s) 0 = true ->
        animInAir s' = false /\ animAirTimer s' = 0).
Proof.
  intros Hp Hm Hl Hc Hg.
  unfold updatePlayerAnimationState. rewrite Hp, Hm. cbn [negb].
  destruct (playerClimbing s || Rgtb (climbAnimGrace s) 0) eqn:Ecl.
  - remember (set_animAirTimer 0 (set_animInAir false s)) as s1 eqn:Es1.
    assert (Hl1 : playerActions s1 climb = true).
    { rewrite Es1. destruct s; simpl. apply (Hl climb). }
    assert (Hc1 : animConsistent s1).
    { unfold animConsistent in *. rewrite Es1. destruct s; exact Hc. }
    assert (Hsw : exists ef,
              (if negb (AnimName_eqb (playerCurrentState s1) climb)
               then playPlayerAction cfg s1 climb false else s1)
              = set_playerCurrentState climb
                  (set_playerCurrentAction (Some climb) (set_effects ef s1))).
    { destruct (ensure_action cfg s1 climb Hl1 Hc1) as (ef & Hef).
      exists ef. rewrite <- Hef.
      destruct (playerCurrentState s1); reflexivity. }
    destruct Hsw as (ef & ->).
    eexists. split; [reflexivity|]. rewrite Es1.
    unfold animConsistent.
    destruct s; simpl in *. repeat split; auto.
  - specialize (Hg eq_refl). rewrite Hg.
    remember (animGroundingGate cfg s g dt) as s1 eqn:Es1.
    rewrite animGroundingGate_shape in Es1.
    assert (Hl1 : forall n, playerActions s1 n = true).
    { intros n. rewrite Es1. destruct g; destruct s; simpl; apply (Hl n). }
    assert (Hc1 : animConsistent s1).
    { unfold animConsistent in *. rewrite Es1.
      destruct g; destruct s; exact Hc. }
    destruct (selectAction_loaded cfg s1 p Hl1 Hc1) as (ef & ->).
    assert (Hax : lastMoveAxis s1 = lastMoveAxis s)
      by (rewrite Es1; destruct g; destruct s; reflexivity).
    rewrite Hax.
    assert (Hd : desiredAction cfg s1 p
                 = if animInAir s1 then in_air
                   else if Rgtb (horizSpeed (linearVelocity p))
                             (MOVE_SPEED_THRESHOLD cfg)
                        then move else idle) by reflexivity.
    remember (desiredAction cfg s1 p) as d eqn:Ed.
    assert (Hair : forall ef md,
              animInAir
                (set_effects ef
                   (set_moveAnimDir md
                      (set_playerCurrentState d
                         (set_playerCurrentAction (Some d) s1))))
              = animInAir s1)
      by (intros; destruct s1; reflexivity).
    eexists. split; [reflexivity|].
    rewrite Hair, <- Hd.
    unfold animConsistent.
    clear Es1 Hc1 Hax Hd Ed Hair.
    destruct s1; simpl in *.
    split; [reflexivity|]. split; [exact Hl1|].
    split; [reflexivity|]. split; [reflexivity|]. discriminate.
Qed.

Lemma animation_follows_state_witness :
  Player backingUp = Some backingBody
  /\ playerMixer backingUp = true
  /\ (forall n, playerActions backingUp n = true)
  /\ animConsistent backingUp
  /\ isGrounded defaultConfig backingUp = Some true
  /\ exists s',
       updatePlayerAnimationState defaultConfig backingUp (1 / 60) = Some s'
       /\ playerCurrentState s' = move
       /\ moveAnimDir s' = -1.
Proof.
  assert (Hl : forall n, playerActions backingUp n = true)
    by (intros n; reflexivity).
  assert (Hc : animConsistent backingUp) by reflexivity.
  split; [reflexivity|]. split; [reflexivity|]. split; [exact Hl|].
  split; [exact Hc|]. split; [reflexivity|].
  destruct (animation_follows_state defaultConfig backingUp (1 / 60)
              backingBody true eq_refl eq_refl Hl Hc (fun _ => eq_refl))
    as (s' & Hrun & _ & _ & Hs & Hmd & _).
  assert (Hcl : playerClimbing backingUp || Rgtb (climbAnimGrace backingUp) 0
                = false).
  { simpl. unfold Rgtb. apply Rltb_false. lra. }
  rewrite Hcl in Hs, Hmd.
  destruct (updatePlayerAnimationState_gate defaultConfig backingUp (1 / 60)
              backingBody true eq_refl eq_refl Hcl eq_refl)
    as (ca & cs & md & ef & Hrun2 & _).
  rewrite Hrun in Hrun2. injection Hrun2 as Hs'.
  assert (Hair : animInAir s' = false).
  { rewrite Hs'. rewrite animWrites_animInAir. reflexivity. }
  rewrite Hair in Hs.
  assert (Hsp : Rgtb (horizSpeed (linearVelocity backingBody))
                  (MOVE_SPEED_THRESHOLD defaultConfig) = true).
  { unfold horizSpeed. simpl.
    replace (0 * 0 + -5 * -5) with (5 * 5) by ring.
    rewrite sqrt_square by lra. unfold Rgtb. apply Rltb_true. lra. }
  rewrite Hsp in Hs.
  exists s'. split; [exact Hrun|]. split; [exact Hs|].
  rewrite Hmd, Hs. cbn [AnimName_eqb andb].
  assert (Hneg : Rltb (lastMoveAxis backingUp) 0 = true).
  { apply Rltb_true. simpl. lra. }
  rewrite Hneg. reflexivity.
Defined.

(** ** The follow camera *)

Lemma clamp_id v lo hi : lo <= v <= hi -> clamp v lo hi = v.
Proof.
  intros H. unfold clamp, Rmax, Rmin.
  repeat destruct (Rle_dec _ _); lra.
Qed.

Lemma sign_values a :
  (0 < a -> sign a = 1) /\ (a < 0 -> sign a = -1) /\ (a = 0 -> sign a = 0).
Proof.
  unfold sign. repeat split; intros H; rdecide; reflexivity.
Qed.

Lemma cameraDistance_onWheel cfg dy s :
  cameraDistance (onWheel cfg dy s)
  = clamp (cameraDistance s + sign dy * 2.0) (CAMERA_MIN_DISTANCE cfg)
      (CAMERA_MAX_DISTANCE cfg).
Proof. destruct s; reflexivity. Qed.

(** X16.  Zooming with the wheel.  A wheel event moves the camera distance
    by 2 in the direction of the sign of [deltaY] (not at all for zero),
    whatever the size of [deltaY], and clamps it: with
    [CAMERA_MIN_DISTANCE] at most [CAMERA_MAX_DISTANCE] the distance is
    within the two afterwards.  Away from the bounds a step out and a step
    back in give the distance back.  The wheel changes nothing but the
    distance. *)
Theorem wheel_zoom (cfg : Config) (dy dy' : R) (s : State) :
  onWheel cfg dy s
  = set_cameraDistance
      (clamp (cameraDistance s + sign dy * 2.0) (CAMERA_MIN_DISTANCE cfg)
         (CAMERA_MAX_DISTANCE cfg)) s
  /\ (sign dy = 1 /\ 0 < dy \/ sign dy = -1 /\ dy < 0
      \/ sign dy = 0 /\ dy = 0)
  /\ (CAMERA_MIN_DISTANCE cfg <= CAMERA_MAX_DISTANCE cfg ->
      CAMERA_MIN_DISTANCE cfg <= cameraDistance (onWheel cfg dy s)
      <= CAMERA_MAX_DISTANCE cfg)
  /\ (0 < dy -> dy' < 0 ->
      CAMERA_MIN_DISTANCE cfg <= cameraDistance s ->
      cameraDistance s + 2 <= CAMERA_MAX_DISTANCE cfg ->
      cameraDistance (onWheel cfg dy' (onWheel cfg dy s)) = cameraDistance s).
Proof.
  destruct (sign_values dy) as (Hpos & Hneg & Hzero).
  split; [reflexivity|]. split.
  { destruct (Rtotal_order dy 0) as [H|[H|H]]; auto. }
  split.
  - intros Hb. rewrite cameraDistance_onWheel. apply clamp_bounds. exact Hb.
  - intros Hdy Hdy' Hlo Hhi.
    rewrite !cameraDistance_onWheel.
    rewrite (Hpos Hdy).
    rewrite (proj1 (proj2 (sign_values dy')) Hdy').
    rewrite (clamp_id (cameraDistance s + 1 * 2.0)) by lra.
    rewrite clamp_id by lra. lra.
Qed.

Lemma wheel_zoom_witness :
  CAMERA_MIN_DISTANCE defaultConfig <= CAMERA_MAX_DISTANCE defaultConfig
  /\ 0 < 120 /\ -120 < 0
  /\ CAMERA_MIN_DISTANCE defaultConfig <= cameraDistance airborne
  /\ cameraDistance airborne + 2 <= CAMERA_MAX_DISTANCE defaultConfig
  /\ cameraDistance (onWheel defaultConfig (-120)
                       (onWheel defaultConfig 120 airborne))
     = cameraDistance airborne
  /\ cameraDistance (onWheel defaultConfig 120 airborne)
     <= CAMERA_MAX_DISTANCE defaultConfig.
Proof.
  assert (H0 : CAMERA_MIN_DISTANCE defaultConfig
               <= CAMERA_MAX_DISTANCE defaultConfig) by (simpl; lra).
  assert (H1 : 0 < 120) by lra.
  assert (H2 : -120 < 0) by lra.
  assert (H3 : CAMERA_MIN_DISTANCE defaultConfig <= cameraDistance airborne)
    by (simpl; lra).
  assert (H4 : cameraDistance airborne + 2
               <= CAMERA_MAX_DISTANCE defaultConfig) by (simpl; lra).
  destruct (wheel_zoom defaultConfig 120 (-120) airborne)
    as (_ & _ & Hb & Hrt).
  split; [exact H0|]. split; [exact H1|]. split; [exact H2|].
  split; [exact H3|]. split; [exact H4|].
  split; [exact (Hrt H1 H2 H3 H4)|exact (proj2 (Hb H0))].
Defined.

(** The first camera update, written out. *)
Lemma updateCamera_first cfg s p c :
  Player s = Some p -> camera s = Some c ->
  cameraYawInitialized s = false ->
  let o := origin (motionState p) in
  let toCam := V3.sub (position c) (vec3 (x o) (y o) (z o)) in
  let h := y o - GROUND_PLANE_Y cfg in
  let d :=
    clamp (V3.length toCam) (CAMERA_MIN_DISTANCE cfg)
      (CAMERA_MAX_DISTANCE cfg) in
  let yw := atan2 (x toCam) (z toCam) in
  let horizLen0 := sqrt (x toCam * x toCam + z toCam * z toCam) in
  let pt :=
    clamp
      (clamp (atan2 (y toCam) (if Reqb horizLen0 0 then 1e-6 else horizLen0))
         (minPitchAt cfg h) (CAMERA_MAX_PITCH cfg))
      (minPitchAt cfg h) (CAMERA_MAX_PITCH cfg) in
  updateCamera cfg s
  = Some (cameraWrites
            (Some (mkCamera
                     (V3.lerp (position c)
                        (vec3 (x o + d * cos pt * sin yw)
                           (y o + d * sin pt
                            + CAMERA_VERTICAL_OFFSET cfg * 0.15)
                           (z o + d * cos pt * cos yw)) 0.15)
                     (V3.add (vec3 (x o) (y o) (z o))
                        (vec3 0 (CAMERA_VERTICAL_OFFSET cfg * 0.35) 0))))
            h d yw pt true s).
Proof.
  intros Hp Hc Hi. destruct s; simpl in *; subst.
  unfold updateCamera, initCameraOrbit; simpl.
  unfold cameraWrites, getDynamicMinPitch, minPitchAt; simpl.
  reflexivity.
Qed.

(** A camera update once the orbit is initialised, written out. *)
Lemma updateCamera_later cfg s p c :
  Player s = Some p -> camera s = Some c ->
  cameraYawInitialized s = true ->
  let o := origin (motionState p) in
  let h := y o - GROUND_PLANE_Y cfg in
  let d := cameraDistance s in
  let yw := cameraYaw s in
  let pt :=
    clamp (cameraPitch s) (minPitchAt cfg h) (CAMERA_MAX_PITCH cfg) in
  updateCamera cfg s
  = Some (cameraWrites
            (Some (mkCamera
                     (V3.lerp (position c)
                        (vec3 (x o + d * cos pt * sin yw)
                           (y o + d * sin pt
                            + CAMERA_VERTICAL_OFFSET cfg * 0.15)
                           (z o + d * cos pt * cos yw)) 0.15)
                     (V3.add (vec3 (x o) (y o) (z o))
                        (vec3 0 (CAMERA_VERTICAL_OFFSET cfg * 0.35) 0))))
            h d yw pt true s).
Proof.
  intros Hp Hc Hi. destruct s; simpl in *; subst.
  unfold updateCamera; simpl.
  unfold cameraWrites, getDynamicMinPitch, minPitchAt; simpl.
  reflexivity.
Qed.

Lemma cameraWrites_overrides cam h d yw pt ini a b c s :
  cameraWrites cam h d yw pt ini
    (set_cameraPitch a (set_cameraYaw b (set_cameraDistance c s)))
  = cameraWrites cam h d yw pt ini s.
Proof. destruct s; unfold cameraWrites; simpl; reflexivity. Qed.

Lemma orbit_fields a b c s :
  Player (set_cameraPitch a (set_cameraYaw b (set_cameraDistance c s)))
  = Player s
  /\ camera (set_cameraPitch a (set_cameraYaw b (set_cameraDistance c s)))
     = camera s
  /\ cameraYawInitialized
       (set_cameraPitch a (set_cameraYaw b (set_cameraDistance c s)))
     = cameraYawInitialized s.
Proof. destruct s; repeat split; reflexivity. Qed.

(** X17.  The orbit of the camera is taken from the scene once.  On the
    first camera update with a body and a camera (the orbit not yet
    initialised), yaw, distance and pitch are computed from the position
    the camera has relative to the player, and the values stored before are
    not read: the update gives the same state whatever pitch, yaw and
    distance were stored, so neither the camera defaults of [startCore]
    ([CAMERA_DEFAULT_PITCH]) nor a mouse move before the first frame has
    any effect on it.  The update marks the orbit initialised. *)
Theorem first_camera_update_ignores_stored_orbit (cfg : Config) (s : State)
    (p : Body) (c : Camera) :
  Player s = Some p -> camera s = Some c ->
  cameraYawInitialized s = false ->
  (forall pitch yaw distance,
     updateCamera cfg
       (set_cameraPitch pitch (set_cameraYaw yaw (set_cameraDistance distance s)))
     = updateCamera cfg s)
  /\ updateCamera cfg (cameraDefaults cfg s) = updateCamera cfg s
  /\ (forall mx my,
        updateCamera cfg (onMouseMove cfg mx my s) = updateCamera cfg s)
  /\ exists s',
       updateCamera cfg s = Some s'
       /\ cameraYawInitialized s' = true
       /\ (let o := origin (motionState p) in
           let toCam := V3.sub (position c) (vec3 (x o) (y o) (z o)) in
           cameraYaw s' = atan2 (x toCam) (z toCam)
           /\ cameraDistance s'
              = clamp (V3.length toCam) (CAMERA_MIN_DISTANCE cfg)
                  (CAMERA_MAX_DISTANCE cfg)).
Proof.
  intros Hp Hc Hi.
  assert (Hany : forall pitch yaw distance,
            updateCamera cfg
              (set_cameraPitch pitch
                 (set_cameraYaw yaw (set_cameraDistance distance s)))
            = updateCamera cfg s).
  { intros a b d.
    destruct (orbit_fields a b d s) as (Op & Oc & Oi).
    rewrite (updateCamera_first cfg _ p c) by congruence.
    rewrite (updateCamera_first cfg s p c Hp Hc Hi).
    rewrite cameraWrites_overrides. reflexivity. }
  split; [exact Hany|]. split; [|split].
  - assert (E : cameraDefaults cfg s
                = set_cameraPitch (CAMERA_DEFAULT_PITCH cfg)
                    (set_cameraYaw (cameraYaw s)
                       (set_cameraDistance
                          (clamp (cameraDistance s) (CAMERA_MIN_DISTANCE cfg)
                             (CAMERA_MAX_DISTANCE cfg)) s)))
      by (unfold cameraDefaults; destruct s; reflexivity).
    rewrite E. apply Hany.
  - intros mx my. unfold onMouseMove.
    destruct (pointerLocked s); cbn [negb]; [|reflexivity].
    match goal with
    | |- updateCamera cfg ?t = _ =>
      assert (E : t
                  = set_cameraPitch
                      (clamp
                         (cameraPitch s - my * MOUSE_PITCH_SENSITIVITY cfg)
                         (getDynamicMinPitch cfg s) (CAMERA_MAX_PITCH cfg))
                      (set_cameraYaw
                         (cameraYaw s - mx * MOUSE_YAW_SENSITIVITY cfg)
                         (set_cameraDistance (cameraDistance s) s)))
        by (unfold getDynamicMinPitch; destruct s; reflexivity);
      rewrite E
    end.
    apply Hany.
  - rewrite (updateCamera_first cfg s p c Hp Hc Hi).
    eexists. split; [reflexivity|].
    destruct s; repeat split; reflexivity.
Qed.

Lemma first_camera_update_ignores_stored_orbit_witness :
  Player airborne = Some standingBody
  /\ camera airborne = Some (mkCamera (vec3 0 55 100) (vec3 0 0 0))
  /\ cameraYawInitialized airborne = false
  /\ updateCamera defaultConfig (cameraDefaults defaultConfig airborne)
     = updateCamera defaultConfig airborne
  /\ updateCamera defaultConfig (set_cameraPitch 1 (set_cameraYaw 2
                                   (set_cameraDistance 3 airborne)))
     = updateCamera defaultConfig airborne.
Proof.
  split; [reflexivity|]. split; [reflexivity|]. split; [reflexivity|].
  destruct (first_camera_update_ignores_stored_orbit defaultConfig airborne
              standingBody (mkCamera (vec3 0 55 100) (vec3 0 0 0))
              eq_refl eq_refl eq_refl) as (Hany & Hdef & _).
  split; [exact Hdef|apply Hany].
Defined.

Lemma orbitOffset_lengthSq d pitch yaw :
  V3.lengthSq (orbitOffset d pitch yaw) = d * d.
Proof.
  unfold V3.lengthSq, orbitOffset. simpl.
  pose proof (sin2_cos2 pitch) as H1. pose proof (sin2_cos2 yaw) as H2.
  unfold Rsqr in H1, H2.
  remember (sin pitch) as sp. remember (cos pitch) as cp.
  remember (sin yaw) as sy. remember (cos yaw) as cy.
  replace (d * cp * sy * (d * cp * sy) + d * sp * (d * sp)
           + d * cp * cy * (d * cp * cy))
    with (d * d * (cp * cp * (sy * sy + cy * cy) + sp * sp)) by ring.
  rewrite H2. replace (cp * cp * 1 + sp * sp) with (sp * sp + cp * cp) by ring.
  rewrite H1. ring.
Qed.

(** X18.  The camera follows the player.  Once the orbit is initialised, a
    camera update with a body and a camera does not fault and leaves yaw
    and distance as they are.  The camera looks at the point
    [0.35 * CAMERA_VERTICAL_OFFSET] above the origin of the body, and it
    moves toward its orbit position, which lies at the camera distance from
    the point [0.15 * CAMERA_VERTICAL_OFFSET] above the origin of the body,
    in the direction given by yaw and the clamped pitch: after the update
    its offset from that position is 0.85 times the offset before, so a
    camera that is there stays there. *)
Theorem camera_follows_player (cfg : Config) (s : State) (p : Body)
    (c : Camera) :
  Player s = Some p -> camera s = Some c ->
  cameraYawInitialized s = true ->
  exists s' c',
    updateCamera cfg s = Some s'
    /\ camera s' = Some c'
    /\ cameraYaw s' = cameraYaw s
    /\ cameraDistance s' = cameraDistance s
    /\ cameraYawInitialized s' = true
    /\ lookAtTarget c'
       = V3.add (origin (motionState p))
           (vec3 0 (CAMERA_VERTICAL_OFFSET cfg * 0.35) 0)
    /\ (let offset :=
          orbitOffset (cameraDistance s) (cameraPitch s') (cameraYaw s) in
        let goal :=
          V3.add
            (V3.add (origin (motionState p))
               (vec3 0 (CAMERA_VERTICAL_OFFSET cfg * 0.15) 0)) offset in
        V3.lengthSq offset = cameraDistance s * cameraDistance s
        /\ V3.sub (position c') goal
           = V3.multiplyScalar (V3.sub (position c) goal) 0.85
        /\ (position c = goal -> position c' = goal)).
Proof.
  intros Hp Hc Hi.
  rewrite (updateCamera_later cfg s p c Hp Hc Hi).
  remember (clamp (cameraPitch s)
              (minPitchAt cfg (y (origin (motionState p)) - GROUND_PLANE_Y cfg))
              (CAMERA_MAX_PITCH cfg)) as pt eqn:Ept.
  eexists _, _. split; [reflexivity|].
  assert (Hf : forall cam h d yw,
            camera (cameraWrites cam h d yw pt true s) = cam
            /\ cameraYaw (cameraWrites cam h d yw pt true s) = yw
            /\ cameraDistance (cameraWrites cam h d yw pt true s) = d
            /\ cameraYawInitialized (cameraWrites cam h d yw pt true s) = true
            /\ cameraPitch (cameraWrites cam h d yw pt true s) = pt).
  { intros. destruct s; repeat split; reflexivity. }
  match goal with
  | |- context [cameraWrites ?cam ?h ?d ?yw pt true s] =>
    destruct (Hf cam h d yw) as (-> & -> & -> & -> & ->)
  end.
  split; [reflexivity|]. split; [reflexivity|]. split; [reflexivity|].
  split; [reflexivity|]. cbn [lookAtTarget position].
  split.
  { destruct (origin (motionState p)); reflexivity. }
  cbv zeta. split; [apply orbitOffset_lengthSq|].
  assert (Hgoal :
    V3.add
      (V3.add (origin (motionState p))
         (vec3 0 (CAMERA_VERTICAL_OFFSET cfg * 0.15) 0))
      (orbitOffset (cameraDistance s) pt (cameraYaw s))
    = vec3
        (x (origin (motionState p))
         + cameraDistance s * cos pt * sin (cameraYaw s))
        (y (origin (motionState p)) + cameraDistance s * sin pt
         + CAMERA_VERTICAL_OFFSET cfg * 0.15)
        (z (origin (motionState p))
         + cameraDistance s * cos pt * cos (cameraYaw s))).
  { unfold V3.add, orbitOffset. simpl. apply vec3_eq; ring. }
  rewrite Hgoal.
  remember (vec3
        (x (origin (motionState p))
         + cameraDistance s * cos pt * sin (cameraYaw s))
        (y (origin (motionState p)) + cameraDistance s * sin pt
         + CAMERA_VERTICAL_OFFSET cfg * 0.15)
        (z (origin (motionState p))
         + cameraDistance s * cos pt * cos (cameraYaw s))) as goal eqn:Eg.
  clear Eg Hgoal. split.
  - unfold V3.sub, V3.lerp, V3.multiplyScalar. simpl. apply vec3_eq; lra.
  - intros ->. unfold V3.lerp. destruct goal; simpl. apply vec3_eq; ring.
Qed.

Lemma camera_follows_player_witness :
  Player orbiting = Some standingBody
  /\ camera orbiting = Some (mkCamera (vec3 0 55 100) (vec3 0 0 0))
  /\ cameraYawInitialized orbiting = true
  /\ exists s' c',
       updateCamera defaultConfig orbiting = Some s'
       /\ camera s' = Some c'
       /\ cameraDistance s' = cameraDistance orbiting
       /\ lookAtTarget c'
          = V3.add (origin (motionState standingBody))
              (vec3 0 (CAMERA_VERTICAL_OFFSET defaultConfig * 0.35) 0).
Proof.
  split; [reflexivity|]. split; [reflexivity|]. split; [reflexivity|].
  destruct (camera_follows_player defaultConfig orbiting standingBody
              (mkCamera (vec3 0 55 100) (vec3 0 0 0)) eq_refl eq_refl eq_refl)
    as (s' & c' & Hrun & Hc & _ & Hd & _ & Hl & _).
  exists s', c'. auto.
Defined.

(** * The debug view *)

Lemma setVisible_lookup on refs : forall m i,
  setVisible on refs m !! i
  = if bool_decide (Some i ∈ refs) then Some on else m !! i.
Proof.
  unfold setVisible.
  induction refs as [|r refs IH]; intros m i; cbn [fold_left].
  - rewrite bool_decide_eq_false_2 by apply not_elem_of_nil. reflexivity.
  - rewrite IH.
    destruct (bool_decide (Some i ∈ refs)) eqn:E.
    + apply bool_decide_eq_true in E.
      rewrite bool_decide_eq_true_2 by (apply elem_of_cons; auto).
      reflexivity.
    + apply bool_decide_eq_false in E.
      destruct r as [j|].
      * destruct (decide (j = i)) as [->|Hne].
        -- rewrite bool_decide_eq_true_2 by (apply elem_of_cons; auto).
           apply lookup_insert_eq.
        -- rewrite bool_decide_eq_false_2
             by (intros H; apply elem_of_cons in H;
                 destruct H as [H|H]; [congruence|contradiction]).
           apply lookup_insert_ne. exact Hne.
      * rewrite bool_decide_eq_false_2
          by (intros H; apply elem_of_cons in H;
              destruct H as [H|H]; [discriminate|contradiction]).
        reflexivity.
Qed.

Lemma setVisible_twice on refs m :
  setVisible on refs (setVisible on refs m) = setVisible on refs m.
Proof.
  apply map_eq. intros i. rewrite !setVisible_lookup.
  destruct (bool_decide (Some i ∈ refs)); reflexivity.
Qed.

Lemma debugRefs_setDebugMode on v :
  debugRefs (setDebugMode on v) = debugRefs v.
Proof. reflexivity. Qed.

Lemma onBackquote_form v :
  onBackquote v
  = {| DEBUG_MODE := DEBUG_MODE v;
       debugUiCheckbox :=
         match debugUiCheckbox v with
         | Some _ => Some (negb (DEBUG_MODE v)) | None => None
         end;
       playerDebugMesh := playerDebugMesh v;
       gameObjects := gameObjects v;
       debugAxes := debugAxes v;
       staticTrimeshDebug := staticTrimeshDebug v;
       visibility :=
         setVisible (negb (DEBUG_MODE v)) (debugRefs v) (visibility v) |}.
Proof.
  unfold onBackquote, setDebugMode.
  cbn [DEBUG_MODE debugUiCheckbox playerDebugMesh gameObjects debugAxes
       staticTrimeshDebug visibility].
  rewrite negb_involutive. reflexivity.
Qed.

(** X19.  The debug view.  [setDebugMode] sets [CONFIG.DEBUG_MODE] and the
    checkbox (if there is one) to [on], shows or hides every object it
    lists (the player's debug mesh, the meshes and axes of the game
    objects, the debug axes, the static trimesh meshes and axes) and leaves
    the visibility of any other object alone.  The Backquote handler calls
    it with the negation of [CONFIG.DEBUG_MODE] and then negates
    [CONFIG.DEBUG_MODE] again: afterwards the listed objects are visible
    exactly if the debug mode was off, and [CONFIG.DEBUG_MODE] has the
    value it had before; so pressing the key a second time changes nothing
    (it does not toggle back).  A change of the checkbox sets all of them
    to its state. *)
Theorem debug_mode_hotkey (on checked : bool) (v : DebugView) (i : nat) :
  DEBUG_MODE (setDebugMode on v) = on
  /\ debugUiCheckbox (setDebugMode on v)
     = match debugUiCheckbox v with Some _ => Some on | None => None end
  /\ (Some i ∈ debugRefs v -> isVisible (setDebugMode on v) i = on)
  /\ (~ Some i ∈ debugRefs v ->
      isVisible (setDebugMode on v) i = isVisible v i)
  /\ DEBUG_MODE (onBackquote v) = DEBUG_MODE v
  /\ (Some i ∈ debugRefs v ->
      isVisible (onBackquote v) i = negb (DEBUG_MODE v))
  /\ onBackquote (onBackquote v) = onBackquote v
  /\ DEBUG_MODE (onDebugCheckboxChange checked v) = checked
  /\ (Some i ∈ debugRefs v ->
      isVisible (onDebugCheckboxChange checked v) i = checked).
Proof.
  assert (Hin : forall b w, Some i ∈ debugRefs w ->
                  isVisible (setDebugMode b w) i = b).
  { intros b w H. unfold isVisible, setDebugMode. cbn [visibility].
    rewrite setVisible_lookup, bool_decide_eq_true_2 by exact H.
    reflexivity. }
  split; [reflexivity|]. split; [reflexivity|].
  split; [apply Hin|]. split.
  { intros H. unfold isVisible, setDebugMode. cbn [visibility].
    rewrite setVisible_lookup, bool_decide_eq_false_2 by exact H.
    reflexivity. }
  split; [rewrite onBackquote_form; reflexivity|].
  split; [intros H; apply (Hin (negb (DEBUG_MODE v)) v H)|].
  split.
  { rewrite (onBackquote_form (onBackquote v)).
    rewrite (onBackquote_form v).
    cbn [DEBUG_MODE debugUiCheckbox playerDebugMesh gameObjects debugAxes
         staticTrimeshDebug visibility].
    f_equal.
    - destruct (debugUiCheckbox v); reflexivity.
    - match goal with
      | |- setVisible _ ?r _ = _ =>
        replace r with (debugRefs v) by reflexivity
      end.
      apply setVisible_twice. }
  split; [reflexivity|].
  intros H. apply (Hin checked). exact H.
Qed.

Lemma debug_mode_hotkey_witness :
  Some 2%nat ∈ debugRefs debugScene
  /\ isVisible debugScene 2 = false
  /\ isVisible (onBackquote debugScene) 2 = true
  /\ isVisible (onBackquote (onBackquote debugScene)) 2 = true
  /\ DEBUG_MODE (onBackquote debugScene) = false.
Proof.
  assert (H : Some 2%nat ∈ debugRefs debugScene)
    by (unfold debugRefs; simpl; set_solver).
  destruct (debug_mode_hotkey true true debugScene 2)
    as (_ & _ & _ & _ & Hd & Hv & Htwice & _).
  split; [exact H|]. split; [reflexivity|].
  split; [exact (Hv H)|]. split; [|exact Hd].
  rewrite Htwice. exact (Hv H).
Defined.

(** * Game objects *)

(** The rotation of three.js keeps the length of a vector when the
    quaternion has norm 1. *)
Lemma applyQuaternion_lengthSq v q :
  V3.lengthSq (V3.applyQuaternion v q)
  = V3.lengthSq v
    + (1 - quatNormSq q) * 4
      * ((qx q * x v + qy q * y v + qz q * z v)
         * (qx q * x v + qy q * y v + qz q * z v)
         - (qx q * qx q + qy q * qy q + qz q * qz q) * V3.lengthSq v).
Proof.
  unfold V3.lengthSq, V3.applyQuaternion, quatNormSq. simpl. ring.
Qed.

Lemma applyQuaternion_identity v :
  V3.applyQuaternion v (quat 0 0 0 1) = v.
Proof.
  unfold V3.applyQuaternion. simpl. destruct v; simpl. apply vec3_eq; ring.
Qed.

Lemma vec3_of_origin (o : Vector3) : vec3 (x o) (y o) (z o) = o.
Proof. destruct o; reflexivity. Qed.

(** X20.  Syncing a game object from its body.  For an object whose body
    has a motion state at origin [o] with rotation [rot]: the collider mesh
    and the axes, where there are any, take exactly that position and
    rotation; the visual model is placed at [o] plus its offset rotated by
    [rot], with the rotation [rot] times its rotation offset (at [o] with
    rotation [rot] when it has no offsets).  When [rot] has norm 1 the
    visual stays at the distance of its offset from the body, however the
    body is turned.  Syncing a second time changes nothing, and an object
    whose body has no motion state is left as it is. *)
Theorem sync_game_object (obj : GameObject) (t : Transform) :
  (objMotionState obj = None -> syncGameObject obj = obj)
  /\ syncGameObject (syncGameObject obj) = syncGameObject obj
  /\ (objMotionState obj = Some t ->
      let obj' := syncGameObject obj in
      (forall m, objMesh obj = Some m ->
         objMesh obj' = Some (mkPose (origin t) (rotation t)))
      /\ (forall a, objAxes obj = Some a ->
            objAxes obj' = Some (mkPose (origin t) (rotation t)))
      /\ (forall m, objVisual obj = Some m ->
            visualOffset obj = None -> visualRotationOffset obj = None ->
            objVisual obj' = Some (mkPose (origin t) (rotation t)))
      /\ (forall m off, objVisual obj = Some m ->
            visualOffset obj = Some off ->
            exists m',
              objVisual obj' = Some m'
              /\ V3.sub (posePosition m') (origin t)
                 = V3.applyQuaternion off (rotation t)
              /\ poseQuaternion m'
                 = match visualRotationOffset obj with
                   | Some r => Quat.multiply (rotation t) r
                   | None => rotation t
                   end
              /\ (quatNormSq (rotation t) = 1 ->
                  V3.lengthSq (V3.sub (posePosition m') (origin t))
                  = V3.lengthSq off))
      /\ (objMesh obj = None -> objMesh obj' = None)
      /\ (objVisual obj = None -> objVisual obj' = None)).
Proof.
  split; [|split].
  - intros H. unfold syncGameObject. rewrite H. reflexivity.
  - unfold syncGameObject.
    destruct (objMotionState obj) as [t0|] eqn:Hm.
    + cbn [objMotionState objMesh objAxes objVisual visualOffset
           visualRotationOffset].
      destruct (objMesh obj), (objAxes obj), (objVisual obj); reflexivity.
    + rewrite Hm. reflexivity.
  - intros Hm obj'. subst obj'. unfold syncGameObject. rewrite Hm.
    cbn [objMesh objAxes objVisual]. rewrite vec3_of_origin.
    split; [intros m ->; reflexivity|].
    split; [intros a ->; reflexivity|].
    split.
    { intros m -> -> ->. unfold V3.add. simpl.
      f_equal. f_equal. destruct (origin t); simpl. apply vec3_eq; ring. }
    split.
    { intros m off -> ->. eexists. split; [reflexivity|].
      cbn [posePosition poseQuaternion].
      assert (Hsub : V3.sub (V3.add (origin t)
                               (V3.applyQuaternion off (rotation t)))
                       (origin t)
                     = V3.applyQuaternion off (rotation t)).
      { remember (V3.applyQuaternion off (rotation t)) as w eqn:Ew.
        clear Ew. destruct w, (origin t).
        unfold V3.sub, V3.add. simpl. apply vec3_eq; ring. }
      rewrite Hsub. split; [reflexivity|]. split; [reflexivity|].
      intros Hn. rewrite applyQuaternion_lengthSq, Hn. ring. }
    split; [intros ->; reflexivity|intros ->; reflexivity].
Qed.

Lemma sync_game_object_witness :
  objMotionState crate
  = Some (mkTransform (vec3 3 2.5 4) (quat 0 (sqrt 2 / 2) 0 (sqrt 2 / 2)))
  /\ quatNormSq (quat 0 (sqrt 2 / 2) 0 (sqrt 2 / 2)) = 1
  /\ objMesh (syncGameObject crate)
     = Some (mkPose (vec3 3 2.5 4) (quat 0 (sqrt 2 / 2) 0 (sqrt 2 / 2)))
  /\ exists m',
       objVisual (syncGameObject crate) = Some m'
       /\ V3.lengthSq (V3.sub (posePosition m') (vec3 3 2.5 4))
          = V3.lengthSq (vec3 (-6) (-2.5) (-8)).
Proof.
  assert (Hn : quatNormSq (quat 0 (sqrt 2 / 2) 0 (sqrt 2 / 2)) = 1).
  { unfold quatNormSq. simpl.
    assert (H2 : sqrt 2 * sqrt 2 = 2) by (apply sqrt_sqrt; lra).
    nra. }
  split; [reflexivity|]. split; [exact Hn|].
  destruct (sync_game_object crate
              (mkTransform (vec3 3 2.5 4)
                 (quat 0 (sqrt 2 / 2) 0 (sqrt 2 / 2))))
    as (_ & _ & Hsync).
  destruct (Hsync eq_refl) as (Hmesh & _ & _ & Hvis & _).
  split; [exact (Hmesh _ eq_refl)|].
  destruct (Hvis _ _ eq_refl eq_refl) as (m' & Hm' & _ & _ & Hlen).
  exists m'. split; [exact Hm'|exact (Hlen Hn)].
Defined.

(** * The player as [createPlayer] leaves it *)

Lemma yawStep_yawStep a b :
  Quat.multiply (yawStep a) (yawStep b) = yawStep (a + b).
Proof.
  unfold yawStep, Quat.setFromAxisAngle, Quat.multiply. simpl.
  replace ((a + b) / 2) with (a / 2 + b / 2) by field.
  rewrite sin_plus, cos_plus.
  apply quat_eq; simpl; ring.
Qed.

(** Forward and right of a body turned by the angle [a] about the vertical
    axis. *)
Lemma bodyBasis_yawStep p a :
  rotation (worldTransform p) = yawStep a ->
  bodyBasis p = (vec3 (sin a) 0 (cos a), vec3 (cos a) 0 (- sin a)).
Proof.
  intros Hr. unfold bodyBasis. rewrite Hr.
  assert (Hs : sin a = 2 * sin (a / 2) * cos (a / 2)).
  { replace a with (2 * (a / 2)) at 1 by field. apply sin_2a. }
  assert (Hc : cos a = 1 - 2 * sin (a / 2) * sin (a / 2)).
  { replace a with (2 * (a / 2)) at 1 by field. apply cos_2a_sin. }
  assert (H1 : sin a * sin a + cos a * cos a = 1).
  { pose proof (sin2_cos2 a) as H. unfold Rsqr in H. exact H. }
  assert (Hf : V3.applyQuaternion (vec3 0 0 1) (yawStep a)
               = vec3 (sin a) 0 (cos a)).
  { unfold V3.applyQuaternion, yawStep, Quat.setFromAxisAngle. simpl.
    rewrite Hs, Hc. apply vec3_eq; ring. }
  assert (Hr' : V3.applyQuaternion (vec3 1 0 0) (yawStep a)
                = vec3 (cos a) 0 (- sin a)).
  { unfold V3.applyQuaternion, yawStep, Quat.setFromAxisAngle. simpl.
    rewrite Hs, Hc. apply vec3_eq; ring. }
  rewrite Hf, Hr'.
  assert (Hn : forall v, V3.lengthSq v = 1 -> V3.normalize v = v).
  { intros v Hv. unfold V3.normalize.
    rewrite (length_of_lengthSq_1 v Hv).
    rewrite (proj2 (Reqb_false 1 0)) by lra.
    destruct v; unfold V3.multiplyScalar; simpl. apply vec3_eq; field. }
  rewrite !Hn; [reflexivity| |].
  - unfold V3.lengthSq. simpl. lra.
  - unfold V3.lengthSq. simpl. lra.
Qed.

(** X21.  The heading of the player.  [createPlayer] places the origin of
    the body half the player height above the spawn position and turns it
    by the starting yaw about the vertical axis.  For a body turned by the
    angle [a] about the vertical axis, [getPlayerBasis] gives the forward
    vector (sin a, 0, cos a) and the right vector (cos a, 0, -sin a); and
    a [turn] by [delta * dt] leaves a body turned by [a + delta * dt], so
    forward becomes (sin (a + delta * dt), 0, cos (a + delta * dt)). *)
Theorem player_heading (cfg : Config) (position : Vector3) (yawDeg : R)
    (s : State) (p : Body) (a delta dt : R) :
  origin (playerStartTransform cfg position yawDeg)
  = V3.add position (vec3 0 (PLAYER_HEIGHT cfg / 2) 0)
  /\ rotation (playerStartTransform cfg position yawDeg)
     = yawStep (degToRad yawDeg)
  /\ (Player s = Some p -> rotation (worldTransform p) = yawStep a ->
      getPlayerBasis s
      = Some (vec3 (sin a) 0 (cos a), vec3 (cos a) 0 (- sin a))
      /\ exists s' p',
           turn cfg s delta dt = Some s'
           /\ Player s' = Some p'
           /\ rotation (worldTransform p') = yawStep (a + delta * dt)
           /\ getPlayerBasis s'
              = Some (vec3 (sin (a + delta * dt)) 0 (cos (a + delta * dt)),
                      vec3 (cos (a + delta * dt)) 0
                        (- sin (a + delta * dt)))).
Proof.
  split; [|split].
  - unfold playerStartTransform, V3.add. simpl. apply vec3_eq; ring.
  - unfold playerStartTransform, yawStep, Quat.setFromAxisAngle. simpl.
    apply quat_eq; simpl; ring.
  - intros Hp Hr.
    assert (Hbasis : forall t b c,
              Player t = Some b -> rotation (worldTransform b) = yawStep c ->
              getPlayerBasis t
              = Some (vec3 (sin c) 0 (cos c), vec3 (cos c) 0 (- sin c))).
    { intros t b c Ht Hb.
      pose proof (bodyBasis_yawStep b c Hb) as E.
      assert (G : getPlayerBasis t = Some (bodyBasis b))
        by (unfold getPlayerBasis, bodyBasis; rewrite Ht; reflexivity).
      rewrite G, E. reflexivity. }
    split; [apply (Hbasis s p a Hp Hr)|].
    rewrite (turn_body cfg s delta dt p Hp).
    eexists _, _. split; [reflexivity|].
    split; [apply Player_set_Player|].
    cbn [worldTransform rotation]. rewrite Hr, yawStep_yawStep.
    split; [reflexivity|].
    eapply Hbasis; [apply Player_set_Player|].
    cbn [worldTransform rotation]. try rewrite Hr.
    try rewrite yawStep_yawStep. reflexivity.
Qed.

Lemma player_heading_witness :
  Player airborne = Some standingBody
  /\ rotation (worldTransform standingBody) = yawStep 0
  /\ getPlayerBasis airborne = Some (vec3 0 0 1, vec3 1 0 0).
Proof.
  assert (Hr : rotation (worldTransform standingBody) = yawStep 0).
  { unfold yawStep, Quat.setFromAxisAngle. simpl.
    replace (0 / 2) with 0 by field. rewrite sin_0, cos_0.
    apply quat_eq; simpl; ring. }
  split; [reflexivity|]. split; [exact Hr|].
  destruct (player_heading defaultConfig (vec3 0 0 0) 0 airborne standingBody
              0 3 (1 / 60)) as (_ & _ & H).
  destruct (H eq_refl Hr) as (Hb & _).
  rewrite Hb, sin_0, cos_0. rewrite Ropp_0. reflexivity.
Defined.

Lemma applyMoveAnimDirection_forced t :
  applyMoveAnimDirection t 1 true
  = if playerActions t move
    then set_moveAnimDir 1 (set_effects (MoveClipDirection 1 :: effects t) t)
    else t.
Proof.
  unfold applyMoveAnimDirection, log.
  destruct (playerActions t move); cbn [negb andb]; [|reflexivity].
  rewrite (proj2 (Rltb_false 1 0)) by lra. reflexivity.
Qed.

(** X22.  The start of the animations.  At the end of [createPlayer], with
    no action current yet, the move clip (if loaded) is set to play
    forward and the first loaded clip among idle, move, in_air and climb
    is played at once: it becomes the current action and gives the current
    state its name, so that action and state match.  With no clip loaded
    nothing is played and no action is current.  The playback direction is
    1 in every case. *)
Theorem start_animations (cfg : Config) (s : State) :
  playerCurrentAction s = None ->
  let s' := startPlayerAnimations cfg s in
  moveAnimDir s' = 1
  /\ playerCurrentAction s' = firstLoaded (playerActions s)
  /\ (forall n,
        firstLoaded (playerActions s) = Some n ->
        playerCurrentState s' = n
        /\ animConsistent s'
        /\ effects s'
           = ActionPlay n
             :: (if playerActions s move then [MoveClipDirection 1] else [])
             ++ effects s)
  /\ (firstLoaded (playerActions s) = None -> s' = set_moveAnimDir 1 s).
Proof.
  intros Hnone s'. subst s'. unfold startPlayerAnimations.
  rewrite applyMoveAnimDirection_forced.
  replace (playerActions (set_moveAnimDir 1 s) move)
    with (playerActions s move) by (destruct s; reflexivity).
  remember (if playerActions s move
            then set_moveAnimDir 1
                   (set_effects
                      (MoveClipDirection 1 :: effects (set_moveAnimDir 1 s))
                      (set_moveAnimDir 1 s))
            else set_moveAnimDir 1 s) as s2 eqn:Es2.
  assert (Ha : playerActions s2 = playerActions s).
  { rewrite Es2. destruct (playerActions s move); destruct s; reflexivity. }
  assert (Hc : playerCurrentAction s2 = None).
  { rewrite Es2. destruct (playerActions s move); destruct s; exact Hnone. }
  assert (Hd : moveAnimDir s2 = 1).
  { rewrite Es2. destruct (playerActions s move); destruct s; reflexivity. }
  assert (He : effects s2
               = (if playerActions s move then [MoveClipDirection 1] else [])
                 ++ effects s).
  { rewrite Es2. destruct (playerActions s move); destruct s; reflexivity. }
  assert (Hplay : forall n,
            playerActions s n = true ->
            playPlayerAction cfg s2 n true
            = set_playerCurrentState n
                (set_playerCurrentAction (Some n)
                   (set_effects (ActionPlay n :: effects s2) s2))).
  { intros n Hn.
    assert (Hl : playerActions s2 n = true) by (rewrite Ha; exact Hn).
    assert (Hne : playerCurrentAction s2 <> Some n)
      by (rewrite Hc; discriminate).
    rewrite (playPlayerAction_switch cfg s2 n true Hl Hne).
    unfold switchEffects. rewrite Hc. reflexivity. }
  assert (Hres : forall n,
            playerActions s n = true ->
            let r := playPlayerAction cfg s2 n true in
            moveAnimDir r = 1
            /\ playerCurrentAction r = Some n
            /\ playerCurrentState r = n
            /\ animConsistent r
            /\ effects r = ActionPlay n :: effects s2).
  { intros n Hn r. subst r. rewrite (Hplay n Hn).
    unfold animConsistent. clear Es2 Ha Hc He Hplay.
    destruct s2; simpl in *. repeat split; auto. }
  rewrite Ha. unfold firstLoaded.
  destruct (playerActions s idle) eqn:E1;
    [|destruct (playerActions s move) eqn:E2;
      [|destruct (playerActions s in_air) eqn:E3;
        [|destruct (playerActions s climb) eqn:E4]]].
  - destruct (Hres idle E1) as (R1 & R2 & R3 & R4 & R5).
    split; [exact R1|]. split; [exact R2|]. split; [|discriminate].
    intros n Hn. injection Hn as <-. rewrite R5, He. auto.
  - destruct (Hres move E2) as (R1 & R2 & R3 & R4 & R5).
    split; [exact R1|]. split; [exact R2|]. split; [|discriminate].
    intros n Hn. injection Hn as <-. rewrite R5, He. auto.
  - destruct (Hres in_air E3) as (R1 & R2 & R3 & R4 & R5).
    split; [exact R1|]. split; [exact R2|]. split; [|discriminate].
    intros n Hn. injection Hn as <-. rewrite R5, He. auto.
  - destruct (Hres climb E4) as (R1 & R2 & R3 & R4 & R5).
    split; [exact R1|]. split; [exact R2|]. split; [|discriminate].
    intros n Hn. injection Hn as <-. rewrite R5, He. auto.
  - split; [exact Hd|]. split; [exact Hc|]. split; [discriminate|].
    intros _. exact Es2.
Qed.

Lemma start_animations_witness :
  playerCurrentAction airborne = Some idle
  /\ playerCurrentAction createGameState = None
  /\ startPlayerAnimations defaultConfig createGameState
     = set_moveAnimDir 1 createGameState
  /\ playerCurrentAction
       (startPlayerAnimations defaultConfig
          (set_playerCurrentAction None airborne)) = Some idle.
Proof.
  split; [reflexivity|]. split; [reflexivity|].
  destruct (start_animations defaultConfig createGameState eq_refl)
    as (_ & _ & _ & Hnone).
  destruct (start_animations defaultConfig
              (set_playerCurrentAction None airborne) eq_refl)
    as (_ & Hcur & _).
  split; [apply Hnone; reflexivity|exact Hcur].
Defined.

(** ** The calls of a frame, in order *)

Lemma playPlayerAction_effects cfg t name :
  exists a,
    effects (playPlayerAction cfg t name false) = a ++ effects t
    /\ forallb isFrameAnimEffect a = true
    /\ (length a <= 2)%nat.
Proof.
  unfold playPlayerAction, log.
  destruct (playerActions t name); cbn [negb];
    [|exists []; repeat split; simpl; lia].
  destruct (playerCurrentAction t) as [cur|].
  - destruct (AnimName_eqb cur name);
      [exists []; repeat split; simpl; lia|].
    exists [ActionCrossFade cur name (FADE_SECONDS cfg); ActionPlay name].
    split; [destruct t; reflexivity|]. split; [reflexivity|simpl; lia].
  - exists [ActionPlay name].
    split; [destruct t; reflexivity|]. split; [reflexivity|simpl; lia].
Qed.

Lemma applyMoveAnimDirection_effects t dir force :
  exists a,
    effects (applyMoveAnimDirection t dir force) = a ++ effects t
    /\ forallb isFrameAnimEffect a = true
    /\ (length a <= 1)%nat.
Proof.
  unfold applyMoveAnimDirection, log.
  destruct (playerActions t move); cbn [negb];
    [|exists []; repeat split; simpl; lia].
  match goal with |- context [if ?c then _ else _] => destruct c end;
    [exists []; repeat split; simpl; lia|].
  eexists [MoveClipDirection _].
  split; [destruct t; reflexivity|]. split; [reflexivity|simpl; lia].
Qed.

Lemma selectAction_effects cfg t p :
  exists a,
    effects (selectAction cfg t p) = a ++ effects t
    /\ forallb isFrameAnimEffect a = true
    /\ (length a <= 3)%nat.
Proof.
  unfold selectAction.
  set (desired := desiredAction cfg t p). clearbody desired.
  set (t1 := if negb (AnimName_eqb desired (playerCurrentState t))
             then _ else _).
  assert (H1 : exists a,
             effects t1 = a ++ effects t
             /\ forallb isFrameAnimEffect a = true /\ (length a <= 2)%nat).
  { subst t1.
    destruct (negb (AnimName_eqb desired (playerCurrentState t))).
    - apply playPlayerAction_effects.
    - exists []. repeat split; simpl; lia. }
  clearbody t1. destruct H1 as (a1 & E1 & F1 & L1).
  match goal with |- exists _, effects ?t2 = _ /\ _ =>
    assert (H2 : exists a,
               effects t2 = a ++ effects t1
               /\ forallb isFrameAnimEffect a = true /\ (length a <= 1)%nat)
  end.
  { destruct (AnimName_eqb desired move).
    - apply applyMoveAnimDirection_effects.
    - destruct (negb (Reqb (moveAnimDir t1) 1)).
      + apply applyMoveAnimDirection_effects.
      + exists []. repeat split; simpl; lia. }
  destruct H2 as (a2 & E2 & F2 & L2).
  exists (a2 ++ a1). rewrite E2, E1, app_assoc.
  split; [reflexivity|]. split.
  - rewrite forallb_app, F1, F2. reflexivity.
  - rewrite length_app. lia.
Qed.

Lemma updatePlayerAnimationState_effects cfg t dt t' :
  updatePlayerAnimationState cfg t dt = Some t' ->
  exists a,
    effects t' = a ++ effects t
    /\ forallb isFrameAnimEffect a = true
    /\ (length a <= 3)%nat
    /\ (playerMixer t = false -> a = []).
Proof.
  unfold updatePlayerAnimationState. intros H.
  assert (Hid : Some t = Some t' ->
                exists a,
                  effects t' = a ++ effects t
                  /\ forallb isFrameAnimEffect a = true
                  /\ (length a <= 3)%nat
                  /\ (playerMixer t = false -> a = [])).
  { intros E. injection E as <-. exists []. repeat split; simpl; lia. }
  destruct (Player t) as [p|]; [|exact (Hid H)].
  destruct (playerMixer t) eqn:Hm; cbn [negb] in H; [|exact (Hid H)].
  clear Hid.
  destruct (playerClimbing t || Rgtb (climbAnimGrace t) 0).
  - cbv zeta in H. injection H as <-.
    match goal with
    | |- context [if ?c then playPlayerAction cfg ?u climb false else _] =>
      assert (E1 : effects u = effects t) by (destruct t; reflexivity);
      destruct (playPlayerAction_effects cfg u climb) as (a & E & F & L);
      destruct c
    end.
    + exists a. rewrite E, E1.
      repeat split; try assumption; try lia; try discriminate.
    + exists []. rewrite E1.
      repeat split; simpl; try lia; try discriminate.
  - destruct (isGrounded cfg t) as [g|]; [|discriminate H].
    simpl in H. injection H as <-.
    destruct (selectAction_effects cfg (animGroundingGate cfg t g dt) p)
      as (a & E & F & L).
    exists a. rewrite E.
    replace (effects (animGroundingGate cfg t g dt)) with (effects t).
    + repeat split; try assumption; try discriminate.
    + rewrite animGroundingGate_shape. destruct g; destruct t; reflexivity.
Qed.

Lemma frame_effects cam h d yw pt ini dt ia at_ ca cs md ef p' cc e a m sp
    g o n c0 a0 eng s :
  let s3 :=
    log SyncVisuals
      (inputWrites p' cc e a m sp
         (set_climbAnimGrace a0
            (set_playerClimbing c0
               (withContacts g o n (stepSimulation eng dt s))))) in
  effects s3 = SyncVisuals :: StepSimulation dt :: effects s
  /\ playerMixer s3 = playerMixer s
  /\ effects (animWrites ia at_ ca cs md ef s3) = ef
  /\ effects
       (log Render
          (cameraWrites cam h d yw pt ini
             (mixerUpdate dt (animWrites ia at_ ca cs md ef s3))))
     = Render :: (if playerMixer s then [MixerUpdate dt] else []) ++ ef.
Proof.
  intros s3. subst s3.
  split; [destruct s; reflexivity|].
  split; [destruct s; reflexivity|].
  split; [destruct s; reflexivity|].
  unfold mixerUpdate.
  match goal with
  | |- context [if playerMixer ?t then _ else _] =>
    replace (playerMixer t) with (playerMixer s) by (destruct s; reflexivity)
  end.
  destruct (playerMixer s); destruct s; reflexivity.
Qed.

(** X23.  The calls of a frame.  A frame of a game in progress steps the
    physics once, first, syncs the meshes, makes at most three calls into
    the animation mixer (each one plays a clip, cross-fades to it or sets
    the direction of the move clip: none stops a clip), advances the mixer
    when there is one, and renders once, last.  Without a mixer it makes
    no animation call. *)
Theorem frame_call_order (cfg : Config) (eng : EngineStep) (s : State)
    (dt : R) :
  running s ->
  exists s' anim,
    stepCore cfg eng s dt = Some s'
    /\ effects s'
       = Render
         :: (if playerMixer s then [MixerUpdate dt] else [])
         ++ anim ++ SyncVisuals :: StepSimulation dt :: effects s
    /\ forallb isFrameAnimEffect anim = true
    /\ (length anim <= 3)%nat
    /\ (playerMixer s = false -> anim = []).
Proof.
  intros (Hw & Hr & Hp & Hc).
  destruct (physicsWorld s) as [w|] eqn:Ew; [|congruence].
  destruct (Player s) as [p|] eqn:Ep; [|congruence].
  destruct (camera s) as [c|] eqn:Ec; [|congruence].
  destruct (stepCoreCall_stages cfg eng s dt w p c Ew Hr Ep Ec)
    as (s2 & grounded & s4 & call & p' & cc & e & a & s3 & ia & at_
        & ca & cs & md & ef & s5 & cam & d & yw & pt0 & s' & Hs2 & _ & _
        & _ & Hs3 & _ & _ & _ & Hanim & Hs5 & _ & Hs' & Hrun).
  destruct (updatePlayerContacts_shape cfg (stepSimulation eng dt s))
    as (g & o & n & c0 & a0 & Hshape & _).
  rewrite afterContacts_unfold, Hshape in Hs2.
  destruct (frame_effects (Some cam)
              (y (origin (motionState p')) - GROUND_PLANE_Y cfg) d yw
              (clamp pt0
                 (minPitchAt cfg
                    (y (origin (motionState p')) - GROUND_PLANE_Y cfg))
                 (CAMERA_MAX_PITCH cfg))
              true dt ia at_ ca cs md ef p' cc e a (readMoveAxis s2)
              (keyDown s2 "Space") g o n c0 a0 eng s)
    as (E3 & M3 & E5 & E').
  rewrite <- Hs2, <- Hs3 in E3, M3, E5, E'.
  rewrite <- Hs5 in E5, E'. rewrite <- Hs' in E'.
  destruct (updatePlayerAnimationState_effects cfg _ dt s5 Hanim)
    as (anim & Ea & Fa & La & Ma).
  exists s', anim. split.
  { unfold stepCore. rewrite Hrun. reflexivity. }
  split.
  { rewrite E', <- E5, Ea, E3. reflexivity. }
  split; [exact Fa|]. split; [exact La|].
  intros Hm. apply Ma. rewrite M3. exact Hm.
Qed.

Lemma frame_call_order_witness :
  running airborne
  /\ exists s' anim,
       stepCore defaultConfig quietStep airborne (1 / 60) = Some s'
       /\ effects s'
          = Render
            :: (if playerMixer airborne then [MixerUpdate (1 / 60)] else [])
            ++ anim
            ++ SyncVisuals :: StepSimulation (1 / 60) :: effects airborne.
Proof.
  assert (H : running airborne).
  { unfold running. simpl. repeat split; discriminate. }
  split; [exact H|].
  destruct (frame_call_order defaultConfig quietStep airborne (1 / 60) H)
    as (s' & anim & Hs & He & _).
  exists s', anim. split; [exact Hs|exact He].
Defined.

(** ** Mouse look *)

Lemma onMouseMove_form cfg mx my s :
  pointerLocked s = true ->
  onMouseMove cfg mx my s
  = set_cameraPitch
      (clamp (cameraPitch s - my * MOUSE_PITCH_SENSITIVITY cfg)
         (getDynamicMinPitch cfg s) (CAMERA_MAX_PITCH cfg))
      (set_cameraYaw (cameraYaw s - mx * MOUSE_YAW_SENSITIVITY cfg) s).
Proof.
  intros H. unfold onMouseMove, getDynamicMinPitch. rewrite H.
  destruct s; reflexivity.
Qed.

(** X24.  Mouse look.  Without pointer lock a mouse move changes nothing.
    With it, the yaw goes down by the horizontal movement times
    [MOUSE_YAW_SENSITIVITY], without bound, so that the yaw after two
    moves is the yaw after one move by the sum; a move with no vertical
    part leaves a pitch that is within its bounds; the pointer stays
    locked; and a mouse move and a wheel event give the same state in
    either order. *)
Theorem mouse_look (cfg : Config) (s : State) (mx my mx' my' dy : R) :
  onMouseMove cfg mx my (onPointerLockChange false s)
  = onPointerLockChange false s
  /\ (pointerLocked s = true ->
      cameraYaw (onMouseMove cfg mx my s)
      = cameraYaw s - mx * MOUSE_YAW_SENSITIVITY cfg
      /\ cameraYaw (onMouseMove cfg mx' my' (onMouseMove cfg mx my s))
         = cameraYaw (onMouseMove cfg (mx + mx') my s)
      /\ pointerLocked (onMouseMove cfg mx my s) = true
      /\ cameraDistance (onMouseMove cfg mx my s) = cameraDistance s
      /\ (getDynamicMinPitch cfg s <= cameraPitch s <= CAMERA_MAX_PITCH cfg ->
          cameraPitch (onMouseMove cfg mx 0 s) = cameraPitch s))
  /\ onWheel cfg dy (onMouseMove cfg mx my s)
     = onMouseMove cfg mx my (onWheel cfg dy s).
Proof.
  split; [reflexivity|]. split.
  - intros Hl.
    assert (Hl' : pointerLocked (onMouseMove cfg mx my s) = true).
    { rewrite (onMouseMove_form cfg mx my s Hl).
      destruct s; exact Hl. }
    assert (Hy : forall a b,
               cameraYaw (onMouseMove cfg a b s)
               = cameraYaw s - a * MOUSE_YAW_SENSITIVITY cfg).
    { intros a b. rewrite (onMouseMove_form cfg a b s Hl).
      destruct s; reflexivity. }
    split; [apply Hy|]. split.
    { rewrite (onMouseMove_form cfg mx' my' _ Hl').
      transitivity (cameraYaw (onMouseMove cfg mx my s)
                    - mx' * MOUSE_YAW_SENSITIVITY cfg).
      - destruct (onMouseMove cfg mx my s); reflexivity.
      - rewrite !Hy. ring. }
    split; [exact Hl'|]. split.
    { rewrite (onMouseMove_form cfg mx my s Hl). destruct s; reflexivity. }
    intros Hin. rewrite (onMouseMove_form cfg mx 0 s Hl).
    transitivity (clamp (cameraPitch s - 0 * MOUSE_PITCH_SENSITIVITY cfg)
                    (getDynamicMinPitch cfg s) (CAMERA_MAX_PITCH cfg)).
    + destruct s; reflexivity.
    + replace (cameraPitch s - 0 * MOUSE_PITCH_SENSITIVITY cfg)
        with (cameraPitch s) by ring.
      apply clamp_id; lra.
  - unfold onWheel, onMouseMove, getDynamicMinPitch.
    replace (pointerLocked (set_cameraDistance
               (clamp (cameraDistance s + sign dy * 2.0)
                  (CAMERA_MIN_DISTANCE cfg) (CAMERA_MAX_DISTANCE cfg)) s))
      with (pointerLocked s) by (destruct s; reflexivity).
    destruct (pointerLocked s); destruct s; reflexivity.
Qed.

Lemma mouse_look_witness :
  pointerLocked (onPointerLockChange true airborne) = true
  /\ cameraYaw
       (onMouseMove defaultConfig 3 400 (onPointerLockChange true airborne))
     = cameraYaw (onPointerLockChange true airborne)
       - 3 * MOUSE_YAW_SENSITIVITY defaultConfig.
Proof.
  split; [reflexivity|].
  exact (proj1 (proj1 (proj2
           (mouse_look defaultConfig (onPointerLockChange true airborne)
              3 400 0 0 0)) eq_refl)).
Defined.

(** ** Forward from rest, frame by frame *)










